(** * Atl03Reader: the per-beam ATL03 subsetting pipeline

    A shallow embedding of [plugins/icesat2/plugin/Atl03Reader.cpp] and the
    properties its specification states about it.

    Conventions.
    - C++ integers ([int], [int32_t], [long], [int8_t], [uint8_t]) are [Z];
      the narrowing casts the source writes are written out ([to_uint8]).
    - C++ [double] is the kernel's binary64 [float]; a C++ [float] read from an
      array is promoted to [double] by every expression below, which is exact.
    - An [H5Array<T>] after its join is the [list] of its elements.  Its
      [operator[]] does no bounds check, so a read outside the array is
      undefined behaviour: reads return [option] and the embedding stops with
      [Fault] there.
    - A [throw RunTimeException(...)] is the outcome [Throw]. *)

From Stdlib Require Import ZArith List Bool Lia Floats.
From Stdlib Require String Ascii.
Import ListNotations.

Set Default Proof Using "Type".

Local Open Scope Z_scope.

(* ================================================================== *)
(** * Outcomes: normal return, C++ exception, undefined behaviour      *)
(* ================================================================== *)

Inductive event_level_t := DEBUG | INFO | WARNING | ERROR | CRITICAL.

Inductive rte_code_t :=
| RTE_ERROR
| RTE_TIMEOUT
| RTE_RESOURCE_DOES_NOT_EXIST
| RTE_EMPTY_SUBSET.

(** The format string of the exception together with its numeric argument. *)
Inductive rte_text_t :=
| empty_spatial_region
| invalid_yapc_version (v : Z)
| invalid_atl03_signal_confidence (v : Z)
| invalid_atl03_photon_quality (v : Z)
| invalid_atl08_classification (v : Z)
| unable_to_parse_rgt (s : String.string)
| unable_to_parse_cycle (s : String.string)
| unable_to_parse_region (s : String.string).

Record RunTimeException := mkRTE {
  rte_level : event_level_t;
  rte_code : rte_code_t;
  rte_what : rte_text_t
}.

Inductive outcome (A : Type) : Type :=
| Ok (a : A)
| Throw (e : RunTimeException)
| Fault.

Arguments Ok {A} a.
Arguments Throw {A} e.
Arguments Fault {A}.

Definition bind {A B} (m : outcome A) (k : A -> outcome B) : outcome B :=
  match m with
  | Ok a => k a
  | Throw e => Throw e
  | Fault => Fault
  end.

(** An array read: [Fault] when the index is outside the array. *)
Definition rd {A} (o : option A) : outcome A :=
  match o with
  | Some a => Ok a
  | None => Fault
  end.

Declare Scope outcome_scope.
Delimit Scope outcome_scope with outcome.
Notation "x <- m ;; k" := (bind m (fun x => k))
  (at level 61, m at next level, right associativity) : outcome_scope.
Notation "' p <- m ;; k" := (bind m (fun x => match x with p => k end))
  (at level 61, p pattern, m at next level, right associativity) : outcome_scope.
Local Open Scope outcome_scope.

(** Control of one pass through a loop body. *)
Inductive loop_ctl (S : Type) : Type :=
| Continue (s : S)
| Break (s : S).

Arguments Continue {S} s.
Arguments Break {S} s.

(* ================================================================== *)
(** * H5Array                                                          *)
(* ================================================================== *)

Module H5Array.

Definition size {A} (a : list A) : Z := Z.of_nat (length a).

(** [a[i]] *)
Definition get {A} (a : list A) (i : Z) : option A :=
  if i <? 0 then None else nth_error a (Z.to_nat i).

(** [a.trim(offset)]: the array then starts at element [offset]. *)
Definition trim {A} (offset : Z) (a : list A) : list A :=
  skipn (Z.to_nat offset) a.

(** A read of [num] rows from [first]; [num <= 0] stands for all rows. *)
Definition rows {A} (a : list A) (first num : Z) : list A :=
  firstn (Z.to_nat num) (skipn (Z.to_nat first) a).

End H5Array.

(** An [H5DArray], the array of an ancillary field.  The class is declared
    in H5DArray.h, outside the sources at hand: an array is taken as what the
    reader asks of it, [elementSize()], [elementType()] and, for each
    [index], the bytes that [serialize(buffer, index, 1)] writes at [buffer],
    of which the call returns the number.  A call that reads outside the
    array has no defined result. *)
Module H5DArray.

Record t := {
  elementSize : Z;
  elementType : Z;
  serialize : Z -> outcome (list Z)
}.

End H5DArray.

(** An [H5DArrayDictionary], [Dictionary<H5DArray*>] of Dictionary.h, outside
    the sources at hand: a dictionary is taken as what its [operator[]]
    gives for a field name. *)
Definition H5DArrayDictionary : Type := String.string -> outcome H5DArray.t.

(** [a[i] = v] on an array of possibly uninitialised cells. *)
Fixpoint array_set {A} (a : list A) (n : nat) (v : A) : list A :=
  match a, n with
  | [], _ => []
  | _ :: t, O => v :: t
  | h :: t, S m => h :: array_set t m v
  end.

Definition sum_counts (l : list Z) : Z := fold_right Z.add 0 l.

(** The elements [first .. first+num-1] of an array. *)
Definition slice {A} (a : list A) (first num : Z) : list A :=
  firstn (Z.to_nat num) (skipn (Z.to_nat first) a).

(** C++ conversions between the integer and floating types. *)
Definition to_uint8 (z : Z) : Z := z mod 256.

Definition to_int8 (z : Z) : Z := (z + 128) mod 256 - 128.

Definition to_int32 (z : Z) : Z := (z + 2147483648) mod 4294967296 - 2147483648.

(** [(double)z] for an [int32_t] or [int] value [z]. *)
Definition Z2double (z : Z) : float :=
  if z <? 0 then PrimFloat.opp (PrimFloat.of_uint63 (Uint63.of_Z (- z)))
  else PrimFloat.of_uint63 (Uint63.of_Z z).

(** [(int)f]: truncation toward zero ([None] for NaN and the infinities,
    where the C++ conversion is undefined). *)
Definition double2Z (f : float) : option Z :=
  match Prim2SF f with
  | S754_zero _ => Some 0
  | S754_finite s m e =>
      let mag := if (0 <=? e) then Z.pos m * 2 ^ e else Z.pos m / 2 ^ (- e) in
      Some (if s then - mag else mag)
  | _ => None
  end.

(** [x >= y], [x > y] on doubles. *)
Definition fgeb (x y : float) : bool := PrimFloat.leb y x.

Definition fgtb (x y : float) : bool := PrimFloat.ltb y x.

(** The C++ conversion of a [double] to an integer type of range
    [lo .. hi]: the value is truncated, and the conversion is undefined when
    the truncated value is outside the range. *)
Definition double2int (lo hi : Z) (f : float) : outcome Z :=
  match double2Z f with
  | Some z => if (lo <=? z) && (z <=? hi) then Ok z else Fault
  | None => Fault
  end.

Definition INT_MIN : Z := -2147483648.

Definition INT_MAX : Z := 2147483647.

Definition UINT_MAX : Z := 4294967295.

Definition DBL_MAX : float := 0x1.fffffffffffffp1023%float.

(** [(float)f]: a [double] rounded to binary32. *)
Definition double2float (f : float) : float :=
  match Prim2SF f with
  | S754_finite s m e => SF2Prim (binary_round 24 128 s m e)
  | _ => f
  end.

(** [a - b] on two [float] values, computed in binary32. *)
Definition float_sub (a b : float) : float :=
  SF2Prim (SFsub 24 128 (Prim2SF a) (Prim2SF b)).

(** [MAX(a, b)] and [MIN(a, b)], the comparison macros. *)
Definition MAX_double (a b : float) : float := if fgtb a b then a else b.

Definition MIN_int (a b : Z) : Z := if a <? b then a else b.

(* ================================================================== *)
(** * Parameters of a request (Icesat2Parms)                           *)
(* ================================================================== *)

Record yapc_t := {
  yapc_score : Z;          (* uint8_t score *)
  yapc_version : Z;
  yapc_knn : Z;
  yapc_min_knn : Z;
  yapc_win_h : float;
  yapc_win_x : float
}.

Record phoreal_t := {
  use_abs_h : bool;
  above_classifier : bool
}.

(** The fields of [Icesat2Parms] the reader consults.  The spatial filters are
    objects of the geometry library: [raster] is the raster's [includes(lon,
    lat)] when a raster is given, and [inpoly] stands for
    [MathLib::inpoly(projected_poly, points_in_poly, MathLib::coord2point({lon,
    lat}, projection))].  The three acceptance tables are indexed as the source
    indexes them.  A list of ancillary fields is the list of the names
    [field] of its entries, [None] for a NULL pointer. *)
Record Icesat2Parms := {
  raster : option (float -> float -> bool);
  points_in_poly : Z;
  inpoly : float -> float -> bool;
  stage_atl08 : bool;
  stage_yapc : bool;
  stage_phoreal : bool;
  yapc : yapc_t;
  phoreal : phoreal_t;
  atl03_cnf : Z -> bool;
  quality_ph : Z -> bool;
  atl08_class : Z -> bool;
  extent_length : float;
  extent_step : float;
  dist_in_seg : bool;
  minimum_photon_count : Z;
  along_track_spread : float;
  pass_invalid : bool;
  atl03_geo_fields : option (list String.string);
  atl03_ph_fields : option (list String.string);
  atl08_fields : option (list String.string)
}.

(** The beam a worker thread handles. *)
Record info_t := {
  track : Z;
  pair : Z
}.

(* ================================================================== *)
(** * StringLib                                                        *)
(* ================================================================== *)

(** A [const char*] is the [string] of its characters; the terminating NUL
    is not part of it. *)
Module StringLib.

Definition NUL : Ascii.ascii := Ascii.zero.

(** Modelled from the spec: [StringLib::size] is defined in StringLib.cpp,
    which is not part of the sources at hand; the spec calls its result the
    length of the resource string.  The characters are counted up to the
    first NUL. *)
Fixpoint size (str : String.string) : Z :=
  match str with
  | String.EmptyString => 0
  | String.String c rest => if Ascii.eqb c NUL then 0 else 1 + size rest
  end.

Definition is_digit (c : Ascii.ascii) : bool :=
  (48 <=? Z.of_nat (Ascii.nat_of_ascii c)) && (Z.of_nat (Ascii.nat_of_ascii c) <=? 57).

Fixpoint all_digits (str : String.string) : bool :=
  match str with
  | String.EmptyString => true
  | String.String c rest => is_digit c && all_digits rest
  end.

(** A numeric string: one decimal digit or more, and nothing else. *)
Definition numeric (str : String.string) : bool :=
  match str with
  | String.EmptyString => false
  | _ => all_digits str
  end.

Fixpoint decimal_from (acc : Z) (str : String.string) : Z :=
  match str with
  | String.EmptyString => acc
  | String.String c rest =>
      decimal_from (10 * acc + (Z.of_nat (Ascii.nat_of_ascii c) - 48)) rest
  end.

(** The number a string of decimal digits writes in base 10. *)
Definition decimal (str : String.string) : Z := decimal_from 0 str.

(** Modelled from the spec: [StringLib::str2long(str, &val, 10)] is defined
    in StringLib.cpp, which is not part of the sources at hand.  The spec has
    the substrings parsed "as base-10 integers", the parse failing "only if a
    substring is non-numeric": [Some val] is the source's [true] with [*val]
    set, [None] its [false]. *)
Definition str2long (str : String.string) : option Z :=
  if numeric str then Some (decimal str) else None.

End StringLib.

(* ================================================================== *)
(** * parseResource                                                    *)
(* ================================================================== *)

(** [char str[n+1]] filled from the characters [cs] and a NUL. *)
Definition chars (cs : list Ascii.ascii) : String.string :=
  fold_right String.String String.EmptyString cs.

(** [Atl03Reader::parseResource]: the three reference parameters are the
    result. *)
Definition parseResource (_resource : String.string) : outcome (Z * Z * Z) :=
  if StringLib.size _resource <? 29 then
    Ok (0, 0, 0)
  else
    c21 <- rd (String.get 21 _resource) ;;
    c22 <- rd (String.get 22 _resource) ;;
    c23 <- rd (String.get 23 _resource) ;;
    c24 <- rd (String.get 24 _resource) ;;
    let rgt_str := chars [c21; c22; c23; c24] in
    match StringLib.str2long rgt_str with
    | None => Throw (mkRTE CRITICAL RTE_ERROR (unable_to_parse_rgt rgt_str))
    | Some val =>
        let rgt := to_int32 val in
        c25 <- rd (String.get 25 _resource) ;;
        c26 <- rd (String.get 26 _resource) ;;
        let cycle_str := chars [c25; c26] in
        match StringLib.str2long cycle_str with
        | None => Throw (mkRTE CRITICAL RTE_ERROR (unable_to_parse_cycle cycle_str))
        | Some val =>
            let cycle := to_int32 val in
            c27 <- rd (String.get 27 _resource) ;;
            c28 <- rd (String.get 28 _resource) ;;
            let region_str := chars [c27; c28] in
            match StringLib.str2long region_str with
            | None => Throw (mkRTE CRITICAL RTE_ERROR (unable_to_parse_region region_str))
            | Some val =>
                let region := to_int32 val in
                Ok (rgt, cycle, region)
            end
        end
    end.

(* ================================================================== *)
(** * Datasets of a beam                                               *)
(* ================================================================== *)

(** [Atl03Data] after its joins.  The per-segment datasets hold the
    segments of the crop, the per-photon datasets its photons, and the
    background and orientation datasets are read whole.  The dictionaries of
    the ancillary fields are [None] for a NULL pointer. *)
Module Atl03Data.

Record t := {
  sc_orient : list Z;
  velocity_sc : list float;
  segment_delta_time : list float;
  segment_id : list Z;
  segment_dist_x : list float;
  solar_elevation : list float;
  dist_ph_along : list float;
  dist_ph_across : list float;
  h_ph : list float;
  signal_conf_ph : list Z;
  quality_ph : list Z;
  lat_ph : list float;
  lon_ph : list float;
  delta_time : list float;
  bckgrd_delta_time : list float;
  bckgrd_rate : list float;
  anc_geo_data : option H5DArrayDictionary;
  anc_ph_data : option H5DArrayDictionary
}.

End Atl03Data.

(** An array allocated with [new T[n]]: a cell is [None] until it is
    written. *)
Definition cells (A : Type) : Type := list (option A).

Definition new_cells {A} (n : Z) : cells A := repeat None (Z.to_nat n).

(** [a[i] = v]; a write outside the array is undefined behaviour. *)
Definition store {A} (a : cells A) (i : Z) (v : A) : outcome (cells A) :=
  if (0 <=? i) && (i <? H5Array.size a)
  then Ok (array_set a (Z.to_nat i) (Some v))
  else Fault.

(** [a[i]] as an rvalue; outside the array, or on a cell never written,
    the value is not determined by the program. *)
Definition load {A} (a : cells A) (i : Z) : outcome A :=
  match H5Array.get a i with
  | Some (Some v) => Ok v
  | _ => Fault
  end.

(** [Atl08Class]: the datasets of the ATL08 granule after their joins and the
    arrays [classify] allocates ([None] for a NULL pointer). *)
Module Atl08Class.

Record t := {
  enabled : bool;
  phoreal : bool;
  ancillary : bool;
  classification : option (cells Z);
  relief : option (cells float);
  landcover : option (cells Z);
  snowcover : option (cells Z);
  atl08_segment_id : list Z;
  atl08_pc_indx : list Z;
  atl08_pc_flag : list Z;
  atl08_ph_h : list float;
  segment_id_beg : list Z;
  segment_landcover : list Z;
  segment_snowcover : list Z;
  anc_seg_data : option H5DArrayDictionary;
  anc_seg_indices : option (cells Z)
}.

End Atl08Class.

(** [YapcScore]: [score] is [None] for a NULL pointer. *)
Module YapcScore.

Record t := {
  score : option (cells Z)
}.

End YapcScore.

(** [photon_t], an element of ["atl03rec.photons"].  The last two fields
    are not part of the C++ struct: they record the values of
    [current_photon] and [current_segment] at which the photon was added. *)
Module photon_t.

Record t := {
  time_ns : Z;
  latitude : float;
  longitude : float;
  x_atc : float;
  y_atc : float;
  height : float;
  relief : float;
  landcover : Z;
  snowcover : Z;
  atl08_class : Z;
  atl03_cnf : Z;
  quality_ph : Z;
  yapc_score : Z;
  ghost_photon : Z;
  ghost_segment : Z
}.

End photon_t.

(** [extent_t], the record ["atl03rec"].  The last field is not part of the
    C++ struct: it records the value of [state.extent_segment] at which the
    record was made. *)
Module extent_t.

Record t := {
  valid : bool;
  extent_id : Z;
  track : Z;
  pair : Z;
  spacecraft_orientation : Z;
  reference_ground_track : Z;
  cycle : Z;
  segment_id : Z;
  segment_distance : float;
  extent_length : float;
  background_rate : float;
  solar_elevation : float;
  photon_count : Z;
  spacecraft_velocity : float;
  photons : list photon_t.t;
  ghost_extent_segment : Z
}.

End extent_t.

Module TrackState.

Record t := {
  ph_in : Z;
  seg_in : Z;
  seg_ph : Z;
  start_segment : Z;
  start_distance : float;
  seg_distance : float;
  start_seg_portion : float;
  track_complete : bool;
  bckgrd_in : Z;
  extent_segment : Z;
  extent_valid : bool;
  extent_length : float;
  extent_photons : list photon_t.t
}.

Definition with_bckgrd_in (state : t) (n : Z) : t :=
  {| ph_in := ph_in state;
     seg_in := seg_in state;
     seg_ph := seg_ph state;
     start_segment := start_segment state;
     start_distance := start_distance state;
     seg_distance := seg_distance state;
     start_seg_portion := start_seg_portion state;
     track_complete := track_complete state;
     bckgrd_in := n;
     extent_segment := extent_segment state;
     extent_valid := extent_valid state;
     extent_length := extent_length state;
     extent_photons := extent_photons state |}.

End TrackState.

(** The fields of the reader a worker consults: the result of
    [parseResource]. *)
Record reader_t := {
  start_rgt : Z;
  start_cycle : Z;
  start_region : Z
}.

Definition ATL03_SEGMENT_LENGTH : float := 20.

(* ================================================================== *)
(** * Sample constants                                                 *)
(* ================================================================== *)

(** Values for the constants and collaborators that the headers outside this
    file declare.  The reader below takes them as variables and its
    properties hold for every choice; the concrete runs need one. *)
Module Sample.

Definition ALL_ROWS : Z := -1.

Definition ATL08_TOP_OF_CANOPY : Z := 3.

(** Scenario 3 of the specification takes [ATL08_UNCLASSIFIED = 0]. *)
Definition ATL08_UNCLASSIFIED : Z := 0.

Definition CNF_POSSIBLE_TEP : Z := -2.

Definition CNF_SURFACE_HIGH : Z := 4.

Definition SIGNAL_CONF_OFFSET : Z := 2.

Definition QUALITY_NOMINAL : Z := 0.

Definition QUALITY_POSSIBLE_TEP : Z := 3.

Definition NUM_ATL08_CLASSES : Z := 5.

(** The specification has one ATL08 land segment cover 5 ATL03 segments. *)
Definition NUM_ATL03_SEGS_IN_ATL08_SEG : Z := 5.

Definition INVALID_FLAG : Z := 255.

Definition INVALID_INDICE : Z := -1.

(** A strong beam, spot 1, whatever the orientation. *)
Definition getSpotNumber (sc_orient track pair : Z) : Z := 1.

Definition deltatime2timestamp (delta_time : float) : Z := 0.

Definition generateExtentId (rgt cycle region track pair counter : Z) : Z := counter.


End Sample.

Section Atl03Reader.

(** ** Constants declared in headers outside this file *)

(** [H5Coro::ALL_ROWS], the row count that asks for a whole dataset. *)
Variable ALL_ROWS : Z.

(* ================================================================== *)
(** * Region                                                           *)
(* ================================================================== *)

Record Region := {
  segment_lat : list float;
  segment_lon : list float;
  segment_ph_cnt : list Z;
  first_segment : Z;
  num_segments : Z;
  first_photon : Z;
  num_photons : Z;
  (* [inclusion_mask]: one cell per segment, [None] where never written *)
  inclusion_mask : option (list (option bool));
  (* [inclusion_ptr]: the mask from [first_segment] on *)
  inclusion_ptr : option (list (option bool))
}.

(** Local variables and the region fields the polygon scan updates. *)
Record polyregion_vars := {
  pv_first_segment_found : bool;
  pv_segment : Z;
  pv_first_segment : Z;
  pv_first_photon : Z;
  pv_num_photons : Z
}.

(** One pass through the body of the [while] of [Region::polyregion]. *)
Definition polyregion_body (parms : Icesat2Parms) (lat lon : list float)
  (cnt : list Z) (v : polyregion_vars) : outcome (loop_ctl polyregion_vars) :=
  let segment := pv_segment v in
  lon_s <- rd (H5Array.get lon segment) ;;
  lat_s <- rd (H5Array.get lat segment) ;;
  let inclusion := inpoly parms lon_s lat_s in
  c <- rd (H5Array.get cnt segment) ;;
  if negb (pv_first_segment_found v) then
    if inclusion && negb (c =? 0) then
      Ok (Continue {| pv_first_segment_found := true;
                      pv_segment := segment + 1;
                      pv_first_segment := segment;
                      pv_first_photon := pv_first_photon v;
                      pv_num_photons := c |})
    else
      Ok (Continue {| pv_first_segment_found := false;
                      pv_segment := segment + 1;
                      pv_first_segment := pv_first_segment v;
                      pv_first_photon := pv_first_photon v + c;
                      pv_num_photons := pv_num_photons v |})
  else
    if negb inclusion && negb (c =? 0) then
      Ok (Break v)
    else
      Ok (Continue {| pv_first_segment_found := true;
                      pv_segment := segment + 1;
                      pv_first_segment := pv_first_segment v;
                      pv_first_photon := pv_first_photon v;
                      pv_num_photons := pv_num_photons v + c |}).

(** [while(segment < segment_ph_cnt.size)]: [rest] counts the segments from
    [segment] to the end of the array, so the loop test is [rest <> 0]. *)
Fixpoint polyregion_loop (parms : Icesat2Parms) (lat lon : list float)
  (cnt : list Z) (rest : nat) (v : polyregion_vars) : outcome polyregion_vars :=
  match rest with
  | O => Ok v
  | S rest' =>
      r <- polyregion_body parms lat lon cnt v ;;
      match r with
      | Continue v' => polyregion_loop parms lat lon cnt rest' v'
      | Break v' => Ok v'
      end
  end.

Definition polyregion (parms : Icesat2Parms) (r : Region) : outcome Region :=
  v <- polyregion_loop parms (segment_lat r) (segment_lon r) (segment_ph_cnt r)
         (length (segment_ph_cnt r))
         {| pv_first_segment_found := false;
            pv_segment := 0;
            pv_first_segment := first_segment r;
            pv_first_photon := first_photon r;
            pv_num_photons := num_photons r |} ;;
  Ok {| segment_lat := segment_lat r;
        segment_lon := segment_lon r;
        segment_ph_cnt := segment_ph_cnt r;
        first_segment := pv_first_segment v;
        num_segments := if pv_first_segment_found v
                        then pv_segment v - pv_first_segment v
                        else num_segments r;
        first_photon := pv_first_photon v;
        num_photons := pv_num_photons v;
        inclusion_mask := inclusion_mask r;
        inclusion_ptr := inclusion_ptr r |}.

(** Local variables and the region fields the raster scan updates. *)
Record rasterregion_vars := {
  rv_first_segment_found : bool;
  rv_segment : Z;
  rv_curr_num_photons : Z;
  rv_last_segment : Z;
  rv_first_segment : Z;
  rv_first_photon : Z;
  rv_num_photons : Z;
  rv_inclusion_mask : list (option bool)
}.

(** One pass through the body of the [while] of [Region::rasterregion]. *)
Definition rasterregion_body (includes : float -> float -> bool)
  (lat lon : list float) (cnt : list Z) (v : rasterregion_vars)
  : outcome rasterregion_vars :=
  let segment := rv_segment v in
  c <- rd (H5Array.get cnt segment) ;;
  if negb (c =? 0) then
    lon_s <- rd (H5Array.get lon segment) ;;
    lat_s <- rd (H5Array.get lat segment) ;;
    let inclusion := includes lon_s lat_s in
    let mask := array_set (rv_inclusion_mask v) (Z.to_nat segment) (Some inclusion) in
    if negb (rv_first_segment_found v) then
      if inclusion then
        Ok {| rv_first_segment_found := true;
              rv_segment := segment + 1;
              rv_curr_num_photons := c;
              rv_last_segment := segment;
              rv_first_segment := segment;
              rv_first_photon := rv_first_photon v;
              rv_num_photons := c;
              rv_inclusion_mask := mask |}
      else
        Ok {| rv_first_segment_found := false;
              rv_segment := segment + 1;
              rv_curr_num_photons := rv_curr_num_photons v;
              rv_last_segment := rv_last_segment v;
              rv_first_segment := rv_first_segment v;
              rv_first_photon := rv_first_photon v + c;
              rv_num_photons := rv_num_photons v;
              rv_inclusion_mask := mask |}
    else
      let curr := rv_curr_num_photons v + c in
      if inclusion then
        Ok {| rv_first_segment_found := true;
              rv_segment := segment + 1;
              rv_curr_num_photons := curr;
              rv_last_segment := segment;
              rv_first_segment := rv_first_segment v;
              rv_first_photon := rv_first_photon v;
              rv_num_photons := curr;
              rv_inclusion_mask := mask |}
      else
        Ok {| rv_first_segment_found := true;
              rv_segment := segment + 1;
              rv_curr_num_photons := curr;
              rv_last_segment := rv_last_segment v;
              rv_first_segment := rv_first_segment v;
              rv_first_photon := rv_first_photon v;
              rv_num_photons := rv_num_photons v;
              rv_inclusion_mask := mask |}
  else
    Ok {| rv_first_segment_found := rv_first_segment_found v;
          rv_segment := segment + 1;
          rv_curr_num_photons := rv_curr_num_photons v;
          rv_last_segment := rv_last_segment v;
          rv_first_segment := rv_first_segment v;
          rv_first_photon := rv_first_photon v;
          rv_num_photons := rv_num_photons v;
          rv_inclusion_mask := rv_inclusion_mask v |}.

(** [while(segment < segment_ph_cnt.size)], with [rest] as in
    [polyregion_loop]. *)
Fixpoint rasterregion_loop (includes : float -> float -> bool)
  (lat lon : list float) (cnt : list Z) (rest : nat) (v : rasterregion_vars)
  : outcome rasterregion_vars :=
  match rest with
  | O => Ok v
  | S rest' =>
      v' <- rasterregion_body includes lat lon cnt v ;;
      rasterregion_loop includes lat lon cnt rest' v'
  end.

Definition rasterregion (includes : float -> float -> bool) (r : Region)
  : outcome Region :=
  if H5Array.size (segment_ph_cnt r) <=? 0 then Ok r
  else
    v <- rasterregion_loop includes (segment_lat r) (segment_lon r)
           (segment_ph_cnt r) (length (segment_ph_cnt r))
           {| rv_first_segment_found := false;
              rv_segment := 0;
              rv_curr_num_photons := 0;
              rv_last_segment := 0;
              rv_first_segment := first_segment r;
              rv_first_photon := first_photon r;
              rv_num_photons := num_photons r;
              rv_inclusion_mask := repeat None (length (segment_ph_cnt r)) |} ;;
    Ok {| segment_lat := segment_lat r;
          segment_lon := segment_lon r;
          segment_ph_cnt := segment_ph_cnt r;
          first_segment := rv_first_segment v;
          num_segments := if rv_first_segment_found v
                          then rv_last_segment v - rv_first_segment v + 1
                          else num_segments r;
          first_photon := rv_first_photon v;
          num_photons := rv_num_photons v;
          inclusion_mask := Some (rv_inclusion_mask v);
          inclusion_ptr := if rv_first_segment_found v
                           then Some (skipn (Z.to_nat (rv_first_segment v))
                                        (rv_inclusion_mask v))
                           else Some (rv_inclusion_mask v) |}.

(** How [Region::Region] left: by its early [return] when no spatial filter
    is set, or through the end of its body. *)
Inductive region_exit := NoSubsetting | Cropped.

(** [Region::Region], after the three joins: [lat], [lon] and [cnt] are the
    whole datasets [reference_photon_lat], [reference_photon_lon] and
    [segment_ph_cnt] of the beam. *)
Definition Region_new (parms : Icesat2Parms) (lat lon : list float)
  (cnt : list Z) : outcome (region_exit * Region) :=
  let r0 := {| segment_lat := lat;
               segment_lon := lon;
               segment_ph_cnt := cnt;
               first_segment := 0;
               num_segments := ALL_ROWS;
               first_photon := 0;
               num_photons := ALL_ROWS;
               inclusion_mask := None;
               inclusion_ptr := None |} in
  match raster parms with
  | Some includes =>
      r <- rasterregion includes r0 ;;
      if num_photons r <=? 0
      then Throw (mkRTE DEBUG RTE_EMPTY_SUBSET empty_spatial_region)
      else Ok (Cropped,
               {| segment_lat := H5Array.trim (first_segment r) (segment_lat r);
                  segment_lon := H5Array.trim (first_segment r) (segment_lon r);
                  segment_ph_cnt := H5Array.trim (first_segment r) (segment_ph_cnt r);
                  first_segment := first_segment r;
                  num_segments := num_segments r;
                  first_photon := first_photon r;
                  num_photons := num_photons r;
                  inclusion_mask := inclusion_mask r;
                  inclusion_ptr := inclusion_ptr r |})
  | None =>
      if 0 <? points_in_poly parms then
        r <- polyregion parms r0 ;;
        if num_photons r <=? 0
        then Throw (mkRTE DEBUG RTE_EMPTY_SUBSET empty_spatial_region)
        else Ok (Cropped,
                 {| segment_lat := H5Array.trim (first_segment r) (segment_lat r);
                    segment_lon := H5Array.trim (first_segment r) (segment_lon r);
                    segment_ph_cnt := H5Array.trim (first_segment r) (segment_ph_cnt r);
                    first_segment := first_segment r;
                    num_segments := num_segments r;
                    first_photon := first_photon r;
                    num_photons := num_photons r;
                    inclusion_mask := inclusion_mask r;
                    inclusion_ptr := inclusion_ptr r |})
      else Ok (NoSubsetting, r0)
  end.

(* ================================================================== *)
(** * Atl08Class::classify                                             *)
(* ================================================================== *)

(** [Icesat2Parms::ATL08_TOP_OF_CANOPY], [ATL08_UNCLASSIFIED] and
    [CNF_SURFACE_HIGH]; [Atl08Class::NUM_ATL03_SEGS_IN_ATL08_SEG] and
    [INVALID_FLAG]; [Atl03Reader::INVALID_INDICE]. *)
Variable ATL08_TOP_OF_CANOPY : Z.
Variable ATL08_UNCLASSIFIED : Z.
Variable CNF_SURFACE_HIGH : Z.
Variable NUM_ATL03_SEGS_IN_ATL08_SEG : Z.
Variable INVALID_FLAG : Z.
Variable INVALID_INDICE : Z.

(** [Icesat2Parms::getSpotNumber(sc_orient, track, pair)]. *)
Variable getSpotNumber : Z -> Z -> Z -> Z.

(** The cursors of [classify] and the arrays it fills. *)
Record classify_vars := {
  atl03_photon : Z;
  atl08_photon : Z;
  atl08_segment_index : Z;
  cv_classification : cells Z;
  cv_relief : cells float;
  cv_landcover : cells Z;
  cv_snowcover : cells Z;
  cv_anc_seg_indices : cells Z
}.

(** [while((atl08_segment_index < segment_id_beg.size) &&
           ((segment_id_beg[atl08_segment_index] + NUM_ATL03_SEGS_IN_ATL08_SEG)
              <= atl03_segment)) atl08_segment_index++;]
    [rest] counts the land segments from the cursor to the end. *)
Fixpoint goto_land_segment (segment_id_beg : list Z) (atl03_segment : Z)
  (rest : nat) (index : Z) : outcome Z :=
  match rest with
  | O => Ok index
  | S rest' =>
      beg <- rd (H5Array.get segment_id_beg index) ;;
      if beg + NUM_ATL03_SEGS_IN_ATL08_SEG <=? atl03_segment
      then goto_land_segment segment_id_beg atl03_segment rest' (index + 1)
      else Ok index
  end.

(** [while((atl08_photon < atl08_segment_id.size) &&
           (atl08_segment_id[atl08_photon] < atl03_segment)) atl08_photon++;] *)
Fixpoint goto_segment (atl08_segment_id : list Z) (atl03_segment : Z)
  (rest : nat) (photon : Z) : outcome Z :=
  match rest with
  | O => Ok photon
  | S rest' =>
      id <- rd (H5Array.get atl08_segment_id photon) ;;
      if id <? atl03_segment
      then goto_segment atl08_segment_id atl03_segment rest' (photon + 1)
      else Ok photon
  end.

(** [while((atl08_photon < atl08_segment_id.size) &&
           (atl08_segment_id[atl08_photon] == atl03_segment) &&
           (atl08_pc_indx[atl08_photon] < atl03_count)) atl08_photon++;] *)
Fixpoint goto_index (atl08_segment_id atl08_pc_indx : list Z)
  (atl03_segment atl03_count : Z) (rest : nat) (photon : Z) : outcome Z :=
  match rest with
  | O => Ok photon
  | S rest' =>
      id <- rd (H5Array.get atl08_segment_id photon) ;;
      if id =? atl03_segment then
        indx <- rd (H5Array.get atl08_pc_indx photon) ;;
        if indx <? atl03_count
        then goto_index atl08_segment_id atl08_pc_indx atl03_segment atl03_count
               rest' (photon + 1)
        else Ok photon
      else Ok photon
  end.

(** [(atl08_photon < atl08_segment_id.size) &&
     (atl08_segment_id[atl08_photon] == atl03_segment) &&
     (atl08_pc_indx[atl08_photon] == atl03_count)] *)
Definition check_match (atl08_segment_id atl08_pc_indx : list Z)
  (atl03_segment atl03_count photon : Z) : outcome bool :=
  if photon <? H5Array.size atl08_segment_id then
    id <- rd (H5Array.get atl08_segment_id photon) ;;
    if id =? atl03_segment then
      indx <- rd (H5Array.get atl08_pc_indx photon) ;;
      Ok (indx =? atl03_count)
    else Ok false
  else Ok false.

(** The block "Run ABoVE Classifier (if specified)" for ATL03 photon
    [photon] of the segment whose id is [atl03_segment]. *)
Definition above_classify (info : info_t) (parms : Icesat2Parms)
  (atl03 : Atl03Data.t) (atl03_segment photon : Z) (relief : cells float)
  (classification : cells Z) : outcome (cells Z) :=
  if above_classifier (phoreal parms) then
    class <- load classification photon ;;
    if negb (class =? ATL08_TOP_OF_CANOPY) then
      orient <- rd (H5Array.get (Atl03Data.sc_orient atl03) 0) ;;
      let spot := to_uint8 (getSpotNumber orient (track info) (pair info)) in
      elev <- rd (H5Array.get (Atl03Data.solar_elevation atl03) atl03_segment) ;;
      if PrimFloat.leb elev 5 then
        if (spot =? 1) || (spot =? 3) || (spot =? 5) then
          cnf <- rd (H5Array.get (Atl03Data.signal_conf_ph atl03) photon) ;;
          if cnf =? CNF_SURFACE_HIGH then
            rel <- load relief photon ;;
            if fgeb rel 0 && PrimFloat.ltb rel 35
            then store classification photon ATL08_TOP_OF_CANOPY
            else Ok classification
          else Ok classification
        else Ok classification
      else Ok classification
    else Ok classification
  else Ok classification.

(** The body of [for(atl03_count = 1; atl03_count <= atl03_segment_count;
    atl03_count++)]. *)
Definition classify_photon (info : info_t) (parms : Icesat2Parms)
  (atl03 : Atl03Data.t) (atl08 : Atl08Class.t)
  (atl03_segment atl03_count : Z) (v : classify_vars) : outcome classify_vars :=
  let ids := Atl08Class.atl08_segment_id atl08 in
  let indxs := Atl08Class.atl08_pc_indx atl08 in
  let p := atl03_photon v in
  k1 <- goto_segment ids atl03_segment
          (Z.to_nat (H5Array.size ids - atl08_photon v)) (atl08_photon v) ;;
  k <- goto_index ids indxs atl03_segment atl03_count
         (Z.to_nat (H5Array.size ids - k1)) k1 ;;
  matched <- check_match ids indxs atl03_segment atl03_count k ;;
  if matched then
    flag <- rd (H5Array.get (Atl08Class.atl08_pc_flag atl08) k) ;;
    cls <- store (cv_classification v) p (to_uint8 flag) ;;
    '(cls, rel, land, snow) <-
      (if Atl08Class.phoreal atl08 then
         h <- rd (H5Array.get (Atl08Class.atl08_ph_h atl08) k) ;;
         rel <- store (cv_relief v) p h ;;
         lc <- rd (H5Array.get (Atl08Class.segment_landcover atl08)
                     (atl08_segment_index v)) ;;
         land <- store (cv_landcover v) p (to_uint8 lc) ;;
         sc <- rd (H5Array.get (Atl08Class.segment_snowcover atl08)
                     (atl08_segment_index v)) ;;
         snow <- store (cv_snowcover v) p (to_uint8 sc) ;;
         cls' <- above_classify info parms atl03 atl03_segment p rel cls ;;
         Ok (cls', rel, land, snow)
       else Ok (cls, cv_relief v, cv_landcover v, cv_snowcover v)) ;;
    anc <- (if Atl08Class.ancillary atl08
            then store (cv_anc_seg_indices v) p (atl08_segment_index v)
            else Ok (cv_anc_seg_indices v)) ;;
    Ok {| atl03_photon := p + 1;
          atl08_photon := k + 1;
          atl08_segment_index := atl08_segment_index v;
          cv_classification := cls;
          cv_relief := rel;
          cv_landcover := land;
          cv_snowcover := snow;
          cv_anc_seg_indices := anc |}
  else
    cls <- store (cv_classification v) p ATL08_UNCLASSIFIED ;;
    '(rel, land, snow) <-
      (if Atl08Class.phoreal atl08 then
         rel <- store (cv_relief v) p 0%float ;;
         land <- store (cv_landcover v) p INVALID_FLAG ;;
         snow <- store (cv_snowcover v) p INVALID_FLAG ;;
         Ok (rel, land, snow)
       else Ok (cv_relief v, cv_landcover v, cv_snowcover v)) ;;
    anc <- (if Atl08Class.ancillary atl08
            then store (cv_anc_seg_indices v) p INVALID_INDICE
            else Ok (cv_anc_seg_indices v)) ;;
    Ok {| atl03_photon := p + 1;
          atl08_photon := k;
          atl08_segment_index := atl08_segment_index v;
          cv_classification := cls;
          cv_relief := rel;
          cv_landcover := land;
          cv_snowcover := snow;
          cv_anc_seg_indices := anc |}.

(** [for(atl03_count = 1; atl03_count <= atl03_segment_count; atl03_count++)]:
    [rest] counts the passes left, [atl03_segment_count - atl03_count + 1]. *)
Fixpoint classify_counts (info : info_t) (parms : Icesat2Parms)
  (atl03 : Atl03Data.t) (atl08 : Atl08Class.t) (atl03_segment : Z)
  (rest : nat) (atl03_count : Z) (v : classify_vars) : outcome classify_vars :=
  match rest with
  | O => Ok v
  | S rest' =>
      v' <- classify_photon info parms atl03 atl08 atl03_segment atl03_count v ;;
      classify_counts info parms atl03 atl08 atl03_segment rest' (atl03_count + 1) v'
  end.

(** The body of [for(atl03_segment_index = 0; atl03_segment_index <
    atl03.segment_id.size; atl03_segment_index++)]. *)
Definition classify_segment (info : info_t) (parms : Icesat2Parms)
  (region : Region) (atl03 : Atl03Data.t) (atl08 : Atl08Class.t)
  (atl03_segment_index : Z) (v : classify_vars) : outcome classify_vars :=
  atl03_segment <- rd (H5Array.get (Atl03Data.segment_id atl03) atl03_segment_index) ;;
  index <-
    (if Atl08Class.phoreal atl08 || Atl08Class.ancillary atl08 then
       goto_land_segment (Atl08Class.segment_id_beg atl08) atl03_segment
         (Z.to_nat (H5Array.size (Atl08Class.segment_id_beg atl08)
                    - atl08_segment_index v))
         (atl08_segment_index v)
     else Ok (atl08_segment_index v)) ;;
  atl03_segment_count <- rd (H5Array.get (segment_ph_cnt region) atl03_segment_index) ;;
  classify_counts info parms atl03 atl08 atl03_segment
    (Z.to_nat atl03_segment_count) 1
    {| atl03_photon := atl03_photon v;
       atl08_photon := atl08_photon v;
       atl08_segment_index := index;
       cv_classification := cv_classification v;
       cv_relief := cv_relief v;
       cv_landcover := cv_landcover v;
       cv_snowcover := cv_snowcover v;
       cv_anc_seg_indices := cv_anc_seg_indices v |}.

Fixpoint classify_segments (info : info_t) (parms : Icesat2Parms)
  (region : Region) (atl03 : Atl03Data.t) (atl08 : Atl08Class.t)
  (rest : nat) (atl03_segment_index : Z) (v : classify_vars)
  : outcome classify_vars :=
  match rest with
  | O => Ok v
  | S rest' =>
      v' <- classify_segment info parms region atl03 atl08 atl03_segment_index v ;;
      classify_segments info parms region atl03 atl08 rest'
        (atl03_segment_index + 1) v'
  end.

(** [Atl08Class::classify], after the joins. *)
Definition classify (info : info_t) (parms : Icesat2Parms) (region : Region)
  (atl03 : Atl03Data.t) (atl08 : Atl08Class.t) : outcome Atl08Class.t :=
  if negb (stage_atl08 parms) then Ok atl08
  else
    let num_photons := H5Array.size (Atl03Data.dist_ph_along atl03) in
    let phoreal := Atl08Class.phoreal atl08 in
    let ancillary := Atl08Class.ancillary atl08 in
    v <- classify_segments info parms region atl03 atl08
           (length (Atl03Data.segment_id atl03)) 0
           {| atl03_photon := 0;
              atl08_photon := 0;
              atl08_segment_index := 0;
              cv_classification := new_cells num_photons;
              cv_relief := if phoreal then new_cells num_photons else [];
              cv_landcover := if phoreal then new_cells num_photons else [];
              cv_snowcover := if phoreal then new_cells num_photons else [];
              cv_anc_seg_indices := if ancillary then new_cells num_photons else [] |} ;;
    Ok {| Atl08Class.enabled := Atl08Class.enabled atl08;
          Atl08Class.phoreal := Atl08Class.phoreal atl08;
          Atl08Class.ancillary := Atl08Class.ancillary atl08;
          Atl08Class.classification := Some (cv_classification v);
          Atl08Class.relief := if phoreal then Some (cv_relief v) else None;
          Atl08Class.landcover := if phoreal then Some (cv_landcover v) else None;
          Atl08Class.snowcover := if phoreal then Some (cv_snowcover v) else None;
          Atl08Class.atl08_segment_id := Atl08Class.atl08_segment_id atl08;
          Atl08Class.atl08_pc_indx := Atl08Class.atl08_pc_indx atl08;
          Atl08Class.atl08_pc_flag := Atl08Class.atl08_pc_flag atl08;
          Atl08Class.atl08_ph_h := Atl08Class.atl08_ph_h atl08;
          Atl08Class.segment_id_beg := Atl08Class.segment_id_beg atl08;
          Atl08Class.segment_landcover := Atl08Class.segment_landcover atl08;
          Atl08Class.segment_snowcover := Atl08Class.segment_snowcover atl08;
          Atl08Class.anc_seg_data := Atl08Class.anc_seg_data atl08;
          Atl08Class.anc_seg_indices :=
            if ancillary then Some (cv_anc_seg_indices v) else None |}.

(* ================================================================== *)
(** * YapcScore                                                        *)
(* ================================================================== *)

(** The hard-coded parameters of [yapcV2]. *)
Definition MAXIMUM_HSPREAD : float := 15000.

Definition HSPREAD_BINSIZE : float := 1.

Definition MAX_KNN : Z := 25.

(** "Calculate N and KNN": the value of [knn] after
    [knn = MIN(knn, MAX_KNN)].  [settings->knn] is an [int], and its
    conversion to the [double] of the conditional and back is exact. *)
Definition yapcV2_knn (settings : yapc_t) (N : Z) : outcome Z :=
  knn <- (if negb (yapc_knn settings =? 0) then Ok (yapc_knn settings)
          else double2int INT_MIN INT_MAX
                 (MAX_double 1 ((PrimFloat.sqrt (Z2double N) + 0.5) / 2))) ;;
  Ok (MIN_int knn MAX_KNN).

Record spread_vars := {
  min_h : float;
  max_h : float;
  min_x : float;
  max_x : float
}.

(** [for(int n = 1; n < N; n++)] of "Calculate Distance and Height
    Spread": [rest] counts the passes left, [N - n]. *)
Fixpoint spread_loop (atl03 : Atl03Data.t) (rest : nat) (n : Z)
  (v : spread_vars) : outcome spread_vars :=
  match rest with
  | O => Ok v
  | S rest' =>
      h <- rd (H5Array.get (Atl03Data.h_ph atl03) n) ;;
      x <- rd (H5Array.get (Atl03Data.dist_ph_along atl03) n) ;;
      spread_loop atl03 rest' (n + 1)
        {| min_h := if PrimFloat.ltb h (min_h v) then h else min_h v;
           max_h := if fgtb h (max_h v) then h else max_h v;
           min_x := if PrimFloat.ltb x (min_x v) then x else min_x v;
           max_x := if fgtb x (max_x v) then x else max_x v |}
  end.

(** "Calculate Distance and Height Spread" for a segment of [N] photons:
    the extrema the loop leaves, from which [hspread = max_h - min_h] and
    [xspread = max_x - min_x]. *)
Definition yapcV2_spread (atl03 : Atl03Data.t) (N : Z) : outcome spread_vars :=
  h0 <- rd (H5Array.get (Atl03Data.h_ph atl03) 0) ;;
  x0 <- rd (H5Array.get (Atl03Data.dist_ph_along atl03) 0) ;;
  spread_loop atl03 (Z.to_nat (N - 1)) 1
    {| min_h := h0; max_h := h0; min_x := x0; max_x := x0 |}.

(** "Check Window": [true] when the segment is skipped. *)
Definition invalid_spread (hspread xspread : float) : bool :=
  PrimFloat.leb hspread 0 || fgtb hspread MAXIMUM_HSPREAD || PrimFloat.leb xspread 0.

(** [for(int n = 0; n < N; n++) bins[(unsigned int)((h_ph[n] - min_h) /
    HSPREAD_BINSIZE)] = 1;] *)
Fixpoint bin_photons (atl03 : Atl03Data.t) (minh : float) (rest : nat) (n : Z)
  (bins : cells Z) : outcome (cells Z) :=
  match rest with
  | O => Ok bins
  | S rest' =>
      h <- rd (H5Array.get (Atl03Data.h_ph atl03) n) ;;
      bin <- double2int 0 UINT_MAX ((h - minh) / HSPREAD_BINSIZE) ;;
      bins' <- store bins bin 1 ;;
      bin_photons atl03 minh rest' (n + 1) bins'
  end.

(** [for(int b = 0; b < num_bins; b++) nonzero_bins += bins[b];] *)
Fixpoint count_bins (bins : cells Z) (rest : nat) (b : Z) (nonzero_bins : Z)
  : outcome Z :=
  match rest with
  | O => Ok nonzero_bins
  | S rest' =>
      v <- load bins b ;;
      count_bins bins rest' (b + 1) (nonzero_bins + v)
  end.

Record neighbor_vars := {
  smallest_nearest_neighbor : float;
  smallest_nearest_neighbor_index : Z;
  num_nearest_neighbors : Z;
  nearest_neighbors : cells float
}.

(** "Recalculate Largest Nearest Neighbor": [for(int k = 0; k < knn; k++)]. *)
Fixpoint recalculate_smallest (nn : cells float) (rest : nat) (k : Z)
  (smallest : float) (index : Z) : outcome (float * Z) :=
  match rest with
  | O => Ok (smallest, index)
  | S rest' =>
      v <- load nn k ;;
      if PrimFloat.ltb v smallest
      then recalculate_smallest nn rest' (k + 1) v k
      else recalculate_smallest nn rest' (k + 1) smallest index
  end.

(** The body of "For All Neighbors", [for(int x = ph_b0; x < ph_b1; x++)]. *)
Definition neighbor_body (atl03 : Atl03Data.t) (knn : Z)
  (half_win_x half_win_h : float) (y x : Z) (v : neighbor_vars)
  : outcome neighbor_vars :=
  if y =? x then Ok v
  else
    dx <- rd (H5Array.get (Atl03Data.dist_ph_along atl03) x) ;;
    dy <- rd (H5Array.get (Atl03Data.dist_ph_along atl03) y) ;;
    let delta_x := PrimFloat.abs (float_sub dx dy) in
    if fgtb delta_x half_win_x then Ok v
    else
      hx <- rd (H5Array.get (Atl03Data.h_ph atl03) x) ;;
      hy <- rd (H5Array.get (Atl03Data.h_ph atl03) y) ;;
      let delta_h := PrimFloat.abs (float_sub hx hy) in
      let proximity := (half_win_h - delta_h)%float in
      if num_nearest_neighbors v <? knn then
        nn <- store (nearest_neighbors v) (num_nearest_neighbors v) proximity ;;
        if PrimFloat.ltb proximity (smallest_nearest_neighbor v) then
          Ok {| smallest_nearest_neighbor := proximity;
                smallest_nearest_neighbor_index := num_nearest_neighbors v;
                num_nearest_neighbors := num_nearest_neighbors v + 1;
                nearest_neighbors := nn |}
        else
          Ok {| smallest_nearest_neighbor := smallest_nearest_neighbor v;
                smallest_nearest_neighbor_index := smallest_nearest_neighbor_index v;
                num_nearest_neighbors := num_nearest_neighbors v + 1;
                nearest_neighbors := nn |}
      else if fgtb proximity (smallest_nearest_neighbor v) then
        nn <- store (nearest_neighbors v) (smallest_nearest_neighbor_index v) proximity ;;
        '(smallest, index) <-
          recalculate_smallest nn (Z.to_nat knn) 0 proximity
            (smallest_nearest_neighbor_index v) ;;
        Ok {| smallest_nearest_neighbor := smallest;
              smallest_nearest_neighbor_index := index;
              num_nearest_neighbors := num_nearest_neighbors v;
              nearest_neighbors := nn |}
      else Ok v.

Fixpoint neighbor_loop (atl03 : Atl03Data.t) (knn : Z)
  (half_win_x half_win_h : float) (y : Z) (rest : nat) (x : Z)
  (v : neighbor_vars) : outcome neighbor_vars :=
  match rest with
  | O => Ok v
  | S rest' =>
      v' <- neighbor_body atl03 knn half_win_x half_win_h y x v ;;
      neighbor_loop atl03 knn half_win_x half_win_h y rest' (x + 1) v'
  end.

(** "Fill In Rest of Nearest Neighbors": [for(int k = num_nearest_neighbors;
    k < knn; k++) nearest_neighbors[k] = 0.0;] *)
Fixpoint fill_neighbors (rest : nat) (k : Z) (nn : cells float)
  : outcome (cells float) :=
  match rest with
  | O => Ok nn
  | S rest' =>
      nn' <- store nn k 0%float ;;
      fill_neighbors rest' (k + 1) nn'
  end.

(** "Calculate Inverse Sum of Distances from Nearest Neighbors". *)
Fixpoint sum_neighbors (nn : cells float) (rest : nat) (k : Z)
  (nearest_neighbor_sum : float) : outcome float :=
  match rest with
  | O => Ok nearest_neighbor_sum
  | S rest' =>
      v <- load nn k ;;
      sum_neighbors nn rest' (k + 1)
        (if fgtb v 0 then (nearest_neighbor_sum + v)%float else nearest_neighbor_sum)
  end.

(** The body of "Calculate YAPC Score for all Photons in Center Segment",
    [for(int y = ph_c0; y < ph_c1; y++)]; [nn] is the array
    [nearest_neighbors], which lives across the passes. *)
Definition score_photon (atl03 : Atl03Data.t) (knn ph_b0 ph_b1 : Z)
  (half_win_x half_win_h : float) (y : Z) (st : cells Z * cells float)
  : outcome (cells Z * cells float) :=
  v <- neighbor_loop atl03 knn half_win_x half_win_h y
         (Z.to_nat (ph_b1 - ph_b0)) ph_b0
         {| smallest_nearest_neighbor := DBL_MAX;
            smallest_nearest_neighbor_index := 0;
            num_nearest_neighbors := 0;
            nearest_neighbors := snd st |} ;;
  nn <- fill_neighbors (Z.to_nat (knn - num_nearest_neighbors v))
          (num_nearest_neighbors v) (nearest_neighbors v) ;;
  total <- sum_neighbors nn (Z.to_nat knn) 0 0%float ;;
  let nearest_neighbor_sum := (total / Z2double knn)%float in
  sc <- double2int 0 255 ((nearest_neighbor_sum / half_win_h) * 255)%float ;;
  score' <- store (fst st) y sc ;;
  Ok (score', nn).

Fixpoint score_loop (atl03 : Atl03Data.t) (knn ph_b0 ph_b1 : Z)
  (half_win_x half_win_h : float) (rest : nat) (y : Z)
  (st : cells Z * cells float) : outcome (cells Z * cells float) :=
  match rest with
  | O => Ok st
  | S rest' =>
      st' <- score_photon atl03 knn ph_b0 ph_b1 half_win_x half_win_h y st ;;
      score_loop atl03 knn ph_b0 ph_b1 half_win_x half_win_h rest' (y + 1) st'
  end.

(** What a pass of the segment loop of [yapcV2] did with its segment:
    skipped it at "Check Valid Extent", skipped it at "Check Window", or
    scored the photons of its center band [ph_c0 .. ph_c1 - 1]. *)
Inductive segment_fate :=
| SkippedCount                       (* [(N <= knn) || (N < minimum_photon_count)] *)
| SkippedSpread (ph_c0 ph_c1 : Z) (hspread xspread : float)
| Scored (ph_c0 ph_c1 : Z) (knn : Z) (hspread xspread : float).

Record yapc_vars := {
  ph_b0 : Z;
  ph_b1 : Z;
  ph_c0 : Z;
  ph_c1 : Z;
  yv_score : cells Z;
  yv_nearest_neighbors : cells float;
  fates : list segment_fate           (* ghost: one entry per segment passed *)
}.

(** The body of "Loop Through Each ATL03 Segment". *)
Definition yapcV2_segment (parms : Icesat2Parms) (region : Region)
  (atl03 : Atl03Data.t) (num_segments segment_index : Z) (v : yapc_vars)
  : outcome yapc_vars :=
  let settings := yapc parms in
  b0 <- (if 1 <? segment_index
         then c <- rd (H5Array.get (segment_ph_cnt region) (segment_index - 2)) ;;
              Ok (ph_b0 v + c)
         else Ok (ph_b0 v)) ;;
  c0 <- (if 0 <? segment_index
         then c <- rd (H5Array.get (segment_ph_cnt region) (segment_index - 1)) ;;
              Ok (ph_c0 v + c)
         else Ok (ph_c0 v)) ;;
  cc <- rd (H5Array.get (segment_ph_cnt region) segment_index) ;;
  let c1 := ph_c1 v + cc in
  b1 <- (if segment_index <? num_segments - 1
         then c <- rd (H5Array.get (segment_ph_cnt region) (segment_index + 1)) ;;
              Ok (ph_b1 v + c)
         else Ok (ph_b1 v)) ;;
  N <- rd (H5Array.get (segment_ph_cnt region) segment_index) ;;
  knn <- yapcV2_knn settings N ;;
  if (N <=? knn) || (N <? minimum_photon_count parms) then
    Ok {| ph_b0 := b0; ph_b1 := b1; ph_c0 := c0; ph_c1 := c1;
          yv_score := yv_score v;
          yv_nearest_neighbors := yv_nearest_neighbors v;
          fates := fates v ++ [SkippedCount] |}
  else
    sp <- yapcV2_spread atl03 N ;;
    let hspread := (max_h sp - min_h sp)%float in
    let xspread := (max_x sp - min_x sp)%float in
    if invalid_spread hspread xspread then
      Ok {| ph_b0 := b0; ph_b1 := b1; ph_c0 := c0; ph_c1 := c1;
            yv_score := yv_score v;
            yv_nearest_neighbors := yv_nearest_neighbors v;
            fates := fates v ++ [SkippedSpread c0 c1 hspread xspread] |}
    else
      nb <- double2int INT_MIN INT_MAX (hspread / HSPREAD_BINSIZE) ;;
      let num_bins := nb + 1 in
      bins <- bin_photons atl03 (min_h sp) (Z.to_nat N) 0
                (repeat (Some 0) (Z.to_nat num_bins)) ;;
      nonzero_bins <- count_bins bins (Z.to_nat num_bins) 0 0 ;;
      let h_span :=
        ((Z2double nonzero_bins * HSPREAD_BINSIZE) / Z2double N * Z2double knn)%float in
      let half_win_x := (yapc_win_x settings / 2)%float in
      let half_win_h :=
        if negb (PrimFloat.eqb (yapc_win_h settings) 0)
        then (yapc_win_h settings / 2)%float else (h_span / 2)%float in
      st <- score_loop atl03 knn b0 b1 half_win_x half_win_h
              (Z.to_nat (c1 - c0)) c0 (yv_score v, yv_nearest_neighbors v) ;;
      Ok {| ph_b0 := b0; ph_b1 := b1; ph_c0 := c0; ph_c1 := c1;
            yv_score := fst st;
            yv_nearest_neighbors := snd st;
            fates := fates v ++ [Scored c0 c1 knn hspread xspread] |}.

Fixpoint yapcV2_segments (parms : Icesat2Parms) (region : Region)
  (atl03 : Atl03Data.t) (num_segments : Z) (rest : nat) (segment_index : Z)
  (v : yapc_vars) : outcome yapc_vars :=
  match rest with
  | O => Ok v
  | S rest' =>
      v' <- yapcV2_segment parms region atl03 num_segments segment_index v ;;
      yapcV2_segments parms region atl03 num_segments rest' (segment_index + 1) v'
  end.

(** [YapcScore::yapcV2]: the array [score], and for each segment what the
    loop did with it. *)
Definition yapcV2 (parms : Icesat2Parms) (region : Region)
  (atl03 : Atl03Data.t) : outcome (cells Z * list segment_fate) :=
  let num_photons := H5Array.size (Atl03Data.dist_ph_along atl03) in
  let num_segments := H5Array.size (Atl03Data.segment_id atl03) in
  v <- yapcV2_segments parms region atl03 num_segments
         (Z.to_nat num_segments) 0
         {| ph_b0 := 0; ph_b1 := 0; ph_c0 := 0; ph_c1 := 0;
            yv_score := repeat (Some 0) (Z.to_nat num_photons);
            yv_nearest_neighbors := new_cells MAX_KNN;
            fates := [] |} ;;
  Ok (yv_score v, fates v).

(** [YapcScore::yapcV3] fills [score] for version 3; no property below
    depends on the scores it computes. *)
Variable yapcV3 : Icesat2Parms -> Region -> Atl03Data.t -> outcome (cells Z).

(** [YapcScore::YapcScore]. *)
Definition YapcScore_new (parms : Icesat2Parms) (region : Region)
  (atl03 : Atl03Data.t) : outcome YapcScore.t :=
  if negb (stage_yapc parms) then Ok {| YapcScore.score := None |}
  else if yapc_version (yapc parms) =? 3 then
    sc <- yapcV3 parms region atl03 ;;
    Ok {| YapcScore.score := Some sc |}
  else if (yapc_version (yapc parms) =? 2) || (yapc_version (yapc parms) =? 1) then
    r <- yapcV2 parms region atl03 ;;
    Ok {| YapcScore.score := Some (fst r) |}
  else
    Throw (mkRTE CRITICAL RTE_ERROR (invalid_yapc_version (yapc_version (yapc parms)))).

(* ================================================================== *)
(** * calculateBackground                                              *)
(* ================================================================== *)

(** "Interpolate Background Rate". *)
Definition interpolate_rate (prev_bckgrd_time prev_bckgrd_rate curr_bckgrd_time
  curr_bckgrd_rate segment_time : float) : float :=
  let bckgrd_run := (curr_bckgrd_time - prev_bckgrd_time)%float in
  let bckgrd_rise := (curr_bckgrd_rate - prev_bckgrd_rate)%float in
  let segment_to_bckgrd_delta := (segment_time - prev_bckgrd_time)%float in
  ((bckgrd_rise / bckgrd_run) * segment_to_bckgrd_delta + prev_bckgrd_rate)%float.

(** [while(state.bckgrd_in < atl03.bckgrd_rate.size)]: [rest] counts the
    background samples from the cursor to the end of [bckgrd_rate].  The
    result is [background_rate] and the cursor the loop leaves. *)
Fixpoint background_loop (atl03 : Atl03Data.t) (extent_segment : Z)
  (background_rate : float) (rest : nat) (bckgrd_in : Z) : outcome (float * Z) :=
  match rest with
  | O => Ok (background_rate, bckgrd_in)
  | S rest' =>
      curr_bckgrd_time <- rd (H5Array.get (Atl03Data.bckgrd_delta_time atl03) bckgrd_in) ;;
      segment_time <- rd (H5Array.get (Atl03Data.segment_delta_time atl03) extent_segment) ;;
      if fgeb curr_bckgrd_time segment_time then
        if 0 <? bckgrd_in then
          prev_bckgrd_time <-
            rd (H5Array.get (Atl03Data.bckgrd_delta_time atl03) (bckgrd_in - 1)) ;;
          prev_bckgrd_rate <-
            rd (H5Array.get (Atl03Data.bckgrd_rate atl03) (bckgrd_in - 1)) ;;
          curr_bckgrd_rate <- rd (H5Array.get (Atl03Data.bckgrd_rate atl03) bckgrd_in) ;;
          Ok (interpolate_rate prev_bckgrd_time prev_bckgrd_rate curr_bckgrd_time
                curr_bckgrd_rate segment_time, bckgrd_in)
        else
          first_rate <- rd (H5Array.get (Atl03Data.bckgrd_rate atl03) 0) ;;
          Ok (first_rate, bckgrd_in)
      else background_loop atl03 extent_segment background_rate rest' (bckgrd_in + 1)
  end.

(** [Atl03Reader::calculateBackground]: the rate it returns and the state
    it leaves. *)
Definition calculateBackground (state : TrackState.t) (atl03 : Atl03Data.t)
  : outcome (float * TrackState.t) :=
  let rates := Atl03Data.bckgrd_rate atl03 in
  background_rate <- rd (H5Array.get rates (H5Array.size rates - 1)) ;;
  r <- background_loop atl03 (TrackState.extent_segment state) background_rate
         (Z.to_nat (H5Array.size rates - TrackState.bckgrd_in state))
         (TrackState.bckgrd_in state) ;;
  Ok (fst r, TrackState.with_bckgrd_in state (snd r)).

(* ================================================================== *)
(** * The extent record                                                *)
(* ================================================================== *)

(** [Icesat2Parms::CNF_POSSIBLE_TEP], [SIGNAL_CONF_OFFSET],
    [QUALITY_NOMINAL], [QUALITY_POSSIBLE_TEP] and [NUM_ATL08_CLASSES]. *)
Variable CNF_POSSIBLE_TEP : Z.
Variable SIGNAL_CONF_OFFSET : Z.
Variable QUALITY_NOMINAL : Z.
Variable QUALITY_POSSIBLE_TEP : Z.
Variable NUM_ATL08_CLASSES : Z.

(** [Icesat2Parms::deltatime2timestamp] and
    [Icesat2Parms::generateExtentId(rgt, cycle, region, track, pair,
    counter)]. *)
Variable deltatime2timestamp : float -> Z.
Variable generateExtentId : Z -> Z -> Z -> Z -> Z -> Z -> Z.

(** [Atl03Reader::calculateSegmentId]. *)
Definition calculateSegmentId (parms : Icesat2Parms) (state : TrackState.t)
  (atl03 : Atl03Data.t) : outcome Z :=
  id <- rd (H5Array.get (Atl03Data.segment_id atl03) (TrackState.extent_segment state)) ;;
  let atl06_segment_id := Z2double id in
  atl06_segment_id <-
    (if negb (dist_in_seg parms) then
       half <- double2int INT_MIN INT_MAX
                 ((extent_length parms / ATL03_SEGMENT_LENGTH) / 2)%float ;;
       Ok (atl06_segment_id + TrackState.start_seg_portion state + Z2double half)%float
     else
       half <- double2int INT_MIN INT_MAX (extent_length parms / 2)%float ;;
       Ok (atl06_segment_id + Z2double half)%float) ;;
  double2int 0 UINT_MAX (atl06_segment_id + 0.5)%float.

(** [Atl03Reader::generateExtentRecord]: the record added to [rec_list] and
    the state [calculateBackground] leaves. *)
Definition generateExtentRecord (reader : reader_t) (parms : Icesat2Parms)
  (extent_id : Z) (info : info_t) (state : TrackState.t) (atl03 : Atl03Data.t)
  : outcome (extent_t.t * TrackState.t) :=
  orient <- rd (H5Array.get (Atl03Data.sc_orient atl03) 0) ;;
  segment_id <- calculateSegmentId parms state atl03 ;;
  '(background_rate, state') <- calculateBackground state atl03 ;;
  solar_elevation <-
    rd (H5Array.get (Atl03Data.solar_elevation atl03) (TrackState.extent_segment state')) ;;
  let sc_v_offset := TrackState.extent_segment state' * 3 in
  sc_v1 <- rd (H5Array.get (Atl03Data.velocity_sc atl03) (sc_v_offset + 0)) ;;
  sc_v2 <- rd (H5Array.get (Atl03Data.velocity_sc atl03) (sc_v_offset + 1)) ;;
  sc_v3 <- rd (H5Array.get (Atl03Data.velocity_sc atl03) (sc_v_offset + 2)) ;;
  let spacecraft_velocity :=
    PrimFloat.sqrt (sc_v1 * sc_v1 + sc_v2 * sc_v2 + sc_v3 * sc_v3)%float in
  Ok ({| extent_t.valid := TrackState.extent_valid state';
         extent_t.extent_id := extent_id;
         extent_t.track := to_uint8 (track info);
         extent_t.pair := to_uint8 (pair info);
         extent_t.spacecraft_orientation := to_uint8 orient;
         extent_t.reference_ground_track := start_rgt reader mod 65536;
         extent_t.cycle := start_cycle reader mod 65536;
         extent_t.segment_id := segment_id;
         extent_t.segment_distance := TrackState.seg_distance state';
         extent_t.extent_length := TrackState.extent_length state';
         extent_t.background_rate := background_rate;
         extent_t.solar_elevation := solar_elevation;
         extent_t.photon_count :=
           Z.of_nat (length (TrackState.extent_photons state')) mod 4294967296;
         extent_t.spacecraft_velocity := double2float spacecraft_velocity;
         extent_t.photons := TrackState.extent_photons state';
         extent_t.ghost_extent_segment := TrackState.extent_segment state' |},
      state').

(* ================================================================== *)
(** * generateAncillaryRecords                                         *)
(* ================================================================== *)

(** [for(int b = 0; b < array->elementSize(); b++)
      data->data[bytes_written++] = 0xFF;] *)
Fixpoint fill_invalid (data : cells Z) (rest : nat) (bytes_written : Z)
  : outcome (cells Z * Z) :=
  match rest with
  | O => Ok (data, bytes_written)
  | S rest' =>
      data' <- store data bytes_written 255 ;;
      fill_invalid data' rest' (bytes_written + 1)
  end.

(** The write of [array->serialize(&data->data[bytes_written], index, 1)],
    for a call that writes [bytes]: they are stored from [bytes_written]
    on. *)
Fixpoint write_element (data : cells Z) (bytes : list Z) (at_byte : Z)
  : outcome (cells Z) :=
  match bytes with
  | [] => Ok data
  | b :: later =>
      data' <- store data at_byte b ;;
      write_element data' later (at_byte + 1)
  end.

(** "Populate Ancillary Data", for an array whose elements have
    [elementSize] bytes and whose [serialize(buffer, index, 1)] is
    [serialize index]. *)
Fixpoint populate_ancillary (elementSize : Z) (serialize : Z -> outcome (list Z))
  (indices : list Z) (data : cells Z) (bytes_written : Z) : outcome (cells Z * Z) :=
  match indices with
  | [] => Ok (data, bytes_written)
  | index :: later =>
      '(data', bytes_written') <-
        (if negb (index =? INVALID_INDICE) then
           bytes <- serialize index ;;
           data' <- write_element data bytes bytes_written ;;
           Ok (data', bytes_written + Z.of_nat (length bytes))
         else fill_invalid data (Z.to_nat elementSize) bytes_written) ;;
      populate_ancillary elementSize serialize later data' bytes_written'
  end.

(** The ancillary record of one field: [data->num_elements] and the bytes
    of [data->data], allocated for [elementSize * indices->length()] bytes. *)
Definition ancillary_record (elementSize : Z) (serialize : Z -> outcome (list Z))
  (indices : list Z) : outcome (Z * cells Z) :=
  let num_elements := Z.of_nat (length indices) in
  '(data, _) <-
    populate_ancillary elementSize serialize indices
      (new_cells (elementSize * num_elements)) 0 ;;
  Ok (num_elements, data).

(** The bytes of element [p] of an ancillary record. *)
Definition element_bytes (elementSize : Z) (data : cells Z) (p : Z) : list (option Z) :=
  slice data (p * elementSize) elementSize.

(** [AncillaryFields::type_t], as far as the reader names it. *)
Inductive anc_type_t :=
| PHOTON_ANC_TYPE
| EXTENT_ANC_TYPE
| ATL08_ANC_TYPE.

(** [AncillaryFields::element_array_t], the record of one ancillary field
    of an extent.  Modelled from the spec: the struct is declared in
    AncillaryFields.h, which is not part of the sources at hand; the spec
    gives it as [{extent_id:u64, anc_type:u8, field_index:u32, data_type:u8,
    num_elements:u32, data:bytes}], so [data_type] is narrowed to 8 bits and
    the other fields hold the values assigned to them. *)
Record element_array_t := {
  anc_extent_id : Z;
  anc_type : anc_type_t;
  anc_field_index : Z;
  anc_data_type : Z;
  anc_num_elements : Z;
  anc_data : cells Z
}.

(** [for(int i = 0; i < field_list->length(); i++)] of
    [generateAncillaryRecords], from field [i] on: the records added to
    [rec_list]. *)
Fixpoint ancillary_fields (extent_id : Z) (field_dict : H5DArrayDictionary)
  (type : anc_type_t) (indices : list Z) (fields : list String.string) (i : Z)
  : outcome (list element_array_t) :=
  match fields with
  | [] => Ok []
  | field :: later =>
      array <- field_dict field ;;
      '(num_elements, data) <-
        ancillary_record (H5DArray.elementSize array) (H5DArray.serialize array)
          indices ;;
      let record :=
        {| anc_extent_id := extent_id;
           anc_type := type;
           anc_field_index := i;
           anc_data_type := to_uint8 (H5DArray.elementType array);
           anc_num_elements := num_elements;
           anc_data := data |} in
      records <- ancillary_fields extent_id field_dict type indices later (i + 1) ;;
      Ok (record :: records)
  end.

(** [Atl03Reader::generateAncillaryRecords]: the records it adds to
    [rec_list]. *)
Definition generateAncillaryRecords (extent_id : Z)
  (field_list : option (list String.string))
  (field_dict : option H5DArrayDictionary) (type : anc_type_t)
  (indices : option (list Z)) : outcome (list element_array_t) :=
  match field_list, field_dict, indices with
  | Some fields, Some dict, Some indices =>
      ancillary_fields extent_id dict type indices fields 0
  | _, _, _ => Ok []
  end.

(* ================================================================== *)
(** * subsettingThread                                                 *)
(* ================================================================== *)

(** A stage of the [do { ... } while(false)] block of the photon loop: [None]
    is its [break]. *)
Definition stage (A : Type) : Type := outcome (option A).

Definition and_then {A B} (m : stage A) (k : A -> stage B) : stage B :=
  x <- m ;;
  match x with
  | Some a => k a
  | None => Ok None
  end.

Notation "x <-? m ;; k" := (and_then m (fun x => k))
  (at level 61, m at next level, right associativity) : outcome_scope.

(** "Check and Set Signal Confidence Level". *)
Definition check_signal_confidence (parms : Icesat2Parms) (atl03 : Atl03Data.t)
  (current_photon : Z) : stage Z :=
  cnf <- rd (H5Array.get (Atl03Data.signal_conf_ph atl03) current_photon) ;;
  if (cnf <? CNF_POSSIBLE_TEP) || (CNF_SURFACE_HIGH <? cnf) then
    Throw (mkRTE CRITICAL RTE_ERROR (invalid_atl03_signal_confidence cnf))
  else if negb (atl03_cnf parms (cnf + SIGNAL_CONF_OFFSET)) then Ok None
  else Ok (Some cnf).

(** "Check and Set ATL03 Photon Quality Level". *)
Definition check_photon_quality (parms : Icesat2Parms) (atl03 : Atl03Data.t)
  (current_photon : Z) : stage Z :=
  quality <- rd (H5Array.get (Atl03Data.quality_ph atl03) current_photon) ;;
  if (quality <? QUALITY_NOMINAL) || (QUALITY_POSSIBLE_TEP <? quality) then
    Throw (mkRTE CRITICAL RTE_ERROR (invalid_atl03_photon_quality quality))
  else if negb (quality_ph parms quality) then Ok None
  else Ok (Some quality).

(** "Check and Set ATL08 Classification". *)
Definition check_atl08_class (parms : Icesat2Parms) (atl08 : Atl08Class.t)
  (current_photon : Z) : stage Z :=
  match Atl08Class.classification atl08 with
  | Some classification =>
      class <- load classification current_photon ;;
      if (class <? 0) || (NUM_ATL08_CLASSES <=? class) then
        Throw (mkRTE CRITICAL RTE_ERROR (invalid_atl08_classification class))
      else if negb (atl08_class parms class) then Ok None
      else Ok (Some class)
  | None => Ok (Some ATL08_UNCLASSIFIED)
  end.

(** "Check and Set YAPC Score". *)
Definition check_yapc_score (parms : Icesat2Parms) (yapc_scores : YapcScore.t)
  (current_photon : Z) : stage Z :=
  match YapcScore.score yapc_scores with
  | Some score =>
      photon_score <- load score current_photon ;;
      if photon_score <? yapc_score (yapc parms) then Ok None
      else Ok (Some photon_score)
  | None => Ok (Some 0)
  end.

(** "Check Region". *)
Definition check_region (region : Region) (current_segment : Z) : stage unit :=
  match inclusion_ptr region with
  | Some mask =>
      included <- load mask current_segment ;;
      if negb included then Ok None else Ok (Some tt)
  | None => Ok (Some tt)
  end.

(** "Set PhoREAL Fields": relief, landcover flag and snowcover flag. *)
Definition phoreal_fields (parms : Icesat2Parms) (atl03 : Atl03Data.t)
  (atl08 : Atl08Class.t) (current_photon : Z) : outcome (float * Z * Z) :=
  if Atl08Class.phoreal atl08 then
    relief <-
      (if negb (use_abs_h (phoreal parms)) then
         match Atl08Class.relief atl08 with
         | Some relief => load relief current_photon
         | None => Fault
         end
       else rd (H5Array.get (Atl03Data.h_ph atl03) current_photon)) ;;
    landcover_flag <-
      match Atl08Class.landcover atl08 with
      | Some landcover => load landcover current_photon
      | None => Fault
      end ;;
    snowcover_flag <-
      match Atl08Class.snowcover atl08 with
      | Some snowcover => load snowcover current_photon
      | None => Fault
      end ;;
    Ok (relief, landcover_flag, snowcover_flag)
  else Ok (0%float, INVALID_FLAG, INVALID_FLAG).

(** The [do { ... } while(false)] block down to the photon [ph] it builds:
    that photon, or [None] when a filter left the block; [photon_body] adds
    the photon to the extent and indexes it for the ancillary fields.  The
    casts [(uint8_t)atl08_class], [(int8_t)atl03_cnf] and [(int8_t)quality_ph]
    are applied to values that already have the type they name. *)
Definition select_photon (parms : Icesat2Parms) (region : Region)
  (atl03 : Atl03Data.t) (atl08 : Atl08Class.t) (yapc_scores : YapcScore.t)
  (state : TrackState.t) (x_atc : float) (current_photon current_segment : Z)
  : stage photon_t.t :=
  cnf <-? check_signal_confidence parms atl03 current_photon ;;
  quality <-? check_photon_quality parms atl03 current_photon ;;
  class <-? check_atl08_class parms atl08 current_photon ;;
  score <-? check_yapc_score parms yapc_scores current_photon ;;
  _ <-? check_region region current_segment ;;
  '(relief, landcover_flag, snowcover_flag) <-
    phoreal_fields parms atl03 atl08 current_photon ;;
  dt <- rd (H5Array.get (Atl03Data.delta_time atl03) current_photon) ;;
  lat <- rd (H5Array.get (Atl03Data.lat_ph atl03) current_photon) ;;
  lon <- rd (H5Array.get (Atl03Data.lon_ph atl03) current_photon) ;;
  across <- rd (H5Array.get (Atl03Data.dist_ph_across atl03) current_photon) ;;
  h <- rd (H5Array.get (Atl03Data.h_ph atl03) current_photon) ;;
  Ok (Some {| photon_t.time_ns := deltatime2timestamp dt;
              photon_t.latitude := lat;
              photon_t.longitude := lon;
              photon_t.x_atc :=
                double2float (x_atc - TrackState.extent_length state / 2)%float;
              photon_t.y_atc := across;
              photon_t.height := h;
              photon_t.relief := relief;
              photon_t.landcover := landcover_flag;
              photon_t.snowcover := snowcover_flag;
              photon_t.atl08_class := class;
              photon_t.atl03_cnf := cnf;
              photon_t.quality_ph := quality;
              photon_t.yapc_score := score;
              photon_t.ghost_photon := current_photon;
              photon_t.ghost_segment := current_segment |}).

(** The lists [segment_indices], [photon_indices] and [atl08_indices] of the
    worker, "used for ancillary data": [None] for a NULL pointer. *)
Record ancillary_indices := {
  segment_indices : option (list Z);
  photon_indices : option (list Z);
  atl08_indices : option (list Z)
}.

(** [if(dict) { if(indices) indices->clear(); else indices = new List<int32_t>; }]:
    an empty list either way when there is a dictionary. *)
Definition clear_indices (dict : option H5DArrayDictionary)
  (indices : option (list Z)) : option (list Z) :=
  match dict with
  | Some _ => Some []
  | None => indices
  end.

(** [if(indices) indices->add(index);] *)
Definition add_index (indices : option (list Z)) (index : Z) : option (list Z) :=
  match indices with
  | Some l => Some (l ++ [index])
  | None => None
  end.

(** "Index Photon for Ancillary Fields" and "Index ATL08 Segment for Photon
    for Ancillary Fields", the end of the [do { ... } while(false)] block.
    [atl08.anc_seg_indices[current_photon]] is read through the pointer
    itself, which is NULL until [classify] allocates the array. *)
Definition index_photon (atl08 : Atl08Class.t) (lists : ancillary_indices)
  (current_photon current_segment : Z) : outcome ancillary_indices :=
  let segment_indices' := add_index (segment_indices lists) current_segment in
  let photon_indices' := add_index (photon_indices lists) current_photon in
  atl08_indices' <-
    match atl08_indices lists with
    | Some l =>
        match Atl08Class.anc_seg_indices atl08 with
        | Some anc_seg_indices =>
            index <- load anc_seg_indices current_photon ;;
            Ok (Some (l ++ [index]))
        | None => Fault
        end
    | None => Ok None
    end ;;
  Ok {| segment_indices := segment_indices';
        photon_indices := photon_indices';
        atl08_indices := atl08_indices' |}.

(** The variables of "Traverse Photons Until Desired Along Track Distance
    Reached", with the index lists of the worker. *)
Record photon_vars := {
  current_photon : Z;
  current_segment : Z;
  current_count : Z;
  extent_complete : bool;
  step_complete : bool;
  anc_lists : ancillary_indices;
  state : TrackState.t
}.

(** [while((current_segment < region.segment_ph_cnt.size) &&
           (current_count > region.segment_ph_cnt[current_segment]))
      { current_count = 1; current_segment++; }]
    [rest] counts the segments from [current_segment] to the end. *)
Fixpoint goto_photon_segment (cnt : list Z) (rest : nat)
  (segment count : Z) : outcome (Z * Z) :=
  match rest with
  | O => Ok (segment, count)
  | S rest' =>
      c <- rd (H5Array.get cnt segment) ;;
      if c <? count then goto_photon_segment cnt rest' (segment + 1) 1
      else Ok (segment, count)
  end.

Definition set_track_complete (st : TrackState.t) : TrackState.t :=
  {| TrackState.ph_in := TrackState.ph_in st;
     TrackState.seg_in := TrackState.seg_in st;
     TrackState.seg_ph := TrackState.seg_ph st;
     TrackState.start_segment := TrackState.start_segment st;
     TrackState.start_distance := TrackState.start_distance st;
     TrackState.seg_distance := TrackState.seg_distance st;
     TrackState.start_seg_portion := TrackState.start_seg_portion st;
     TrackState.track_complete := true;
     TrackState.bckgrd_in := TrackState.bckgrd_in st;
     TrackState.extent_segment := TrackState.extent_segment st;
     TrackState.extent_valid := TrackState.extent_valid st;
     TrackState.extent_length := TrackState.extent_length st;
     TrackState.extent_photons := TrackState.extent_photons st |}.

(** "Set Next Extent's First Photon". *)
Definition set_next_extent (st : TrackState.t) (photon segment count : Z)
  : TrackState.t :=
  {| TrackState.ph_in := photon;
     TrackState.seg_in := segment;
     TrackState.seg_ph := count - 1;
     TrackState.start_segment := TrackState.start_segment st;
     TrackState.start_distance := TrackState.start_distance st;
     TrackState.seg_distance := TrackState.seg_distance st;
     TrackState.start_seg_portion := TrackState.start_seg_portion st;
     TrackState.track_complete := TrackState.track_complete st;
     TrackState.bckgrd_in := TrackState.bckgrd_in st;
     TrackState.extent_segment := TrackState.extent_segment st;
     TrackState.extent_valid := TrackState.extent_valid st;
     TrackState.extent_length := TrackState.extent_length st;
     TrackState.extent_photons := TrackState.extent_photons st |}.

(** [state.extent_photons.add(ph)]. *)
Definition add_photon (st : TrackState.t) (ph : photon_t.t) : TrackState.t :=
  {| TrackState.ph_in := TrackState.ph_in st;
     TrackState.seg_in := TrackState.seg_in st;
     TrackState.seg_ph := TrackState.seg_ph st;
     TrackState.start_segment := TrackState.start_segment st;
     TrackState.start_distance := TrackState.start_distance st;
     TrackState.seg_distance := TrackState.seg_distance st;
     TrackState.start_seg_portion := TrackState.start_seg_portion st;
     TrackState.track_complete := TrackState.track_complete st;
     TrackState.bckgrd_in := TrackState.bckgrd_in st;
     TrackState.extent_segment := TrackState.extent_segment st;
     TrackState.extent_valid := TrackState.extent_valid st;
     TrackState.extent_length := TrackState.extent_length st;
     TrackState.extent_photons := TrackState.extent_photons st ++ [ph] |}.

(** One pass through the body of the photon loop. *)
Definition photon_body (parms : Icesat2Parms) (region : Region)
  (atl03 : Atl03Data.t) (atl08 : Atl08Class.t) (yapc_scores : YapcScore.t)
  (v : photon_vars) : outcome (loop_ctl photon_vars) :=
  let cnt := segment_ph_cnt region in
  '(segment, count) <-
    goto_photon_segment cnt (Z.to_nat (H5Array.size cnt - current_segment v))
      (current_segment v) (current_count v + 1) ;;
  if H5Array.size (Atl03Data.segment_dist_x atl03) <=? segment then
    Ok (Break {| current_photon := current_photon v;
                 current_segment := segment;
                 current_count := count;
                 extent_complete := extent_complete v;
                 step_complete := step_complete v;
                 anc_lists := anc_lists v;
                 state := set_track_complete (state v) |})
  else
    dist_x <- rd (H5Array.get (Atl03Data.segment_dist_x atl03) segment) ;;
    let delta_distance := (dist_x - TrackState.start_distance (state v))%float in
    along <- rd (H5Array.get (Atl03Data.dist_ph_along atl03) (current_photon v)) ;;
    let x_atc := (delta_distance + along)%float in
    let along_track_segments := segment - TrackState.extent_segment (state v) in
    stepped <-
      (if negb (step_complete v) then
         if negb (dist_in_seg parms) then Ok (fgeb x_atc (extent_step parms))
         else
           step <- double2int INT_MIN INT_MAX (extent_step parms) ;;
           Ok (step <=? along_track_segments)
       else Ok false) ;;
    let st1 := if stepped
               then set_next_extent (state v) (current_photon v) segment count
               else state v in
    let step_complete' := step_complete v || stepped in
    let within :=
      if negb (dist_in_seg parms)
      then PrimFloat.ltb x_atc (extent_length parms)
      else PrimFloat.ltb (Z2double along_track_segments) (extent_length parms) in
    '(st2, lists2, extent_complete') <-
      (if within then
         ph <- select_photon parms region atl03 atl08 yapc_scores st1 x_atc
                 (current_photon v) segment ;;
         match ph with
         | Some ph =>
             lists' <- index_photon atl08 (anc_lists v) (current_photon v) segment ;;
             Ok (add_photon st1 ph, lists', extent_complete v)
         | None => Ok (st1, anc_lists v, extent_complete v)
         end
       else Ok (st1, anc_lists v, true)) ;;
    let photon' := current_photon v + 1 in
    if H5Array.size (Atl03Data.dist_ph_along atl03) <=? photon' then
      Ok (Break {| current_photon := photon';
                   current_segment := segment;
                   current_count := count;
                   extent_complete := extent_complete';
                   step_complete := step_complete';
                   anc_lists := lists2;
                   state := set_track_complete st2 |})
    else
      Ok (Continue {| current_photon := photon';
                      current_segment := segment;
                      current_count := count;
                      extent_complete := extent_complete';
                      step_complete := step_complete';
                      anc_lists := lists2;
                      state := st2 |}).

(** [while(!extent_complete || !step_complete)].  A pass that does not
    [break] leaves [current_photon] below [dist_ph_along.size], so
    [rest = dist_ph_along.size - current_photon] bounds the passes; the
    branch for [rest = 0] is not reached from [subsetting_extent]
    ([photon_loop_rest]). *)
Fixpoint photon_loop (parms : Icesat2Parms) (region : Region)
  (atl03 : Atl03Data.t) (atl08 : Atl08Class.t) (yapc_scores : YapcScore.t)
  (rest : nat) (v : photon_vars) : outcome photon_vars :=
  if extent_complete v && step_complete v then Ok v
  else
    match rest with
    | O => Fault
    | S rest' =>
        r <- photon_body parms region atl03 atl08 yapc_scores v ;;
        match r with
        | Break v' => Ok v'
        | Continue v' => photon_loop parms region atl03 atl08 yapc_scores rest' v'
        end
    end.

(** [TrackState::TrackState]. *)
Definition TrackState_new (atl03 : Atl03Data.t) : outcome TrackState.t :=
  d0 <- rd (H5Array.get (Atl03Data.segment_dist_x atl03) 0) ;;
  Ok {| TrackState.ph_in := 0;
        TrackState.seg_in := 0;
        TrackState.seg_ph := 0;
        TrackState.start_segment := 0;
        TrackState.start_distance := d0;
        TrackState.seg_distance := 0;
        TrackState.start_seg_portion := 0;
        TrackState.track_complete := false;
        TrackState.bckgrd_in := 0;
        TrackState.extent_segment := 0;
        TrackState.extent_valid := true;
        TrackState.extent_length := 0;
        TrackState.extent_photons := [] |}.

(** "Apply Segment Distance Correction and Update Start Segment":
    [while(((start_segment + 1) < segment_dist_x.size) &&
           (start_distance >= segment_dist_x[start_segment + 1]))];
    [rest] counts the segments after [start_segment]. *)
Fixpoint correct_start_distance (atl03 : Atl03Data.t) (rest : nat)
  (start_segment : Z) (start_distance : float) : outcome (Z * float) :=
  match rest with
  | O => Ok (start_segment, start_distance)
  | S rest' =>
      next <- rd (H5Array.get (Atl03Data.segment_dist_x atl03) (start_segment + 1)) ;;
      if fgeb start_distance next then
        curr <- rd (H5Array.get (Atl03Data.segment_dist_x atl03) start_segment) ;;
        correct_start_distance atl03 rest' (start_segment + 1)
          (start_distance + (next - curr) - ATL03_SEGMENT_LENGTH)%float
      else Ok (start_segment, start_distance)
  end.

(** "Check Photon Count" and "Check Along Track Spread". *)
Definition check_extent_valid (parms : Icesat2Parms) (photons : list photon_t.t)
  : bool :=
  let enough := negb (Z.of_nat (length photons) <? minimum_photon_count parms) in
  let spread_ok :=
    match photons with
    | first :: _ :: _ =>
        let along_track_spread' :=
          float_sub (photon_t.x_atc (last photons first)) (photon_t.x_atc first) in
        negb (PrimFloat.ltb along_track_spread' (along_track_spread parms))
    | _ => true
    end in
  enough && spread_ok.

(** "Setup Variables for Extent", "Set Extent State" and the three blocks
    that empty the index lists of the ancillary fields: the variables with
    which the photon loop of an extent starts. *)
Definition extent_start (atl03 : Atl03Data.t) (atl08 : Atl08Class.t)
  (st : TrackState.t) (lists : ancillary_indices) : outcome photon_vars :=
  along <- rd (H5Array.get (Atl03Data.dist_ph_along atl03) (TrackState.ph_in st)) ;;
  Ok {| current_photon := TrackState.ph_in st;
        current_segment := TrackState.seg_in st;
        current_count := TrackState.seg_ph st;
        extent_complete := false;
        step_complete := false;
        anc_lists :=
          {| segment_indices :=
               clear_indices (Atl03Data.anc_geo_data atl03) (segment_indices lists);
             photon_indices :=
               clear_indices (Atl03Data.anc_ph_data atl03) (photon_indices lists);
             atl08_indices :=
               clear_indices (Atl08Class.anc_seg_data atl08) (atl08_indices lists) |};
        state :=
          {| TrackState.ph_in := TrackState.ph_in st;
             TrackState.seg_in := TrackState.seg_in st;
             TrackState.seg_ph := TrackState.seg_ph st;
             TrackState.start_segment := TrackState.start_segment st;
             TrackState.start_distance := TrackState.start_distance st;
             TrackState.seg_distance := TrackState.seg_distance st;
             TrackState.start_seg_portion := (along / ATL03_SEGMENT_LENGTH)%float;
             TrackState.track_complete := TrackState.track_complete st;
             TrackState.bckgrd_in := TrackState.bckgrd_in st;
             TrackState.extent_segment := TrackState.seg_in st;
             TrackState.extent_valid := true;
             TrackState.extent_length := TrackState.extent_length st;
             TrackState.extent_photons := [] |} |}.

(** What the worker puts on [outQ] in a pass of the extent loop: the extent
    record alone ([rec_list.size() == 1]), a container record with the extent
    record and the ancillary records after it, or the exception record of
    [generateExceptionStatus] when the building of the records threw. *)
Inductive worker_post :=
| post_record (extent : extent_t.t)
| post_container (extent : extent_t.t) (ancillary : list element_array_t)
| post_exception (e : RunTimeException).

(** The three calls of [generateAncillaryRecords] and "Send Records", for
    the extent record [generateExtentRecord] made. *)
Definition send_records (parms : Icesat2Parms) (atl03 : Atl03Data.t)
  (atl08 : Atl08Class.t) (extent_id : Z) (extent : extent_t.t)
  (lists : ancillary_indices) : outcome worker_post :=
  photon_records <-
    generateAncillaryRecords extent_id (atl03_ph_fields parms)
      (Atl03Data.anc_ph_data atl03) PHOTON_ANC_TYPE (photon_indices lists) ;;
  segment_records <-
    generateAncillaryRecords extent_id (atl03_geo_fields parms)
      (Atl03Data.anc_geo_data atl03) EXTENT_ANC_TYPE (segment_indices lists) ;;
  atl08_records <-
    generateAncillaryRecords extent_id (atl08_fields parms)
      (Atl08Class.anc_seg_data atl08) ATL08_ANC_TYPE (atl08_indices lists) ;;
  match photon_records ++ segment_records ++ atl08_records with
  | [] => Ok (post_record extent)
  | ancillary => Ok (post_container extent ancillary)
  end.

(** "Add Step to Start Distance": the start segment and the start distance
    of the next extent. *)
Definition step_start_distance (parms : Icesat2Parms) (atl03 : Atl03Data.t)
  (st1 : TrackState.t) : outcome (Z * float) :=
  if negb (dist_in_seg parms) then
    correct_start_distance atl03
      (Z.to_nat (H5Array.size (Atl03Data.segment_dist_x atl03)
                 - (TrackState.start_segment st1 + 1)))
      (TrackState.start_segment st1)
      (TrackState.start_distance st1 + extent_step parms)%float
  else
    step <- double2int INT_MIN INT_MAX (extent_step parms) ;;
    let next_segment := TrackState.extent_segment st1 + step in
    if next_segment <? H5Array.size (Atl03Data.segment_dist_x atl03) then
      d <- rd (H5Array.get (Atl03Data.segment_dist_x atl03) next_segment) ;;
      Ok (TrackState.start_segment st1, d)
    else Ok (TrackState.start_segment st1, TrackState.start_distance st1).

(** The state after the photon loop of an extent, once "Save Off Segment
    Distance", the step of the start distance, "Check Photon Count" and
    "Check Along Track Spread" are done. *)
Definition close_extent (parms : Icesat2Parms) (st1 : TrackState.t)
  (start_segment : Z) (start_distance : float) : TrackState.t :=
  {| TrackState.ph_in := TrackState.ph_in st1;
     TrackState.seg_in := TrackState.seg_in st1;
     TrackState.seg_ph := TrackState.seg_ph st1;
     TrackState.start_segment := start_segment;
     TrackState.start_distance := start_distance;
     TrackState.seg_distance :=
       (TrackState.start_distance st1 + TrackState.extent_length st1 / 2)%float;
     TrackState.start_seg_portion := TrackState.start_seg_portion st1;
     TrackState.track_complete := TrackState.track_complete st1;
     TrackState.bckgrd_in := TrackState.bckgrd_in st1;
     TrackState.extent_segment := TrackState.extent_segment st1;
     TrackState.extent_valid :=
       check_extent_valid parms (TrackState.extent_photons st1);
     TrackState.extent_length := TrackState.extent_length st1;
     TrackState.extent_photons := TrackState.extent_photons st1 |}.

(** One pass through the body of "Traverse All Photons In Dataset": the
    state and the index lists it leaves and what it puts on [outQ], if
    anything.  Nothing in [generateExtentRecord] throws; an exception of
    [generateAncillaryRecords] is caught inside the pass, which posts its
    record and goes on. *)
Definition subsetting_extent (reader : reader_t) (info : info_t)
  (parms : Icesat2Parms) (region : Region) (atl03 : Atl03Data.t)
  (atl08 : Atl08Class.t) (yapc_scores : YapcScore.t) (extent_counter : Z)
  (st : TrackState.t) (lists : ancillary_indices)
  : outcome (TrackState.t * ancillary_indices * list worker_post) :=
  v0 <- extent_start atl03 atl08 st lists ;;
  v <- photon_loop parms region atl03 atl08 yapc_scores
         (Z.to_nat (H5Array.size (Atl03Data.dist_ph_along atl03) - TrackState.ph_in st))
         v0 ;;
  '(start_segment, start_distance) <- step_start_distance parms atl03 (state v) ;;
  let st2 := close_extent parms (state v) start_segment start_distance in
  if TrackState.extent_valid st2 || pass_invalid parms then
    let extent_id :=
      generateExtentId (start_rgt reader) (start_cycle reader) (start_region reader)
        (track info) (pair info) extent_counter in
    '(extent, st3) <- generateExtentRecord reader parms extent_id info st2 atl03 ;;
    match send_records parms atl03 atl08 extent_id extent (anc_lists v) with
    | Ok post => Ok (st3, anc_lists v, [post])
    | Throw e => Ok (st3, anc_lists v, [post_exception e])
    | Fault => Fault
    end
  else Ok (st2, anc_lists v, []).

(** What a worker thread did: what it put on [outQ], in order, and how its
    [try] block ended. *)
Record thread_result := {
  records : list worker_post;
  ending : outcome unit
}.

(** The extent record of a post. *)
Definition posted_extent (post : worker_post) : list extent_t.t :=
  match post with
  | post_record extent | post_container extent _ => [extent]
  | post_exception _ => []
  end.

(** The extent records a worker posted, alone or in a container, in
    order. *)
Definition posted (r : thread_result) : list extent_t.t :=
  flat_map posted_extent (records r).

(** [while(reader->active && !state.track_complete)].  [reader->active] is
    cleared by another thread: [active_for] counts the tests of the flag that
    find it set. *)
Fixpoint extent_loop (reader : reader_t) (info : info_t)
  (parms : Icesat2Parms) (region : Region) (atl03 : Atl03Data.t)
  (atl08 : Atl08Class.t) (yapc_scores : YapcScore.t) (active_for : nat)
  (extent_counter : Z) (st : TrackState.t) (lists : ancillary_indices)
  (sent : list worker_post) : thread_result :=
  match active_for with
  | O => {| records := sent; ending := Ok tt |}
  | S active_for' =>
      if TrackState.track_complete st then {| records := sent; ending := Ok tt |}
      else
        match subsetting_extent reader info parms region atl03 atl08 yapc_scores
                extent_counter st lists with
        | Ok (st', lists', posts) =>
            extent_loop reader info parms region atl03 atl08 yapc_scores
              active_for' ((extent_counter + 1) mod 4294967296) st' lists'
              (sent ++ posts)
        | Throw e => {| records := sent; ending := Throw e |}
        | Fault => {| records := sent; ending := Fault |}
        end
  end.

(** The stages of the [try] block of [Atl03Reader::subsettingThread] before
    its loop: the crop, the ATL03 datasets, the YAPC scores, the ATL08
    classes and the track state with which the loop starts.  [lat], [lon]
    and [cnt] are the whole reference-photon and photon-count datasets of the
    beam, [read_atl03] the join of the ATL03 datasets for a crop, and [atl08]
    the ATL08 datasets as [Atl08Class::Atl08Class] leaves them. *)
Definition thread_setup (info : info_t) (parms : Icesat2Parms)
  (lat lon : list float) (cnt : list Z) (read_atl03 : Region -> Atl03Data.t)
  (atl08 : Atl08Class.t)
  : outcome (Region * Atl03Data.t * YapcScore.t * Atl08Class.t * TrackState.t) :=
  '(_, region) <- Region_new parms lat lon cnt ;;
  let atl03 := read_atl03 region in
  yapc_scores <- YapcScore_new parms region atl03 ;;
  atl08' <- classify info parms region atl03 atl08 ;;
  st <- TrackState_new atl03 ;;
  let extent_length' :=
    if dist_in_seg parms
    then (extent_length parms * ATL03_SEGMENT_LENGTH)%float
    else extent_length parms in
  Ok (region, atl03, yapc_scores, atl08',
      {| TrackState.ph_in := TrackState.ph_in st;
         TrackState.seg_in := TrackState.seg_in st;
         TrackState.seg_ph := TrackState.seg_ph st;
         TrackState.start_segment := TrackState.start_segment st;
         TrackState.start_distance := TrackState.start_distance st;
         TrackState.seg_distance := TrackState.seg_distance st;
         TrackState.start_seg_portion := TrackState.start_seg_portion st;
         TrackState.track_complete := TrackState.track_complete st;
         TrackState.bckgrd_in := TrackState.bckgrd_in st;
         TrackState.extent_segment := TrackState.extent_segment st;
         TrackState.extent_valid := TrackState.extent_valid st;
         TrackState.extent_length := extent_length';
         TrackState.extent_photons := TrackState.extent_photons st |}).

(** The index lists of a worker that starts: three NULL pointers. *)
Definition no_indices : ancillary_indices :=
  {| segment_indices := None; photon_indices := None; atl08_indices := None |}.

(** The [try] block of [Atl03Reader::subsettingThread]. *)
Definition subsettingThread (reader : reader_t) (info : info_t)
  (parms : Icesat2Parms) (lat lon : list float) (cnt : list Z)
  (read_atl03 : Region -> Atl03Data.t) (atl08 : Atl08Class.t)
  (active_for : nat) : thread_result :=
  match thread_setup info parms lat lon cnt read_atl03 atl08 with
  | Ok (region, atl03, yapc_scores, atl08', st) =>
      extent_loop reader info parms region atl03 atl08' yapc_scores active_for 0 st
        no_indices []
  | Throw e => {| records := []; ending := Throw e |}
  | Fault => {| records := []; ending := Fault |}
  end.

(* ================================================================== *)
(** * The passes of the two loops of the worker                        *)
(* ================================================================== *)

(** [photon_pass ... v0 v]: the photon loop of an extent, started with the
    variables [v0], comes to its test with the variables [v], after some
    number of passes that did not [break]. *)
Inductive photon_pass (parms : Icesat2Parms) (region : Region)
  (atl03 : Atl03Data.t) (atl08 : Atl08Class.t) (yapc_scores : YapcScore.t)
  (v0 : photon_vars) : photon_vars -> Prop :=
| photon_pass_first : photon_pass parms region atl03 atl08 yapc_scores v0 v0
| photon_pass_next (v v' : photon_vars) :
    photon_pass parms region atl03 atl08 yapc_scores v0 v ->
    extent_complete v && step_complete v = false ->
    photon_body parms region atl03 atl08 yapc_scores v = Ok (Continue v') ->
    photon_pass parms region atl03 atl08 yapc_scores v0 v'.

(** [extent_pass ... st0 k c st lists sent]: pass [k] of the extent loop,
    counted from 0, starts with [extent_counter = c], the state [st] and the
    index lists [lists], the worker having put [sent] on [outQ]; [st0] is the
    state with which the loop starts.  Every pass that comes to its end
    bumps the counter, whether it posted an extent or not. *)
Inductive extent_pass (reader : reader_t) (info : info_t)
  (parms : Icesat2Parms) (region : Region) (atl03 : Atl03Data.t)
  (atl08 : Atl08Class.t) (yapc_scores : YapcScore.t) (st0 : TrackState.t)
  : nat -> Z -> TrackState.t -> ancillary_indices -> list worker_post -> Prop :=
| extent_pass_first :
    extent_pass reader info parms region atl03 atl08 yapc_scores st0
      0 0 st0 no_indices []
| extent_pass_next (k : nat) (c : Z) (st : TrackState.t) (lists : ancillary_indices)
    (sent : list worker_post) (st' : TrackState.t) (lists' : ancillary_indices)
    (posts : list worker_post) :
    extent_pass reader info parms region atl03 atl08 yapc_scores st0
      k c st lists sent ->
    TrackState.track_complete st = false ->
    subsetting_extent reader info parms region atl03 atl08 yapc_scores c st lists
      = Ok (st', lists', posts) ->
    extent_pass reader info parms region atl03 atl08 yapc_scores st0
      (S k) ((c + 1) mod 4294967296) st' lists' (sent ++ posts).

(** Pass [k] of the extent loop posted [extent]. *)
Definition pass_posted (reader : reader_t) (info : info_t)
  (parms : Icesat2Parms) (region : Region) (atl03 : Atl03Data.t)
  (atl08 : Atl08Class.t) (yapc_scores : YapcScore.t) (st0 : TrackState.t)
  (k : nat) (extent : extent_t.t) : Prop :=
  exists c st lists sent st' lists' posts,
    extent_pass reader info parms region atl03 atl08 yapc_scores st0
      k c st lists sent /\
    TrackState.track_complete st = false /\
    subsetting_extent reader info parms region atl03 atl08 yapc_scores c st lists
      = Ok (st', lists', posts) /\
    In extent (flat_map posted_extent posts).

(** The worker, active for [active_for] tests of the flag, comes to a pass
    of the photon loop with the variables [v], having put [sent] on
    [outQ]. *)
Definition photon_reached (reader : reader_t) (info : info_t)
  (parms : Icesat2Parms) (region : Region) (atl03 : Atl03Data.t)
  (atl08 : Atl08Class.t) (yapc_scores : YapcScore.t) (st0 : TrackState.t)
  (active_for : nat) (v : photon_vars) (sent : list worker_post) : Prop :=
  exists k c st lists v0,
    extent_pass reader info parms region atl03 atl08 yapc_scores st0
      k c st lists sent /\
    (k < active_for)%nat /\
    TrackState.track_complete st = false /\
    extent_start atl03 atl08 st lists = Ok v0 /\
    photon_pass parms region atl03 atl08 yapc_scores v0 v /\
    extent_complete v && step_complete v = false.

(** The pass of the photon loop that starts with the variables [v] takes
    the photon [current_photon v] into the filter block: the photon is in
    the segment [segment] of the crop, at the along-track distance [x_atc]
    from the start of the extent, within the length of the extent, and
    [st1] is the state once "Check if Photon is Past Extent Step" is done. *)
Definition photon_examined (parms : Icesat2Parms) (region : Region)
  (atl03 : Atl03Data.t) (v : photon_vars) (segment : Z) (x_atc : float)
  (st1 : TrackState.t) : Prop :=
  let cnt := segment_ph_cnt region in
  exists count dist_x along stepped,
    goto_photon_segment cnt (Z.to_nat (H5Array.size cnt - current_segment v))
      (current_segment v) (current_count v + 1) = Ok (segment, count) /\
    segment < H5Array.size (Atl03Data.segment_dist_x atl03) /\
    H5Array.get (Atl03Data.segment_dist_x atl03) segment = Some dist_x /\
    H5Array.get (Atl03Data.dist_ph_along atl03) (current_photon v) = Some along /\
    x_atc = (dist_x - TrackState.start_distance (state v) + along)%float /\
    (if negb (step_complete v) then
       if negb (dist_in_seg parms) then Ok (fgeb x_atc (extent_step parms))
       else
         step <- double2int INT_MIN INT_MAX (extent_step parms) ;;
         Ok (step <=? segment - TrackState.extent_segment (state v))
     else Ok false) = Ok stepped /\
    st1 = (if stepped
           then set_next_extent (state v) (current_photon v) segment count
           else state v) /\
    (if negb (dist_in_seg parms)
     then PrimFloat.ltb x_atc (extent_length parms)
     else PrimFloat.ltb (Z2double (segment - TrackState.extent_segment (state v)))
            (extent_length parms)) = true.

(* ================================================================== *)
(** * The background rate as the specification words it                *)
(* ================================================================== *)

(** The index of the first background sample whose time is at or after [t],
    counting from index [i] at the head of [times]. *)
Fixpoint first_sample_from (times : list float) (t : float) (i : nat) : option nat :=
  match times with
  | [] => None
  | bckgrd_time :: later =>
      if fgeb bckgrd_time t then Some i else first_sample_from later t (S i)
  end.

(** The value at time [t] of the line through the samples [(t0, r0)] and
    [(t1, r1)], in point-slope form: the slope of the line, times the
    distance of [t] from [t0], added to [r0].  The operations are those of
    [double], which are not associative, so the form is part of the
    definition. *)
Definition line_through (t0 r0 t1 r1 t : float) : float :=
  let slope := ((r1 - r0) / (t1 - t0))%float in
  (slope * (t - t0) + r0)%float.

(** Piecewise-linear interpolation of the samples [(times[i], rates[i])],
    [i < rates.size], at time [t]: the first rate when [t] precedes the first
    sample, the last rate when [t] follows the last sample, and otherwise the
    value at [t] of the line through the two samples that bracket [t]. *)
Definition piecewise_linear (times rates : list float) (t : float) : option float :=
  match first_sample_from (firstn (length rates) times) t 0 with
  | None => nth_error rates (length rates - 1)
  | Some O => nth_error rates 0
  | Some (S i) =>
      match nth_error times i, nth_error rates i,
            nth_error times (S i), nth_error rates (S i) with
      | Some prev_time, Some prev_rate, Some next_time, Some next_rate =>
          Some (line_through prev_time prev_rate next_time next_rate t)
      | _, _, _, _ => None
      end
  end.

(** No background sample before the cursor is at or after [t]. *)
Definition cursor_behind (times : list float) (bckgrd_in : Z) (t : float) : Prop :=
  forall j bckgrd_time,
    0 <= j < bckgrd_in ->
    H5Array.get times j = Some bckgrd_time ->
    fgeb bckgrd_time t = false.

(** The times of the segments do not decrease along the track: the time of
    a segment is at or after the time of every segment before it. *)
Definition segment_times_ordered (segment_delta_time : list float) : Prop :=
  forall i j ti tj,
    0 <= i < j ->
    H5Array.get segment_delta_time i = Some ti ->
    H5Array.get segment_delta_time j = Some tj ->
    fgeb tj ti = true.

(** The cursor [bckgrd_in] is behind the time of every segment from
    [seg_in] on, the segments at which the extents to come start. *)
Definition cursor_behind_segments (atl03 : Atl03Data.t) (st : TrackState.t) : Prop :=
  0 <= TrackState.bckgrd_in st /\
  forall s t,
    TrackState.seg_in st <= s ->
    H5Array.get (Atl03Data.segment_delta_time atl03) s = Some t ->
    cursor_behind (Atl03Data.bckgrd_delta_time atl03) (TrackState.bckgrd_in st) t.

(** The [background_rate] of an extent record is the piecewise-linear
    interpolation of the background samples at the time of the segment at
    which the extent starts. *)
Definition rate_interpolated (atl03 : Atl03Data.t) (extent : extent_t.t) : Prop :=
  forall t,
    H5Array.get (Atl03Data.segment_delta_time atl03)
      (extent_t.ghost_extent_segment extent) = Some t ->
    piecewise_linear (Atl03Data.bckgrd_delta_time atl03) (Atl03Data.bckgrd_rate atl03) t
    = Some (extent_t.background_rate extent).

(* ================================================================== *)
(** * The ATL08 join as the specification words it                     *)
(* ================================================================== *)

(** ATL08 signal-photon row [k] is that of photon [atl03_count] of the
    segment with id [atl03_segment]. *)
Definition atl08_row (atl08 : Atl08Class.t) (k atl03_segment atl03_count : Z) : Prop :=
  H5Array.get (Atl08Class.atl08_segment_id atl08) k = Some atl03_segment /\
  H5Array.get (Atl08Class.atl08_pc_indx atl08) k = Some atl03_count.

(** [class] is the class the join gives ATL03 photon [atl03_count] of
    segment [atl03_segment]: the [classed_pc_flag] of the row that matches
    it when there is one, and [ATL08_UNCLASSIFIED] when there is none. *)
Definition joined_class (atl08 : Atl08Class.t) (atl03_segment atl03_count class : Z)
  : Prop :=
  (forall k flag,
     atl08_row atl08 k atl03_segment atl03_count ->
     H5Array.get (Atl08Class.atl08_pc_flag atl08) k = Some flag ->
     class = to_uint8 flag) /\
  ((forall k, ~ atl08_row atl08 k atl03_segment atl03_count) ->
   class = ATL08_UNCLASSIFIED).

(** The ATL08 rows are in the order of their segment id and, within a
    segment, of their photon index, no key twice. *)
Definition rows_sorted (atl08 : Atl08Class.t) : Prop :=
  forall j k idj idk,
    0 <= j < k ->
    H5Array.get (Atl08Class.atl08_segment_id atl08) j = Some idj ->
    H5Array.get (Atl08Class.atl08_segment_id atl08) k = Some idk ->
    idj <= idk /\
    (idj = idk ->
     forall ij ik,
       H5Array.get (Atl08Class.atl08_pc_indx atl08) j = Some ij ->
       H5Array.get (Atl08Class.atl08_pc_indx atl08) k = Some ik ->
       ij < ik).

(** The ATL03 segment ids increase along the track. *)
Definition segments_increasing (segment_id : list Z) : Prop :=
  forall i j a b,
    0 <= i < j ->
    H5Array.get segment_id i = Some a ->
    H5Array.get segment_id j = Some b ->
    a < b.

(** The index, on the photon axis of the crop, of photon [atl03_count]
    (counted from 1) of the segment at position [s]: the photons of the
    segments before it come first. *)
Definition photon_index (cnt : list Z) (s atl03_count : Z) : Z :=
  sum_counts (map (Z.max 0) (slice cnt 0 s)) + (atl03_count - 1).

(** An [Atl03Data] of which only the background datasets and the segment
    times matter. *)
Definition background_data (rates times segment_times : list float) : Atl03Data.t :=
  {| Atl03Data.sc_orient := [];
     Atl03Data.velocity_sc := [];
     Atl03Data.segment_delta_time := segment_times;
     Atl03Data.segment_id := [];
     Atl03Data.segment_dist_x := [];
     Atl03Data.solar_elevation := [];
     Atl03Data.dist_ph_along := [];
     Atl03Data.dist_ph_across := [];
     Atl03Data.h_ph := [];
     Atl03Data.signal_conf_ph := [];
     Atl03Data.quality_ph := [];
     Atl03Data.lat_ph := [];
     Atl03Data.lon_ph := [];
     Atl03Data.delta_time := [];
     Atl03Data.bckgrd_delta_time := times;
     Atl03Data.bckgrd_rate := rates;
     Atl03Data.anc_geo_data := None;
     Atl03Data.anc_ph_data := None |}.

(** A track state standing at background sample [bckgrd_in] and extent
    segment [extent_segment]. *)
Definition state_at (bckgrd_in extent_segment : Z) : TrackState.t :=
  {| TrackState.ph_in := 0;
     TrackState.seg_in := 0;
     TrackState.seg_ph := 0;
     TrackState.start_segment := 0;
     TrackState.start_distance := 0;
     TrackState.seg_distance := 0;
     TrackState.start_seg_portion := 0;
     TrackState.track_complete := false;
     TrackState.bckgrd_in := bckgrd_in;
     TrackState.extent_segment := extent_segment;
     TrackState.extent_valid := true;
     TrackState.extent_length := 0;
     TrackState.extent_photons := [] |}.

(* ================================================================== *)
(** * The ABoVE condition as the specification words it                *)
(* ================================================================== *)

(** "Solar elevation at segment [s] <= 5 degrees, spot in {1, 3, 5}, signal
    confidence at this photon == [CNF_SURFACE_HIGH], and relief in [0, 35)
    m", for the photon at index [photon] of the segment at position [s]. *)
Definition above_applies (info : info_t) (atl03 : Atl03Data.t) (s photon : Z)
  (rel : float) : outcome bool :=
  orient <- rd (H5Array.get (Atl03Data.sc_orient atl03) 0) ;;
  let spot := to_uint8 (getSpotNumber orient (track info) (pair info)) in
  elev <- rd (H5Array.get (Atl03Data.solar_elevation atl03) s) ;;
  cnf <- rd (H5Array.get (Atl03Data.signal_conf_ph atl03) photon) ;;
  Ok (PrimFloat.leb elev 5
      && ((spot =? 1) || (spot =? 3) || (spot =? 5))
      && (cnf =? CNF_SURFACE_HIGH)
      && (fgeb rel 0 && PrimFloat.ltb rel 35)).

(* ================================================================== *)
(** * Scenarios of the specification                                   *)
(* ================================================================== *)

(** A request with no spatial filter, no stage enabled, and every
    confidence, quality and class accepted. *)
Definition plain_parms : Icesat2Parms :=
  {| raster := None;
     points_in_poly := 0;
     inpoly := fun _ _ => false;
     stage_atl08 := false;
     stage_yapc := false;
     stage_phoreal := false;
     yapc := {| yapc_score := 0; yapc_version := 3; yapc_knn := 0;
                yapc_min_knn := 5; yapc_win_h := 6; yapc_win_x := 15 |};
     phoreal := {| use_abs_h := false; above_classifier := false |};
     atl03_cnf := fun _ => true;
     quality_ph := fun _ => true;
     atl08_class := fun _ => true;
     extent_length := 40;
     extent_step := 20;
     dist_in_seg := false;
     minimum_photon_count := 1;
     along_track_spread := 0;
     pass_invalid := true;
     atl03_geo_fields := None;
     atl03_ph_fields := None;
     atl08_fields := None |}.

(** [plain_parms] with the ATL08 stage enabled. *)
Definition atl08_parms : Icesat2Parms :=
  {| raster := None;
     points_in_poly := 0;
     inpoly := fun _ _ => false;
     stage_atl08 := true;
     stage_yapc := false;
     stage_phoreal := false;
     yapc := yapc plain_parms;
     phoreal := phoreal plain_parms;
     atl03_cnf := fun _ => true;
     quality_ph := fun _ => true;
     atl08_class := fun _ => true;
     extent_length := 40;
     extent_step := 20;
     dist_in_seg := false;
     minimum_photon_count := 1;
     along_track_spread := 0;
     pass_invalid := true;
     atl03_geo_fields := None;
     atl03_ph_fields := None;
     atl08_fields := None |}.

(** A region that is the whole track with photon counts [cnt]. *)
Definition whole_track (cnt : list Z) : Region :=
  {| segment_lat := map (fun _ => 0%float) cnt;
     segment_lon := map (fun _ => 0%float) cnt;
     segment_ph_cnt := cnt;
     first_segment := 0;
     num_segments := H5Array.size cnt;
     first_photon := 0;
     num_photons := sum_counts cnt;
     inclusion_mask := None;
     inclusion_ptr := None |}.

(** ATL03 datasets for segments with ids [ids] and solar elevations
    [elevations], and photons with along-track distances [along], heights
    [heights] and signal confidences [confidences]; the segments start 20 m
    apart, and the background rate is sampled as in scenario 6. *)
Definition track_data (ids : list Z) (elevations along heights : list float)
  (confidences qualities : list Z) : Atl03Data.t :=
  {| Atl03Data.sc_orient := [0];
     Atl03Data.velocity_sc := flat_map (fun _ => [7000; 0; 0]%float) ids;
     Atl03Data.segment_delta_time := map (fun _ => 7%float) ids;
     Atl03Data.segment_id := ids;
     Atl03Data.segment_dist_x :=
       map (fun i => (Z2double (Z.of_nat i) * 20)%float) (seq 0 (length ids));
     Atl03Data.solar_elevation := elevations;
     Atl03Data.dist_ph_along := along;
     Atl03Data.dist_ph_across := map (fun _ => 0%float) along;
     Atl03Data.h_ph := heights;
     Atl03Data.signal_conf_ph := confidences;
     Atl03Data.quality_ph := qualities;
     Atl03Data.lat_ph := map (fun _ => 0%float) along;
     Atl03Data.lon_ph := map (fun _ => 0%float) along;
     Atl03Data.delta_time := map (fun _ => 0%float) along;
     Atl03Data.bckgrd_delta_time := [0; 10]%float;
     Atl03Data.bckgrd_rate := [100; 200]%float;
     Atl03Data.anc_geo_data := None;
     Atl03Data.anc_ph_data := None |}.

(** The ATL08 datasets with signal-photon rows [(ids[k], indxs[k],
    flags[k])] and heights [heights], one land segment starting at segment
    [beg], as the constructor leaves them. *)
Definition atl08_rows (phoreal : bool) (ids indxs flags : list Z)
  (heights : list float) (beg : Z) : Atl08Class.t :=
  {| Atl08Class.enabled := true;
     Atl08Class.phoreal := phoreal;
     Atl08Class.ancillary := false;
     Atl08Class.classification := None;
     Atl08Class.relief := None;
     Atl08Class.landcover := None;
     Atl08Class.snowcover := None;
     Atl08Class.atl08_segment_id := ids;
     Atl08Class.atl08_pc_indx := indxs;
     Atl08Class.atl08_pc_flag := flags;
     Atl08Class.atl08_ph_h := heights;
     Atl08Class.segment_id_beg := [beg];
     Atl08Class.segment_landcover := [0];
     Atl08Class.segment_snowcover := [0];
     Atl08Class.anc_seg_data := None;
     Atl08Class.anc_seg_indices := None |}.

(** Scenario 3: ATL03 segment 100 with three photons, and the ATL08 rows
    [(100, 1, 1)] and [(100, 3, 3)]. *)
Definition scenario3_atl03 : Atl03Data.t :=
  track_data [100] [10%float] [1; 2; 3]%float [1; 2; 3]%float [4; 4; 4] [0; 0; 0].

Definition scenario3_atl08 : Atl08Class.t :=
  atl08_rows false [100; 100] [1; 3] [1; 3] [] 100.

(** Scenario 6: background times [[0, 10]], background rates [[100, 200]],
    segment time 7. *)
Definition scenario6_atl03 : Atl03Data.t :=
  background_data [100; 200]%float [0; 10]%float [7%float].

(* ================================================================== *)
(** * The spread of a segment as the specification words it            *)
(* ================================================================== *)

(** Height and along-track extrema "over the center band", the photons
    [ph_c0 .. ph_c1 - 1]. *)
Definition center_band_spread (atl03 : Atl03Data.t) (ph_c0 ph_c1 : Z)
  : outcome spread_vars :=
  h0 <- rd (H5Array.get (Atl03Data.h_ph atl03) ph_c0) ;;
  x0 <- rd (H5Array.get (Atl03Data.dist_ph_along atl03) ph_c0) ;;
  spread_loop atl03 (Z.to_nat (ph_c1 - ph_c0 - 1)) (ph_c0 + 1)
    {| min_h := h0; max_h := h0; min_x := x0; max_x := x0 |}.

(** Two segments of three photons.  The photons of the first segment are at
    heights 4, 5, 6; those of the second are all at height 5. *)
Definition yapc_two_segments : Atl03Data.t :=
  track_data [100; 101] [10; 10]%float
    [0; 1; 2; 0; 1; 2]%float [4; 5; 6; 5; 5; 5]%float
    [4; 4; 4; 4; 4; 4] [0; 0; 0; 0; 0; 0].

(** YAPC version 2 with [knn = 1] and a 15 m by 6 m window. *)
Definition yapc_v2_parms (knn : Z) : Icesat2Parms :=
  {| raster := None;
     points_in_poly := 0;
     inpoly := fun _ _ => false;
     stage_atl08 := false;
     stage_yapc := true;
     stage_phoreal := false;
     yapc := {| yapc_score := 0; yapc_version := 2; yapc_knn := knn;
                yapc_min_knn := 5; yapc_win_h := 6; yapc_win_x := 15 |};
     phoreal := phoreal plain_parms;
     atl03_cnf := fun _ => true;
     quality_ph := fun _ => true;
     atl08_class := fun _ => true;
     extent_length := 40;
     extent_step := 20;
     dist_in_seg := false;
     minimum_photon_count := 1;
     along_track_spread := 0;
     pass_invalid := true;
     atl03_geo_fields := None;
     atl03_ph_fields := None;
     atl08_fields := None |}.

(* ================================================================== *)
(** * Invariants of the loops                                          *)
(* ================================================================== *)

(** What the polygon scan has established when it stands at [pv_segment]. *)
Definition polyregion_inv (cnt : list Z) (np0 fs0 : Z) (v : polyregion_vars) : Prop :=
  0 <= pv_segment v /\
  if pv_first_segment_found v then
    0 <= pv_first_segment v <= pv_segment v /\
    pv_first_photon v = sum_counts (slice cnt 0 (pv_first_segment v)) /\
    pv_num_photons v =
      sum_counts (slice cnt (pv_first_segment v) (pv_segment v - pv_first_segment v))
  else
    pv_first_photon v = sum_counts (slice cnt 0 (pv_segment v)) /\
    pv_num_photons v = np0 /\ pv_first_segment v = fs0.

(** What the raster scan has established when it stands at [rv_segment]. *)
Definition rasterregion_inv (cnt : list Z) (np0 fs0 : Z) (v : rasterregion_vars) : Prop :=
  0 <= rv_segment v /\
  if rv_first_segment_found v then
    0 <= rv_first_segment v <= rv_last_segment v /\
    rv_last_segment v < rv_segment v /\
    rv_first_photon v = sum_counts (slice cnt 0 (rv_first_segment v)) /\
    rv_num_photons v =
      sum_counts (slice cnt (rv_first_segment v)
                    (rv_last_segment v + 1 - rv_first_segment v)) /\
    rv_curr_num_photons v =
      sum_counts (slice cnt (rv_first_segment v) (rv_segment v - rv_first_segment v))
  else
    rv_first_photon v = sum_counts (slice cnt 0 (rv_segment v)) /\
    rv_num_photons v = np0 /\ rv_first_segment v = fs0.

(** Every acceptance test passes at a photon of an extent: [ph] was added at
    ATL03 photon [ghost_photon] of segment [ghost_segment], carries the
    confidence and quality of that photon, and passed the confidence table,
    the quality table, the ATL08 class table when [classification] is
    allocated, the YAPC threshold when [score] is allocated, and the
    inclusion mask when there is one. *)
Definition photon_passes (parms : Icesat2Parms) (region : Region)
  (atl03 : Atl03Data.t) (atl08 : Atl08Class.t) (yapc_scores : YapcScore.t)
  (ph : photon_t.t) : Prop :=
  H5Array.get (Atl03Data.signal_conf_ph atl03) (photon_t.ghost_photon ph)
    = Some (photon_t.atl03_cnf ph) /\
  atl03_cnf parms (photon_t.atl03_cnf ph + SIGNAL_CONF_OFFSET) = true /\
  H5Array.get (Atl03Data.quality_ph atl03) (photon_t.ghost_photon ph)
    = Some (photon_t.quality_ph ph) /\
  quality_ph parms (photon_t.quality_ph ph) = true /\
  (forall classification,
     Atl08Class.classification atl08 = Some classification ->
     load classification (photon_t.ghost_photon ph) = Ok (photon_t.atl08_class ph) /\
     atl08_class parms (photon_t.atl08_class ph) = true) /\
  (forall score,
     YapcScore.score yapc_scores = Some score ->
     load score (photon_t.ghost_photon ph) = Ok (photon_t.yapc_score ph) /\
     yapc_score (yapc parms) <= photon_t.yapc_score ph) /\
  (forall mask,
     inclusion_ptr region = Some mask ->
     load mask (photon_t.ghost_segment ph) = Ok true).

(** Every ATL08 row before cursor [k] is keyed below [(seg, c)]. *)
Definition rows_below_key (atl08 : Atl08Class.t) (k seg c : Z) : Prop :=
  forall j idj,
    0 <= j < k ->
    H5Array.get (Atl08Class.atl08_segment_id atl08) j = Some idj ->
    idj < seg \/
    (idj = seg /\
     exists ij, H5Array.get (Atl08Class.atl08_pc_indx atl08) j = Some ij /\ ij < c).

(** Every ATL08 row before cursor [k] belongs to a segment before those at
    positions [s0] and later. *)
Definition rows_below_segments (atl03 : Atl03Data.t) (atl08 : Atl08Class.t)
  (k s0 : Z) : Prop :=
  forall j idj s seg,
    0 <= j < k ->
    H5Array.get (Atl08Class.atl08_segment_id atl08) j = Some idj ->
    s0 <= s ->
    H5Array.get (Atl03Data.segment_id atl03) s = Some seg ->
    idj < seg.

(* ================================================================== *)
(** * Concrete beams                                                   *)
(* ================================================================== *)

Definition sample_reader : reader_t :=
  {| start_rgt := 1234; start_cycle := 5; start_region := 6 |}.

Definition sample_info : info_t := {| track := 1; pair := 0 |}.

(** A version 3 scorer that gives every photon the score 0. *)
Definition sample_yapcV3 (parms : Icesat2Parms) (region : Region)
  (atl03 : Atl03Data.t) : outcome (cells Z) :=
  Ok (repeat (Some 0) (length (Atl03Data.dist_ph_along atl03))).

(** ** A polygon crop *)

(** Five segments with photon counts 2, 0, 3, 1, 4; the polygon holds the
    segments whose reference longitude is above 0.5, those of index 1, 2
    and 3.  Segment 1 has no photon, so the crop starts at segment 2. *)
Definition polygon_parms : Icesat2Parms :=
  {| raster := None;
     points_in_poly := 4;
     inpoly := fun lon lat => PrimFloat.ltb 0.5 lon;
     stage_atl08 := false;
     stage_yapc := false;
     stage_phoreal := false;
     yapc := yapc plain_parms;
     phoreal := phoreal plain_parms;
     atl03_cnf := fun _ => true;
     quality_ph := fun _ => true;
     atl08_class := fun _ => true;
     extent_length := 40;
     extent_step := 20;
     dist_in_seg := false;
     minimum_photon_count := 1;
     along_track_spread := 0;
     pass_invalid := true;
     atl03_geo_fields := None;
     atl03_ph_fields := None;
     atl08_fields := None |}.

Definition polygon_lon : list float := [0; 1; 1; 1; 0]%float.

Definition polygon_lat : list float := [0; 0; 0; 0; 0]%float.

Definition polygon_cnt : list Z := [2; 0; 3; 1; 4].

Definition polygon_crop : Region :=
  {| segment_lat := [0; 0; 0]%float;
     segment_lon := [1; 1; 0]%float;
     segment_ph_cnt := [3; 1; 4];
     first_segment := 2;
     num_segments := 2;
     first_photon := 2;
     num_photons := 4;
     inclusion_mask := None;
     inclusion_ptr := None |}.

(** ** A beam filtered by ATL08 class *)

(** [atl08_parms] with the ATL08 class table accepting every class but
    unclassified. *)
Definition classified_parms : Icesat2Parms :=
  {| raster := None;
     points_in_poly := 0;
     inpoly := fun _ _ => false;
     stage_atl08 := true;
     stage_yapc := false;
     stage_phoreal := false;
     yapc := yapc plain_parms;
     phoreal := phoreal plain_parms;
     atl03_cnf := fun _ => true;
     quality_ph := fun _ => true;
     atl08_class := fun class => negb (class =? Sample.ATL08_UNCLASSIFIED);
     extent_length := 40;
     extent_step := 20;
     dist_in_seg := false;
     minimum_photon_count := 1;
     along_track_spread := 0;
     pass_invalid := true;
     atl03_geo_fields := None;
     atl03_ph_fields := None;
     atl08_fields := None |}.

(** Photon [p] of scenario 3 as an extent holds it. *)
Definition scenario3_photon (p : Z) (x_atc height : float) (class : Z) : photon_t.t :=
  {| photon_t.time_ns := 0;
     photon_t.latitude := 0;
     photon_t.longitude := 0;
     photon_t.x_atc := x_atc;
     photon_t.y_atc := 0;
     photon_t.height := height;
     photon_t.relief := 0;
     photon_t.landcover := 255;
     photon_t.snowcover := 255;
     photon_t.atl08_class := class;
     photon_t.atl03_cnf := 4;
     photon_t.quality_ph := 0;
     photon_t.yapc_score := 0;
     photon_t.ghost_photon := p;
     photon_t.ghost_segment := 0 |}.

(** The extent made of the first and the last photon of scenario 3. *)
Definition classified_extent : extent_t.t :=
  {| extent_t.valid := true;
     extent_t.extent_id := 0;
     extent_t.track := 1;
     extent_t.pair := 0;
     extent_t.spacecraft_orientation := 0;
     extent_t.reference_ground_track := 1234;
     extent_t.cycle := 5;
     extent_t.segment_id := 101;
     extent_t.segment_distance := 20;
     extent_t.extent_length := 40;
     extent_t.background_rate := 170;
     extent_t.solar_elevation := 10;
     extent_t.photon_count := 2;
     extent_t.spacecraft_velocity := 7000;
     extent_t.photons := [scenario3_photon 0 (-19) 1 1; scenario3_photon 2 (-17) 3 3];
     extent_t.ghost_extent_segment := 0 |}.

(** ** A photon of odd quality that the confidence table rejects *)

(** [plain_parms] with the confidence table accepting [CNF_SURFACE_HIGH]
    only. *)
Definition strict_parms : Icesat2Parms :=
  {| raster := None;
     points_in_poly := 0;
     inpoly := fun _ _ => false;
     stage_atl08 := false;
     stage_yapc := false;
     stage_phoreal := false;
     yapc := yapc plain_parms;
     phoreal := phoreal plain_parms;
     atl03_cnf := fun i => i =? Sample.CNF_SURFACE_HIGH + Sample.SIGNAL_CONF_OFFSET;
     quality_ph := fun _ => true;
     atl08_class := fun _ => true;
     extent_length := 40;
     extent_step := 20;
     dist_in_seg := false;
     minimum_photon_count := 1;
     along_track_spread := 0;
     pass_invalid := true;
     atl03_geo_fields := None;
     atl03_ph_fields := None;
     atl08_fields := None |}.

(** One segment of two photons.  The first has signal confidence 0 and
    quality 100, outside [[QUALITY_NOMINAL, QUALITY_POSSIBLE_TEP]]; the second
    has confidence 4 and quality 0. *)
Definition odd_quality_atl03 : Atl03Data.t :=
  track_data [100] [10%float] [1; 2]%float [1; 2]%float [0; 4] [100; 0].

Definition no_atl08 : Atl08Class.t := atl08_rows false [] [] [] [] 100.

(** ** A photon of odd confidence inside an extent *)

(** Four segments of one photon each, 20 m apart.  The photon of the third
    segment has signal confidence 9, outside
    [[CNF_POSSIBLE_TEP, CNF_SURFACE_HIGH]]. *)
Definition odd_confidence_atl03 : Atl03Data.t :=
  track_data [100; 101; 102; 103] [10; 10; 10; 10]%float [0; 0; 0; 0]%float
    [1; 2; 3; 4]%float [4; 4; 9; 4] [0; 0; 0; 0].

(** ** A first extent that is filtered out *)

(** [plain_parms] asking for two photons in an extent, and not for the
    extents that fail. *)
Definition sparse_parms : Icesat2Parms :=
  {| raster := None;
     points_in_poly := 0;
     inpoly := fun _ _ => false;
     stage_atl08 := false;
     stage_yapc := false;
     stage_phoreal := false;
     yapc := yapc plain_parms;
     phoreal := phoreal plain_parms;
     atl03_cnf := fun _ => true;
     quality_ph := fun _ => true;
     atl08_class := fun _ => true;
     extent_length := 40;
     extent_step := 20;
     dist_in_seg := false;
     minimum_photon_count := 2;
     along_track_spread := 0;
     pass_invalid := false;
     atl03_geo_fields := None;
     atl03_ph_fields := None;
     atl08_fields := None |}.

(** Three segments, 20 m apart, with 1, 0 and 2 photons: the first extent
    holds one photon, the second two. *)
Definition sparse_atl03 : Atl03Data.t :=
  track_data [100; 101; 102] [10; 10; 10]%float [0; 0; 5]%float
    [1; 2; 3]%float [4; 4; 4] [0; 0; 0].

(** ** A beam read with ancillary fields *)

(** An array of [n] elements of one byte each: element [index] is serialized
    as the byte [index], and there is no element outside the array. *)
Definition byte_array (n : Z) : H5DArray.t :=
  {| H5DArray.elementSize := 1;
     H5DArray.elementType := 0;
     H5DArray.serialize :=
       fun index => if (0 <=? index) && (index <? n) then Ok [index] else Fault |}.

(** The names of three ancillary fields. *)
Section Field_names.
Import String.
Definition geo_field : String.string := "segment_id"%string.
Definition ph_field : String.string := "h_ph"%string.
Definition land_field : String.string := "canopy_h_metrics"%string.
End Field_names.

(** [atl08_parms] asking for one ancillary field of each kind. *)
Definition ancillary_parms : Icesat2Parms :=
  {| raster := None;
     points_in_poly := 0;
     inpoly := fun _ _ => false;
     stage_atl08 := true;
     stage_yapc := false;
     stage_phoreal := false;
     yapc := yapc plain_parms;
     phoreal := phoreal plain_parms;
     atl03_cnf := fun _ => true;
     quality_ph := fun _ => true;
     atl08_class := fun _ => true;
     extent_length := 40;
     extent_step := 20;
     dist_in_seg := false;
     minimum_photon_count := 1;
     along_track_spread := 0;
     pass_invalid := true;
     atl03_geo_fields := Some [geo_field];
     atl03_ph_fields := Some [ph_field];
     atl08_fields := Some [land_field] |}.

(** The ATL03 datasets of scenario 3 with an ancillary dataset of one
    element for its segment and one of three elements for its photons. *)
Definition ancillary_atl03 : Atl03Data.t :=
  {| Atl03Data.sc_orient := Atl03Data.sc_orient scenario3_atl03;
     Atl03Data.velocity_sc := Atl03Data.velocity_sc scenario3_atl03;
     Atl03Data.segment_delta_time := Atl03Data.segment_delta_time scenario3_atl03;
     Atl03Data.segment_id := Atl03Data.segment_id scenario3_atl03;
     Atl03Data.segment_dist_x := Atl03Data.segment_dist_x scenario3_atl03;
     Atl03Data.solar_elevation := Atl03Data.solar_elevation scenario3_atl03;
     Atl03Data.dist_ph_along := Atl03Data.dist_ph_along scenario3_atl03;
     Atl03Data.dist_ph_across := Atl03Data.dist_ph_across scenario3_atl03;
     Atl03Data.h_ph := Atl03Data.h_ph scenario3_atl03;
     Atl03Data.signal_conf_ph := Atl03Data.signal_conf_ph scenario3_atl03;
     Atl03Data.quality_ph := Atl03Data.quality_ph scenario3_atl03;
     Atl03Data.lat_ph := Atl03Data.lat_ph scenario3_atl03;
     Atl03Data.lon_ph := Atl03Data.lon_ph scenario3_atl03;
     Atl03Data.delta_time := Atl03Data.delta_time scenario3_atl03;
     Atl03Data.bckgrd_delta_time := Atl03Data.bckgrd_delta_time scenario3_atl03;
     Atl03Data.bckgrd_rate := Atl03Data.bckgrd_rate scenario3_atl03;
     Atl03Data.anc_geo_data := Some (fun _ => Ok (byte_array 1));
     Atl03Data.anc_ph_data := Some (fun _ => Ok (byte_array 3)) |}.

(** The ATL08 datasets of scenario 3 as the constructor leaves them for a
    request with ancillary ATL08 fields: [ancillary] is set and the
    dictionary holds a dataset of one element, for the one land segment. *)
Definition ancillary_atl08 : Atl08Class.t :=
  {| Atl08Class.enabled := Atl08Class.enabled scenario3_atl08;
     Atl08Class.phoreal := false;
     Atl08Class.ancillary := true;
     Atl08Class.classification := None;
     Atl08Class.relief := None;
     Atl08Class.landcover := None;
     Atl08Class.snowcover := None;
     Atl08Class.atl08_segment_id := Atl08Class.atl08_segment_id scenario3_atl08;
     Atl08Class.atl08_pc_indx := Atl08Class.atl08_pc_indx scenario3_atl08;
     Atl08Class.atl08_pc_flag := Atl08Class.atl08_pc_flag scenario3_atl08;
     Atl08Class.atl08_ph_h := Atl08Class.atl08_ph_h scenario3_atl08;
     Atl08Class.segment_id_beg := Atl08Class.segment_id_beg scenario3_atl08;
     Atl08Class.segment_landcover := Atl08Class.segment_landcover scenario3_atl08;
     Atl08Class.segment_snowcover := Atl08Class.segment_snowcover scenario3_atl08;
     Atl08Class.anc_seg_data := Some (fun _ => Ok (byte_array 1));
     Atl08Class.anc_seg_indices := None |}.

(** [ancillary_atl08] after the join: the first and the last photon are
    matched and belong to land segment 0, the second is not matched. *)
Definition ancillary_joined : Atl08Class.t :=
  {| Atl08Class.enabled := Atl08Class.enabled ancillary_atl08;
     Atl08Class.phoreal := false;
     Atl08Class.ancillary := true;
     Atl08Class.classification := Some [Some 1; Some Sample.ATL08_UNCLASSIFIED; Some 3];
     Atl08Class.relief := None;
     Atl08Class.landcover := None;
     Atl08Class.snowcover := None;
     Atl08Class.atl08_segment_id := Atl08Class.atl08_segment_id ancillary_atl08;
     Atl08Class.atl08_pc_indx := Atl08Class.atl08_pc_indx ancillary_atl08;
     Atl08Class.atl08_pc_flag := Atl08Class.atl08_pc_flag ancillary_atl08;
     Atl08Class.atl08_ph_h := Atl08Class.atl08_ph_h ancillary_atl08;
     Atl08Class.segment_id_beg := Atl08Class.segment_id_beg ancillary_atl08;
     Atl08Class.segment_landcover := Atl08Class.segment_landcover ancillary_atl08;
     Atl08Class.segment_snowcover := Atl08Class.segment_snowcover ancillary_atl08;
     Atl08Class.anc_seg_data := Atl08Class.anc_seg_data ancillary_atl08;
     Atl08Class.anc_seg_indices := Some [Some 0; Some Sample.INVALID_INDICE; Some 0] |}.

(** [ancillary_parms] with the ATL08 stage off. *)
Definition unjoined_parms : Icesat2Parms :=
  {| raster := None;
     points_in_poly := 0;
     inpoly := fun _ _ => false;
     stage_atl08 := false;
     stage_yapc := false;
     stage_phoreal := false;
     yapc := yapc plain_parms;
     phoreal := phoreal plain_parms;
     atl03_cnf := fun _ => true;
     quality_ph := fun _ => true;
     atl08_class := fun _ => true;
     extent_length := 40;
     extent_step := 20;
     dist_in_seg := false;
     minimum_photon_count := 1;
     along_track_spread := 0;
     pass_invalid := true;
     atl03_geo_fields := Some [geo_field];
     atl03_ph_fields := Some [ph_field];
     atl08_fields := Some [land_field] |}.

(** ** Joins that the forward cursor misses *)

(** Segment 100 with two photons, and the ATL08 rows [(100, 2, 2)] and
    [(100, 1, 1)], the second photon first. *)
Definition two_photons_atl03 : Atl03Data.t :=
  track_data [100] [10%float] [1; 2]%float [1; 2]%float [4; 4] [0; 0].

Definition unsorted_atl08 : Atl08Class.t :=
  atl08_rows false [100; 100] [2; 1] [2; 1] [] 100.

(** Segment 101 before segment 100, one photon each, and the ATL08 rows
    [(100, 1, 1)] and [(101, 1, 2)]. *)
Definition backward_atl03 : Atl03Data.t :=
  track_data [101; 100] [10; 10]%float [1; 2]%float [1; 2]%float [4; 4] [0; 0].

Definition two_segments_atl08 : Atl08Class.t :=
  atl08_rows false [100; 101] [1; 1] [1; 2] [] 100.

(** ** Segments with times of their own *)

(** Four segments of one photon each, 20 m apart, with the times
    [segment_times]; the background rate is sampled at the times 0, 10 and
    20, at 100, 200 and 250. *)
Definition timed_track (segment_times : list float) : Atl03Data.t :=
  let track :=
    track_data [100; 101; 102; 103] [10; 10; 10; 10]%float [0; 0; 0; 0]%float
      [1; 2; 3; 4]%float [4; 4; 4; 4] [0; 0; 0; 0] in
  {| Atl03Data.sc_orient := Atl03Data.sc_orient track;
     Atl03Data.velocity_sc := Atl03Data.velocity_sc track;
     Atl03Data.segment_delta_time := segment_times;
     Atl03Data.segment_id := Atl03Data.segment_id track;
     Atl03Data.segment_dist_x := Atl03Data.segment_dist_x track;
     Atl03Data.solar_elevation := Atl03Data.solar_elevation track;
     Atl03Data.dist_ph_along := Atl03Data.dist_ph_along track;
     Atl03Data.dist_ph_across := Atl03Data.dist_ph_across track;
     Atl03Data.h_ph := Atl03Data.h_ph track;
     Atl03Data.signal_conf_ph := Atl03Data.signal_conf_ph track;
     Atl03Data.quality_ph := Atl03Data.quality_ph track;
     Atl03Data.lat_ph := Atl03Data.lat_ph track;
     Atl03Data.lon_ph := Atl03Data.lon_ph track;
     Atl03Data.delta_time := Atl03Data.delta_time track;
     Atl03Data.bckgrd_delta_time := [0; 10; 20]%float;
     Atl03Data.bckgrd_rate := [100; 200; 250]%float;
     Atl03Data.anc_geo_data := None;
     Atl03Data.anc_ph_data := None |}.

(** ** More neighbours asked for than [MAX_KNN] *)

(** One segment of 27 photons, a metre apart along the track, at heights
    0, 1, 2, 0, 1, 2, ... *)
Definition dense_segment : Atl03Data.t :=
  track_data [100] [10%float]
    (map (fun i => Z2double (Z.of_nat i)) (seq 0 27))
    (map (fun i => Z2double (Z.of_nat i mod 3)) (seq 0 27))
    (repeat 4 27) (repeat 0 27).

(** ** A segment whose id is not its position *)

(** [atl08_parms] with the PhoREAL stage and the ABoVE classifier. *)
Definition above_parms : Icesat2Parms :=
  {| raster := None;
     points_in_poly := 0;
     inpoly := fun _ _ => false;
     stage_atl08 := true;
     stage_yapc := false;
     stage_phoreal := true;
     yapc := yapc plain_parms;
     phoreal := {| use_abs_h := false; above_classifier := true |};
     atl03_cnf := fun _ => true;
     quality_ph := fun _ => true;
     atl08_class := fun _ => true;
     extent_length := 40;
     extent_step := 20;
     dist_in_seg := false;
     minimum_photon_count := 1;
     along_track_spread := 0;
     pass_invalid := true;
     atl03_geo_fields := None;
     atl03_ph_fields := None;
     atl08_fields := None |}.

(** Segments with ids 1 and 2, at positions 0 and 1, with solar elevations
    10 and 0 degrees.  The only photon is in segment 1, at position 0, with
    signal confidence [CNF_SURFACE_HIGH]; ATL08 has it as row [(1, 1, 1)]
    with a relief of 10 m. *)
Definition above_atl03 : Atl03Data.t :=
  track_data [1; 2] [10; 0]%float [1]%float [1]%float [Sample.CNF_SURFACE_HIGH] [0].

Definition above_atl08 : Atl08Class.t := atl08_rows true [1] [1] [1] [10%float] 1.

(* ================================================================== *)
(** * The crop of a region, segment by segment                         *)
(* ================================================================== *)

(** The test a request applies to a reference photon: the raster when there
    is one, the polygon otherwise. *)
Definition spatial_filter (parms : Icesat2Parms) : float -> float -> bool :=
  match raster parms with
  | Some includes => includes
  | None => inpoly parms
  end.

(** Segment [s] has photons and its reference photon passes [inside]. *)
Definition selected_by (inside : float -> float -> bool) (lat lon : list float)
  (cnt : list Z) (s : Z) : Prop :=
  exists lat_s lon_s c,
    H5Array.get lat s = Some lat_s /\
    H5Array.get lon s = Some lon_s /\
    H5Array.get cnt s = Some c /\
    c <> 0 /\ inside lon_s lat_s = true.

(** Segment [s] has photons and its reference photon fails [inside]. *)
Definition rejected_by (inside : float -> float -> bool) (lat lon : list float)
  (cnt : list Z) (s : Z) : Prop :=
  exists lat_s lon_s c,
    H5Array.get lat s = Some lat_s /\
    H5Array.get lon s = Some lon_s /\
    H5Array.get cnt s = Some c /\
    c <> 0 /\ inside lon_s lat_s = false.

Definition segment_selected (parms : Icesat2Parms) (lat lon : list float)
  (cnt : list Z) (s : Z) : Prop :=
  selected_by (spatial_filter parms) lat lon cnt s.

(** The per-segment datasets cover every segment that has a photon count,
    and no count is negative. *)
Definition segments_well_formed (lat lon : list float) (cnt : list Z) : Prop :=
  H5Array.size cnt <= H5Array.size lat /\
  H5Array.size cnt <= H5Array.size lon /\
  forall s c, H5Array.get cnt s = Some c -> 0 <= c.

(** What the polygon scan knows about the segments before [pv_segment]. *)
Definition polyregion_scan (parms : Icesat2Parms) (lat lon : list float)
  (cnt : list Z) (v : polyregion_vars) : Prop :=
  0 <= pv_segment v /\
  if pv_first_segment_found v then
    0 <= pv_first_segment v < pv_segment v /\
    selected_by (inpoly parms) lat lon cnt (pv_first_segment v) /\
    (forall s, 0 <= s < pv_first_segment v ->
       ~ selected_by (inpoly parms) lat lon cnt s) /\
    (forall s, pv_first_segment v <= s < pv_segment v ->
       ~ rejected_by (inpoly parms) lat lon cnt s)
  else
    forall s, 0 <= s < pv_segment v -> ~ selected_by (inpoly parms) lat lon cnt s.

(** What the raster scan knows about the segments before [rv_segment], and
    the cells of the inclusion mask it has written. *)
Definition rasterregion_scan (includes : float -> float -> bool)
  (lat lon : list float) (cnt : list Z) (v : rasterregion_vars) : Prop :=
  0 <= rv_segment v /\
  length (rv_inclusion_mask v) = length cnt /\
  (forall s c, 0 <= s < rv_segment v -> H5Array.get cnt s = Some c -> c <> 0 ->
     exists lat_s lon_s,
       H5Array.get lat s = Some lat_s /\ H5Array.get lon s = Some lon_s /\
       H5Array.get (rv_inclusion_mask v) s = Some (Some (includes lon_s lat_s))) /\
  (forall s, (rv_segment v <= s \/ H5Array.get cnt s = Some 0) ->
     0 <= s < H5Array.size cnt ->
     H5Array.get (rv_inclusion_mask v) s = Some None) /\
  if rv_first_segment_found v then
    0 <= rv_first_segment v <= rv_last_segment v /\
    rv_last_segment v < rv_segment v /\
    selected_by includes lat lon cnt (rv_first_segment v) /\
    selected_by includes lat lon cnt (rv_last_segment v) /\
    (forall s, 0 <= s < rv_first_segment v -> ~ selected_by includes lat lon cnt s) /\
    (forall s, rv_last_segment v < s < rv_segment v ->
       ~ selected_by includes lat lon cnt s)
  else
    forall s, 0 <= s < rv_segment v -> ~ selected_by includes lat lon cnt s.

(* ================================================================== *)
(** * A raster crop                                                    *)
(* ================================================================== *)

(** [polygon_parms] with a raster that holds the reference photons whose
    longitude is above 0.5. *)
Definition raster_parms : Icesat2Parms :=
  {| raster := Some (fun lon lat => PrimFloat.ltb 0.5 lon);
     points_in_poly := 0;
     inpoly := fun _ _ => false;
     stage_atl08 := false;
     stage_yapc := false;
     stage_phoreal := false;
     yapc := yapc plain_parms;
     phoreal := phoreal plain_parms;
     atl03_cnf := fun _ => true;
     quality_ph := fun _ => true;
     atl08_class := fun _ => true;
     extent_length := 40;
     extent_step := 20;
     dist_in_seg := false;
     minimum_photon_count := 1;
     along_track_spread := 0;
     pass_invalid := true;
     atl03_geo_fields := None;
     atl03_ph_fields := None;
     atl08_fields := None |}.

(** Six segments.  Segments 1, 3 and 4 are inside the raster, segment 3 has
    no photon, and segment 2, outside the raster, lies between segments that
    are inside. *)
Definition raster_lon : list float := [0; 1; 0; 1; 1; 0]%float.

Definition raster_lat : list float := [0; 0; 0; 0; 0; 0]%float.

Definition raster_cnt : list Z := [2; 3; 5; 0; 1; 4].

Definition raster_crop : Region :=
  {| segment_lat := [0; 0; 0; 0; 0]%float;
     segment_lon := [1; 0; 1; 1; 0]%float;
     segment_ph_cnt := [3; 5; 0; 1; 4];
     first_segment := 1;
     num_segments := 4;
     first_photon := 2;
     num_photons := 9;
     inclusion_mask :=
       Some [Some false; Some true; Some false; None; Some true; Some false];
     inclusion_ptr := Some [Some true; Some false; None; Some true; Some false] |}.

(* ================================================================== *)
(** * What a posted extent holds                                       *)
(* ================================================================== *)

(** The fields of a photon record that are copies of the ATL03 datasets at
    the photon it was made from. *)
Definition photon_copied (atl03 : Atl03Data.t) (ph : photon_t.t) : Prop :=
  let p := photon_t.ghost_photon ph in
  (exists dt, H5Array.get (Atl03Data.delta_time atl03) p = Some dt /\
              photon_t.time_ns ph = deltatime2timestamp dt) /\
  H5Array.get (Atl03Data.lat_ph atl03) p = Some (photon_t.latitude ph) /\
  H5Array.get (Atl03Data.lon_ph atl03) p = Some (photon_t.longitude ph) /\
  H5Array.get (Atl03Data.dist_ph_across atl03) p = Some (photon_t.y_atc ph) /\
  H5Array.get (Atl03Data.h_ph atl03) p = Some (photon_t.height ph).

(** The PhoREAL fields of a photon record: those of the ATL08 arrays at the
    photon ([h_ph] for the relief under [use_abs_h]) when PhoREAL is on, and
    [0.0] and [INVALID_FLAG] otherwise. *)
Definition photon_phoreal (parms : Icesat2Parms) (atl03 : Atl03Data.t)
  (atl08 : Atl08Class.t) (ph : photon_t.t) : Prop :=
  let p := photon_t.ghost_photon ph in
  if Atl08Class.phoreal atl08 then
    (if use_abs_h (phoreal parms)
     then H5Array.get (Atl03Data.h_ph atl03) p = Some (photon_t.relief ph)
     else exists relief, Atl08Class.relief atl08 = Some relief /\
                         load relief p = Ok (photon_t.relief ph)) /\
    (exists landcover, Atl08Class.landcover atl08 = Some landcover /\
                       load landcover p = Ok (photon_t.landcover ph)) /\
    (exists snowcover, Atl08Class.snowcover atl08 = Some snowcover /\
                       load snowcover p = Ok (photon_t.snowcover ph))
  else
    photon_t.relief ph = 0%float /\
    photon_t.landcover ph = INVALID_FLAG /\
    photon_t.snowcover ph = INVALID_FLAG.

(** Photon [a] was taken from the photon axis before photon [b], from the
    same segment or an earlier one. *)
Definition photon_before (a b : photon_t.t) : Prop :=
  photon_t.ghost_photon a < photon_t.ghost_photon b /\
  photon_t.ghost_segment a <= photon_t.ghost_segment b.

(** The photons of an extent are in the order of the photon axis. *)
Definition photons_in_order (photons : list photon_t.t) : Prop :=
  forall i j a b,
    (i < j)%nat ->
    nth_error photons i = Some a ->
    nth_error photons j = Some b ->
    photon_before a b.

(** The length of an extent in meters, as [subsettingThread] sets it. *)
Definition thread_extent_length (parms : Icesat2Parms) : float :=
  if dist_in_seg parms
  then (extent_length parms * ATL03_SEGMENT_LENGTH)%float
  else extent_length parms.
(** The integers of a list increase with the position. *)
Definition increasing (l : list Z) : Prop :=
  forall i j a b,
    (i < j)%nat -> nth_error l i = Some a -> nth_error l j = Some b -> a < b.

(** What [subsetting_extent] puts in the record of the extent it posts on
    pass [extent_counter], for an extent of length [len]. *)
Definition extent_record (reader : reader_t) (info : info_t)
  (parms : Icesat2Parms) (region : Region) (atl03 : Atl03Data.t)
  (atl08 : Atl08Class.t) (yapc_scores : YapcScore.t) (len : float)
  (extent_counter : Z) (e : extent_t.t) : Prop :=
  extent_t.extent_id e
    = generateExtentId (start_rgt reader) (start_cycle reader) (start_region reader)
        (track info) (pair info) extent_counter /\
  extent_t.track e = to_uint8 (track info) /\
  extent_t.pair e = to_uint8 (pair info) /\
  extent_t.reference_ground_track e = start_rgt reader mod 65536 /\
  extent_t.cycle e = start_cycle reader mod 65536 /\
  extent_t.extent_length e = len /\
  extent_t.photon_count e = Z.of_nat (length (extent_t.photons e)) mod 4294967296 /\
  extent_t.valid e = check_extent_valid parms (extent_t.photons e) /\
  (extent_t.valid e = true \/ pass_invalid parms = true) /\
  photons_in_order (extent_t.photons e) /\
  Forall (fun ph =>
            exists st x_atc,
              select_photon parms region atl03 atl08 yapc_scores st x_atc
                (photon_t.ghost_photon ph) (photon_t.ghost_segment ph)
                = Ok (Some ph)) (extent_t.photons e).

(* ================================================================== *)
(** * YAPC version 2, segment by segment                               *)
(* ================================================================== *)

(** An outcome that is not a C++ exception. *)
Definition no_throw {A} (m : outcome A) : Prop := forall e, m <> Throw e.

(** The variables of [yapcV2] when it enters "Loop Through Each ATL03
    Segment". *)
Definition yapcV2_init (atl03 : Atl03Data.t) : yapc_vars :=
  {| ph_b0 := 0; ph_b1 := 0; ph_c0 := 0; ph_c1 := 0;
     yv_score := repeat (Some 0) (Z.to_nat (H5Array.size (Atl03Data.dist_ph_along atl03)));
     yv_nearest_neighbors := new_cells MAX_KNN;
     fates := [] |}.

(** What [yapcV2] did with segment [k], which has [N] photons and for which
    "Calculate N and KNN" gave [knn]: the test it failed, or the center band
    it scored, which starts after the photons of the [k] segments before. *)
Definition fate_of_segment (parms : Icesat2Parms) (cnt : list Z) (k N knn : Z)
  (fate : segment_fate) : Prop :=
  match fate with
  | SkippedCount => N <= knn \/ N < minimum_photon_count parms
  | SkippedSpread c0 c1 hspread xspread =>
      c0 = sum_counts (slice cnt 0 k) /\ c1 = c0 + N /\
      knn < N /\ minimum_photon_count parms <= N /\
      invalid_spread hspread xspread = true
  | Scored c0 c1 knn' hspread xspread =>
      c0 = sum_counts (slice cnt 0 k) /\ c1 = c0 + N /\ knn' = knn /\
      knn < N /\ minimum_photon_count parms <= N /\
      invalid_spread hspread xspread = false
  end.

(** The variables of [yapcV2] after [k] passes of its segment loop over
    [n] segments. *)
Definition yapcV2_passed (parms : Icesat2Parms) (cnt : list Z) (n k : Z)
  (v : yapc_vars) : Prop :=
  ph_b0 v = sum_counts (slice cnt 0 (k - 2)) /\
  ph_c0 v = sum_counts (slice cnt 0 (k - 1)) /\
  ph_c1 v = sum_counts (slice cnt 0 k) /\
  ph_b1 v = sum_counts (slice cnt 1 (Z.min k (n - 1))) /\
  Z.of_nat (length (fates v)) = k /\
  (forall j fate,
     nth_error (fates v) j = Some fate ->
     exists N knn,
       H5Array.get cnt (Z.of_nat j) = Some N /\
       yapcV2_knn (yapc parms) N = Ok knn /\
       fate_of_segment parms cnt (Z.of_nat j) N knn fate) /\
  (forall i cell,
     H5Array.get (yv_score v) i = Some cell ->
     exists sc, cell = Some sc /\ 0 <= sc <= 255 /\
       (sc <> 0 ->
        exists c0 c1 knn hspread xspread,
          In (Scored c0 c1 knn hspread xspread) (fates v) /\ c0 <= i < c1)).


(* ================================================================== *)
(** * The ATL08 join, photon by photon                                 *)
(* ================================================================== *)

(** What an array of [Atl08Class] holds at index [p]: nothing when the
    array is not allocated, when [p] is outside it, or when the cell was
    never written. *)
Definition cell {A} (a : option (cells A)) (p : Z) : option A :=
  match a with
  | Some arr =>
      match H5Array.get arr p with
      | Some (Some x) => Some x
      | _ => None
      end
  | None => None
  end.

(** [Atl08Class] after [classify] filled the arrays of [v]. *)
Definition classify_result (atl08 : Atl08Class.t) (v : classify_vars) : Atl08Class.t :=
  {| Atl08Class.enabled := Atl08Class.enabled atl08;
     Atl08Class.phoreal := Atl08Class.phoreal atl08;
     Atl08Class.ancillary := Atl08Class.ancillary atl08;
     Atl08Class.classification := Some (cv_classification v);
     Atl08Class.relief :=
       if Atl08Class.phoreal atl08 then Some (cv_relief v) else None;
     Atl08Class.landcover :=
       if Atl08Class.phoreal atl08 then Some (cv_landcover v) else None;
     Atl08Class.snowcover :=
       if Atl08Class.phoreal atl08 then Some (cv_snowcover v) else None;
     Atl08Class.atl08_segment_id := Atl08Class.atl08_segment_id atl08;
     Atl08Class.atl08_pc_indx := Atl08Class.atl08_pc_indx atl08;
     Atl08Class.atl08_pc_flag := Atl08Class.atl08_pc_flag atl08;
     Atl08Class.atl08_ph_h := Atl08Class.atl08_ph_h atl08;
     Atl08Class.segment_id_beg := Atl08Class.segment_id_beg atl08;
     Atl08Class.segment_landcover := Atl08Class.segment_landcover atl08;
     Atl08Class.segment_snowcover := Atl08Class.segment_snowcover atl08;
     Atl08Class.anc_seg_data := Atl08Class.anc_seg_data atl08;
     Atl08Class.anc_seg_indices :=
       if Atl08Class.ancillary atl08 then Some (cv_anc_seg_indices v) else None |}.

(** The arrays of [v'] hold at [q] what those of [v] hold. *)
Definition same_cells (v v' : classify_vars) (q : Z) : Prop :=
  H5Array.get (cv_classification v') q = H5Array.get (cv_classification v) q /\
  H5Array.get (cv_relief v') q = H5Array.get (cv_relief v) q /\
  H5Array.get (cv_landcover v') q = H5Array.get (cv_landcover v) q /\
  H5Array.get (cv_snowcover v') q = H5Array.get (cv_snowcover v) q /\
  H5Array.get (cv_anc_seg_indices v') q = H5Array.get (cv_anc_seg_indices v) q.

(** The branch "Unclassified" at ATL03 photon [p]. *)
Definition photon_unmatched (atl08' : Atl08Class.t) (p : Z) : Prop :=
  cell (Atl08Class.classification atl08') p = Some ATL08_UNCLASSIFIED /\
  (Atl08Class.phoreal atl08' = true ->
   cell (Atl08Class.relief atl08') p = Some 0%float /\
   cell (Atl08Class.landcover atl08') p = Some INVALID_FLAG /\
   cell (Atl08Class.snowcover atl08') p = Some INVALID_FLAG) /\
  (Atl08Class.ancillary atl08' = true ->
   cell (Atl08Class.anc_seg_indices atl08') p = Some INVALID_INDICE).

(** The branch "Assign Classification" at ATL03 photon [p], photon
    [atl03_count] of the segment with id [atl03_segment], taken with the
    cursor at ATL08 row [k]. *)
Definition photon_matched (parms : Icesat2Parms) (atl08 atl08' : Atl08Class.t)
  (atl03_segment atl03_count p k : Z) : Prop :=
  atl08_row atl08 k atl03_segment atl03_count /\
  (exists flag,
     H5Array.get (Atl08Class.atl08_pc_flag atl08) k = Some flag /\
     (cell (Atl08Class.classification atl08') p = Some (to_uint8 flag) \/
      (Atl08Class.phoreal atl08 && above_classifier (phoreal parms) = true /\
       cell (Atl08Class.classification atl08') p = Some ATL08_TOP_OF_CANOPY))) /\
  (Atl08Class.phoreal atl08 = true ->
   exists h,
     H5Array.get (Atl08Class.atl08_ph_h atl08) k = Some h /\
     cell (Atl08Class.relief atl08') p = Some h).

(** The PhoREAL flags and the ancillary index of ATL03 photon [p] are those
    of land segment [index]. *)
Definition land_fields (atl08 atl08' : Atl08Class.t) (p index : Z) : Prop :=
  (Atl08Class.phoreal atl08 = true ->
   exists lc sc,
     H5Array.get (Atl08Class.segment_landcover atl08) index = Some lc /\
     cell (Atl08Class.landcover atl08') p = Some (to_uint8 lc) /\
     H5Array.get (Atl08Class.segment_snowcover atl08) index = Some sc /\
     cell (Atl08Class.snowcover atl08') p = Some (to_uint8 sc)) /\
  (Atl08Class.ancillary atl08 = true ->
   cell (Atl08Class.anc_seg_indices atl08') p = Some index).

(** Every land segment before the cursor [index] was passed because an
    ATL03 segment at position [s] or before lies after its span. *)
Definition land_behind (atl03 : Atl03Data.t) (atl08 : Atl08Class.t) (index s : Z)
  : Prop :=
  0 <= index /\
  forall j beg,
    0 <= j < index ->
    H5Array.get (Atl08Class.segment_id_beg atl08) j = Some beg ->
    exists s' seg',
      0 <= s' <= s /\
      H5Array.get (Atl03Data.segment_id atl03) s' = Some seg' /\
      beg + NUM_ATL03_SEGS_IN_ATL08_SEG <= seg'.

(** The land segment cursor stands at [index] while the photons of the
    ATL03 segment at position [s], with id [atl03_segment], are joined. *)
Definition land_at (atl03 : Atl03Data.t) (atl08 : Atl08Class.t)
  (s atl03_segment index : Z) : Prop :=
  land_behind atl03 atl08 index s /\
  forall beg,
    H5Array.get (Atl08Class.segment_id_beg atl08) index = Some beg ->
    atl03_segment < beg + NUM_ATL03_SEGS_IN_ATL08_SEG.

(** [index] is the first land segment whose span of
    [NUM_ATL03_SEGS_IN_ATL08_SEG] ATL03 segments ends after [atl03_segment]. *)
Definition first_land_segment (atl08 : Atl08Class.t) (atl03_segment index : Z)
  : Prop :=
  0 <= index /\
  (forall j beg,
     0 <= j < index ->
     H5Array.get (Atl08Class.segment_id_beg atl08) j = Some beg ->
     beg + NUM_ATL03_SEGS_IN_ATL08_SEG <= atl03_segment) /\
  (forall beg,
     H5Array.get (Atl08Class.segment_id_beg atl08) index = Some beg ->
     atl03_segment < beg + NUM_ATL03_SEGS_IN_ATL08_SEG).

(** What [classify] leaves at ATL03 photon [p], photon [atl03_count] of the
    segment at position [s]. *)
Definition photon_classified (parms : Icesat2Parms) (atl03 : Atl03Data.t)
  (atl08 atl08' : Atl08Class.t) (s atl03_segment atl03_count p : Z) : Prop :=
  photon_unmatched atl08' p \/
  exists k,
    photon_matched parms atl08 atl08' atl03_segment atl03_count p k /\
    (Atl08Class.phoreal atl08 || Atl08Class.ancillary atl08 = true ->
     exists index,
       land_at atl03 atl08 s atl03_segment index /\
       land_fields atl08 atl08' p index).

(* ================================================================== *)
(** * The constructor of the reader                                    *)
(* ================================================================== *)

(** [Icesat2Parms::NUM_TRACKS], [NUM_PAIR_TRACKS] and [ALL_TRACKS]. *)
Variable NUM_TRACKS : Z.
Variable NUM_PAIR_TRACKS : Z.
Variable ALL_TRACKS : Z.

(** [for(int pair = 0; pair < NUM_PAIR_TRACKS; pair++)] of "Create
    Readers", for the request's [parms->track]: the [info_t] of the threads
    it starts, in the order of [readerPid].  [rest] counts the pairs left. *)
Fixpoint create_pairs (parms_track track' : Z) (rest : nat) (pair' : Z)
  : list info_t :=
  match rest with
  | O => []
  | S rest' =>
      (if (parms_track =? ALL_TRACKS) || (track' =? parms_track)
       then [{| track := track'; pair := pair' |}]
       else [])
      ++ create_pairs parms_track track' rest' (pair' + 1)
  end.

(** [for(int track = 1; track <= NUM_TRACKS; track++)]. *)
Fixpoint create_tracks (parms_track : Z) (rest : nat) (track' : Z) : list info_t :=
  match rest with
  | O => []
  | S rest' =>
      create_pairs parms_track track' (Z.to_nat NUM_PAIR_TRACKS) 0
      ++ create_tracks parms_track rest' (track' + 1)
  end.

Definition create_readers (parms_track : Z) : list info_t :=
  create_tracks parms_track (Z.to_nat NUM_TRACKS) 1.

(** [str[n] = c], for an index inside the string. *)
Fixpoint set_char (str : String.string) (n : nat) (c : Ascii.ascii) : String.string :=
  match str, n with
  | String.EmptyString, _ => String.EmptyString
  | String.String _ rest, O => String.String c rest
  | String.String c0 rest, S n' => String.String c0 (set_char rest n' c)
  end.

(** [resource08 = StringLib::duplicate(resource); resource08[4] = '8';]
    The copy holds the characters of the name and the terminating NUL.  On
    a name of exactly four characters the write replaces that NUL: the five
    bytes of the copy then hold the name and ['8'], and no terminator.  On a
    shorter name the write is outside the copy. *)
Definition atl08_resource (resource : String.string) : outcome String.string :=
  if 4 <? StringLib.size resource then
    Ok (set_char resource 4 (Ascii.ascii_of_nat 56))
  else if 4 =? StringLib.size resource then
    Ok (String.append (String.substring 0 4 resource)
          (String.String (Ascii.ascii_of_nat 56) String.EmptyString))
  else Fault.

(** What the [try] block of the constructor threw: an exception of
    [parseResource], or "No reader threads were created, invalid track
    specified: %d". *)
Inductive reader_failure :=
| global_information (e : RunTimeException)
| no_reader_threads (parms_track : Z).

Definition failure_level (f : reader_failure) : event_level_t :=
  match f with
  | global_information e => rte_level e
  | no_reader_threads _ => CRITICAL
  end.

Definition failure_code (f : reader_failure) : rte_code_t :=
  match f with
  | global_information e => rte_code e
  | no_reader_threads _ => RTE_ERROR
  end.

(** A message of the reader itself on [outQ]: the record of
    [LuaEndpoint::generateExceptionStatus(code, level, ...)], or the empty
    message that ends the stream. *)
Inductive reader_msg :=
| exception_status (code : rte_code_t) (level : event_level_t) (f : reader_failure)
| terminator.

(** The reader the constructor leaves: the name of its ATL08 granule, the
    globals of [parseResource] when it returned, the threads started, what
    was posted, and whether [signalComplete] was called. *)
Record constructed := {
  c_resource08 : String.string;
  c_globals : option reader_t;
  c_threads : list info_t;
  c_outq : list reader_msg;
  c_complete : bool
}.

(** The [catch] block of the constructor. *)
Definition construction_failed (resource08 : String.string)
  (globals : option reader_t) (send_terminator : bool) (f : reader_failure)
  : constructed :=
  let code :=
    match failure_code f with
    | RTE_TIMEOUT => RTE_TIMEOUT
    | _ => RTE_RESOURCE_DOES_NOT_EXIST
    end in
  {| c_resource08 := resource08;
     c_globals := globals;
     c_threads := [];
     c_outq := exception_status code (failure_level f) f
               :: (if send_terminator then [terminator] else []);
     c_complete := true |}.

(** [Atl03Reader::Atl03Reader], for the request's [parms->track].  The
    capacity of [readerPid] is declared in the header and not modelled. *)
Definition Atl03Reader_new (_resource : String.string) (parms_track : Z)
  (_send_terminator : bool) : outcome constructed :=
  resource08 <- atl08_resource _resource ;;
  match parseResource _resource with
  | Ok (rgt, cycle, region) =>
      let globals :=
        Some {| start_rgt := rgt; start_cycle := cycle; start_region := region |} in
      let threads := create_readers parms_track in
      if Z.of_nat (length threads) =? 0 then
        Ok (construction_failed resource08 globals _send_terminator
              (no_reader_threads parms_track))
      else
        Ok {| c_resource08 := resource08;
              c_globals := globals;
              c_threads := threads;
              c_outq := [];
              c_complete := false |}
  | Throw e =>
      Ok (construction_failed resource08 None _send_terminator
            (global_information e))
  | Fault => Fault
  end.

(** Beam [a] comes before beam [b]: by track, then by pair. *)
Definition beam_before (a b : info_t) : Prop :=
  track a < track b \/ (track a = track b /\ pair a < pair b).

(** The beams of a list are in the order of track and then pair. *)
Definition beams_in_order (beams : list info_t) : Prop :=
  forall i j a b,
    (i < j)%nat ->
    nth_error beams i = Some a ->
    nth_error beams j = Some b ->
    beam_before a b.

(** The granule of reference ground track 1234, cycle 5 and region 6. *)
Section Resource_name.
Import String.
Definition sample_resource : String.string :=
  "ATL03_20200101000000_12340506_005_01.h5"%string.

(** A name of four characters, and the five bytes of its copy once
    [resource08[4]] is written. *)
Definition short_resource : String.string := "ATL0"%string.
Definition short_resource08 : String.string := "ATL08"%string.
End Resource_name.

(* ================================================================== *)
(** * The end of the workers                                           *)
(* ================================================================== *)

(** What a worker posts: an extent record, or the exception record of
    its [catch] block. *)
Inductive worker_record :=
| rec_extent (e : extent_t.t)
| rec_exception (e : RunTimeException).

(** A message on [outQ]: the record of a worker, or the empty message that
    ends the stream. *)
Inductive stream_msg :=
| msg_record (m : worker_record)
| msg_terminator.

(** What the workers of a reader share when they end: [threadCount],
    [numComplete], the messages on [outQ] and the calls of
    [signalComplete]. *)
Record completion := {
  threadCount : Z;
  numComplete : Z;
  outQ : list stream_msg;
  signalled : Z
}.

(** A worker posts [m]. *)
Definition worker_posts (m : worker_record) (r : completion) : completion :=
  {| threadCount := threadCount r;
     numComplete := numComplete r;
     outQ := outQ r ++ [msg_record m];
     signalled := signalled r |}.

(** "Count Completion", under [threadMut]. *)
Definition worker_completes (sendTerminator : bool) (r : completion) : completion :=
  let numComplete' := numComplete r + 1 in
  if numComplete' =? threadCount r then
    {| threadCount := threadCount r;
       numComplete := numComplete';
       outQ := outQ r ++ (if sendTerminator then [msg_terminator] else []);
       signalled := signalled r + 1 |}
  else
    {| threadCount := threadCount r;
       numComplete := numComplete';
       outQ := outQ r;
       signalled := signalled r |}.

(** What a worker does to the shared state. *)
Inductive worker_event :=
| posts (m : worker_record)
| completes.

(** The workers interleaved: each step is an event of one of the workers
    still [running], and a worker that completes leaves them.  The result is
    [None] for a schedule that has a worker act after its end, or that stops
    while a worker runs. *)
Fixpoint run_workers (sendTerminator : bool) (schedule : list (nat * worker_event))
  (running : list nat) (r : completion) : option completion :=
  match schedule with
  | [] => match running with [] => Some r | _ :: _ => None end
  | (worker, event) :: schedule' =>
      if existsb (Nat.eqb worker) running then
        match event with
        | posts m =>
            run_workers sendTerminator schedule' running (worker_posts m r)
        | completes =>
            run_workers sendTerminator schedule'
              (filter (fun w => negb (Nat.eqb worker w)) running)
              (worker_completes sendTerminator r)
        end
      else None
  end.

(** The records the workers post in a schedule, in order. *)
Fixpoint worker_messages (schedule : list (nat * worker_event)) : list stream_msg :=
  match schedule with
  | [] => []
  | (_, posts m) :: schedule' => msg_record m :: worker_messages schedule'
  | (_, completes) :: schedule' => worker_messages schedule'
  end.

(* ================================================================== *)
(** * postRecord                                                       *)
(* ================================================================== *)

(** [MsgQ::STATE_TIMEOUT]. *)
Variable STATE_TIMEOUT : Z.

(** What one test of [active && (post_status = outQ->postCopy(rec_buf,
    rec_bytes, SYS_TIMEOUT)) == MsgQ::STATE_TIMEOUT] meets: [active]
    cleared, or the status [postCopy] returns. *)
Inductive post_attempt :=
| reader_inactive
| post_returns (status : Z).

(** An increment of a counter of [local_stats]. *)
Inductive stats_bump :=
| extents_retried
| extents_sent
| extents_dropped.

(** "Update Statistics". *)
Definition count_post (post_status : Z) : stats_bump :=
  if 0 <? post_status then extents_sent else extents_dropped.

(** The loop of [postRecord] and the statistics update after it, on the
    attempts the loop meets: the counters it increments, in order, or
    [None] while every attempt so far timed out. *)
Fixpoint post_loop (attempts : list post_attempt) (post_status : Z)
  : option (list stats_bump) :=
  match attempts with
  | [] => None
  | reader_inactive :: _ => Some [count_post post_status]
  | post_returns status :: later =>
      if status =? STATE_TIMEOUT then
        match post_loop later status with
        | Some bumps => Some (extents_retried :: bumps)
        | None => None
        end
      else Some [count_post status]
  end.

(** [Atl03Reader::postRecord]. *)
Definition postRecord (attempts : list post_attempt) : option (list stats_bump) :=
  post_loop attempts STATE_TIMEOUT.

(* ================================================================== *)
(** * Datasets that fit together                                       *)
(* ================================================================== *)

(** An outcome other than undefined behaviour. *)
Definition no_fault {A} (m : outcome A) : Prop := m <> Fault.

(** The cells [0 .. n - 1] of an array were written. *)
Definition written {A} (a : cells A) (n : Z) : Prop :=
  forall p, 0 <= p < n -> exists x, H5Array.get a p = Some (Some x).

(** The ATL03 datasets of a crop fit together: there is a photon and a
    segment; every per-photon dataset has a row for each photon of
    [dist_ph_along]; every per-segment dataset, and [segment_ph_cnt] of the
    region, has a row for each segment of [segment_dist_x], [velocity_sc]
    three; [sc_orient] and [bckgrd_rate] are not empty, and each background
    rate has its time. *)
Definition datasets_consistent (region : Region) (atl03 : Atl03Data.t) : Prop :=
  let N := H5Array.size (Atl03Data.dist_ph_along atl03) in
  let S := H5Array.size (Atl03Data.segment_dist_x atl03) in
  1 <= N /\ 1 <= S /\
  N <= H5Array.size (Atl03Data.signal_conf_ph atl03) /\
  N <= H5Array.size (Atl03Data.quality_ph atl03) /\
  N <= H5Array.size (Atl03Data.delta_time atl03) /\
  N <= H5Array.size (Atl03Data.lat_ph atl03) /\
  N <= H5Array.size (Atl03Data.lon_ph atl03) /\
  N <= H5Array.size (Atl03Data.dist_ph_across atl03) /\
  N <= H5Array.size (Atl03Data.h_ph atl03) /\
  S <= H5Array.size (segment_ph_cnt region) /\
  S <= H5Array.size (Atl03Data.segment_id atl03) /\
  S <= H5Array.size (Atl03Data.segment_delta_time atl03) /\
  S <= H5Array.size (Atl03Data.solar_elevation atl03) /\
  3 * S <= H5Array.size (Atl03Data.velocity_sc atl03) /\
  1 <= H5Array.size (Atl03Data.sc_orient atl03) /\
  1 <= H5Array.size (Atl03Data.bckgrd_rate atl03) /\
  H5Array.size (Atl03Data.bckgrd_rate atl03)
    <= H5Array.size (Atl03Data.bckgrd_delta_time atl03).

(** The arrays the filter block reads hold a value for every photon: the
    classes and the scores when they are allocated, the PhoREAL arrays when
    [atl08.phoreal] is set; and the inclusion mask, when there is one, holds
    a value for every segment that has photons. *)
Definition photons_readable (region : Region) (atl03 : Atl03Data.t)
  (atl08 : Atl08Class.t) (yapc_scores : YapcScore.t) : Prop :=
  let N := H5Array.size (Atl03Data.dist_ph_along atl03) in
  (forall classification,
     Atl08Class.classification atl08 = Some classification ->
     written classification N) /\
  (forall score, YapcScore.score yapc_scores = Some score -> written score N) /\
  (Atl08Class.phoreal atl08 = true ->
   exists relief landcover snowcover,
     Atl08Class.relief atl08 = Some relief /\
     Atl08Class.landcover atl08 = Some landcover /\
     Atl08Class.snowcover atl08 = Some snowcover /\
     written relief N /\ written landcover N /\ written snowcover N) /\
  (forall mask,
     inclusion_ptr region = Some mask ->
     forall s c,
       0 <= s -> H5Array.get (segment_ph_cnt region) s = Some c -> 1 <= c ->
       exists included, H5Array.get mask s = Some (Some included)).

(** The conversions of a [double] to an integer that the extent loop makes
    are defined: that of [extent_step], to a step that is not negative,
    when distances are in segments; and that of [calculateSegmentId], for
    an extent that starts in a segment of the crop at a photon of the
    crop. *)
Definition conversions_defined (parms : Icesat2Parms) (atl03 : Atl03Data.t) : Prop :=
  (dist_in_seg parms = true ->
   exists step,
     double2int INT_MIN INT_MAX (extent_step parms) = Ok step /\ 0 <= step) /\
  (forall st p along,
     0 <= TrackState.extent_segment st
       < H5Array.size (Atl03Data.segment_dist_x atl03) ->
     H5Array.get (Atl03Data.dist_ph_along atl03) p = Some along ->
     TrackState.start_seg_portion st = (along / ATL03_SEGMENT_LENGTH)%float ->
     no_fault (calculateSegmentId parms st atl03)).

(** The cursors of a track state are inside the datasets. *)
Definition cursors_in_bounds (atl03 : Atl03Data.t) (st : TrackState.t) : Prop :=
  0 <= TrackState.ph_in st < H5Array.size (Atl03Data.dist_ph_along atl03) /\
  0 <= TrackState.seg_in st < H5Array.size (Atl03Data.segment_dist_x atl03) /\
  0 <= TrackState.seg_ph st /\
  0 <= TrackState.start_segment st /\
  0 <= TrackState.bckgrd_in st.

(** The state of an extent that starts in segment [extent_segment], with
    [start_seg_portion] the portion of it before the first photon. *)
Definition extent_in_bounds (atl03 : Atl03Data.t) (extent_segment : Z)
  (start_seg_portion : float) (st : TrackState.t) : Prop :=
  cursors_in_bounds atl03 st /\
  TrackState.extent_segment st = extent_segment /\
  TrackState.start_seg_portion st = start_seg_portion.

(** The request fits the datasets: [Atl08Class] comes from its constructor,
    with no class allocated; PhoREAL and the ancillary ATL08 fields are asked
    for only together with the ATL08 stage, and the dictionary of these
    fields is there only when [ancillary] is set; when that stage is on,
    [segment_ph_cnt] counts, over the segments of [segment_id], the photons
    of [dist_ph_along]; and [yapcV3], when it is the version asked for,
    scores every photon. *)
Definition request_consistent (parms : Icesat2Parms) (region : Region)
  (atl03 : Atl03Data.t) (atl08 : Atl08Class.t) : Prop :=
  let N := H5Array.size (Atl03Data.dist_ph_along atl03) in
  Atl08Class.classification atl08 = None /\
  (Atl08Class.phoreal atl08 = true -> stage_atl08 parms = true) /\
  (Atl08Class.anc_seg_data atl08 <> None ->
   Atl08Class.ancillary atl08 = true /\ stage_atl08 parms = true) /\
  (stage_atl08 parms = true ->
   photon_index (segment_ph_cnt region)
     (H5Array.size (Atl03Data.segment_id atl03)) 1 = N) /\
  (stage_yapc parms = true -> yapc_version (yapc parms) = 3 ->
   forall score, yapcV3 parms region atl03 = Ok score -> written score N).

(** [classify] wrote cell [q] of every array it allocated. *)
Definition cells_written (atl08 : Atl08Class.t) (v : classify_vars) (q : Z) : Prop :=
  (exists x, H5Array.get (cv_classification v) q = Some (Some x)) /\
  (Atl08Class.phoreal atl08 = true ->
   (exists x, H5Array.get (cv_relief v) q = Some (Some x)) /\
   (exists x, H5Array.get (cv_landcover v) q = Some (Some x)) /\
   (exists x, H5Array.get (cv_snowcover v) q = Some (Some x))) /\
  (Atl08Class.ancillary atl08 = true ->
   exists x, H5Array.get (cv_anc_seg_indices v) q = Some (Some x)).

(** [array->serialize(buffer, index, 1)] stays inside the array and writes
    [elementSize()] bytes, unless it throws. *)
Definition serializes (array : H5DArray.t) (index : Z) : Prop :=
  no_fault (H5DArray.serialize array index) /\
  forall bytes,
    H5DArray.serialize array index = Ok bytes ->
    Z.of_nat (length bytes) = H5DArray.elementSize array.

(** The dictionary gives an array, or throws, for every field of the list,
    and these arrays serialize the elements at the indices [valid]. *)
Definition fields_serialize (field_list : option (list String.string))
  (field_dict : option H5DArrayDictionary) (valid : Z -> Prop) : Prop :=
  forall fields dict field,
    field_list = Some fields -> field_dict = Some dict -> In field fields ->
    no_fault (dict field) /\
    forall array,
      dict field = Ok array ->
      0 <= H5DArray.elementSize array /\
      forall index, valid index -> index <> INVALID_INDICE -> serializes array index.

(** The ancillary fields of a request can be read: the photon fields at
    every photon of the crop, the geolocation fields at every segment of the
    crop, and the ATL08 fields at every land segment index that [classify]
    left in [anc_seg_indices]. *)
Definition fields_readable (parms : Icesat2Parms) (atl03 : Atl03Data.t)
  (atl08 : Atl08Class.t) : Prop :=
  let N := H5Array.size (Atl03Data.dist_ph_along atl03) in
  let S := H5Array.size (Atl03Data.segment_dist_x atl03) in
  fields_serialize (atl03_ph_fields parms) (Atl03Data.anc_ph_data atl03)
    (fun p => 0 <= p < N) /\
  fields_serialize (atl03_geo_fields parms) (Atl03Data.anc_geo_data atl03)
    (fun s => 0 <= s < S) /\
  forall anc_seg_indices,
    Atl08Class.anc_seg_indices atl08 = Some anc_seg_indices ->
    fields_serialize (atl08_fields parms) (Atl08Class.anc_seg_data atl08)
      (fun index => exists p, 0 <= p < N /\ load anc_seg_indices p = Ok index).

(** When there is a dictionary of ATL08 fields, [anc_seg_indices] is
    allocated and holds an index for every photon. *)
Definition indices_allocated (atl03 : Atl03Data.t) (atl08 : Atl08Class.t) : Prop :=
  Atl08Class.anc_seg_data atl08 <> None ->
  exists anc_seg_indices,
    Atl08Class.anc_seg_indices atl08 = Some anc_seg_indices /\
    written anc_seg_indices (H5Array.size (Atl03Data.dist_ph_along atl03)).

(** The index lists of the worker hold photons and segments of the crop,
    and land segment indices read from [anc_seg_indices]. *)
Definition lists_in_bounds (atl03 : Atl03Data.t) (atl08 : Atl08Class.t)
  (lists : ancillary_indices) : Prop :=
  let N := H5Array.size (Atl03Data.dist_ph_along atl03) in
  let S := H5Array.size (Atl03Data.segment_dist_x atl03) in
  (forall l, photon_indices lists = Some l -> Forall (fun p => 0 <= p < N) l) /\
  (forall l, segment_indices lists = Some l -> Forall (fun s => 0 <= s < S) l) /\
  (forall l, atl08_indices lists = Some l ->
     exists anc_seg_indices,
       Atl08Class.anc_seg_indices atl08 = Some anc_seg_indices /\
       written anc_seg_indices N /\
       Forall (fun index => exists p, 0 <= p < N /\ load anc_seg_indices p = Ok index)
         l).

(* ================================================================== *)
(** * The photons of an extent lie within its length                   *)
(* ================================================================== *)


(* ================================================================== *)
(** * Properties                                                       *)
(* ================================================================== *)

Lemma bind_Ok_inv {A B} (m : outcome A) (k : A -> outcome B) (b : B) :
  bind m k = Ok b -> exists a, m = Ok a /\ k a = Ok b.
Proof. destruct m; simpl; intros H; try discriminate; eauto. Qed.

Lemma rd_Ok_inv {A} (o : option A) (a : A) : rd o = Ok a -> o = Some a.
Proof. destruct o; simpl; congruence. Qed.

Lemma get_Some {A} (a : list A) i x :
  H5Array.get a i = Some x -> 0 <= i < H5Array.size a.
Proof.
  unfold H5Array.get, H5Array.size. destruct (Z.ltb_spec i 0); [discriminate|].
  intros H1. assert (Hn : nth_error a (Z.to_nat i) <> None) by congruence.
  apply nth_error_Some in Hn. lia.
Qed.

Lemma get_in_range {A} (a : list A) i :
  0 <= i < H5Array.size a -> exists x, H5Array.get a i = Some x.
Proof.
  unfold H5Array.get, H5Array.size. intros H. destruct (Z.ltb_spec i 0); [lia|].
  destruct (nth_error a (Z.to_nat i)) eqn:E; eauto.
  apply nth_error_None in E. lia.
Qed.

Lemma get_None {A} (a : list A) i :
  H5Array.get a i = None <-> i < 0 \/ H5Array.size a <= i.
Proof.
  unfold H5Array.get, H5Array.size. destruct (Z.ltb_spec i 0).
  - split; auto.
  - rewrite nth_error_None. lia.
Qed.

Lemma get_nat {A} (a : list A) (n : nat) :
  H5Array.get a (Z.of_nat n) = nth_error a n.
Proof.
  unfold H5Array.get. destruct (Z.ltb_spec (Z.of_nat n) 0); [lia|].
  now rewrite Nat2Z.id.
Qed.


(** ** Sums of photon counts over a run of segments *)

Lemma sum_counts_app (l1 l2 : list Z) :
  sum_counts (l1 ++ l2) = sum_counts l1 + sum_counts l2.
Proof.
  induction l1 as [|x l1 IH]; simpl; [reflexivity|]. rewrite IH. lia.
Qed.

Lemma firstn_succ_nth_error {A} (l : list A) (n : nat) (x : A) :
  nth_error l n = Some x -> firstn (S n) l = firstn n l ++ [x].
Proof.
  revert l. induction n as [|n IH]; intros [|y l] H; simpl in *; try discriminate.
  - now inversion H.
  - f_equal. now apply IH.
Qed.

Lemma slice_empty {A} (a : list A) (first : Z) : slice a first 0 = [].
Proof. reflexivity. Qed.

Lemma sum_counts_slice_succ (cnt : list Z) (a k c : Z) :
  0 <= a <= k ->
  H5Array.get cnt k = Some c ->
  sum_counts (slice cnt a (k + 1 - a)) = sum_counts (slice cnt a (k - a)) + c.
Proof.
  intros Hak Hget. unfold slice.
  replace (Z.to_nat (k + 1 - a)) with (S (Z.to_nat (k - a))) by lia.
  rewrite (firstn_succ_nth_error _ _ c).
  - rewrite sum_counts_app. simpl. lia.
  - rewrite nth_error_skipn. unfold H5Array.get in Hget.
    destruct (Z.ltb_spec k 0); [lia|].
    replace (Z.to_nat a + Z.to_nat (k - a))%nat with (Z.to_nat k) by lia.
    exact Hget.
Qed.

(** ** Region: the crop is closed under the photon counts *)

Ltac inv_bind H :=
  let x := fresh "x" in
  let Hx := fresh "Hrd" in
  apply bind_Ok_inv in H; destruct H as (x & Hx & H);
  try (apply rd_Ok_inv in Hx).

Lemma polyregion_body_inv parms lat lon cnt np0 fs0 v r :
  polyregion_inv cnt np0 fs0 v ->
  polyregion_body parms lat lon cnt v = Ok r ->
  match r with
  | Continue v' => polyregion_inv cnt np0 fs0 v'
  | Break v' => v' = v
  end.
Proof.
  unfold polyregion_body, polyregion_inv. intros [Hseg Hinv] H.
  inv_bind H. inv_bind H. inv_bind H.
  rename x1 into c. rename Hrd1 into Hc.
  destruct (pv_first_segment_found v); simpl in H.
  - destruct Hinv as (Hfs & Hfp & Hnp).
    destruct (negb (inpoly parms x x0) && negb (c =? 0));
      inversion H; subst; clear H; simpl; [reflexivity|].
    repeat split; try lia.
    rewrite Hnp. symmetry. apply sum_counts_slice_succ; [lia|assumption].
  - destruct Hinv as (Hfp & Hnp & Hfs).
    destruct (inpoly parms x x0 && negb (c =? 0));
      inversion H; subst; clear H; simpl.
    + repeat split; try lia; try assumption.
      rewrite (sum_counts_slice_succ cnt (pv_segment v) (pv_segment v) c);
        [|lia|assumption].
      rewrite Z.sub_diag, slice_empty. simpl. lia.
    + repeat split; try lia; try assumption.
      rewrite Hfp.
      pose proof (sum_counts_slice_succ cnt 0 (pv_segment v) c) as E.
      rewrite !Z.sub_0_r in E. symmetry. apply E; [lia|assumption].
Qed.

Lemma polyregion_loop_inv parms lat lon cnt np0 fs0 rest :
  forall v v',
    polyregion_inv cnt np0 fs0 v ->
    polyregion_loop parms lat lon cnt rest v = Ok v' ->
    polyregion_inv cnt np0 fs0 v'.
Proof.
  induction rest as [|rest IH]; simpl; intros v v' Hinv H.
  - now inversion H; subst.
  - apply bind_Ok_inv in H. destruct H as (r & Hb & H).
    pose proof (polyregion_body_inv _ _ _ _ _ _ _ _ Hinv Hb) as Hr.
    destruct r as [v1|v1].
    + eapply IH; eauto.
    + inversion H; subst. assumption.
Qed.

Lemma polyregion_closure parms r r' :
  first_photon r = 0 ->
  polyregion parms r = Ok r' ->
  segment_ph_cnt r' = segment_ph_cnt r /\
  ((first_photon r' = sum_counts (slice (segment_ph_cnt r) 0 (first_segment r')) /\
    num_photons r' =
      sum_counts (slice (segment_ph_cnt r) (first_segment r') (num_segments r')))
   \/ num_photons r' = num_photons r).
Proof.
  unfold polyregion. intros Hfp H.
  apply bind_Ok_inv in H. destruct H as (v & Hloop & H).
  inversion H; subst; clear H; simpl. split; [reflexivity|].
  eapply polyregion_loop_inv with (np0 := num_photons r) (fs0 := first_segment r)
    in Hloop.
  - destruct Hloop as [_ Hinv].
    destruct (pv_first_segment_found v).
    + left. destruct Hinv as (_ & Hfp' & Hnp). split; assumption.
    + right. destruct Hinv as (_ & Hnp & _). exact Hnp.
  - unfold polyregion_inv; simpl. rewrite Hfp. repeat split; try lia.
Qed.

Lemma rasterregion_body_inv includes lat lon cnt np0 fs0 v v' :
  rasterregion_inv cnt np0 fs0 v ->
  rasterregion_body includes lat lon cnt v = Ok v' ->
  rasterregion_inv cnt np0 fs0 v'.
Proof.
  unfold rasterregion_body, rasterregion_inv. intros [Hseg Hinv] H.
  inv_bind H. rename x into c. rename Hrd into Hc.
  pose proof (sum_counts_slice_succ cnt 0 (rv_segment v) c) as E0.
  rewrite !Z.sub_0_r in E0.
  pose proof (sum_counts_slice_succ cnt (rv_segment v) (rv_segment v) c) as E1.
  rewrite Z.sub_diag, slice_empty in E1. simpl in E1.
  pose proof (sum_counts_slice_succ cnt (rv_first_segment v) (rv_segment v) c) as E2.
  destruct (Z.eqb_spec c 0) as [Hz|Hz]; simpl in H.
  - inversion H; subst v'; clear H; simpl.
    destruct (rv_first_segment_found v).
    + destruct Hinv as (Hfs & Hls & Hfp & Hnp & Hcu).
      repeat split; try lia; try assumption.
      rewrite E2; [lia|lia|assumption].
    + destruct Hinv as (Hfp & Hnp & Hfs).
      repeat split; try lia; try assumption.
      rewrite E0; [lia|lia|assumption].
  - inv_bind H. inv_bind H.
    destruct (rv_first_segment_found v); simpl in H.
    + destruct Hinv as (Hfs & Hls & Hfp & Hnp & Hcu).
      destruct (includes x x0); inversion H; subst v'; clear H; simpl;
        repeat split; try lia; try assumption;
        rewrite E2; try lia; try assumption.
    + destruct Hinv as (Hfp & Hnp & Hfs).
      destruct (includes x x0); inversion H; subst v'; clear H; simpl;
        repeat split; try lia; try assumption.
      * rewrite E1; [lia|lia|assumption].
      * rewrite E1; [lia|lia|assumption].
      * rewrite E0; [lia|lia|assumption].
Qed.

Lemma rasterregion_loop_inv includes lat lon cnt np0 fs0 rest :
  forall v v',
    rasterregion_inv cnt np0 fs0 v ->
    rasterregion_loop includes lat lon cnt rest v = Ok v' ->
    rasterregion_inv cnt np0 fs0 v'.
Proof.
  induction rest as [|rest IH]; simpl; intros v v' Hinv H.
  - now inversion H; subst.
  - apply bind_Ok_inv in H. destruct H as (v1 & Hb & H).
    eapply IH; [|exact H]. eapply rasterregion_body_inv; eauto.
Qed.

Lemma rasterregion_closure includes r r' :
  first_photon r = 0 ->
  rasterregion includes r = Ok r' ->
  segment_ph_cnt r' = segment_ph_cnt r /\
  ((first_photon r' = sum_counts (slice (segment_ph_cnt r) 0 (first_segment r')) /\
    num_photons r' =
      sum_counts (slice (segment_ph_cnt r) (first_segment r') (num_segments r')))
   \/ num_photons r' = num_photons r).
Proof.
  unfold rasterregion. intros Hfp H.
  destruct (H5Array.size (segment_ph_cnt r) <=? 0).
  - inversion H; subst. split; [reflexivity|]. now right.
  - apply bind_Ok_inv in H. destruct H as (v & Hloop & H).
    inversion H; subst; clear H; simpl. split; [reflexivity|].
    eapply rasterregion_loop_inv with (np0 := num_photons r) (fs0 := first_segment r)
      in Hloop.
    + destruct Hloop as [_ Hinv].
      destruct (rv_first_segment_found v).
      * left. destruct Hinv as (Hfs & Hls & Hfp' & Hnp & Hcu). split; [assumption|].
        rewrite Hnp. f_equal. f_equal. lia.
      * right. destruct Hinv as (_ & Hnp & _). exact Hnp.
    + unfold rasterregion_inv; simpl. rewrite Hfp. repeat split; try lia.
Qed.

(** C1 (crop closure).  Whenever [Region::Region] crops with the polygon or
    the raster filter and returns (it did not throw [RTE_EMPTY_SUBSET]), the
    photons before the crop are exactly those of the segments before
    [first_segment], and the photons of the crop are exactly those of its
    [num_segments] segments: [first_photon] is the sum of [segment_ph_cnt]
    over segments [0 .. first_segment - 1] and [num_photons] the sum over
    [first_segment .. first_segment + num_segments - 1].  [segment_ph_cnt] is
    the dataset as read, before [trim].  The sentinel [H5Coro::ALL_ROWS] is
    declared outside this file; all that is used of it is that the test
    [num_photons <= 0] catches it. *)
Theorem region_crop_closure (parms : Icesat2Parms) (lat lon : list float)
  (cnt : list Z) (r : Region) :
  ALL_ROWS <= 0 ->
  Region_new parms lat lon cnt = Ok (Cropped, r) ->
  first_photon r = sum_counts (slice cnt 0 (first_segment r)) /\
  num_photons r = sum_counts (slice cnt (first_segment r) (num_segments r)).
Proof.
  intros Hall H. unfold Region_new in H.
  destruct (raster parms) as [includes|].
  - apply bind_Ok_inv in H. destruct H as (r1 & Hr & H).
    apply rasterregion_closure in Hr; [|reflexivity]. simpl in Hr.
    destruct (Z.leb_spec (num_photons r1) 0) as [Hle|Hgt]; [discriminate|].
    inversion H; subst r; clear H; simpl.
    destruct Hr as [_ [Hc|Hn]]; [exact Hc|lia].
  - destruct (0 <? points_in_poly parms); [|discriminate].
    apply bind_Ok_inv in H. destruct H as (r1 & Hr & H).
    apply polyregion_closure in Hr; [|reflexivity]. simpl in Hr.
    destruct (Z.leb_spec (num_photons r1) 0) as [Hle|Hgt]; [discriminate|].
    inversion H; subst r; clear H; simpl.
    destruct Hr as [_ [Hc|Hn]]; [exact Hc|lia].
Qed.

(** ** parseResource *)

Lemma size_le_length (str : String.string) :
  0 <= StringLib.size str <= Z.of_nat (String.length str).
Proof.
  induction str as [|c rest IH]; cbn [StringLib.size String.length]; [lia|].
  rewrite Nat2Z.inj_succ. destruct (Ascii.eqb c StringLib.NUL); lia.
Qed.

Lemma string_get_in_range (str : String.string) (n : nat) :
  (n < String.length str)%nat -> exists c, String.get n str = Some c.
Proof.
  revert n. induction str as [|c rest IH]; simpl; intros n Hn; [lia|].
  destruct n as [|n]; [eauto|]. apply IH. lia.
Qed.

Lemma substring_none (str : String.string) (n : nat) :
  String.substring n 0 str = String.EmptyString.
Proof.
  revert n. induction str as [|c rest IH]; intros [|n]; simpl; auto.
Qed.

Lemma substring_step (str : String.string) (n m : nat) (c : Ascii.ascii) :
  String.get n str = Some c ->
  String.substring n (S m) str = String.String c (String.substring (S n) m str).
Proof.
  revert n. induction str as [|a rest IH]; intros [|n] H; simpl in *;
    try discriminate.
  - inversion H; subst. destruct rest; reflexivity.
  - rewrite (IH n H). destruct rest; reflexivity.
Qed.

Lemma is_digit_range (c : Ascii.ascii) :
  StringLib.is_digit c = true -> 0 <= Z.of_nat (Ascii.nat_of_ascii c) - 48 <= 9.
Proof.
  unfold StringLib.is_digit. rewrite andb_true_iff, !Z.leb_le. lia.
Qed.

Lemma to_int32_small (z : Z) : 0 <= z < 10000 -> to_int32 z = z.
Proof. intros H. unfold to_int32. rewrite Z.mod_small; lia. Qed.

Lemma decimal_4_digits a b c d :
  StringLib.numeric (chars [a; b; c; d]) = true ->
  0 <= StringLib.decimal (chars [a; b; c; d]) < 10000.
Proof.
  unfold StringLib.numeric, StringLib.decimal.
  cbn [chars fold_right StringLib.all_digits StringLib.decimal_from].
  rewrite !andb_true_iff. intros (Ha & Hb & Hc & Hd & _).
  apply is_digit_range in Ha, Hb, Hc, Hd. lia.
Qed.

Lemma decimal_2_digits a b :
  StringLib.numeric (chars [a; b]) = true ->
  0 <= StringLib.decimal (chars [a; b]) < 10000.
Proof.
  unfold StringLib.numeric, StringLib.decimal.
  cbn [chars fold_right StringLib.all_digits StringLib.decimal_from].
  rewrite !andb_true_iff. intros (Ha & Hb & _).
  apply is_digit_range in Ha, Hb. lia.
Qed.

(** C5.  [parseResource] returns [(0, 0, 0)], and raises nothing, on every
    resource shorter than 29 characters.  On a resource of 29 characters or
    more it reads characters 21-24 as [rgt], 25-26 as [cycle] and 27-28 as
    [region] in base 10, and it raises an exception exactly when one of the
    three substrings is not numeric.  The exception is the source's
    [RunTimeException(CRITICAL, RTE_ERROR, ...)], the failure the
    specification lists as PARSE_ERROR. *)
Theorem parseResource_spec (_resource : String.string) :
  (StringLib.size _resource < 29 -> parseResource _resource = Ok (0, 0, 0)) /\
  (29 <= StringLib.size _resource ->
   let rgt_str := String.substring 21 4 _resource in
   let cycle_str := String.substring 25 2 _resource in
   let region_str := String.substring 27 2 _resource in
   (StringLib.numeric rgt_str = true /\
    StringLib.numeric cycle_str = true /\
    StringLib.numeric region_str = true ->
    parseResource _resource =
      Ok (StringLib.decimal rgt_str, StringLib.decimal cycle_str,
          StringLib.decimal region_str)) /\
   ((exists e, parseResource _resource = Throw e) <->
    (StringLib.numeric rgt_str = false \/
     StringLib.numeric cycle_str = false \/
     StringLib.numeric region_str = false)) /\
   (forall e, parseResource _resource = Throw e ->
      rte_level e = CRITICAL /\ rte_code e = RTE_ERROR)).
Proof.
  split.
  - intros H. unfold parseResource.
    destruct (Z.ltb_spec (StringLib.size _resource) 29); [reflexivity|lia].
  - intros Hlen. pose proof (size_le_length _resource) as Hsz.
    assert (Hget : forall n, (n < 29)%nat -> exists c, String.get n _resource = Some c).
    { intros n Hn. apply string_get_in_range. lia. }
    destruct (Hget 21%nat ltac:(lia)) as (c21 & G21).
    destruct (Hget 22%nat ltac:(lia)) as (c22 & G22).
    destruct (Hget 23%nat ltac:(lia)) as (c23 & G23).
    destruct (Hget 24%nat ltac:(lia)) as (c24 & G24).
    destruct (Hget 25%nat ltac:(lia)) as (c25 & G25).
    destruct (Hget 26%nat ltac:(lia)) as (c26 & G26).
    destruct (Hget 27%nat ltac:(lia)) as (c27 & G27).
    destruct (Hget 28%nat ltac:(lia)) as (c28 & G28).
    assert (E1 : String.substring 21 4 _resource = chars [c21; c22; c23; c24]).
    { rewrite (substring_step _ _ _ _ G21), (substring_step _ _ _ _ G22),
        (substring_step _ _ _ _ G23), (substring_step _ _ _ _ G24), substring_none.
      reflexivity. }
    assert (E2 : String.substring 25 2 _resource = chars [c25; c26]).
    { rewrite (substring_step _ _ _ _ G25), (substring_step _ _ _ _ G26), substring_none.
      reflexivity. }
    assert (E3 : String.substring 27 2 _resource = chars [c27; c28]).
    { rewrite (substring_step _ _ _ _ G27), (substring_step _ _ _ _ G28), substring_none.
      reflexivity. }
    cbv zeta. rewrite E1, E2, E3.
    unfold parseResource.
    destruct (Z.ltb_spec (StringLib.size _resource) 29); [lia|].
    rewrite G21, G22, G23, G24, G25, G26, G27, G28. cbn [rd bind].
    unfold StringLib.str2long.
    destruct (StringLib.numeric (chars [c21; c22; c23; c24])) eqn:N1.
    2:{ repeat split.
        - intros (? & ? & ?); discriminate.
        - intros _. now left.
        - intros _. eauto.
        - inversion H0; reflexivity.
        - inversion H0; reflexivity. }
    rewrite (to_int32_small _ (decimal_4_digits _ _ _ _ N1)).
    destruct (StringLib.numeric (chars [c25; c26])) eqn:N2.
    2:{ repeat split.
        - intros (? & ? & ?); discriminate.
        - intros _. right. now left.
        - intros _. eauto.
        - inversion H0; reflexivity.
        - inversion H0; reflexivity. }
    rewrite (to_int32_small _ (decimal_2_digits _ _ N2)).
    destruct (StringLib.numeric (chars [c27; c28])) eqn:N3.
    2:{ repeat split.
        - intros (? & ? & ?); discriminate.
        - intros _. right. now right.
        - intros _. eauto.
        - inversion H0; reflexivity.
        - inversion H0; reflexivity. }
    rewrite (to_int32_small _ (decimal_2_digits _ _ N3)).
    repeat split.
    + intros (e & He). discriminate.
    + intros [?|[?|?]]; discriminate.
    + discriminate.
    + discriminate.
Qed.

(** ** calculateBackground: array bounds *)

Lemma get_Ok_in_range {A} (a : list A) (i : Z) :
  0 <= i < H5Array.size a -> exists x, rd (H5Array.get a i) = Ok x.
Proof.
  intros H. destruct (get_in_range a i H) as (x & Hx). exists x. now rewrite Hx.
Qed.

Lemma size_nonempty {A} (a : list A) : a <> [] -> 0 < H5Array.size a.
Proof. destruct a; [congruence|]. unfold H5Array.size. simpl. lia. Qed.

Lemma background_loop_in_bounds (atl03 : Atl03Data.t) (extent_segment : Z)
  (background_rate : float) (rest : nat) :
  forall bckgrd_in,
    0 <= bckgrd_in ->
    bckgrd_in + Z.of_nat rest <= H5Array.size (Atl03Data.bckgrd_rate atl03) ->
    H5Array.size (Atl03Data.bckgrd_rate atl03)
      <= H5Array.size (Atl03Data.bckgrd_delta_time atl03) ->
    0 <= extent_segment < H5Array.size (Atl03Data.segment_delta_time atl03) ->
    exists r, background_loop atl03 extent_segment background_rate rest bckgrd_in = Ok r.
Proof.
  induction rest as [|rest IH]; intros bckgrd_in Hlo Hhi Hsz Hseg; simpl.
  - eauto.
  - destruct (get_Ok_in_range (Atl03Data.bckgrd_delta_time atl03) bckgrd_in)
      as (ct & ->); [lia|].
    destruct (get_Ok_in_range (Atl03Data.segment_delta_time atl03) extent_segment)
      as (st & ->); [lia|].
    cbn [bind]. destruct (fgeb ct st).
    + destruct (Z.ltb_spec 0 bckgrd_in).
      * destruct (get_Ok_in_range (Atl03Data.bckgrd_delta_time atl03) (bckgrd_in - 1))
          as (pt & ->); [lia|].
        destruct (get_Ok_in_range (Atl03Data.bckgrd_rate atl03) (bckgrd_in - 1))
          as (pr & ->); [lia|].
        destruct (get_Ok_in_range (Atl03Data.bckgrd_rate atl03) bckgrd_in)
          as (cr & ->); [lia|].
        cbn [bind]. eauto.
      * destruct (get_Ok_in_range (Atl03Data.bckgrd_rate atl03) 0)
          as (r0 & ->); [lia|].
        cbn [bind]. eauto.
    + apply IH; lia.
Qed.

Lemma calculateBackground_in_bounds (state : TrackState.t) (atl03 : Atl03Data.t) :
  Atl03Data.bckgrd_rate atl03 <> [] ->
  H5Array.size (Atl03Data.bckgrd_rate atl03)
    <= H5Array.size (Atl03Data.bckgrd_delta_time atl03) ->
  0 <= TrackState.bckgrd_in state ->
  0 <= TrackState.extent_segment state
    < H5Array.size (Atl03Data.segment_delta_time atl03) ->
  exists r, calculateBackground state atl03 = Ok r.
Proof.
  intros Hne Hsz Hin Hseg. unfold calculateBackground.
  apply size_nonempty in Hne.
  destruct (get_Ok_in_range (Atl03Data.bckgrd_rate atl03)
              (H5Array.size (Atl03Data.bckgrd_rate atl03) - 1)) as (r0 & ->); [lia|].
  cbn [bind].
  destruct (Z.le_gt_cases (TrackState.bckgrd_in state)
              (H5Array.size (Atl03Data.bckgrd_rate atl03))) as [Hle|Hgt].
  - destruct (background_loop_in_bounds atl03 (TrackState.extent_segment state) r0
                (Z.to_nat (H5Array.size (Atl03Data.bckgrd_rate atl03)
                           - TrackState.bckgrd_in state))
                (TrackState.bckgrd_in state)) as (r & ->);
      [assumption|lia|assumption|assumption|].
    cbn [bind]. eauto.
  - replace (Z.to_nat (H5Array.size (Atl03Data.bckgrd_rate atl03)
                       - TrackState.bckgrd_in state)) with O by lia.
    cbn [background_loop bind]. eauto.
Qed.

(** C10.  [calculateBackground] reads [bckgrd_rate[bckgrd_rate.size - 1]]
    before it scans, and [bckgrd_delta_time[bckgrd_in]] at every cursor
    position below [bckgrd_rate.size] that the scan visits.  Hence: with an
    empty [bckgrd_rate] every call leaves the array at its first access; and
    the calls stay inside their arrays whatever the state of the cursor and
    the extent segment (a valid index of [segment_delta_time]) exactly when
    [bckgrd_rate] is not empty and [bckgrd_delta_time] has at least
    [bckgrd_rate.size] elements.  [Fault] is the only outcome of a read
    outside an array. *)
Theorem calculateBackground_bounds (rates times : list float) :
  (rates = [] ->
   forall state atl03,
     Atl03Data.bckgrd_rate atl03 = rates ->
     calculateBackground state atl03 = Fault) /\
  ((forall state atl03,
      Atl03Data.bckgrd_rate atl03 = rates ->
      Atl03Data.bckgrd_delta_time atl03 = times ->
      0 <= TrackState.bckgrd_in state ->
      0 <= TrackState.extent_segment state
        < H5Array.size (Atl03Data.segment_delta_time atl03) ->
      calculateBackground state atl03 <> Fault)
   <->
   (rates <> [] /\ H5Array.size rates <= H5Array.size times)).
Proof.
  split; [|split].
  - intros -> state atl03 Hr. unfold calculateBackground. now rewrite Hr.
  - intros Hsafe.
    assert (Hne : rates <> []).
    { intros ->.
      apply (Hsafe (state_at 0 0) (background_data [] times [0%float]));
        try reflexivity; unfold H5Array.size; simpl; lia. }
    split; [exact Hne|].
    destruct (Z.le_gt_cases (H5Array.size rates) (H5Array.size times)) as [Hle|Hgt];
      [exact Hle|exfalso].
    apply (Hsafe (state_at (H5Array.size times) 0)
             (background_data rates times [0%float]));
      try reflexivity; try (unfold H5Array.size; simpl; lia).
    unfold calculateBackground. cbn [background_data Atl03Data.bckgrd_rate state_at
      TrackState.bckgrd_in TrackState.extent_segment].
    apply size_nonempty in Hne.
    destruct (get_Ok_in_range rates (H5Array.size rates - 1)) as (r0 & ->); [lia|].
    cbn [bind].
    destruct (Z.to_nat (H5Array.size rates - H5Array.size times)) as [|rest] eqn:E;
      [lia|].
    cbn [background_loop background_data Atl03Data.bckgrd_delta_time].
    replace (H5Array.get times (H5Array.size times)) with (@None float);
      [reflexivity|].
    symmetry. apply get_None. lia.
  - intros [Hne Hsz] state atl03 Hr Ht Hin Hseg. subst rates times.
    destruct (calculateBackground_in_bounds state atl03 Hne Hsz Hin Hseg) as (r & ->).
    discriminate.
Qed.

(** ** calculateBackground: the interpolated rate *)

Lemma first_sample_from_found (times : list float) (t : float) :
  forall (i k : nat) (bt : float),
    nth_error times k = Some bt ->
    fgeb bt t = true ->
    (forall j b, (j < k)%nat -> nth_error times j = Some b -> fgeb b t = false) ->
    first_sample_from times t i = Some (i + k)%nat.
Proof.
  induction times as [|x times IH]; intros i k bt Hk Hbt Hbefore.
  - destruct k; discriminate.
  - destruct k as [|k]; simpl in *.
    + inversion Hk; subst. rewrite Hbt. f_equal. lia.
    + rewrite (Hbefore O x ltac:(lia) eq_refl).
      rewrite (IH (S i) k bt Hk Hbt).
      * f_equal. lia.
      * intros j b Hj Hb. apply (Hbefore (S j) b); [lia|exact Hb].
Qed.

Lemma first_sample_from_none (times : list float) (t : float) :
  forall i : nat,
    (forall j b, nth_error times j = Some b -> fgeb b t = false) ->
    first_sample_from times t i = None.
Proof.
  induction times as [|x times IH]; intros i Hall; simpl; [reflexivity|].
  rewrite (Hall O x eq_refl). apply IH.
  intros j b Hb. apply (Hall (S j) b Hb).
Qed.

Lemma nth_error_firstn_lt {A} (l : list A) (n j : nat) :
  (j < n)%nat -> nth_error (firstn n l) j = nth_error l j.
Proof.
  revert l j. induction n as [|n IH]; intros l j Hj; [lia|].
  destruct l as [|x l]; [now destruct j|].
  destruct j as [|j]; simpl; [reflexivity|]. apply IH. lia.
Qed.

Lemma nth_error_firstn_some {A} (l : list A) (n j : nat) (x : A) :
  nth_error (firstn n l) j = Some x -> (j < n)%nat /\ nth_error l j = Some x.
Proof.
  intros H. assert (Hlen : (j < length (firstn n l))%nat).
  { apply nth_error_Some. congruence. }
  rewrite length_firstn in Hlen.
  split; [lia|]. rewrite <- H. symmetry. apply nth_error_firstn_lt. lia.
Qed.

(** What the scan of [background_loop] has seen when it stops. *)
Lemma background_loop_scan (atl03 : Atl03Data.t) (extent_segment : Z)
  (t r0 : float) (rest : nat) :
  forall bckgrd_in rate bckgrd_in',
    H5Array.get (Atl03Data.segment_delta_time atl03) extent_segment = Some t ->
    0 <= bckgrd_in ->
    bckgrd_in + Z.of_nat rest = H5Array.size (Atl03Data.bckgrd_rate atl03) ->
    background_loop atl03 extent_segment r0 rest bckgrd_in = Ok (rate, bckgrd_in') ->
    bckgrd_in <= bckgrd_in' /\
    (forall j bt, bckgrd_in <= j < bckgrd_in' ->
       H5Array.get (Atl03Data.bckgrd_delta_time atl03) j = Some bt ->
       fgeb bt t = false) /\
    ((bckgrd_in' = H5Array.size (Atl03Data.bckgrd_rate atl03) /\ rate = r0) \/
     (bckgrd_in' < H5Array.size (Atl03Data.bckgrd_rate atl03) /\
      exists bt,
        H5Array.get (Atl03Data.bckgrd_delta_time atl03) bckgrd_in' = Some bt /\
        fgeb bt t = true /\
        ((bckgrd_in' = 0 /\
          H5Array.get (Atl03Data.bckgrd_rate atl03) 0 = Some rate) \/
         (0 < bckgrd_in' /\
          exists pt pr cr,
            H5Array.get (Atl03Data.bckgrd_delta_time atl03) (bckgrd_in' - 1) = Some pt /\
            H5Array.get (Atl03Data.bckgrd_rate atl03) (bckgrd_in' - 1) = Some pr /\
            H5Array.get (Atl03Data.bckgrd_rate atl03) bckgrd_in' = Some cr /\
            rate = interpolate_rate pt pr bt cr t)))).
Proof.
  induction rest as [|rest IH]; intros bckgrd_in rate bckgrd_in' Ht Hlo Hsz H;
    simpl in H.
  - inversion H; subst. split; [lia|]. split; [intros; lia|]. left. split; [lia|reflexivity].
  - inv_bind H. rename x into ct. rename Hrd into Hct.
    inv_bind H. rewrite Ht in Hrd. inversion Hrd; subst x; clear Hrd.
    destruct (fgeb ct t) eqn:Hge.
    + destruct (Z.ltb_spec 0 bckgrd_in).
      * inv_bind H. inv_bind H. inv_bind H. inversion H; subst; clear H.
        split; [lia|]. split; [intros; lia|]. right. split; [lia|].
        exists ct. repeat split; try assumption. right. split; [assumption|].
        exists x, x0, x1. repeat split; assumption.
      * inv_bind H. inversion H; subst; clear H.
        split; [lia|]. split; [intros; lia|]. right. split; [lia|].
        exists ct. repeat split; try assumption. left.
        assert (bckgrd_in' = 0) by lia. subst. split; [reflexivity|assumption].
    + apply IH in H; try assumption; try lia.
      destruct H as (Hle & Hscan & Hend).
      split; [lia|]. split; [|exact Hend].
      intros j bt Hj Hbt.
      destruct (Z.eq_dec j bckgrd_in) as [->|Hne].
      * rewrite Hct in Hbt. inversion Hbt; subst. exact Hge.
      * apply (Hscan j bt); [lia|exact Hbt].
Qed.

Lemma get_to_nat {A} (a : list A) (i : Z) :
  0 <= i -> H5Array.get a i = nth_error a (Z.to_nat i).
Proof.
  intros H. unfold H5Array.get. destruct (Z.ltb_spec i 0); [lia|reflexivity].
Qed.

(** Given a cursor behind the segment time, [calculateBackground] returns
    the piecewise-linear interpolation, and only advances the cursor. *)
Lemma calculateBackground_rate (state state' : TrackState.t)
  (atl03 : Atl03Data.t) (t rate : float) :
  H5Array.get (Atl03Data.segment_delta_time atl03) (TrackState.extent_segment state)
    = Some t ->
  0 <= TrackState.bckgrd_in state ->
  cursor_behind (Atl03Data.bckgrd_delta_time atl03) (TrackState.bckgrd_in state) t ->
  calculateBackground state atl03 = Ok (rate, state') ->
  piecewise_linear (Atl03Data.bckgrd_delta_time atl03) (Atl03Data.bckgrd_rate atl03) t
    = Some rate /\
  TrackState.bckgrd_in state <= TrackState.bckgrd_in state' /\
  state' = TrackState.with_bckgrd_in state (TrackState.bckgrd_in state') /\
  cursor_behind (Atl03Data.bckgrd_delta_time atl03) (TrackState.bckgrd_in state') t.
Proof.
  intros Ht Hlo Hcur H. unfold calculateBackground in H.
  set (times := Atl03Data.bckgrd_delta_time atl03) in *.
  set (rates := Atl03Data.bckgrd_rate atl03) in *.
  inv_bind H. rename x into r0. rename Hrd into Hr0.
  apply bind_Ok_inv in H. destruct H as ([rate1 in'] & Hloop & H).
  inversion H; subst rate1 state'; clear H. cbn [fst snd TrackState.with_bckgrd_in
    TrackState.bckgrd_in].
  pose proof (get_Some _ _ _ Hr0) as Hsize.
  assert (Hlast : nth_error rates (length rates - 1) = Some r0).
  { rewrite get_to_nat in Hr0 by lia. rewrite <- Hr0. f_equal.
    unfold H5Array.size. lia. }
  assert (Hscan :
    TrackState.bckgrd_in state <= in' /\
    (forall j bt, TrackState.bckgrd_in state <= j < in' ->
       H5Array.get times j = Some bt -> fgeb bt t = false) /\
    ((H5Array.size rates <= in' /\ rate = r0) \/
     (in' < H5Array.size rates /\
      exists bt,
        H5Array.get times in' = Some bt /\ fgeb bt t = true /\
        ((in' = 0 /\ H5Array.get rates 0 = Some rate) \/
         (0 < in' /\
          exists pt pr cr,
            H5Array.get times (in' - 1) = Some pt /\
            H5Array.get rates (in' - 1) = Some pr /\
            H5Array.get rates in' = Some cr /\
            rate = interpolate_rate pt pr bt cr t))))).
  { destruct (Z.le_gt_cases (TrackState.bckgrd_in state) (H5Array.size rates))
      as [Hle|Hgt].
    - apply background_loop_scan with (t := t) in Hloop;
        [|assumption|assumption|fold rates; lia].
      fold times rates in Hloop.
      destruct Hloop as (H1 & H2 & [[H3 H4]|H3]).
      + split; [exact H1|]. split; [exact H2|]. left. split; [lia|exact H4].
      + split; [exact H1|]. split; [exact H2|]. right. exact H3.
    - replace (Z.to_nat (H5Array.size rates - TrackState.bckgrd_in state))
        with O in Hloop by lia.
      simpl in Hloop. inversion Hloop; subst.
      split; [lia|]. split; [intros; lia|]. left. split; [lia|reflexivity]. }
  destruct Hscan as (Hle & Hbetween & Hend).
  assert (Hbefore : cursor_behind times in' t).
  { intros j bt Hj Hbt.
    destruct (Z.lt_ge_cases j (TrackState.bckgrd_in state)).
    - apply (Hcur j bt); [lia|exact Hbt].
    - apply (Hbetween j bt); [lia|exact Hbt]. }
  split; [|split; [exact Hle|split; [reflexivity|exact Hbefore]]].
  unfold piecewise_linear.
  destruct Hend as [[Hpast ->]|(Hin & bt & Hbt & Hge & Hrate)].
  - rewrite first_sample_from_none; [exact Hlast|].
    intros j b Hj. apply nth_error_firstn_some in Hj. destruct Hj as [Hj Hb].
    apply (Hbefore (Z.of_nat j) b).
    + unfold H5Array.size in Hpast. lia.
    + now rewrite get_nat.
  - assert (H0in : 0 <= in') by lia.
    rewrite (first_sample_from_found _ t 0 (Z.to_nat in') bt).
    + destruct Hrate as [[Hz Hr]|(Hpos & pt & pr & cr & Hpt & Hpr & Hcr & ->)].
      * subst in'. simpl. rewrite get_to_nat in Hr by lia. exact Hr.
      * replace (0 + Z.to_nat in')%nat with (S (Z.to_nat (in' - 1))) by lia.
        rewrite get_to_nat in Hpt, Hpr by lia.
        rewrite get_to_nat in Hbt, Hcr by lia.
        replace (Z.to_nat in') with (S (Z.to_nat (in' - 1))) in Hbt, Hcr by lia.
        fold times rates. rewrite Hpt, Hpr, Hbt, Hcr. reflexivity.
    + rewrite nth_error_firstn_lt; [|unfold H5Array.size in Hin; lia].
      rewrite <- get_to_nat by lia. exact Hbt.
    + exact Hge.
    + intros j b Hj Hb. apply nth_error_firstn_some in Hb. destruct Hb as [_ Hb].
      apply (Hbefore (Z.of_nat j) b); [lia|]. now rewrite get_nat.
Qed.

(** ** YAPC version 2: the number of nearest neighbours *)

Lemma MIN_int_min (a b : Z) : MIN_int a b = Z.min a b.
Proof. unfold MIN_int. destruct (Z.ltb_spec a b); lia. Qed.

Lemma yapcV2_knn_set (settings : yapc_t) (N : Z) :
  yapc_knn settings <> 0 ->
  yapcV2_knn settings N = Ok (Z.min (yapc_knn settings) MAX_KNN).
Proof.
  intros H. unfold yapcV2_knn.
  destruct (Z.eqb_spec (yapc_knn settings) 0); [contradiction|].
  cbn [negb bind]. now rewrite MIN_int_min.
Qed.

Lemma yapcV2_segment_fates (parms : Icesat2Parms) (region : Region)
  (atl03 : Atl03Data.t) (num_segments segment_index : Z) (v v' : yapc_vars) :
  yapc_knn (yapc parms) <> 0 ->
  yapcV2_segment parms region atl03 num_segments segment_index v = Ok v' ->
  exists fate,
    fates v' = fates v ++ [fate] /\
    forall c0 c1 knn hspread xspread,
      fate = Scored c0 c1 knn hspread xspread ->
      knn = Z.min (yapc_knn (yapc parms)) MAX_KNN.
Proof.
  intros Hknn H. unfold yapcV2_segment in H.
  apply bind_Ok_inv in H. destruct H as (b0 & _ & H).
  apply bind_Ok_inv in H. destruct H as (c0 & _ & H).
  inv_bind H. apply bind_Ok_inv in H. destruct H as (b1 & _ & H).
  inv_bind H. apply bind_Ok_inv in H. destruct H as (knn & Hk & H).
  rewrite (yapcV2_knn_set _ _ Hknn) in Hk. inversion Hk; subst knn; clear Hk.
  destruct ((x0 <=? Z.min (yapc_knn (yapc parms)) MAX_KNN)
            || (x0 <? minimum_photon_count parms)).
  - inversion H; subst v'; clear H. simpl. eexists. split; [reflexivity|].
    intros; discriminate.
  - apply bind_Ok_inv in H. destruct H as (sp & _ & H).
    destruct (invalid_spread _ _).
    + inversion H; subst v'; clear H. simpl. eexists. split; [reflexivity|].
      intros; discriminate.
    + apply bind_Ok_inv in H. destruct H as (nb & _ & H).
      apply bind_Ok_inv in H. destruct H as (bins & _ & H).
      apply bind_Ok_inv in H. destruct H as (nz & _ & H).
      apply bind_Ok_inv in H. destruct H as (st & _ & H).
      inversion H; subst v'; clear H. simpl. eexists. split; [reflexivity|].
      intros a b k h xs E. now inversion E.
Qed.

Lemma yapcV2_segments_fates (parms : Icesat2Parms) (region : Region)
  (atl03 : Atl03Data.t) (num_segments : Z) (rest : nat) :
  forall segment_index v v',
    yapc_knn (yapc parms) <> 0 ->
    yapcV2_segments parms region atl03 num_segments rest segment_index v = Ok v' ->
    (forall c0 c1 knn hspread xspread,
       In (Scored c0 c1 knn hspread xspread) (fates v) ->
       knn = Z.min (yapc_knn (yapc parms)) MAX_KNN) ->
    forall c0 c1 knn hspread xspread,
      In (Scored c0 c1 knn hspread xspread) (fates v') ->
      knn = Z.min (yapc_knn (yapc parms)) MAX_KNN.
Proof.
  induction rest as [|rest IH]; intros segment_index v v' Hknn H Hv; simpl in H.
  - inversion H; subst. exact Hv.
  - apply bind_Ok_inv in H. destruct H as (v1 & Hseg & H).
    apply (IH _ _ _ Hknn H).
    destruct (yapcV2_segment_fates _ _ _ _ _ _ _ Hknn Hseg) as (fate & Hf & Hk).
    intros a b knn hs xs Hin. rewrite Hf in Hin. apply in_app_or in Hin.
    destruct Hin as [Hin|[Hin|[]]].
    + eapply Hv; eauto.
    + eapply Hk; eauto.
Qed.

(** C8, as the code has it.  When [settings.knn != 0], the [knn] that
    [yapcV2] computes for a segment, and scores every scored segment with, is
    [settings.knn] truncated to [MAX_KNN = 25]: it equals [settings.knn]
    exactly when [settings.knn <= 25]. *)
Theorem yapcV2_knn_truncated (parms : Icesat2Parms) :
  yapc_knn (yapc parms) <> 0 ->
  (forall N, yapcV2_knn (yapc parms) N = Ok (Z.min (yapc_knn (yapc parms)) MAX_KNN)) /\
  (forall region atl03 score segments ph_c0 ph_c1 knn hspread xspread,
     yapcV2 parms region atl03 = Ok (score, segments) ->
     In (Scored ph_c0 ph_c1 knn hspread xspread) segments ->
     knn = Z.min (yapc_knn (yapc parms)) MAX_KNN) /\
  (Z.min (yapc_knn (yapc parms)) MAX_KNN = yapc_knn (yapc parms)
   <-> yapc_knn (yapc parms) <= 25).
Proof.
  intros Hknn. split; [|split].
  - intros N. now apply yapcV2_knn_set.
  - intros region atl03 score segments a b knn hs xs H Hin.
    unfold yapcV2 in H. apply bind_Ok_inv in H. destruct H as (v & Hsegs & H).
    inversion H; subst; clear H.
    eapply yapcV2_segments_fates; eauto. simpl. intros ? ? ? ? ? [].
  - unfold MAX_KNN. lia.
Qed.

(** ** The filters of the extent state machine *)

Lemma and_then_Some_inv {A B} (m : stage A) (k : A -> stage B) (b : B) :
  and_then m k = Ok (Some b) -> exists a, m = Ok (Some a) /\ k a = Ok (Some b).
Proof.
  unfold and_then. intros H. apply bind_Ok_inv in H.
  destruct H as ([a|] & Hm & H); [eauto|discriminate].
Qed.

Lemma check_signal_confidence_Some parms atl03 p cnf :
  check_signal_confidence parms atl03 p = Ok (Some cnf) ->
  H5Array.get (Atl03Data.signal_conf_ph atl03) p = Some cnf /\
  CNF_POSSIBLE_TEP <= cnf <= CNF_SURFACE_HIGH /\
  atl03_cnf parms (cnf + SIGNAL_CONF_OFFSET) = true.
Proof.
  unfold check_signal_confidence. intros H. inv_bind H.
  destruct (Z.ltb_spec x CNF_POSSIBLE_TEP); [discriminate|].
  destruct (Z.ltb_spec CNF_SURFACE_HIGH x); [discriminate|].
  simpl in H. destruct (atl03_cnf parms (x + SIGNAL_CONF_OFFSET)) eqn:E;
    simpl in H; inversion H; subst. repeat split; try assumption; lia.
Qed.

Lemma check_photon_quality_Some parms atl03 p quality :
  check_photon_quality parms atl03 p = Ok (Some quality) ->
  H5Array.get (Atl03Data.quality_ph atl03) p = Some quality /\
  QUALITY_NOMINAL <= quality <= QUALITY_POSSIBLE_TEP /\
  quality_ph parms quality = true.
Proof.
  unfold check_photon_quality. intros H. inv_bind H.
  destruct (Z.ltb_spec x QUALITY_NOMINAL); [discriminate|].
  destruct (Z.ltb_spec QUALITY_POSSIBLE_TEP x); [discriminate|].
  simpl in H. destruct (quality_ph parms x) eqn:E;
    simpl in H; inversion H; subst. repeat split; try assumption; lia.
Qed.

Lemma check_atl08_class_Some parms atl08 p class :
  check_atl08_class parms atl08 p = Ok (Some class) ->
  match Atl08Class.classification atl08 with
  | Some classification =>
      load classification p = Ok class /\
      0 <= class < NUM_ATL08_CLASSES /\
      atl08_class parms class = true
  | None => class = ATL08_UNCLASSIFIED
  end.
Proof.
  unfold check_atl08_class. intros H.
  destruct (Atl08Class.classification atl08) as [cls|]; [|now inversion H].
  apply bind_Ok_inv in H. destruct H as (c & Hc & H).
  destruct (Z.ltb_spec c 0); [discriminate|].
  destruct (Z.leb_spec NUM_ATL08_CLASSES c); [discriminate|].
  simpl in H. destruct (atl08_class parms c) eqn:E;
    simpl in H; inversion H; subst. repeat split; try assumption; lia.
Qed.

Lemma check_yapc_score_Some parms yapc_scores p sc :
  check_yapc_score parms yapc_scores p = Ok (Some sc) ->
  match YapcScore.score yapc_scores with
  | Some score => load score p = Ok sc /\ yapc_score (yapc parms) <= sc
  | None => sc = 0
  end.
Proof.
  unfold check_yapc_score. intros H.
  destruct (YapcScore.score yapc_scores) as [score|]; [|now inversion H].
  apply bind_Ok_inv in H. destruct H as (c & Hc & H).
  destruct (Z.ltb_spec c (yapc_score (yapc parms))); inversion H; subst.
  split; [assumption|lia].
Qed.

Lemma check_region_Some region s u :
  check_region region s = Ok (Some u) ->
  forall mask, inclusion_ptr region = Some mask -> load mask s = Ok true.
Proof.
  unfold check_region. intros H mask Hm. rewrite Hm in H.
  apply bind_Ok_inv in H. destruct H as (b & Hb & H).
  destruct b; [exact Hb|discriminate].
Qed.

Lemma select_photon_passes parms region atl03 atl08 yapc_scores st x_atc p s ph :
  select_photon parms region atl03 atl08 yapc_scores st x_atc p s = Ok (Some ph) ->
  photon_passes parms region atl03 atl08 yapc_scores ph.
Proof.
  unfold select_photon. intros H.
  apply and_then_Some_inv in H. destruct H as (cnf & Hcnf & H).
  apply and_then_Some_inv in H. destruct H as (quality & Hq & H).
  apply and_then_Some_inv in H. destruct H as (class & Hcl & H).
  apply and_then_Some_inv in H. destruct H as (sc & Hsc & H).
  apply and_then_Some_inv in H. destruct H as (u & Hreg & H).
  apply bind_Ok_inv in H. destruct H as ([[rel land] snow] & _ & H).
  inv_bind H. inv_bind H. inv_bind H. inv_bind H. inv_bind H.
  inversion H; subst ph; clear H.
  apply check_signal_confidence_Some in Hcnf. destruct Hcnf as (H1 & _ & H2).
  apply check_photon_quality_Some in Hq. destruct Hq as (H3 & _ & H4).
  apply check_atl08_class_Some in Hcl. apply check_yapc_score_Some in Hsc.
  pose proof (check_region_Some _ _ _ Hreg) as Hmask.
  unfold photon_passes. cbn [photon_t.ghost_photon photon_t.ghost_segment
    photon_t.atl03_cnf photon_t.quality_ph photon_t.atl08_class photon_t.yapc_score].
  repeat split; try assumption.
  - rewrite H in Hcl. apply Hcl.
  - rewrite H in Hcl. apply Hcl.
  - rewrite H in Hsc. apply Hsc.
  - rewrite H in Hsc. apply Hsc.
Qed.

(** The variables with which the photon loop of an extent starts. *)
Lemma extent_start_Ok atl03 atl08 st lists v0 :
  extent_start atl03 atl08 st lists = Ok v0 ->
  exists along,
    H5Array.get (Atl03Data.dist_ph_along atl03) (TrackState.ph_in st) = Some along /\
    v0 = {| current_photon := TrackState.ph_in st;
            current_segment := TrackState.seg_in st;
            current_count := TrackState.seg_ph st;
            extent_complete := false;
            step_complete := false;
            anc_lists :=
              {| segment_indices :=
                   clear_indices (Atl03Data.anc_geo_data atl03) (segment_indices lists);
                 photon_indices :=
                   clear_indices (Atl03Data.anc_ph_data atl03) (photon_indices lists);
                 atl08_indices :=
                   clear_indices (Atl08Class.anc_seg_data atl08)
                     (atl08_indices lists) |};
            state :=
              {| TrackState.ph_in := TrackState.ph_in st;
                 TrackState.seg_in := TrackState.seg_in st;
                 TrackState.seg_ph := TrackState.seg_ph st;
                 TrackState.start_segment := TrackState.start_segment st;
                 TrackState.start_distance := TrackState.start_distance st;
                 TrackState.seg_distance := TrackState.seg_distance st;
                 TrackState.start_seg_portion := (along / ATL03_SEGMENT_LENGTH)%float;
                 TrackState.track_complete := TrackState.track_complete st;
                 TrackState.bckgrd_in := TrackState.bckgrd_in st;
                 TrackState.extent_segment := TrackState.seg_in st;
                 TrackState.extent_valid := true;
                 TrackState.extent_length := TrackState.extent_length st;
                 TrackState.extent_photons := [] |} |}.
Proof.
  unfold extent_start. intros H. apply bind_Ok_inv in H.
  destruct H as (along & Hrd & H). apply rd_Ok_inv in Hrd.
  inversion H; subst v0. exists along. split; [exact Hrd|reflexivity].
Qed.

(** What a pass of the extent loop that returns has done: the photon loop
    ran from the start of the extent, the start distance was stepped, and
    either the extent was filtered out, or its record was made and the pass
    posted it, alone or in a container, or posted the exception record of the
    ancillary records. *)
Lemma subsetting_extent_Ok reader info parms region atl03 atl08 yapc_scores
  extent_counter st lists st' lists' posts :
  subsetting_extent reader info parms region atl03 atl08 yapc_scores
    extent_counter st lists = Ok (st', lists', posts) ->
  exists v0 v start_segment start_distance,
    extent_start atl03 atl08 st lists = Ok v0 /\
    photon_loop parms region atl03 atl08 yapc_scores
      (Z.to_nat (H5Array.size (Atl03Data.dist_ph_along atl03) - TrackState.ph_in st))
      v0 = Ok v /\
    step_start_distance parms atl03 (state v) = Ok (start_segment, start_distance) /\
    lists' = anc_lists v /\
    let st2 := close_extent parms (state v) start_segment start_distance in
    if TrackState.extent_valid st2 || pass_invalid parms then
      exists extent,
        generateExtentRecord reader parms
          (generateExtentId (start_rgt reader) (start_cycle reader)
             (start_region reader) (track info) (pair info) extent_counter)
          info st2 atl03 = Ok (extent, st') /\
        (posts = [post_record extent] \/
         (exists ancillary, posts = [post_container extent ancillary]) \/
         (exists e, posts = [post_exception e]))
    else st' = st2 /\ posts = [].
Proof.
  unfold subsetting_extent. intros H.
  apply bind_Ok_inv in H. destruct H as (v0 & Hstart & H).
  apply bind_Ok_inv in H. destruct H as (v & Hloop & H).
  apply bind_Ok_inv in H. destruct H as ([start_segment start_distance] & Hstep & H).
  exists v0, v, start_segment, start_distance.
  split; [exact Hstart|]. split; [exact Hloop|]. split; [exact Hstep|].
  cbv zeta in H |- *.
  destruct (TrackState.extent_valid (close_extent parms (state v) start_segment
                                       start_distance) || pass_invalid parms).
  - apply bind_Ok_inv in H. destruct H as ([extent st3] & Hgen & H).
    destruct (send_records parms atl03 atl08 _ extent (anc_lists v))
      as [post| |] eqn:Hsend; inversion H; subst st' lists' posts; clear H.
    + split; [reflexivity|]. exists extent. split; [exact Hgen|].
      unfold send_records in Hsend.
      apply bind_Ok_inv in Hsend. destruct Hsend as (r1 & _ & Hsend).
      apply bind_Ok_inv in Hsend. destruct Hsend as (r2 & _ & Hsend).
      apply bind_Ok_inv in Hsend. destruct Hsend as (r3 & _ & Hsend).
      destruct (r1 ++ r2 ++ r3); inversion Hsend; subst post; eauto.
    + split; [reflexivity|]. exists extent. split; [exact Hgen|]. eauto.
  - inversion H; subst st' lists' posts. repeat split.
Qed.

(** The extent a pass posts, if any. *)
Lemma posted_extent_of_pass extent posts e :
  posts = [post_record extent] \/
  (exists ancillary, posts = [post_container extent ancillary]) \/
  (exists e0 : RunTimeException, posts = [post_exception e0]) ->
  In e (flat_map posted_extent posts) -> e = extent.
Proof.
  intros [->|[(ancillary & ->)|(e0 & ->)]] Hin; cbn in Hin.
  - destruct Hin as [<-|[]]; reflexivity.
  - destruct Hin as [<-|[]]; reflexivity.
  - contradiction.
Qed.

Lemma posted_app sent posts :
  flat_map posted_extent (sent ++ posts)
  = flat_map posted_extent sent ++ flat_map posted_extent posts.
Proof. apply flat_map_app. Qed.

Section Filter_conservation.

Variables (parms : Icesat2Parms) (region : Region) (atl03 : Atl03Data.t)
  (atl08 : Atl08Class.t) (yapc_scores : YapcScore.t).

Let passes := photon_passes parms region atl03 atl08 yapc_scores.

Lemma photon_body_passes (v : photon_vars) (r : loop_ctl photon_vars) :
  Forall passes (TrackState.extent_photons (state v)) ->
  photon_body parms region atl03 atl08 yapc_scores v = Ok r ->
  match r with
  | Continue v' | Break v' => Forall passes (TrackState.extent_photons (state v'))
  end.
Proof.
  intros Hv H. unfold photon_body in H.
  apply bind_Ok_inv in H. destruct H as ([segment count] & _ & H).
  destruct (H5Array.size (Atl03Data.segment_dist_x atl03) <=? segment).
  { inversion H; subst r; clear H. exact Hv. }
  inv_bind H. inv_bind H.
  apply bind_Ok_inv in H. destruct H as (stepped & _ & H).
  set (st1 := if stepped then _ else _) in H.
  assert (Hst1 : Forall passes (TrackState.extent_photons st1)).
  { subst st1. destruct stepped; exact Hv. }
  clearbody st1.
  apply bind_Ok_inv in H. destruct H as ([[st2 lists2] ec] & Hsel & H).
  assert (Hst2 : Forall passes (TrackState.extent_photons st2)).
  { destruct (if negb (dist_in_seg parms) then _ else _).
    - apply bind_Ok_inv in Hsel. destruct Hsel as ([ph|] & Hph & Hsel).
      + apply bind_Ok_inv in Hsel. destruct Hsel as (lists' & _ & Hsel).
        inversion Hsel; subst; clear Hsel.
        cbn [add_photon TrackState.extent_photons].
        apply Forall_app. split; [exact Hst1|].
        constructor; [|constructor].
        eapply select_photon_passes; eauto.
      + inversion Hsel; subst. exact Hst1.
    - inversion Hsel; subst. exact Hst1. }
  destruct (H5Array.size (Atl03Data.dist_ph_along atl03) <=? current_photon v + 1);
    inversion H; subst r; clear H; exact Hst2.
Qed.

Lemma photon_loop_passes (rest : nat) :
  forall v v',
    Forall passes (TrackState.extent_photons (state v)) ->
    photon_loop parms region atl03 atl08 yapc_scores rest v = Ok v' ->
    Forall passes (TrackState.extent_photons (state v')).
Proof.
  induction rest as [|rest IH]; intros v v' Hv H; simpl in H;
    destruct (extent_complete v && step_complete v);
    try (inversion H; subst; exact Hv); try discriminate.
  apply bind_Ok_inv in H. destruct H as (r & Hb & H).
  pose proof (photon_body_passes _ _ Hv Hb) as Hr.
  destruct r as [v1|v1].
  - eapply IH; eauto.
  - inversion H; subst. exact Hr.
Qed.

Lemma generateExtentRecord_photons reader extent_id info st st' extent :
  generateExtentRecord reader parms extent_id info st atl03 = Ok (extent, st') ->
  extent_t.photons extent = TrackState.extent_photons st.
Proof.
  unfold generateExtentRecord. intros H.
  inv_bind H. inv_bind H.
  apply bind_Ok_inv in H. destruct H as ([rate st1] & Hcalc & H).
  inv_bind H. inv_bind H. inv_bind H. inv_bind H.
  inversion H; subst extent st'; clear H. cbn [extent_t.photons].
  unfold calculateBackground in Hcalc.
  inv_bind Hcalc. apply bind_Ok_inv in Hcalc. destruct Hcalc as (r & _ & Hcalc).
  inversion Hcalc; subst. reflexivity.
Qed.

Lemma subsetting_extent_passes reader info extent_counter st lists st' lists' posts :
  subsetting_extent reader info parms region atl03 atl08 yapc_scores
    extent_counter st lists = Ok (st', lists', posts) ->
  forall extent, In extent (flat_map posted_extent posts) ->
    Forall passes (extent_t.photons extent).
Proof.
  intros H. apply subsetting_extent_Ok in H.
  destruct H as (v0 & v & start_segment & start_distance & Hstart & Hloop & _ & _ & H).
  apply extent_start_Ok in Hstart. destruct Hstart as (along & _ & ->).
  apply photon_loop_passes in Hloop; [|constructor].
  cbv zeta in H. cbn [close_extent TrackState.extent_valid] in H.
  destruct (check_extent_valid parms (TrackState.extent_photons (state v))
            || pass_invalid parms).
  - destruct H as (extent & Hgen & Hposts).
    apply generateExtentRecord_photons in Hgen. cbn [TrackState.extent_photons] in Hgen.
    intros e He. apply (posted_extent_of_pass _ _ _ Hposts) in He. subst e.
    rewrite Hgen. exact Hloop.
  - destruct H as [_ ->]. intros e [].
Qed.

Lemma extent_loop_passes reader info (active_for : nat) :
  forall extent_counter st lists sent,
    (forall extent, In extent (flat_map posted_extent sent) ->
       Forall passes (extent_t.photons extent)) ->
    forall extent,
      In extent (posted (extent_loop reader info parms region atl03 atl08 yapc_scores
                           active_for extent_counter st lists sent)) ->
      Forall passes (extent_t.photons extent).
Proof.
  induction active_for as [|n IH]; intros extent_counter st lists sent Hsent; simpl.
  - exact Hsent.
  - destruct (TrackState.track_complete st); [exact Hsent|].
    destruct (subsetting_extent reader info parms region atl03 atl08 yapc_scores
                extent_counter st lists) as [[[st' lists'] posts]| |] eqn:E;
      [|exact Hsent|exact Hsent].
    apply IH. intros e He. rewrite posted_app in He.
    apply in_app_or in He. destruct He as [He|He].
    + now apply Hsent.
    + eapply subsetting_extent_passes; eauto.
Qed.

End Filter_conservation.

Lemma classify_allocates info parms region atl03 atl08 atl08' :
  classify info parms region atl03 atl08 = Ok atl08' ->
  stage_atl08 parms = true ->
  exists classification, Atl08Class.classification atl08' = Some classification.
Proof.
  unfold classify. intros H Hst. rewrite Hst in H. cbn [negb] in H.
  apply bind_Ok_inv in H. destruct H as (v & _ & H).
  inversion H; subst. simpl. eauto.
Qed.

Lemma YapcScore_new_allocates parms region atl03 yapc_scores :
  YapcScore_new parms region atl03 = Ok yapc_scores ->
  stage_yapc parms = true ->
  exists score, YapcScore.score yapc_scores = Some score.
Proof.
  unfold YapcScore_new. intros H Hst. rewrite Hst in H. cbn [negb] in H.
  destruct (yapc_version (yapc parms) =? 3).
  - apply bind_Ok_inv in H. destruct H as (sc & _ & H). inversion H; subst.
    simpl. eauto.
  - destruct ((yapc_version (yapc parms) =? 2) || (yapc_version (yapc parms) =? 1));
      [|discriminate].
    apply bind_Ok_inv in H. destruct H as (r & _ & H). inversion H; subst.
    simpl. eauto.
Qed.

Lemma Region_new_raster_mask parms lat lon cnt ex region :
  ALL_ROWS <= 0 ->
  Region_new parms lat lon cnt = Ok (ex, region) ->
  raster parms <> None ->
  exists mask, inclusion_ptr region = Some mask.
Proof.
  intros Hall H Hr. unfold Region_new in H.
  destruct (raster parms) as [includes|]; [|congruence].
  apply bind_Ok_inv in H. destruct H as (r & Hras & H).
  destruct (Z.leb_spec (num_photons r) 0); [discriminate|].
  inversion H; subst; clear H. cbn [inclusion_ptr].
  unfold rasterregion in Hras. cbn [segment_ph_cnt] in Hras.
  destruct (H5Array.size cnt <=? 0).
  - inversion Hras; subst r. simpl in *. lia.
  - apply bind_Ok_inv in Hras. destruct Hras as (v & _ & Hras).
    inversion Hras; subst r. cbn [inclusion_ptr].
    destruct (rv_first_segment_found v); eauto.
Qed.

(** C2 (filter conservation).  Every photon of every extent record a worker
    posts passed every acceptance test at the ATL03 photon it was taken
    from: [parms->atl03_cnf[atl03_cnf + SIGNAL_CONF_OFFSET]] and
    [parms->quality_ph[quality_ph]] are true; [parms->atl08_class[atl08_class]]
    is true when the ATL08 stage is enabled; [yapc_score >= parms->yapc.score]
    when the YAPC stage is enabled; and under raster cropping the inclusion
    mask is set at the photon's segment.  [photon_passes] ties the fields of
    the photon to the datasets at that photon. *)
Theorem emitted_photons_pass_filters (reader : reader_t) (info : info_t)
  (parms : Icesat2Parms) (lat lon : list float) (cnt : list Z)
  (read_atl03 : Region -> Atl03Data.t) (atl08 : Atl08Class.t)
  (active_for : nat) (extent : extent_t.t) (ph : photon_t.t) :
  In extent
    (posted (subsettingThread reader info parms lat lon cnt read_atl03 atl08
               active_for)) ->
  In ph (extent_t.photons extent) ->
  atl03_cnf parms (photon_t.atl03_cnf ph + SIGNAL_CONF_OFFSET) = true /\
  quality_ph parms (photon_t.quality_ph ph) = true /\
  (stage_atl08 parms = true -> atl08_class parms (photon_t.atl08_class ph) = true) /\
  (stage_yapc parms = true -> yapc_score (yapc parms) <= photon_t.yapc_score ph) /\
  exists ex region yapc_scores atl08',
    Region_new parms lat lon cnt = Ok (ex, region) /\
    YapcScore_new parms region (read_atl03 region) = Ok yapc_scores /\
    classify info parms region (read_atl03 region) atl08 = Ok atl08' /\
    photon_passes parms region (read_atl03 region) atl08' yapc_scores ph /\
    (raster parms <> None -> ALL_ROWS <= 0 ->
     exists mask,
       inclusion_ptr region = Some mask /\
       load mask (photon_t.ghost_segment ph) = Ok true).
Proof.
  unfold subsettingThread, thread_setup. intros Hext Hph.
  destruct (Region_new parms lat lon cnt) as [[ex region]| |] eqn:Hreg;
    cbn [bind] in Hext; try (simpl in Hext; contradiction).
  destruct (YapcScore_new parms region (read_atl03 region)) as [yapc_scores| |] eqn:Hy;
    cbn [bind] in Hext; try (simpl in Hext; contradiction).
  destruct (classify info parms region (read_atl03 region) atl08) as [atl08'| |] eqn:Hc;
    cbn [bind] in Hext; try (simpl in Hext; contradiction).
  destruct (TrackState_new (read_atl03 region)) as [st| |] eqn:Hst;
    cbn [bind] in Hext; try (simpl in Hext; contradiction).
  apply extent_loop_passes in Hext; [|intros e []].
  rewrite Forall_forall in Hext. specialize (Hext ph Hph).
  pose proof Hext as (H1 & H2 & H3 & H4 & H5 & H6 & H7).
  split; [exact H2|]. split; [exact H4|]. split; [|split].
  - intros Hstage. destruct (classify_allocates _ _ _ _ _ _ Hc Hstage) as (cls & Hcls).
    apply (H5 cls Hcls).
  - intros Hstage. destruct (YapcScore_new_allocates _ _ _ _ Hy Hstage) as (sc & Hsc).
    apply (H6 sc Hsc).
  - exists ex, region, yapc_scores, atl08'.
    split; [reflexivity|]. split; [exact Hy|]. split; [exact Hc|].
    split; [exact Hext|].
    intros Hr Hall.
    destruct (Region_new_raster_mask _ _ _ _ _ _ Hall Hreg Hr) as (mask & Hm).
    exists mask. split; [exact Hm|]. apply (H7 mask Hm).
Qed.

(** ** The range checks of the extent state machine *)

Lemma check_signal_confidence_eval parms atl03 p cnf :
  H5Array.get (Atl03Data.signal_conf_ph atl03) p = Some cnf ->
  check_signal_confidence parms atl03 p =
    if (cnf <? CNF_POSSIBLE_TEP) || (CNF_SURFACE_HIGH <? cnf)
    then Throw (mkRTE CRITICAL RTE_ERROR (invalid_atl03_signal_confidence cnf))
    else if negb (atl03_cnf parms (cnf + SIGNAL_CONF_OFFSET)) then Ok None
    else Ok (Some cnf).
Proof. unfold check_signal_confidence. now intros ->. Qed.

Lemma check_photon_quality_eval parms atl03 p quality :
  H5Array.get (Atl03Data.quality_ph atl03) p = Some quality ->
  check_photon_quality parms atl03 p =
    if (quality <? QUALITY_NOMINAL) || (QUALITY_POSSIBLE_TEP <? quality)
    then Throw (mkRTE CRITICAL RTE_ERROR (invalid_atl03_photon_quality quality))
    else if negb (quality_ph parms quality) then Ok None
    else Ok (Some quality).
Proof. unfold check_photon_quality. now intros ->. Qed.

(** The range checks inside the filter block, in their order: each check is
    reached only by a photon that the tables before it accepted.  For a
    photon with confidence [cnf] and quality [quality]: an out-of-range
    [cnf] throws; an in-range [cnf] that [parms->atl03_cnf] rejects leaves
    the block without any further check; an out-of-range [quality] throws
    when [cnf] was accepted; an in-range [quality] that [parms->quality_ph]
    rejects leaves the block; and an out-of-range ATL08 class throws when
    [classification] is allocated and both [cnf] and [quality] were
    accepted. *)
Lemma select_photon_staged (parms : Icesat2Parms) (region : Region)
  (atl03 : Atl03Data.t) (atl08 : Atl08Class.t) (yapc_scores : YapcScore.t)
  (st : TrackState.t) (x_atc : float) (p s cnf quality : Z) :
  H5Array.get (Atl03Data.signal_conf_ph atl03) p = Some cnf ->
  H5Array.get (Atl03Data.quality_ph atl03) p = Some quality ->
  let select := select_photon parms region atl03 atl08 yapc_scores st x_atc p s in
  let cnf_in_range := CNF_POSSIBLE_TEP <= cnf <= CNF_SURFACE_HIGH in
  let quality_in_range := QUALITY_NOMINAL <= quality <= QUALITY_POSSIBLE_TEP in
  (~ cnf_in_range ->
   select = Throw (mkRTE CRITICAL RTE_ERROR (invalid_atl03_signal_confidence cnf))) /\
  (cnf_in_range -> atl03_cnf parms (cnf + SIGNAL_CONF_OFFSET) = false ->
   select = Ok None) /\
  (cnf_in_range -> atl03_cnf parms (cnf + SIGNAL_CONF_OFFSET) = true ->
   ~ quality_in_range ->
   select = Throw (mkRTE CRITICAL RTE_ERROR (invalid_atl03_photon_quality quality))) /\
  (cnf_in_range -> atl03_cnf parms (cnf + SIGNAL_CONF_OFFSET) = true ->
   quality_in_range -> quality_ph parms quality = false ->
   select = Ok None) /\
  (cnf_in_range -> atl03_cnf parms (cnf + SIGNAL_CONF_OFFSET) = true ->
   quality_in_range -> quality_ph parms quality = true ->
   forall classification class,
     Atl08Class.classification atl08 = Some classification ->
     load classification p = Ok class ->
     ~ 0 <= class < NUM_ATL08_CLASSES ->
     select = Throw (mkRTE CRITICAL RTE_ERROR (invalid_atl08_classification class))).
Proof.
  intros Hcnf Hq select cnf_in_range quality_in_range.
  subst select cnf_in_range quality_in_range. unfold select_photon.
  rewrite (check_signal_confidence_eval _ _ _ _ Hcnf).
  rewrite (check_photon_quality_eval _ _ _ _ Hq).
  repeat split.
  - intros Hr.
    destruct (Z.ltb_spec cnf CNF_POSSIBLE_TEP); [reflexivity|].
    destruct (Z.ltb_spec CNF_SURFACE_HIGH cnf); [reflexivity|]. lia.
  - intros Hr Hrej.
    destruct (Z.ltb_spec cnf CNF_POSSIBLE_TEP); [lia|].
    destruct (Z.ltb_spec CNF_SURFACE_HIGH cnf); [lia|].
    rewrite Hrej. reflexivity.
  - intros Hr Hacc Hqr.
    destruct (Z.ltb_spec cnf CNF_POSSIBLE_TEP); [lia|].
    destruct (Z.ltb_spec CNF_SURFACE_HIGH cnf); [lia|].
    rewrite Hacc. cbn [orb negb and_then bind].
    destruct (Z.ltb_spec quality QUALITY_NOMINAL); [reflexivity|].
    destruct (Z.ltb_spec QUALITY_POSSIBLE_TEP quality); [reflexivity|]. lia.
  - intros Hr Hacc Hqr Hrej.
    destruct (Z.ltb_spec cnf CNF_POSSIBLE_TEP); [lia|].
    destruct (Z.ltb_spec CNF_SURFACE_HIGH cnf); [lia|].
    rewrite Hacc. cbn [orb negb and_then bind].
    destruct (Z.ltb_spec quality QUALITY_NOMINAL); [lia|].
    destruct (Z.ltb_spec QUALITY_POSSIBLE_TEP quality); [lia|].
    rewrite Hrej. reflexivity.
  - intros Hr Hacc Hqr Hqacc classification class Hcls Hload Hcr.
    destruct (Z.ltb_spec cnf CNF_POSSIBLE_TEP); [lia|].
    destruct (Z.ltb_spec CNF_SURFACE_HIGH cnf); [lia|].
    rewrite Hacc. cbn [orb negb and_then bind].
    destruct (Z.ltb_spec quality QUALITY_NOMINAL); [lia|].
    destruct (Z.ltb_spec QUALITY_POSSIBLE_TEP quality); [lia|].
    rewrite Hqacc. cbn [orb negb and_then bind].
    unfold check_atl08_class. rewrite Hcls, Hload. cbn [bind].
    destruct (Z.ltb_spec class 0); [reflexivity|].
    destruct (Z.leb_spec NUM_ATL08_CLASSES class); [reflexivity|]. lia.
Qed.

(** ** Arrays of cells *)

Lemma array_set_length {A} (a : list A) (n : nat) (v : A) :
  length (array_set a n v) = length a.
Proof.
  revert n. induction a as [|x a IH]; intros [|n]; simpl; auto.
Qed.

Lemma nth_error_array_set_eq {A} (a : list A) (n : nat) (v : A) :
  (n < length a)%nat -> nth_error (array_set a n v) n = Some v.
Proof.
  revert n. induction a as [|x a IH]; intros [|n] H; simpl in *; try lia; auto.
  apply IH. lia.
Qed.

Lemma nth_error_array_set_ne {A} (a : list A) (n m : nat) (v : A) :
  n <> m -> nth_error (array_set a n v) m = nth_error a m.
Proof.
  revert n m. induction a as [|x a IH]; intros [|n] [|m] H; simpl; auto;
    try congruence.
Qed.

Lemma store_Ok {A} (a a' : cells A) (i : Z) (v : A) :
  store a i v = Ok a' ->
  load a' i = Ok v /\
  (forall q, q <> i -> H5Array.get a' q = H5Array.get a q) /\
  H5Array.size a' = H5Array.size a.
Proof.
  unfold store, load, H5Array.size. intros H.
  destruct (Z.leb_spec 0 i); [|discriminate].
  destruct (Z.ltb_spec i (Z.of_nat (length a))); [|discriminate].
  simpl in H. inversion H; subst a'; clear H. repeat split.
  - rewrite get_to_nat by lia. rewrite nth_error_array_set_eq by lia. reflexivity.
  - intros q Hq. unfold H5Array.get. destruct (Z.ltb_spec q 0); [reflexivity|].
    apply nth_error_array_set_ne. lia.
  - now rewrite array_set_length.
Qed.

(** ** The ATL08 join *)

Section Join.

Variables (info : info_t) (parms : Icesat2Parms) (atl03 : Atl03Data.t)
  (atl08 : Atl08Class.t).

Let ids := Atl08Class.atl08_segment_id atl08.
Let indxs := Atl08Class.atl08_pc_indx atl08.

Hypothesis sorted : rows_sorted atl08.

Hypothesis above_off :
  Atl08Class.phoreal atl08 && above_classifier (phoreal parms) = false.

Let below_key := rows_below_key atl08.

Lemma below_key_mono (k seg c c' : Z) :
  c <= c' -> below_key k seg c -> below_key k seg c'.
Proof.
  intros Hc H j idj Hj Hid. destruct (H j idj Hj Hid) as [Hlt|[He (ij & Hi & Hlt)]].
  - now left.
  - right. split; [exact He|]. exists ij. split; [exact Hi|lia].
Qed.

Lemma goto_segment_spec (seg : Z) (rest : nat) :
  forall k k',
    0 <= k ->
    rest = Z.to_nat (H5Array.size ids - k) ->
    goto_segment ids seg rest k = Ok k' ->
    k <= k' /\
    (forall j idj, k <= j < k' -> H5Array.get ids j = Some idj -> idj < seg) /\
    (forall id, H5Array.get ids k' = Some id -> seg <= id).
Proof.
  induction rest as [|rest IH]; intros k k' Hk Hrest H; simpl in H.
  - inversion H; subst k'. split; [lia|]. split; [intros; lia|].
    intros id Hid. apply get_Some in Hid. lia.
  - inv_bind H. rename x into id0.
    destruct (Z.ltb_spec id0 seg).
    + apply IH in H; [|lia|lia]. destruct H as (Hle & Hskip & Hstop).
      split; [lia|]. split; [|exact Hstop].
      intros j idj Hj Hid. destruct (Z.eq_dec j k) as [->|Hne].
      * rewrite Hrd in Hid. inversion Hid; subst. assumption.
      * apply (Hskip j idj); [lia|exact Hid].
    + inversion H; subst k'. split; [lia|]. split; [intros; lia|].
      intros id Hid. rewrite Hrd in Hid. inversion Hid; subst. lia.
Qed.

Lemma goto_index_spec (seg c : Z) (rest : nat) :
  forall k k',
    0 <= k ->
    rest = Z.to_nat (H5Array.size ids - k) ->
    goto_index ids indxs seg c rest k = Ok k' ->
    k <= k' /\
    (forall j, k <= j < k' ->
       H5Array.get ids j = Some seg /\
       exists ij, H5Array.get indxs j = Some ij /\ ij < c) /\
    (forall id, H5Array.get ids k' = Some id ->
       id <> seg \/ exists ix, H5Array.get indxs k' = Some ix /\ c <= ix).
Proof.
  induction rest as [|rest IH]; intros k k' Hk Hrest H; simpl in H.
  - inversion H; subst k'. split; [lia|]. split; [intros; lia|].
    intros id Hid. apply get_Some in Hid. lia.
  - inv_bind H. rename x into id0. rename Hrd into Hid0.
    destruct (Z.eqb_spec id0 seg) as [->|Hne].
    + inv_bind H. rename x into ix0. rename Hrd into Hix0.
      destruct (Z.ltb_spec ix0 c).
      * apply IH in H; [|lia|lia]. destruct H as (Hle & Hskip & Hstop).
        split; [lia|]. split; [|exact Hstop].
        intros j Hj. destruct (Z.eq_dec j k) as [->|Hnej].
        -- split; [exact Hid0|]. exists ix0. split; [exact Hix0|assumption].
        -- apply Hskip. lia.
      * inversion H; subst k'. split; [lia|]. split; [intros; lia|].
        intros id Hid. right. exists ix0. split; [exact Hix0|lia].
    + inversion H; subst k'. split; [lia|]. split; [intros; lia|].
      intros id Hid. rewrite Hid0 in Hid. inversion Hid; subst. now left.
Qed.

Lemma check_match_spec (seg c k : Z) (b : bool) :
  0 <= k ->
  check_match ids indxs seg c k = Ok b ->
  (b = true <-> atl08_row atl08 k seg c).
Proof.
  unfold check_match, atl08_row. fold ids indxs. intros Hk H.
  destruct (Z.ltb_spec k (H5Array.size ids)).
  - inv_bind H. destruct (Z.eqb_spec x seg) as [->|Hne].
    + inv_bind H. inversion H; subst b; clear H.
      rewrite Hrd, Hrd0. split.
      * intros E. apply Z.eqb_eq in E. subst. auto.
      * intros [_ E]. inversion E; subst. apply Z.eqb_refl.
    + inversion H; subst b. rewrite Hrd. split; [discriminate|].
      intros [E _]. inversion E; subst. contradiction.
  - inversion H; subst b. split; [discriminate|].
    intros [E _]. apply get_Some in E. lia.
Qed.

Lemma below_key_extend (cursor k1 k seg c : Z) :
  below_key cursor seg c ->
  (forall j idj, cursor <= j < k1 -> H5Array.get ids j = Some idj -> idj < seg) ->
  (forall j, k1 <= j < k ->
     H5Array.get ids j = Some seg /\
     exists ij, H5Array.get indxs j = Some ij /\ ij < c) ->
  below_key k seg c.
Proof.
  intros Hb H1 H2 j idj Hj Hid. fold ids in Hid.
  destruct (Z.lt_ge_cases j cursor).
  - apply (Hb j idj); [lia|exact Hid].
  - destruct (Z.lt_ge_cases j k1).
    + left. apply (H1 j idj); [lia|exact Hid].
    + right. destruct (H2 j ltac:(lia)) as (Hs & Hi).
      rewrite Hs in Hid. inversion Hid; subst. split; [reflexivity|exact Hi].
Qed.

(** With the cursor at [k], all rows before it below [(seg, c)] and the scan
    stopped at [k], a row that matches [(seg, c)] can only be row [k]. *)
Lemma matching_row_is_cursor (k1 k seg c k' : Z) :
  0 <= k1 <= k ->
  below_key k seg c ->
  (forall id, H5Array.get ids k1 = Some id -> seg <= id) ->
  (forall j, k1 <= j < k ->
     H5Array.get ids j = Some seg /\
     exists ij, H5Array.get indxs j = Some ij /\ ij < c) ->
  (forall id, H5Array.get ids k = Some id ->
     id <> seg \/ exists ix, H5Array.get indxs k = Some ix /\ c <= ix) ->
  atl08_row atl08 k' seg c ->
  k' = k.
Proof using Type + sorted.
  intros Hk Hb Hstop1 Hskip Hstop2 [Hid Hix]. fold ids in Hid. fold indxs in Hix.
  pose proof (get_Some _ _ _ Hid) as Hk'.
  destruct (Z.lt_trichotomy k' k) as [Hlt|[Heq|Hgt]]; [|exact Heq|]; exfalso.
  - destruct (Hb k' seg ltac:(lia) Hid) as [Hl|[_ (ij & Hij & Hl)]]; [lia|].
    fold indxs in Hij. rewrite Hix in Hij. inversion Hij; subst. lia.
  - destruct (get_in_range ids k ltac:(lia)) as (idk & Hidk).
    destruct (sorted k k' idk seg ltac:(lia) Hidk Hid) as [Hle Hsame].
    assert (Hge : seg <= idk).
    { destruct (Z.eq_dec k1 k) as [->|Hne]; [now apply Hstop1|].
      destruct (Hskip (k - 1) ltac:(lia)) as (Hp & _).
      destruct (sorted (k - 1) k seg idk ltac:(lia) Hp Hidk) as [Hle' _]. exact Hle'. }
    assert (idk = seg) by lia. subst idk.
    destruct (Hstop2 seg Hidk) as [Hne|(ix & Hixk & Hc)]; [congruence|].
    specialize (Hsame eq_refl ix c Hixk Hix). lia.
Qed.

Lemma above_classify_off atl03_segment photon relief classification :
  above_classifier (phoreal parms) = false ->
  above_classify info parms atl03 atl03_segment photon relief classification
    = Ok classification.
Proof. unfold above_classify. now intros ->. Qed.

Lemma classify_photon_spec (seg c : Z) (v v' : classify_vars) :
  0 <= atl08_photon v ->
  below_key (atl08_photon v) seg c ->
  classify_photon info parms atl03 atl08 seg c v = Ok v' ->
  atl03_photon v' = atl03_photon v + 1 /\
  0 <= atl08_photon v' /\
  below_key (atl08_photon v') seg (c + 1) /\
  (exists class,
     load (cv_classification v') (atl03_photon v) = Ok class /\
     joined_class atl08 seg c class) /\
  (forall q, q <> atl03_photon v ->
     H5Array.get (cv_classification v') q = H5Array.get (cv_classification v) q).
Proof using Type + sorted + above_off.
  intros Hcur Hbelow H. unfold classify_photon in H. fold ids indxs in H.
  apply bind_Ok_inv in H. destruct H as (k1 & Hk1 & H).
  apply goto_segment_spec in Hk1; [|exact Hcur|reflexivity].
  destruct Hk1 as (Hle1 & Hskip1 & Hstop1).
  apply bind_Ok_inv in H. destruct H as (k & Hk & H).
  apply goto_index_spec in Hk; [|lia|reflexivity].
  destruct Hk as (Hle2 & Hskip2 & Hstop2).
  apply bind_Ok_inv in H. destruct H as (matched & Hm & H).
  apply check_match_spec in Hm; [|lia].
  pose proof (below_key_extend _ _ _ _ _ Hbelow Hskip1 Hskip2) as Hbk.
  destruct matched.
  - assert (Hrow : atl08_row atl08 k seg c) by now apply Hm.
    inv_bind H. rename x into flag. rename Hrd into Hflag.
    apply bind_Ok_inv in H. destruct H as (cls1 & Hst & H).
    apply store_Ok in Hst. destruct Hst as (Hload & Hother & _).
    apply bind_Ok_inv in H. destruct H as ([[[cls rel] land] snow] & Hpho & H).
    assert (cls = cls1).
    { destruct (Atl08Class.phoreal atl08) eqn:Hph.
      - simpl in above_off.
        inv_bind Hpho. apply bind_Ok_inv in Hpho. destruct Hpho as (? & _ & Hpho).
        inv_bind Hpho. apply bind_Ok_inv in Hpho. destruct Hpho as (? & _ & Hpho).
        inv_bind Hpho. apply bind_Ok_inv in Hpho. destruct Hpho as (? & _ & Hpho).
        rewrite above_classify_off in Hpho by exact above_off.
        cbn [bind] in Hpho. now inversion Hpho.
      - now inversion Hpho. }
    subst cls.
    apply bind_Ok_inv in H. destruct H as (anc & _ & H).
    inversion H; subst v'; clear H. cbn [atl03_photon atl08_photon cv_classification].
    split; [reflexivity|]. split; [lia|]. split; [|split; [|exact Hother]].
    + intros j idj Hj Hid. fold ids in Hid. destruct (Z.eq_dec j k) as [->|Hne].
      * destruct Hrow as [Hr1 Hr2]. fold ids in Hr1. fold indxs in Hr2.
        rewrite Hr1 in Hid. inversion Hid; subst. right. split; [reflexivity|].
        exists c. split; [exact Hr2|lia].
      * apply (below_key_mono k seg c (c + 1)); [lia|exact Hbk|lia|exact Hid].
    + exists (to_uint8 flag). split; [exact Hload|]. split.
      * intros k' flag' Hrow' Hflag'.
        assert (k' = k).
        { eapply matching_row_is_cursor with (k1 := k1); eauto. lia. }
        subst k'. rewrite Hflag in Hflag'. now inversion Hflag'.
      * intros Hnone. exfalso. apply (Hnone k Hrow).
  - assert (Hnorow : ~ atl08_row atl08 k seg c).
    { intros Hrow. apply Hm in Hrow. discriminate. }
    apply bind_Ok_inv in H. destruct H as (cls1 & Hst & H).
    apply store_Ok in Hst. destruct Hst as (Hload & Hother & _).
    apply bind_Ok_inv in H. destruct H as ([[rel land] snow] & _ & H).
    apply bind_Ok_inv in H. destruct H as (anc & _ & H).
    inversion H; subst v'; clear H. cbn [atl03_photon atl08_photon cv_classification].
    split; [reflexivity|]. split; [lia|]. split; [|split; [|exact Hother]].
    + apply (below_key_mono k seg c (c + 1)); [lia|exact Hbk].
    + exists ATL08_UNCLASSIFIED. split; [exact Hload|]. split.
      * intros k' flag' Hrow' _. exfalso.
        assert (k' = k).
        { eapply matching_row_is_cursor with (k1 := k1); eauto. lia. }
        subst k'. contradiction.
      * intros _. reflexivity.
Qed.

Lemma classify_counts_spec (seg : Z) (rest : nat) :
  forall c v v',
    0 <= atl08_photon v ->
    below_key (atl08_photon v) seg c ->
    classify_counts info parms atl03 atl08 seg rest c v = Ok v' ->
    atl03_photon v' = atl03_photon v + Z.of_nat rest /\
    0 <= atl08_photon v' /\
    below_key (atl08_photon v') seg (c + Z.of_nat rest) /\
    (forall i, 0 <= i < Z.of_nat rest ->
       exists class,
         load (cv_classification v') (atl03_photon v + i) = Ok class /\
         joined_class atl08 seg (c + i) class) /\
    (forall q, q < atl03_photon v ->
       H5Array.get (cv_classification v') q = H5Array.get (cv_classification v) q).
Proof using Type + sorted + above_off.
  induction rest as [|rest IH]; intros c v v' Hcur Hbelow H; simpl in H.
  - inversion H; subst v'. rewrite !Z.add_0_r.
    repeat split; try assumption. intros; lia.
  - apply bind_Ok_inv in H. destruct H as (v1 & Hph & H).
    apply classify_photon_spec in Hph; [|exact Hcur|exact Hbelow].
    destruct Hph as (Hp1 & Hc1 & Hb1 & (class & Hload & Hjoin) & Hother).
    apply IH in H; [|exact Hc1|exact Hb1].
    destruct H as (Hp2 & Hc2 & Hb2 & Hcells & Hbefore).
    split; [lia|]. split; [exact Hc2|]. split; [|split].
    + replace (c + Z.of_nat (S rest)) with (c + 1 + Z.of_nat rest) by lia.
      exact Hb2.
    + intros i Hi. destruct (Z.eq_dec i 0) as [->|Hne].
      * exists class. rewrite !Z.add_0_r. split; [|exact Hjoin].
        unfold load in *. rewrite Hbefore by lia. exact Hload.
      * destruct (Hcells (i - 1) ltac:(lia)) as (cl & Hl & Hj).
        exists cl. rewrite Hp1 in Hl.
        replace (atl03_photon v + 1 + (i - 1)) with (atl03_photon v + i) in Hl by lia.
        replace (c + 1 + (i - 1)) with (c + i) in Hj by lia.
        split; assumption.
    + intros q Hq. rewrite Hbefore by lia. apply Hother. lia.
Qed.

Let below_segments := rows_below_segments atl03 atl08.

Hypothesis increasing : segments_increasing (Atl03Data.segment_id atl03).

Lemma classify_segment_spec (region : Region) (s seg n : Z) (v v' : classify_vars) :
  0 <= s ->
  H5Array.get (Atl03Data.segment_id atl03) s = Some seg ->
  H5Array.get (segment_ph_cnt region) s = Some n ->
  0 <= atl08_photon v ->
  below_segments (atl08_photon v) s ->
  classify_segment info parms region atl03 atl08 s v = Ok v' ->
  atl03_photon v' = atl03_photon v + Z.max 0 n /\
  0 <= atl08_photon v' /\
  below_segments (atl08_photon v') (s + 1) /\
  (forall c, 1 <= c <= n ->
     exists class,
       load (cv_classification v') (atl03_photon v + (c - 1)) = Ok class /\
       joined_class atl08 seg c class) /\
  (forall q, q < atl03_photon v ->
     H5Array.get (cv_classification v') q = H5Array.get (cv_classification v) q).
Proof using Type + sorted + above_off + increasing.
  intros Hs Hseg Hn Hcur Hbelow H. unfold classify_segment in H.
  inv_bind H. rewrite Hseg in Hrd. inversion Hrd; subst x; clear Hrd.
  apply bind_Ok_inv in H. destruct H as (index & _ & H).
  inv_bind H. rewrite Hn in Hrd. inversion Hrd; subst x; clear Hrd.
  apply classify_counts_spec in H; cbn [atl03_photon atl08_photon cv_classification] in *.
  - destruct H as (Hp & Hc & Hb & Hcells & Hbefore).
    split; [lia|]. split; [exact Hc|]. split; [|split; [|exact Hbefore]].
    + intros j idj s' seg' Hj Hid Hs' Hseg'.
      assert (seg < seg') by (apply (increasing s s' seg seg'); [lia|assumption..]).
      destruct (Hb j idj Hj Hid) as [Hlt|[He _]]; lia.
    + intros c Hc'. destruct (Hcells (c - 1) ltac:(lia)) as (class & Hl & Hj).
      exists class. replace (1 + (c - 1)) with c in Hj by lia. split; assumption.
  - exact Hcur.
  - intros j idj Hj Hid. left. apply (Hbelow j idj s seg); [exact Hj|exact Hid|lia|exact Hseg].
Qed.

Lemma photon_index_next (cnt : list Z) (s n : Z) :
  0 <= s ->
  H5Array.get cnt s = Some n ->
  photon_index cnt (s + 1) 1 = photon_index cnt s 1 + Z.max 0 n.
Proof.
  intros Hs Hn. unfold photon_index, slice.
  replace (Z.to_nat (s + 1)) with (S (Z.to_nat s)) by lia.
  rewrite get_to_nat in Hn by lia. cbn [Z.to_nat skipn].
  rewrite (firstn_succ_nth_error _ _ n Hn), map_app, sum_counts_app. simpl. lia.
Qed.

Lemma classify_segments_spec (region : Region) (rest : nat) :
  forall s0 v v',
    0 <= s0 ->
    atl03_photon v = photon_index (segment_ph_cnt region) s0 1 ->
    0 <= atl08_photon v ->
    below_segments (atl08_photon v) s0 ->
    classify_segments info parms region atl03 atl08 rest s0 v = Ok v' ->
    (forall s seg n c,
       s0 <= s < s0 + Z.of_nat rest ->
       H5Array.get (Atl03Data.segment_id atl03) s = Some seg ->
       H5Array.get (segment_ph_cnt region) s = Some n ->
       1 <= c <= n ->
       exists class,
         load (cv_classification v') (photon_index (segment_ph_cnt region) s c)
           = Ok class /\
         joined_class atl08 seg c class) /\
    (forall q, q < atl03_photon v ->
       H5Array.get (cv_classification v') q = H5Array.get (cv_classification v) q).
Proof using Type + sorted + above_off + increasing.
  induction rest as [|rest IH]; intros s0 v v' Hs0 Hp Hcur Hbelow H; simpl in H.
  - inversion H; subst v'. split; [intros; lia|reflexivity].
  - apply bind_Ok_inv in H. destruct H as (v1 & Hseg & H).
    pose proof Hseg as Hseg0. unfold classify_segment in Hseg0.
    apply bind_Ok_inv in Hseg0. destruct Hseg0 as (seg0 & Hid0 & Hseg0).
    apply rd_Ok_inv in Hid0.
    apply bind_Ok_inv in Hseg0. destruct Hseg0 as (index & _ & Hseg0).
    apply bind_Ok_inv in Hseg0. destruct Hseg0 as (n0 & Hn0 & _).
    apply rd_Ok_inv in Hn0.
    apply (classify_segment_spec region s0 seg0 n0) in Hseg; try assumption.
    destruct Hseg as (Hp1 & Hc1 & Hb1 & Hcells & Hbefore1).
    apply IH in H; [|lia| |exact Hc1|exact Hb1].
    2:{ rewrite Hp1, Hp. symmetry. now apply photon_index_next. }
    destruct H as (Hlater & Hbefore2).
    split.
    + intros s seg n c Hs Hseg Hn Hc.
      destruct (Z.eq_dec s s0) as [->|Hne].
      * rewrite Hid0 in Hseg. inversion Hseg; subst seg0.
        rewrite Hn0 in Hn. inversion Hn; subst n0.
        destruct (Hcells c Hc) as (class & Hl & Hj).
        exists class. split; [|exact Hj].
        replace (photon_index (segment_ph_cnt region) s0 c)
          with (atl03_photon v + (c - 1)) by (rewrite Hp; unfold photon_index; lia).
        unfold load in *. rewrite Hbefore2 by lia. exact Hl.
      * apply (Hlater s seg n c); try assumption. lia.
    + intros q Hq. rewrite Hbefore2 by lia. apply Hbefore1. exact Hq.
Qed.

End Join.

(** The join on ATL08 rows in key order. *)
Lemma classify_join_sorted (info : info_t) (parms : Icesat2Parms) (region : Region)
  (atl03 : Atl03Data.t) (atl08 atl08' : Atl08Class.t) :
  stage_atl08 parms = true ->
  rows_sorted atl08 ->
  segments_increasing (Atl03Data.segment_id atl03) ->
  Atl08Class.phoreal atl08 && above_classifier (phoreal parms) = false ->
  classify info parms region atl03 atl08 = Ok atl08' ->
  exists classification,
    Atl08Class.classification atl08' = Some classification /\
    forall s atl03_segment atl03_segment_count atl03_count,
      H5Array.get (Atl03Data.segment_id atl03) s = Some atl03_segment ->
      H5Array.get (segment_ph_cnt region) s = Some atl03_segment_count ->
      1 <= atl03_count <= atl03_segment_count ->
      exists class,
        load classification (photon_index (segment_ph_cnt region) s atl03_count)
          = Ok class /\
        joined_class atl08 atl03_segment atl03_count class /\
        (forall k k',
           atl08_row atl08 k atl03_segment atl03_count ->
           atl08_row atl08 k' atl03_segment atl03_count ->
           k = k').
Proof.
  intros Hstage Hsorted Hinc Habove H. unfold classify in H.
  rewrite Hstage in H. cbn [negb] in H.
  apply bind_Ok_inv in H. destruct H as (v & Hsegs & H).
  inversion H; subst atl08'; clear H. cbn [Atl08Class.classification].
  exists (cv_classification v). split; [reflexivity|].
  apply (classify_segments_spec info parms atl03 atl08 Hsorted Habove Hinc) in Hsegs;
    cbn [atl03_photon atl08_photon]; try lia.
  - destruct Hsegs as [Hcells _].
    intros s seg n c Hseg Hn Hc.
    pose proof (get_Some _ _ _ Hseg) as Hs. unfold H5Array.size in Hs.
    destruct (Hcells s seg n c ltac:(lia) Hseg Hn Hc) as (class & Hl & Hj).
    exists class. split; [exact Hl|]. split; [exact Hj|].
    intros k k' [Hk1 Hk2] [Hk1' Hk2'].
    pose proof (get_Some _ _ _ Hk1) as Hr. pose proof (get_Some _ _ _ Hk1') as Hr'.
    destruct (Z.lt_trichotomy k k') as [Hlt|[Heq|Hgt]]; [exfalso|exact Heq|exfalso].
    + destruct (Hsorted k k' seg seg ltac:(lia) Hk1 Hk1') as [_ Hix].
      specialize (Hix eq_refl c c Hk2 Hk2'). lia.
    + destruct (Hsorted k' k seg seg ltac:(lia) Hk1' Hk1) as [_ Hix].
      specialize (Hix eq_refl c c Hk2' Hk2). lia.
  - reflexivity.
  - intros j idj s seg Hj. lia.
Qed.

(** C3.  [classify] walks the ATL08 rows with a cursor that only advances, so
    the join is stated for rows ordered by segment id and then by photon
    index, ATL03 segment ids that increase, and the ABoVE reclassification
    (a later step, which overwrites the joined class) not in effect.  Then
    every ATL03 photon, photon [atl03_count] of the segment at position [s],
    gets [(uint8_t)classed_pc_flag] of the ATL08 row keyed by its segment id
    and [atl03_count] when such a row exists, and that row is unique; and it
    gets [ATL08_UNCLASSIFIED] when there is none.  In scenario 3 (segment 100
    with three photons, rows [(100, 1, 1)] and [(100, 3, 3)]) the classes are
    [[1, ATL08_UNCLASSIFIED, 3]]. *)
Theorem classify_join :
  (forall (info : info_t) (parms : Icesat2Parms) (region : Region)
          (atl03 : Atl03Data.t) (atl08 atl08' : Atl08Class.t),
     stage_atl08 parms = true ->
     rows_sorted atl08 ->
     segments_increasing (Atl03Data.segment_id atl03) ->
     Atl08Class.phoreal atl08 && above_classifier (phoreal parms) = false ->
     classify info parms region atl03 atl08 = Ok atl08' ->
     exists classification,
       Atl08Class.classification atl08' = Some classification /\
       forall s atl03_segment atl03_segment_count atl03_count,
         H5Array.get (Atl03Data.segment_id atl03) s = Some atl03_segment ->
         H5Array.get (segment_ph_cnt region) s = Some atl03_segment_count ->
         1 <= atl03_count <= atl03_segment_count ->
         exists class,
           load classification (photon_index (segment_ph_cnt region) s atl03_count)
             = Ok class /\
           joined_class atl08 atl03_segment atl03_count class /\
           (forall k k',
              atl08_row atl08 k atl03_segment atl03_count ->
              atl08_row atl08 k' atl03_segment atl03_count ->
              k = k')) /\
  (forall info : info_t,
     exists atl08',
       classify info atl08_parms (whole_track [3]) scenario3_atl03 scenario3_atl08
         = Ok atl08' /\
       Atl08Class.classification atl08'
         = Some [Some 1; Some ATL08_UNCLASSIFIED; Some 3]).
Proof.
  split.
  - intros. eapply classify_join_sorted; eauto.
  - intros info. eexists. split; vm_compute; reflexivity.
Qed.

(** ** YAPC version 2: the spread of a segment *)

(** "Calculate Distance and Height Spread" reads photons [0 .. N-1] of the
    photon axis whatever the segment. *)
Lemma yapcV2_spread_from_zero (atl03 : Atl03Data.t) (N : Z) :
  yapcV2_spread atl03 N = center_band_spread atl03 0 N.
Proof.
  unfold yapcV2_spread, center_band_spread.
  now replace (N - 0 - 1) with (N - 1) by lia.
Qed.

(** C6, on the code.  For the second of two segments of three photons,
    whose center band is photons 3 to 5, [yapcV2] checks the spread of
    photons 0 to 2: it finds [hspread = 2] and [xspread = 2], passes "Check
    Window" and scores the three photons 255.  Over the center band the
    heights are all 5, so [hspread = 0] there and "Check Window" would skip
    the segment, leaving its photons with the score 0 of the [memset]. *)
Theorem yapcV2_spread_not_center_band :
  yapcV2 (yapc_v2_parms 1) (whole_track [3; 3]) yapc_two_segments
    = Ok ([Some 170; Some 170; Some 170; Some 255; Some 255; Some 255],
          [Scored 0 3 1 2 2; Scored 3 6 1 2 2]) /\
  center_band_spread yapc_two_segments 3 6
    = Ok {| min_h := 5; max_h := 5; min_x := 0; max_x := 2 |} /\
  invalid_spread (5 - 5) (2 - 0) = true /\
  yapcV2_spread yapc_two_segments 3
    = Ok {| min_h := 4; max_h := 6; min_x := 0; max_x := 2 |}.
Proof. repeat split; vm_compute; reflexivity. Qed.

(** ** The ABoVE classifier *)

(** The block "Run ABoVE Classifier" decides by the condition of the
    specification taken at index [atl03_segment] of [solar_elevation], and
    [classify_photon] passes it the segment's id, not its position. *)
Lemma above_classify_reads_segment_id (info : info_t) (parms : Icesat2Parms)
  (atl03 : Atl03Data.t) (atl03_segment photon : Z) (relief : cells float)
  (classification : cells Z) (class : Z) (rel : float) (applies : bool) :
  above_classifier (phoreal parms) = true ->
  load classification photon = Ok class ->
  class <> ATL08_TOP_OF_CANOPY ->
  load relief photon = Ok rel ->
  above_applies info atl03 atl03_segment photon rel = Ok applies ->
  above_classify info parms atl03 atl03_segment photon relief classification
    = if applies then store classification photon ATL08_TOP_OF_CANOPY
      else Ok classification.
Proof.
  intros Hon Hclass Hne Hrel Happ. unfold above_classify, above_applies in *.
  rewrite Hon, Hclass. cbn [bind].
  destruct (Z.eqb_spec class ATL08_TOP_OF_CANOPY); [contradiction|]. cbn [negb].
  inv_bind Happ. rewrite Hrd. cbn [rd bind].
  inv_bind Happ. rewrite Hrd0. cbn [rd bind].
  inv_bind Happ. rewrite Hrd1. cbn [rd bind].
  inversion Happ; subst applies; clear Happ.
  destruct (PrimFloat.leb x0 5); cbn [andb]; [|reflexivity].
  destruct ((to_uint8 (getSpotNumber x (track info) (pair info)) =? 1)
            || (to_uint8 (getSpotNumber x (track info) (pair info)) =? 3)
            || (to_uint8 (getSpotNumber x (track info) (pair info)) =? 5));
    cbn [andb]; [|reflexivity].
  destruct (x1 =? CNF_SURFACE_HIGH); cbn [andb]; [|reflexivity].
  rewrite Hrel. cbn [bind]. reflexivity.
Qed.

(* ================================================================== *)
(** * Region: which segments a crop holds                              *)
(* ================================================================== *)

Lemma selected_by_at inside lat lon cnt s lat_s lon_s c :
  H5Array.get lat s = Some lat_s ->
  H5Array.get lon s = Some lon_s ->
  H5Array.get cnt s = Some c ->
  selected_by inside lat lon cnt s <-> (c <> 0 /\ inside lon_s lat_s = true).
Proof.
  intros Hlat Hlon Hc. split.
  - intros (a & b & c' & Ha & Hb & Hc' & Hne & Hin).
    rewrite Hlat in Ha. rewrite Hlon in Hb. rewrite Hc in Hc'.
    inversion Ha; inversion Hb; inversion Hc'; subst. split; assumption.
  - intros [Hne Hin]. exists lat_s, lon_s, c. repeat split; assumption.
Qed.

Lemma rejected_by_at inside lat lon cnt s lat_s lon_s c :
  H5Array.get lat s = Some lat_s ->
  H5Array.get lon s = Some lon_s ->
  H5Array.get cnt s = Some c ->
  rejected_by inside lat lon cnt s <-> (c <> 0 /\ inside lon_s lat_s = false).
Proof.
  intros Hlat Hlon Hc. split.
  - intros (a & b & c' & Ha & Hb & Hc' & Hne & Hin).
    rewrite Hlat in Ha. rewrite Hlon in Hb. rewrite Hc in Hc'.
    inversion Ha; inversion Hb; inversion Hc'; subst. split; assumption.
  - intros [Hne Hin]. exists lat_s, lon_s, c. repeat split; assumption.
Qed.

Lemma selected_by_in_range inside lat lon cnt s :
  selected_by inside lat lon cnt s -> 0 <= s < H5Array.size cnt.
Proof. intros (a & b & c & _ & _ & Hc & _). eapply get_Some; eauto. Qed.

Lemma rejected_by_in_range inside lat lon cnt s :
  rejected_by inside lat lon cnt s -> 0 <= s < H5Array.size cnt.
Proof. intros (a & b & c & _ & _ & Hc & _). eapply get_Some; eauto. Qed.

Lemma polyregion_body_scan parms lat lon cnt v r :
  polyregion_scan parms lat lon cnt v ->
  polyregion_body parms lat lon cnt v = Ok r ->
  match r with
  | Continue v' =>
      polyregion_scan parms lat lon cnt v' /\ pv_segment v' = pv_segment v + 1
  | Break v' =>
      v' = v /\ pv_first_segment_found v = true /\
      rejected_by (inpoly parms) lat lon cnt (pv_segment v)
  end.
Proof.
  unfold polyregion_body, polyregion_scan. intros [Hseg Hinv] H.
  inv_bind H. inv_bind H. inv_bind H.
  rename x into lon_s, x0 into lat_s, x1 into c.
  rename Hrd into Hlon, Hrd0 into Hlat, Hrd1 into Hc.
  pose proof (selected_by_at (inpoly parms) _ _ _ _ _ _ _ Hlat Hlon Hc) as Hsel.
  pose proof (rejected_by_at (inpoly parms) _ _ _ _ _ _ _ Hlat Hlon Hc) as Hrej.
  destruct (pv_first_segment_found v); cbn [negb] in H.
  - destruct Hinv as (Hfs & Hfirst & Hbefore & Hin).
    destruct (inpoly parms lon_s lat_s) eqn:Hp; cbn [negb andb] in H.
    + inversion H; subst r; clear H. cbn. split; [|reflexivity].
      split; [lia|]. split; [lia|]. split; [exact Hfirst|]. split; [exact Hbefore|].
      intros s Hs. destruct (Z.eq_dec s (pv_segment v)) as [->|Hne].
      * rewrite Hrej. intros [_ Hf]. congruence.
      * apply Hin. lia.
    + destruct (Z.eqb_spec c 0) as [Hz|Hz]; cbn [negb] in H;
        inversion H; subst r; clear H.
      * cbn. split; [|reflexivity].
        split; [lia|]. split; [lia|]. split; [exact Hfirst|]. split; [exact Hbefore|].
        intros s Hs. destruct (Z.eq_dec s (pv_segment v)) as [->|Hne].
        -- rewrite Hrej. intros [Hf _]. contradiction.
        -- apply Hin. lia.
      * split; [reflexivity|]. split; [reflexivity|]. rewrite Hrej. split; [assumption|reflexivity].
  - destruct (inpoly parms lon_s lat_s && negb (c =? 0)) eqn:Hp;
      inversion H; subst r; clear H; cbn; (split; [|reflexivity]).
    + apply andb_true_iff in Hp. destruct Hp as [Hp Hnz].
      apply negb_true_iff in Hnz. apply Z.eqb_neq in Hnz.
      split; [lia|]. split; [lia|]. split; [rewrite Hsel; split; assumption|].
      split; [exact Hinv|]. intros s Hs. assert (s = pv_segment v) by lia. subst s.
      rewrite Hrej. intros [_ Hf]. congruence.
    + split; [lia|]. intros s Hs. destruct (Z.eq_dec s (pv_segment v)) as [->|Hne].
      * rewrite Hsel. intros [Hnz Hin]. rewrite Hin in Hp. cbn in Hp.
        apply negb_false_iff in Hp. apply Z.eqb_eq in Hp. contradiction.
      * apply Hinv. lia.
Qed.

Lemma polyregion_loop_scan parms lat lon cnt rest :
  forall v v',
    polyregion_scan parms lat lon cnt v ->
    polyregion_loop parms lat lon cnt rest v = Ok v' ->
    polyregion_scan parms lat lon cnt v' /\
    (pv_segment v' = pv_segment v + Z.of_nat rest \/
     (pv_first_segment_found v' = true /\
      rejected_by (inpoly parms) lat lon cnt (pv_segment v'))).
Proof.
  induction rest as [|rest IH]; intros v v' Hinv H.
  - cbn in H. inversion H; subst. split; [exact Hinv|left; lia].
  - cbn [polyregion_loop] in H.
    apply bind_Ok_inv in H. destruct H as (r & Hb & H).
    pose proof (polyregion_body_scan _ _ _ _ _ _ Hinv Hb) as Hr.
    destruct r as [v1|v1].
    + destruct Hr as [Hinv1 Hseg]. destruct (IH _ _ Hinv1 H) as [Hinv' Hend].
      split; [exact Hinv'|]. destruct Hend as [Hend|Hend]; [left; lia|right; exact Hend].
    + inversion H; subst v'; clear H. destruct Hr as (-> & Hfound & Hrej).
      split; [exact Hinv|right; split; assumption].
Qed.

Lemma polyregion_loop_total parms lat lon cnt rest :
  forall v,
    0 <= pv_segment v ->
    pv_segment v + Z.of_nat rest <= H5Array.size cnt ->
    H5Array.size cnt <= H5Array.size lat ->
    H5Array.size cnt <= H5Array.size lon ->
    exists v', polyregion_loop parms lat lon cnt rest v = Ok v'.
Proof.
  induction rest as [|rest IH]; intros v Hlo Hhi Hlat Hlon.
  - cbn. eauto.
  - cbn [polyregion_loop]. unfold polyregion_body.
    destruct (get_in_range lon (pv_segment v) ltac:(lia)) as (lon_s & ->).
    destruct (get_in_range lat (pv_segment v) ltac:(lia)) as (lat_s & ->).
    destruct (get_in_range cnt (pv_segment v) ltac:(lia)) as (c & ->).
    cbn [rd bind].
    destruct (negb (pv_first_segment_found v)).
    + destruct (inpoly parms lon_s lat_s && negb (c =? 0)); cbn [bind];
        apply IH; cbn; try lia; assumption.
    + destruct (negb (inpoly parms lon_s lat_s) && negb (c =? 0)); cbn [bind];
        [eauto|]. apply IH; cbn; try lia; assumption.
Qed.

Lemma sum_counts_nonneg (l : list Z) :
  (forall c, In c l -> 0 <= c) -> 0 <= sum_counts l.
Proof.
  induction l as [|x l IH]; intros H; [cbn; lia|].
  change (sum_counts (x :: l)) with (x + sum_counts l).
  assert (0 <= x) by (apply H; now left).
  assert (0 <= sum_counts l) by (apply IH; intros c Hc; apply H; now right). lia.
Qed.

Lemma In_firstn {A} (n : nat) (l : list A) (x : A) : In x (firstn n l) -> In x l.
Proof.
  revert l. induction n as [|n IH]; intros [|y l] H; cbn in H; try contradiction.
  destruct H as [->|H]; [now left|right; now apply IH].
Qed.

Lemma slice_In {A} (a : list A) (first num : Z) (x : A) :
  In x (slice a first num) -> exists s, H5Array.get a s = Some x.
Proof.
  unfold slice. intros H. apply In_firstn in H. apply In_nth_error in H.
  destruct H as (n & Hn). rewrite nth_error_skipn in Hn.
  exists (Z.of_nat (Z.to_nat first + n)). now rewrite get_nat.
Qed.

(** A run of segments that starts at a segment with photons holds at least
    one photon, when no count is negative. *)
Lemma sum_counts_slice_pos (cnt : list Z) (first num c : Z) :
  (forall s c, H5Array.get cnt s = Some c -> 0 <= c) ->
  0 <= first -> 1 <= num ->
  H5Array.get cnt first = Some c -> c <> 0 ->
  0 < sum_counts (slice cnt first num).
Proof.
  intros Hnn Hfirst Hnum Hc Hne.
  assert (Hpos : 0 < c) by (specialize (Hnn _ _ Hc); lia).
  unfold slice. unfold H5Array.get in Hc.
  destruct (Z.ltb_spec first 0); [lia|].
  destruct (Z.to_nat num) as [|n] eqn:E; [lia|].
  destruct (skipn (Z.to_nat first) cnt) as [|x l] eqn:Es.
  - assert (Hn : nth_error (skipn (Z.to_nat first) cnt) 0 = Some c)
      by (rewrite nth_error_skipn, Nat.add_0_r; exact Hc).
    rewrite Es in Hn. discriminate.
  - assert (Hn : nth_error (skipn (Z.to_nat first) cnt) 0 = Some c)
      by (rewrite nth_error_skipn, Nat.add_0_r; exact Hc).
    rewrite Es in Hn. cbn in Hn. inversion Hn; subst x.
    change (sum_counts (firstn (S n) (c :: l))) with (c + sum_counts (firstn n l)).
    assert (0 <= sum_counts (firstn n l)).
    { apply sum_counts_nonneg. intros y Hy.
      assert (Hin : In y (slice cnt (first + 1) (Z.of_nat n))).
      { unfold slice. rewrite Nat2Z.id.
        replace (Z.to_nat (first + 1)) with (S (Z.to_nat first)) by lia.
        change (S (Z.to_nat first)) with (1 + Z.to_nat first)%nat.
        rewrite <- skipn_skipn. rewrite Es. exact Hy. }
      apply slice_In in Hin. destruct Hin as (s & Hs). eapply Hnn; eauto. }
    lia.
Qed.

Lemma get_array_set_eq {A} (a : list A) (s : Z) (v : A) :
  0 <= s < H5Array.size a -> H5Array.get (array_set a (Z.to_nat s) v) s = Some v.
Proof.
  intros H. rewrite get_to_nat by lia. apply nth_error_array_set_eq.
  unfold H5Array.size in H. lia.
Qed.

Lemma get_array_set_ne {A} (a : list A) (s q : Z) (v : A) :
  0 <= s -> q <> s -> H5Array.get (array_set a (Z.to_nat s) v) q = H5Array.get a q.
Proof.
  intros Hs Hq. unfold H5Array.get. destruct (Z.ltb_spec q 0); [reflexivity|].
  apply nth_error_array_set_ne. lia.
Qed.

Lemma rasterregion_body_scan includes lat lon cnt v v' :
  rasterregion_scan includes lat lon cnt v ->
  rasterregion_body includes lat lon cnt v = Ok v' ->
  rasterregion_scan includes lat lon cnt v' /\ rv_segment v' = rv_segment v + 1.
Proof.
  unfold rasterregion_body, rasterregion_scan.
  intros (Hseg & Hlen & Hwritten & Hfresh & Hinv) H.
  inv_bind H. rename x into c, Hrd into Hc.
  pose proof (get_Some _ _ _ Hc) as Hrange.
  destruct (Z.eqb_spec c 0) as [Hz|Hz]; cbn [negb] in H.
  - inversion H; subst v'; clear H. cbn. split; [|reflexivity].
    assert (Hnot : ~ selected_by includes lat lon cnt (rv_segment v)).
    { intros (a & b & c' & _ & _ & Hc' & Hne & _). rewrite Hc in Hc'.
      inversion Hc'; subst. contradiction. }
    split; [lia|]. split; [exact Hlen|]. split; [|split].
    + intros s c' Hs Hc' Hne. destruct (Z.eq_dec s (rv_segment v)) as [->|Hn].
      * rewrite Hc in Hc'. inversion Hc'; subst. contradiction.
      * apply (Hwritten s c'); [lia|assumption|assumption].
    + intros s Hs Hr. apply Hfresh; [|exact Hr]. destruct Hs as [Hs|Hs]; [left; lia|now right].
    + destruct (rv_first_segment_found v).
      * destruct Hinv as (Hfs & Hls & Hfirst & Hlast & Hbefore & Hafter).
        repeat (split; [first [assumption | lia]|]).
        intros s Hs. destruct (Z.eq_dec s (rv_segment v)) as [->|Hn]; [exact Hnot|].
        apply Hafter. lia.
      * intros s Hs. destruct (Z.eq_dec s (rv_segment v)) as [->|Hn]; [exact Hnot|].
        apply Hinv. lia.
  - inv_bind H. inv_bind H. rename x into lon_s, x0 into lat_s.
    rename Hrd into Hlon, Hrd0 into Hlat.
    pose proof (selected_by_at includes _ _ _ _ _ _ _ Hlat Hlon Hc) as Hsel.
    set (mask := array_set (rv_inclusion_mask v) (Z.to_nat (rv_segment v))
                   (Some (includes lon_s lat_s))) in H.
    assert (Hmlen : length mask = length cnt).
    { subst mask. now rewrite array_set_length. }
    assert (Hmw : forall s c', 0 <= s < rv_segment v + 1 ->
              H5Array.get cnt s = Some c' -> c' <> 0 ->
              exists a b, H5Array.get lat s = Some a /\ H5Array.get lon s = Some b /\
                          H5Array.get mask s = Some (Some (includes b a))).
    { intros s c' Hs Hc' Hne. destruct (Z.eq_dec s (rv_segment v)) as [->|Hn].
      - exists lat_s, lon_s. split; [exact Hlat|]. split; [exact Hlon|].
        subst mask. apply get_array_set_eq. unfold H5Array.size in *. lia.
      - destruct (Hwritten s c') as (a & b & Ha & Hb & Hm); [lia|assumption|assumption|].
        exists a, b. split; [exact Ha|]. split; [exact Hb|].
        subst mask. rewrite get_array_set_ne by lia. exact Hm. }
    assert (Hmf : forall s, (rv_segment v + 1 <= s \/ H5Array.get cnt s = Some 0) ->
              0 <= s < H5Array.size cnt -> H5Array.get mask s = Some None).
    { intros s Hs Hr.
      assert (Hn : s <> rv_segment v).
      { destruct Hs as [Hs|Hs]; [lia|]. intros ->. rewrite Hc in Hs.
        inversion Hs; subst. contradiction. }
      subst mask. rewrite get_array_set_ne by lia.
      apply Hfresh; [|exact Hr]. destruct Hs as [Hs|Hs]; [left; lia|now right]. }
    clearbody mask.
    destruct (rv_first_segment_found v); cbn [negb] in H.
    + destruct Hinv as (Hfs & Hls & Hfirst & Hlast & Hbefore & Hafter).
      destruct (includes lon_s lat_s) eqn:Hin; inversion H; subst v'; clear H; cbn;
        (split; [|reflexivity]); (split; [lia|]); (split; [exact Hmlen|]);
        (split; [exact Hmw|]); (split; [exact Hmf|]).
      * split; [lia|]. split; [lia|]. split; [exact Hfirst|].
        split; [rewrite Hsel; split; [assumption|reflexivity]|].
        split; [exact Hbefore|]. intros s Hs. lia.
      * split; [lia|]. split; [lia|]. split; [exact Hfirst|]. split; [exact Hlast|].
        split; [exact Hbefore|]. intros s Hs.
        destruct (Z.eq_dec s (rv_segment v)) as [->|Hn].
        -- rewrite Hsel. intros [_ Hf]. discriminate.
        -- apply Hafter. lia.
    + destruct (includes lon_s lat_s) eqn:Hin; inversion H; subst v'; clear H; cbn;
        (split; [|reflexivity]); (split; [lia|]); (split; [exact Hmlen|]);
        (split; [exact Hmw|]); (split; [exact Hmf|]).
      * split; [lia|]. split; [lia|].
        split; [rewrite Hsel; split; [assumption|reflexivity]|].
        split; [rewrite Hsel; split; [assumption|reflexivity]|].
        split; [exact Hinv|]. intros s Hs. lia.
      * intros s Hs. destruct (Z.eq_dec s (rv_segment v)) as [->|Hn].
        -- rewrite Hsel. intros [_ Hf]. discriminate.
        -- apply Hinv. lia.
Qed.

Lemma rasterregion_loop_scan includes lat lon cnt rest :
  forall v v',
    rasterregion_scan includes lat lon cnt v ->
    rasterregion_loop includes lat lon cnt rest v = Ok v' ->
    rasterregion_scan includes lat lon cnt v' /\
    rv_segment v' = rv_segment v + Z.of_nat rest.
Proof.
  induction rest as [|rest IH]; intros v v' Hinv H.
  - cbn in H. inversion H; subst. split; [exact Hinv|lia].
  - cbn [rasterregion_loop] in H.
    apply bind_Ok_inv in H. destruct H as (v1 & Hb & H).
    destruct (rasterregion_body_scan _ _ _ _ _ _ Hinv Hb) as [Hinv1 Hseg].
    destruct (IH _ _ Hinv1 H) as [Hinv' Hend]. split; [exact Hinv'|lia].
Qed.

Lemma rasterregion_loop_total includes lat lon cnt rest :
  forall v,
    0 <= rv_segment v ->
    rv_segment v + Z.of_nat rest <= H5Array.size cnt ->
    H5Array.size cnt <= H5Array.size lat ->
    H5Array.size cnt <= H5Array.size lon ->
    exists v', rasterregion_loop includes lat lon cnt rest v = Ok v'.
Proof.
  induction rest as [|rest IH]; intros v Hlo Hhi Hlat Hlon.
  - cbn. eauto.
  - cbn [rasterregion_loop]. unfold rasterregion_body.
    destruct (get_in_range lon (rv_segment v) ltac:(lia)) as (lon_s & ->).
    destruct (get_in_range lat (rv_segment v) ltac:(lia)) as (lat_s & ->).
    destruct (get_in_range cnt (rv_segment v) ltac:(lia)) as (c & ->).
    cbn [rd bind].
    destruct (negb (c =? 0)); cbn [bind]; [|apply IH; cbn; try lia; assumption].
    destruct (negb (rv_first_segment_found v));
      destruct (includes lon_s lat_s); cbn [bind];
      apply IH; cbn; try lia; assumption.
Qed.

(** What [polyregion] leaves: a crop, or the region untouched when no
    segment with photons is inside the polygon. *)
Lemma polyregion_facts parms r r' :
  polyregion parms r = Ok r' ->
  first_photon r = 0 ->
  let lat := segment_lat r in
  let lon := segment_lon r in
  let cnt := segment_ph_cnt r in
  segment_lat r' = lat /\ segment_lon r' = lon /\ segment_ph_cnt r' = cnt /\
  inclusion_ptr r' = inclusion_ptr r /\
  ((0 <= first_segment r' /\ 1 <= num_segments r' /\
    first_segment r' + num_segments r' <= H5Array.size cnt /\
    selected_by (inpoly parms) lat lon cnt (first_segment r') /\
    (forall s, s < first_segment r' -> ~ selected_by (inpoly parms) lat lon cnt s) /\
    (forall s, first_segment r' <= s < first_segment r' + num_segments r' ->
       ~ rejected_by (inpoly parms) lat lon cnt s) /\
    (first_segment r' + num_segments r' < H5Array.size cnt ->
     rejected_by (inpoly parms) lat lon cnt (first_segment r' + num_segments r')) /\
    num_photons r' = sum_counts (slice cnt (first_segment r') (num_segments r')))
   \/
   (num_photons r' = num_photons r /\
    forall s, ~ selected_by (inpoly parms) lat lon cnt s)).
Proof.
  intros H Hfp lat lon cnt. unfold polyregion in H.
  apply bind_Ok_inv in H. destruct H as (v & Hloop & H).
  inversion H; subst r'; clear H. cbn.
  do 4 (split; [reflexivity|]).
  pose proof Hloop as Hsum.
  eapply polyregion_loop_inv with (np0 := num_photons r) (fs0 := first_segment r)
    in Hsum; [|unfold polyregion_inv; cbn; rewrite Hfp; repeat split; lia].
  apply polyregion_loop_scan in Hloop;
    [|unfold polyregion_scan; cbn; split; [lia|intros s Hs; lia]].
  cbn [pv_segment] in Hloop. destruct Hloop as [Hscan Hend].
  unfold polyregion_scan in Hscan. unfold polyregion_inv in Hsum.
  destruct Hscan as [Hseg Hscan]. destruct Hsum as [_ Hsum].
  fold lat lon cnt in Hscan, Hend, Hsum |- *.
  destruct (pv_first_segment_found v).
  - left. destruct Hscan as (Hfs & Hfirst & Hbefore & Hin).
    destruct Hsum as (_ & _ & Hnp).
    assert (Hhi : pv_segment v <= H5Array.size cnt).
    { destruct Hend as [Hend|[_ Hend]].
      - unfold H5Array.size. subst cnt. lia.
      - apply rejected_by_in_range in Hend. lia. }
    split; [lia|]. split; [lia|]. split; [lia|]. split; [exact Hfirst|].
    split.
    { intros s Hs Hsel. pose proof (selected_by_in_range _ _ _ _ _ Hsel).
      apply (Hbefore s); [lia|exact Hsel]. }
    split.
    { intros s Hs. apply Hin. lia. }
    split; [|exact Hnp].
    intros Hlt. replace (pv_first_segment v + (pv_segment v - pv_first_segment v))
      with (pv_segment v) in * by lia.
    destruct Hend as [Hend|[_ Hend]]; [|exact Hend].
    unfold H5Array.size in Hlt. subst cnt. lia.
  - right. destruct Hsum as (_ & Hnp & _). split; [exact Hnp|].
    intros s Hsel. pose proof (selected_by_in_range _ _ _ _ _ Hsel) as Hr.
    destruct Hend as [Hend|[Hf _]]; [|discriminate].
    apply (Hscan s); [|exact Hsel]. unfold H5Array.size in Hr. subst cnt. lia.
Qed.

Lemma polyregion_total parms r :
  H5Array.size (segment_ph_cnt r) <= H5Array.size (segment_lat r) ->
  H5Array.size (segment_ph_cnt r) <= H5Array.size (segment_lon r) ->
  exists r', polyregion parms r = Ok r'.
Proof.
  intros Hlat Hlon. unfold polyregion.
  edestruct (polyregion_loop_total parms (segment_lat r) (segment_lon r)
               (segment_ph_cnt r) (length (segment_ph_cnt r))) as (v & ->);
    [| |exact Hlat|exact Hlon|cbn [bind]; eauto].
  - cbn. lia.
  - cbn. unfold H5Array.size. lia.
Qed.

(** What [rasterregion] leaves: a crop and its inclusion mask, or no crop
    when no segment with photons is inside the raster. *)
Lemma rasterregion_facts includes r r' :
  rasterregion includes r = Ok r' ->
  first_photon r = 0 ->
  let lat := segment_lat r in
  let lon := segment_lon r in
  let cnt := segment_ph_cnt r in
  segment_lat r' = lat /\ segment_lon r' = lon /\ segment_ph_cnt r' = cnt /\
  ((0 <= first_segment r' /\ 1 <= num_segments r' /\
    first_segment r' + num_segments r' <= H5Array.size cnt /\
    selected_by includes lat lon cnt (first_segment r') /\
    (forall s, s < first_segment r' -> ~ selected_by includes lat lon cnt s) /\
    selected_by includes lat lon cnt (first_segment r' + num_segments r' - 1) /\
    (forall s, first_segment r' + num_segments r' <= s ->
       ~ selected_by includes lat lon cnt s) /\
    num_photons r' = sum_counts (slice cnt (first_segment r') (num_segments r')) /\
    exists mask,
      inclusion_ptr r' = Some mask /\
      forall i c, 0 <= i -> H5Array.get cnt (first_segment r' + i) = Some c ->
        if c =? 0 then H5Array.get mask i = Some None
        else exists lat_s lon_s,
               H5Array.get lat (first_segment r' + i) = Some lat_s /\
               H5Array.get lon (first_segment r' + i) = Some lon_s /\
               H5Array.get mask i = Some (Some (includes lon_s lat_s)))
   \/
   (num_photons r' = num_photons r /\
    forall s, ~ selected_by includes lat lon cnt s)).
Proof.
  intros H Hfp lat lon cnt. unfold rasterregion in H.
  destruct (Z.leb_spec (H5Array.size (segment_ph_cnt r)) 0) as [Hempty|Hsome].
  { inversion H; subst r'; clear H. do 3 (split; [reflexivity|]). right.
    split; [reflexivity|]. intros s Hsel.
    apply selected_by_in_range in Hsel. subst cnt. lia. }
  apply bind_Ok_inv in H. destruct H as (v & Hloop & H).
  inversion H; subst r'; clear H. cbn.
  do 3 (split; [reflexivity|]).
  pose proof Hloop as Hsum.
  eapply rasterregion_loop_inv with (np0 := num_photons r) (fs0 := first_segment r)
    in Hsum; [|unfold rasterregion_inv; cbn; rewrite Hfp; repeat split; lia].
  apply rasterregion_loop_scan in Hloop.
  2:{ unfold rasterregion_scan; cbn. split; [lia|]. split; [apply repeat_length|].
      split; [intros s c Hs; lia|]. split; [|intros s Hs; lia].
      intros s _ Hs. rewrite get_to_nat by lia. apply nth_error_repeat.
      unfold H5Array.size in Hs. lia. }
  cbn [rv_segment] in Hloop. destruct Hloop as [Hscan Hend].
  unfold rasterregion_scan in Hscan. unfold rasterregion_inv in Hsum.
  destruct Hscan as (Hseg & Hlen & Hwritten & Hfresh & Hscan). destruct Hsum as [_ Hsum].
  fold lat lon cnt in Hscan, Hend, Hsum, Hwritten, Hfresh, Hlen |- *.
  assert (Hsize : rv_segment v = H5Array.size cnt).
  { unfold H5Array.size. subst cnt. lia. }
  destruct (rv_first_segment_found v).
  - left. destruct Hscan as (Hfs & Hls & Hfirst & Hlast & Hbefore & Hafter).
    destruct Hsum as (_ & _ & _ & Hnp & _).
    split; [lia|]. split; [lia|]. split; [lia|]. split; [exact Hfirst|].
    split.
    { intros s Hs Hsel. pose proof (selected_by_in_range _ _ _ _ _ Hsel).
      apply (Hbefore s); [lia|exact Hsel]. }
    split.
    { replace (rv_first_segment v + (rv_last_segment v - rv_first_segment v + 1) - 1)
        with (rv_last_segment v) by lia. exact Hlast. }
    split.
    { intros s Hs Hsel. pose proof (selected_by_in_range _ _ _ _ _ Hsel).
      apply (Hafter s); [lia|exact Hsel]. }
    split.
    { rewrite Hnp. f_equal. f_equal. lia. }
    eexists. split; [reflexivity|].
    intros i c Hi Hc. pose proof (get_Some _ _ _ Hc) as Hr.
    assert (Hskip : H5Array.get (skipn (Z.to_nat (rv_first_segment v))
                                   (rv_inclusion_mask v)) i
                    = H5Array.get (rv_inclusion_mask v) (rv_first_segment v + i)).
    { rewrite !get_to_nat by lia. rewrite nth_error_skipn. f_equal. lia. }
    rewrite Hskip.
    destruct (Z.eqb_spec c 0) as [->|Hne].
    + apply Hfresh; [now right|lia].
    + apply (Hwritten _ c); [lia|exact Hc|exact Hne].
  - right. destruct Hsum as (_ & Hnp & _). split; [exact Hnp|].
    intros s Hsel. pose proof (selected_by_in_range _ _ _ _ _ Hsel) as Hr.
    apply (Hscan s); [lia|exact Hsel].
Qed.

Lemma rasterregion_total includes r :
  H5Array.size (segment_ph_cnt r) <= H5Array.size (segment_lat r) ->
  H5Array.size (segment_ph_cnt r) <= H5Array.size (segment_lon r) ->
  exists r', rasterregion includes r = Ok r'.
Proof.
  intros Hlat Hlon. unfold rasterregion.
  destruct (H5Array.size (segment_ph_cnt r) <=? 0); [eauto|].
  edestruct (rasterregion_loop_total includes (segment_lat r) (segment_lon r)
               (segment_ph_cnt r) (length (segment_ph_cnt r))) as (v & ->);
    [| |exact Hlat|exact Hlon|cbn [bind]; eauto].
  - cbn. lia.
  - cbn. unfold H5Array.size. lia.
Qed.

(** X1.  The window of a crop.  A region cropped by the polygon or the raster
    starts at the first segment that has photons and passes the spatial
    filter, holds at least one segment, and ends inside the track; the three
    per-segment datasets are trimmed to start at [first_segment]. *)
Theorem region_crop_window (parms : Icesat2Parms) (lat lon : list float)
  (cnt : list Z) (r : Region) :
  ALL_ROWS <= 0 ->
  Region_new parms lat lon cnt = Ok (Cropped, r) ->
  0 <= first_segment r /\ 1 <= num_segments r /\
  first_segment r + num_segments r <= H5Array.size cnt /\
  segment_selected parms lat lon cnt (first_segment r) /\
  (forall s, s < first_segment r -> ~ segment_selected parms lat lon cnt s) /\
  segment_lat r = H5Array.trim (first_segment r) lat /\
  segment_lon r = H5Array.trim (first_segment r) lon /\
  segment_ph_cnt r = H5Array.trim (first_segment r) cnt.
Proof.
  intros Hall H. unfold segment_selected, spatial_filter. unfold Region_new in H.
  destruct (raster parms) as [includes|].
  - apply bind_Ok_inv in H. destruct H as (r1 & Hr & H).
    destruct (rasterregion_facts _ _ _ Hr eq_refl) as (Hlat & Hlon & Hcnt & Hcrop).
    cbn in Hlat, Hlon, Hcnt, Hcrop.
    destruct (Z.leb_spec (num_photons r1) 0) as [Hle|Hgt]; [discriminate|].
    inversion H; subst r; clear H. cbn.
    destruct Hcrop as [(H1 & H2 & H3 & H4 & H5 & _)|[Hnp _]]; [|lia].
    rewrite Hlat, Hlon, Hcnt. repeat split; assumption.
  - destruct (0 <? points_in_poly parms); [|discriminate].
    apply bind_Ok_inv in H. destruct H as (r1 & Hr & H).
    destruct (polyregion_facts _ _ _ Hr eq_refl) as (Hlat & Hlon & Hcnt & _ & Hcrop).
    cbn in Hlat, Hlon, Hcnt, Hcrop.
    destruct (Z.leb_spec (num_photons r1) 0) as [Hle|Hgt]; [discriminate|].
    inversion H; subst r; clear H. cbn.
    destruct Hcrop as [(H1 & H2 & H3 & H4 & H5 & _)|[Hnp _]]; [|lia].
    rewrite Hlat, Hlon, Hcnt. repeat split; assumption.
Qed.

(** X2.  A polygon crop is one run of segments: no segment of the crop that has
    photons lies outside the polygon, and the crop stops at the end of the
    track or right before the first segment with photons outside the
    polygon, even when segments inside the polygon follow. *)
Theorem polygon_crop_contiguous (parms : Icesat2Parms) (lat lon : list float)
  (cnt : list Z) (r : Region) :
  ALL_ROWS <= 0 ->
  raster parms = None ->
  Region_new parms lat lon cnt = Ok (Cropped, r) ->
  (forall s, first_segment r <= s < first_segment r + num_segments r ->
     ~ rejected_by (inpoly parms) lat lon cnt s) /\
  (first_segment r + num_segments r < H5Array.size cnt ->
   rejected_by (inpoly parms) lat lon cnt (first_segment r + num_segments r)).
Proof.
  intros Hall Hraster H. unfold Region_new in H. rewrite Hraster in H.
  destruct (0 <? points_in_poly parms); [|discriminate].
  apply bind_Ok_inv in H. destruct H as (r1 & Hr & H).
  destruct (polyregion_facts _ _ _ Hr eq_refl) as (_ & _ & _ & _ & Hcrop).
  cbn in Hcrop.
  destruct (Z.leb_spec (num_photons r1) 0) as [Hle|Hgt]; [discriminate|].
  inversion H; subst r; clear H. cbn.
  destruct Hcrop as [(_ & _ & _ & _ & _ & H6 & H7 & _)|[Hnp _]]; [|lia].
  split; assumption.
Qed.

(** X3.  A raster crop runs from the first to the last segment that has photons
    and is inside the raster: its last segment is such a segment and none
    follows it.  Segments outside the raster may lie in between. *)
Theorem raster_crop_last (parms : Icesat2Parms) (includes : float -> float -> bool)
  (lat lon : list float) (cnt : list Z) (r : Region) :
  ALL_ROWS <= 0 ->
  raster parms = Some includes ->
  Region_new parms lat lon cnt = Ok (Cropped, r) ->
  selected_by includes lat lon cnt (first_segment r + num_segments r - 1) /\
  (forall s, first_segment r + num_segments r <= s ->
     ~ selected_by includes lat lon cnt s).
Proof.
  intros Hall Hraster H. unfold Region_new in H. rewrite Hraster in H.
  apply bind_Ok_inv in H. destruct H as (r1 & Hr & H).
  destruct (rasterregion_facts _ _ _ Hr eq_refl) as (_ & _ & _ & Hcrop).
  cbn in Hcrop.
  destruct (Z.leb_spec (num_photons r1) 0) as [Hle|Hgt]; [discriminate|].
  inversion H; subst r; clear H. cbn.
  destruct Hcrop as [(_ & _ & _ & _ & _ & H6 & H7 & _)|[Hnp _]]; [|lia].
  split; assumption.
Qed.

(** X4.  The inclusion mask of a raster crop.  [inclusion_ptr[i]] is what the
    raster says of the reference photon of segment [first_segment + i] when
    that segment has photons; for a segment without photons the cell is
    never written. *)
Theorem raster_mask_content (parms : Icesat2Parms)
  (includes : float -> float -> bool) (lat lon : list float) (cnt : list Z)
  (r : Region) :
  ALL_ROWS <= 0 ->
  raster parms = Some includes ->
  Region_new parms lat lon cnt = Ok (Cropped, r) ->
  exists mask,
    inclusion_ptr r = Some mask /\
    forall i c,
      0 <= i ->
      H5Array.get cnt (first_segment r + i) = Some c ->
      if c =? 0 then H5Array.get mask i = Some None /\ load mask i = Fault
      else exists lat_s lon_s,
             H5Array.get lat (first_segment r + i) = Some lat_s /\
             H5Array.get lon (first_segment r + i) = Some lon_s /\
             load mask i = Ok (includes lon_s lat_s).
Proof.
  intros Hall Hraster H. unfold Region_new in H. rewrite Hraster in H.
  apply bind_Ok_inv in H. destruct H as (r1 & Hr & H).
  destruct (rasterregion_facts _ _ _ Hr eq_refl) as (_ & _ & _ & Hcrop).
  cbn in Hcrop.
  destruct (Z.leb_spec (num_photons r1) 0) as [Hle|Hgt]; [discriminate|].
  inversion H; subst r; clear H. cbn.
  destruct Hcrop as [(_ & _ & _ & _ & _ & _ & _ & _ & mask & Hptr & Hmask)|[Hnp _]];
    [|lia].
  exists mask. split; [exact Hptr|]. intros i c Hi Hc.
  specialize (Hmask i c Hi Hc). unfold load.
  destruct (c =? 0).
  - rewrite Hmask. split; reflexivity.
  - destruct Hmask as (lat_s & lon_s & Hlat & Hlon & Hm).
    exists lat_s, lon_s. rewrite Hm. repeat split; assumption.
Qed.

(** X5.  The empty crop.  With a spatial filter set and per-segment datasets that
    cover every counted segment, [Region::Region] performs no read outside
    its arrays, and it throws [RunTimeException(DEBUG, RTE_EMPTY_SUBSET,
    "empty spatial region")] exactly when no segment has photons and passes
    the filter; otherwise it returns a crop. *)
Theorem region_empty_subset (parms : Icesat2Parms) (lat lon : list float)
  (cnt : list Z) :
  ALL_ROWS <= 0 ->
  raster parms <> None \/ 0 < points_in_poly parms ->
  segments_well_formed lat lon cnt ->
  (Region_new parms lat lon cnt
     = Throw (mkRTE DEBUG RTE_EMPTY_SUBSET empty_spatial_region)
   <-> forall s, ~ segment_selected parms lat lon cnt s) /\
  ((exists s, segment_selected parms lat lon cnt s) ->
   exists r, Region_new parms lat lon cnt = Ok (Cropped, r)).
Proof.
  intros Hall Hfilter (Hlat & Hlon & Hnn).
  assert (Hcases :
    (Region_new parms lat lon cnt
       = Throw (mkRTE DEBUG RTE_EMPTY_SUBSET empty_spatial_region) /\
     forall s, ~ segment_selected parms lat lon cnt s) \/
    ((exists r, Region_new parms lat lon cnt = Ok (Cropped, r)) /\
     exists s, segment_selected parms lat lon cnt s)).
  { unfold segment_selected, spatial_filter, Region_new.
    destruct (raster parms) as [includes|].
    - edestruct (rasterregion_total includes) as (r1 & Hr);
        [| |rewrite Hr]; [exact Hlat|exact Hlon|].
      destruct (rasterregion_facts _ _ _ Hr eq_refl) as (_ & _ & _ & Hcrop).
      cbn in Hcrop. cbn [bind].
      destruct Hcrop as [(H1 & H2 & _ & H4 & _ & _ & _ & Hnp & _)|[Hnp Hnone]].
      + right. assert (0 < num_photons r1).
        { rewrite Hnp. destruct H4 as (a & b & c & _ & _ & Hc & Hne & _).
          eapply sum_counts_slice_pos; eauto. }
        destruct (Z.leb_spec (num_photons r1) 0); [lia|]. split; eauto.
      + left. cbn in Hnp.
        destruct (Z.leb_spec (num_photons r1) 0); [|lia]. split; [reflexivity|exact Hnone].
    - destruct Hfilter as [Hf|Hf]; [congruence|].
      destruct (Z.ltb_spec 0 (points_in_poly parms)); [|lia].
      edestruct (polyregion_total parms) as (r1 & Hr);
        [| |rewrite Hr]; [exact Hlat|exact Hlon|].
      destruct (polyregion_facts _ _ _ Hr eq_refl) as (_ & _ & _ & _ & Hcrop).
      cbn in Hcrop. cbn [bind].
      destruct Hcrop as [(H1 & H2 & _ & H4 & _ & _ & _ & Hnp)|[Hnp Hnone]].
      + right. assert (0 < num_photons r1).
        { rewrite Hnp. destruct H4 as (a & b & c & _ & _ & Hc & Hne & _).
          eapply sum_counts_slice_pos; eauto. }
        destruct (Z.leb_spec (num_photons r1) 0); [lia|]. split; eauto.
      + left. cbn in Hnp.
        destruct (Z.leb_spec (num_photons r1) 0); [|lia]. split; [reflexivity|exact Hnone]. }
  destruct Hcases as [[Hthrow Hnone]|[(r & Hok) (s & Hs)]].
  - split.
    + split; [intros _; exact Hnone|intros _; exact Hthrow].
    + intros (s & Hs). exfalso. exact (Hnone s Hs).
  - split.
    + split.
      * intros Hthrow. rewrite Hok in Hthrow. discriminate.
      * intros Hnone. exfalso. exact (Hnone s Hs).
    + intros _. exists r. exact Hok.
Qed.

Lemma get_Forall {A} (P : A -> Prop) (a : list A) :
  Forall P a -> forall s x, H5Array.get a s = Some x -> P x.
Proof.
  intros H s x Hx. rewrite Forall_forall in H. apply H.
  unfold H5Array.get in Hx. destruct (s <? 0); [discriminate|].
  eapply nth_error_In; eauto.
Qed.
(* ================================================================== *)
(** * The extent state machine                                         *)
(* ================================================================== *)

Lemma goto_photon_segment_mono cnt rest :
  forall segment count segment' count',
    goto_photon_segment cnt rest segment count = Ok (segment', count') ->
    segment <= segment'.
Proof.
  induction rest as [|rest IH]; intros segment count segment' count' H; cbn in H.
  - inversion H; subst. lia.
  - inv_bind H. destruct (x <? count).
    + apply IH in H. lia.
    + inversion H; subst. lia.
Qed.

Lemma select_photon_ghost parms region atl03 atl08 yapc_scores st x_atc p s ph :
  select_photon parms region atl03 atl08 yapc_scores st x_atc p s = Ok (Some ph) ->
  photon_t.ghost_photon ph = p /\ photon_t.ghost_segment ph = s /\
  photon_copied atl03 ph /\ photon_phoreal parms atl03 atl08 ph.
Proof.
  unfold select_photon. intros H.
  apply and_then_Some_inv in H. destruct H as (cnf & _ & H).
  apply and_then_Some_inv in H. destruct H as (quality & _ & H).
  apply and_then_Some_inv in H. destruct H as (class & _ & H).
  apply and_then_Some_inv in H. destruct H as (sc & _ & H).
  apply and_then_Some_inv in H. destruct H as (u & _ & H).
  apply bind_Ok_inv in H. destruct H as ([[rel land] snow] & Hpho & H).
  inv_bind H. inv_bind H. inv_bind H. inv_bind H. inv_bind H.
  inversion H; subst ph; clear H.
  unfold photon_copied, photon_phoreal. cbn.
  split; [reflexivity|]. split; [reflexivity|]. split.
  { split; [eauto|]. repeat split; assumption. }
  unfold phoreal_fields in Hpho.
  destruct (Atl08Class.phoreal atl08).
  - apply bind_Ok_inv in Hpho. destruct Hpho as (r1 & Hr1 & Hpho).
    apply bind_Ok_inv in Hpho. destruct Hpho as (l1 & Hl1 & Hpho).
    apply bind_Ok_inv in Hpho. destruct Hpho as (s1 & Hs1 & Hpho).
    inversion Hpho; subst; clear Hpho.
    split; [|split].
    + destruct (use_abs_h (phoreal parms)); cbn [negb] in Hr1.
      * now apply rd_Ok_inv in Hr1.
      * destruct (Atl08Class.relief atl08) as [relief|]; [|discriminate]. eauto.
    + destruct (Atl08Class.landcover atl08) as [landcover|]; [|discriminate]. eauto.
    + destruct (Atl08Class.snowcover atl08) as [snowcover|]; [|discriminate]. eauto.
  - inversion Hpho; subst. repeat split.
Qed.

Section Extent_photons.

Variables (parms : Icesat2Parms) (region : Region) (atl03 : Atl03Data.t)
  (atl08 : Atl08Class.t) (yapc_scores : YapcScore.t).

(** What one pass of the photon loop does to the cursors and to the photons
    of the extent. *)
Lemma photon_body_step (v : photon_vars) (r : loop_ctl photon_vars) :
  photon_body parms region atl03 atl08 yapc_scores v = Ok r ->
  let v' := match r with Continue v' | Break v' => v' end in
  current_segment v <= current_segment v' /\
  current_photon v <= current_photon v' /\
  TrackState.extent_length (state v') = TrackState.extent_length (state v) /\
  match r with
  | Continue _ =>
      current_photon v' = current_photon v + 1 /\
      current_photon v' < H5Array.size (Atl03Data.dist_ph_along atl03)
  | Break _ => TrackState.track_complete (state v') = true
  end /\
  (TrackState.extent_photons (state v') = TrackState.extent_photons (state v) \/
   exists ph st x_atc,
     select_photon parms region atl03 atl08 yapc_scores st x_atc
       (current_photon v) (current_segment v') = Ok (Some ph) /\
     TrackState.extent_photons (state v')
       = TrackState.extent_photons (state v) ++ [ph]).
Proof.
  intros H. unfold photon_body in H.
  apply bind_Ok_inv in H. destruct H as ([segment count] & Hgoto & H).
  apply goto_photon_segment_mono in Hgoto.
  destruct (H5Array.size (Atl03Data.segment_dist_x atl03) <=? segment).
  { inversion H; subst r; clear H. cbn.
    repeat split; try lia; try reflexivity. now left. }
  inv_bind H. inv_bind H.
  apply bind_Ok_inv in H. destruct H as (stepped & _ & H).
  set (st1 := if stepped then _ else _) in H.
  assert (Hlen1 : TrackState.extent_length st1 = TrackState.extent_length (state v))
    by (subst st1; destruct stepped; reflexivity).
  assert (Hph1 : TrackState.extent_photons st1 = TrackState.extent_photons (state v))
    by (subst st1; destruct stepped; reflexivity).
  clearbody st1.
  apply bind_Ok_inv in H. destruct H as ([[st2 lists2] ec] & Hsel & H).
  assert (Hst2 :
    TrackState.extent_length st2 = TrackState.extent_length (state v) /\
    (TrackState.extent_photons st2 = TrackState.extent_photons (state v) \/
     exists ph st x_atc,
       select_photon parms region atl03 atl08 yapc_scores st x_atc
         (current_photon v) segment = Ok (Some ph) /\
       TrackState.extent_photons st2 = TrackState.extent_photons (state v) ++ [ph])).
  { destruct (if negb (dist_in_seg parms) then _ else _).
    - apply bind_Ok_inv in Hsel. destruct Hsel as ([ph|] & Hph & Hsel).
      + apply bind_Ok_inv in Hsel. destruct Hsel as (lists' & _ & Hsel).
        inversion Hsel; subst; clear Hsel.
        cbn [add_photon TrackState.extent_photons TrackState.extent_length].
        split; [exact Hlen1|]. right. rewrite Hph1. eauto.
      + inversion Hsel; subst; clear Hsel.
        split; [exact Hlen1|]. left. exact Hph1.
    - inversion Hsel; subst. split; [exact Hlen1|]. left. exact Hph1. }
  destruct Hst2 as [Hlen2 Hph2].
  destruct (Z.leb_spec (H5Array.size (Atl03Data.dist_ph_along atl03))
              (current_photon v + 1));
    inversion H; subst r; clear H; cbn;
    (split; [exact Hgoto|]); (split; [lia|]); (split; [exact Hlen2|]);
    (split; [first [reflexivity | split; [reflexivity|lia]]|exact Hph2]).
Qed.

(** The photons a run of the photon loop adds: each was accepted by the
    filter block at a photon at or after the first one of the run, and they
    are in the order of the photon axis. *)
Lemma photon_loop_added (rest : nat) :
  forall v v',
    photon_loop parms region atl03 atl08 yapc_scores rest v = Ok v' ->
    TrackState.extent_length (state v') = TrackState.extent_length (state v) /\
    exists added,
      TrackState.extent_photons (state v')
        = TrackState.extent_photons (state v) ++ added /\
      Forall (fun ph =>
                current_photon v <= photon_t.ghost_photon ph /\
                current_segment v <= photon_t.ghost_segment ph /\
                exists st x_atc,
                  select_photon parms region atl03 atl08 yapc_scores st x_atc
                    (photon_t.ghost_photon ph) (photon_t.ghost_segment ph)
                    = Ok (Some ph)) added /\
      photons_in_order added.
Proof.
  induction rest as [|rest IH]; intros v v' H; cbn [photon_loop] in H.
  - destruct (extent_complete v && step_complete v); [|discriminate].
    inversion H; subst v'. split; [reflexivity|]. exists []. rewrite app_nil_r.
    split; [reflexivity|]. split; [constructor|]. intros [|i] j a b _ Ha; discriminate.
  - destruct (extent_complete v && step_complete v).
    { inversion H; subst v'. split; [reflexivity|]. exists []. rewrite app_nil_r.
      split; [reflexivity|]. split; [constructor|].
      intros [|i] j a b _ Ha; discriminate. }
    apply bind_Ok_inv in H. destruct H as (r & Hb & H).
    pose proof (photon_body_step _ _ Hb) as Hstep. cbv zeta in Hstep.
    destruct r as [v1|v1].
    + destruct Hstep as (Hseg & _ & Hlen & [Hnext _] & Hph).
      destruct (IH _ _ H) as (Hlen' & added & Hadded & Hall & Hord).
      split; [congruence|].
      assert (Hall' : Forall (fun ph =>
                current_photon v <= photon_t.ghost_photon ph /\
                current_segment v <= photon_t.ghost_segment ph /\
                exists st x_atc,
                  select_photon parms region atl03 atl08 yapc_scores st x_atc
                    (photon_t.ghost_photon ph) (photon_t.ghost_segment ph)
                    = Ok (Some ph)) added).
      { eapply Forall_impl; [|exact Hall]. cbn. intros ph (H1 & H2 & H3).
        split; [lia|]. split; [lia|exact H3]. }
      destruct Hph as [Hsame|(ph & st & x_atc & Hsel & Hadd)].
      * exists added. rewrite Hadded, Hsame. split; [reflexivity|]. split; assumption.
      * exists (ph :: added). rewrite Hadded, Hadd, <- app_assoc. cbn [app].
        split; [reflexivity|].
        destruct (select_photon_ghost _ _ _ _ _ _ _ _ _ _ Hsel) as (Hgp & Hgs & _).
        split.
        { constructor; [|exact Hall'].
          rewrite Hgp, Hgs. split; [lia|]. split; [lia|]. eauto. }
        intros i j a b Hij Ha Hb'.
        destruct j as [|j]; [lia|]. cbn in Hb'.
        destruct i as [|i].
        -- cbn in Ha. inversion Ha; subst a.
           apply nth_error_In in Hb'. rewrite Forall_forall in Hall.
           destruct (Hall _ Hb') as (H1 & H2 & _).
           unfold photon_before. rewrite Hgp, Hgs. lia.
        -- cbn in Ha. apply (Hord i j); [lia|assumption|assumption].
    + inversion H; subst v'; clear H.
      destruct Hstep as (Hseg & _ & Hlen & _ & Hph).
      split; [exact Hlen|].
      destruct Hph as [Hsame|(ph & st & x_atc & Hsel & Hadd)].
      * exists []. rewrite app_nil_r. split; [exact Hsame|]. split; [constructor|].
        intros [|i] j a b _ Ha; discriminate.
      * exists [ph]. split; [exact Hadd|].
        destruct (select_photon_ghost _ _ _ _ _ _ _ _ _ _ Hsel) as (Hgp & Hgs & _).
        split.
        { constructor; [|constructor]. rewrite Hgp, Hgs.
          split; [lia|]. split; [lia|]. eauto. }
        intros [|i] [|j] a b Hij Ha Hb'; try lia; cbn in Hb';
          destruct j; discriminate.
Qed.

(** The bound [rest] of [photon_loop] is never what stops it: from a photon
    inside the photon axis, with [rest] the photons from it to the end, more
    passes allowed give the same result. *)
Lemma photon_loop_rest (rest : nat) :
  forall v more,
    Z.of_nat rest = H5Array.size (Atl03Data.dist_ph_along atl03) - current_photon v ->
    (1 <= rest)%nat ->
    photon_loop parms region atl03 atl08 yapc_scores (rest + more) v
      = photon_loop parms region atl03 atl08 yapc_scores rest v.
Proof.
  induction rest as [|rest IH]; intros v more Hrest Hpos; [lia|].
  cbn [photon_loop Nat.add].
  destruct (extent_complete v && step_complete v); [reflexivity|].
  destruct (photon_body parms region atl03 atl08 yapc_scores v) as [r| |] eqn:Hb;
    cbn [bind]; try reflexivity.
  destruct r as [v1|v1]; [|reflexivity].
  pose proof (photon_body_step _ _ Hb) as Hstep. cbv zeta in Hstep.
  destruct Hstep as (_ & _ & _ & [Hnext Hlt] & _).
  apply IH; lia.
Qed.

End Extent_photons.

Lemma calculateBackground_state state atl03 rate state' :
  calculateBackground state atl03 = Ok (rate, state') ->
  exists n, state' = TrackState.with_bckgrd_in state n.
Proof.
  unfold calculateBackground. intros H. inv_bind H.
  apply bind_Ok_inv in H. destruct H as (r & _ & H).
  inversion H; subst. eauto.
Qed.

Lemma generateExtentRecord_fields reader parms extent_id info st atl03 extent st' :
  generateExtentRecord reader parms extent_id info st atl03 = Ok (extent, st') ->
  (exists n, st' = TrackState.with_bckgrd_in st n) /\
  extent_t.valid extent = TrackState.extent_valid st /\
  extent_t.extent_id extent = extent_id /\
  extent_t.track extent = to_uint8 (track info) /\
  extent_t.pair extent = to_uint8 (pair info) /\
  extent_t.reference_ground_track extent = start_rgt reader mod 65536 /\
  extent_t.cycle extent = start_cycle reader mod 65536 /\
  extent_t.segment_distance extent = TrackState.seg_distance st /\
  extent_t.extent_length extent = TrackState.extent_length st /\
  extent_t.photon_count extent
    = Z.of_nat (length (TrackState.extent_photons st)) mod 4294967296 /\
  extent_t.photons extent = TrackState.extent_photons st.
Proof.
  unfold generateExtentRecord. intros H.
  inv_bind H. inv_bind H.
  apply bind_Ok_inv in H. destruct H as ([rate st1] & Hcalc & H).
  inv_bind H. inv_bind H. inv_bind H. inv_bind H.
  inversion H; subst extent st'; clear H. cbn.
  apply calculateBackground_state in Hcalc. destruct Hcalc as (n & ->).
  cbn. split; [eauto|]. repeat split.
Qed.

Section Posted_extents.

Variables (reader : reader_t) (info : info_t) (parms : Icesat2Parms)
  (region : Region) (atl03 : Atl03Data.t) (atl08 : Atl08Class.t)
  (yapc_scores : YapcScore.t).

Lemma subsetting_extent_record extent_counter st lists st' lists' posts :
  subsetting_extent reader info parms region atl03 atl08 yapc_scores
    extent_counter st lists = Ok (st', lists', posts) ->
  TrackState.extent_length st' = TrackState.extent_length st /\
  (flat_map posted_extent posts = [] \/
   exists e, flat_map posted_extent posts = [e] /\
     extent_record reader info parms region atl03 atl08 yapc_scores
       (TrackState.extent_length st) extent_counter e).
Proof.
  intros H. apply subsetting_extent_Ok in H.
  destruct H as (v0 & v & start_segment & start_distance & Hstart & Hloop & _ & _ & H).
  apply extent_start_Ok in Hstart. destruct Hstart as (along & _ & ->).
  apply photon_loop_added in Hloop. cbn in Hloop.
  destruct Hloop as (Hlen & added & Hadded & Hall & Hord).
  cbv zeta in H. cbn [close_extent TrackState.extent_valid] in H.
  destruct (check_extent_valid parms (TrackState.extent_photons (state v))
            || pass_invalid parms) eqn:Hpost.
  - destruct H as (extent & Hgen & Hposts).
    apply generateExtentRecord_fields in Hgen. cbn in Hgen.
    destruct Hgen as ((n & ->) & Hvalid & Hid & Htrack & Hpair & Hrgt & Hcycle
                      & _ & Hlen' & Hcount & Hphotons).
    cbn. split; [exact Hlen|].
    assert (Hrec : extent_record reader info parms region atl03 atl08 yapc_scores
                     (TrackState.extent_length st) extent_counter extent).
    { unfold extent_record. rewrite Hphotons, Hadded.
      split; [exact Hid|]. split; [exact Htrack|]. split; [exact Hpair|].
      split; [exact Hrgt|]. split; [exact Hcycle|]. split; [congruence|].
      split; [rewrite Hcount, Hadded; reflexivity|].
      split; [rewrite Hvalid, Hadded; reflexivity|].
      split.
      { rewrite Hvalid. apply orb_true_iff in Hpost. exact Hpost. }
      split; [exact Hord|].
      eapply Forall_impl; [|exact Hall]. cbn. intros ph (_ & _ & Hsel). exact Hsel. }
    destruct Hposts as [->|[(ancillary & ->)|(e0 & ->)]]; cbn; eauto.
  - destruct H as [-> ->]. cbn. split; [exact Hlen|]. now left.
Qed.

Lemma extent_loop_posted (len : float) (active_for : nat) :
  forall extent_counter st lists sent,
    TrackState.extent_length st = len ->
    exists counters added,
      posted (extent_loop reader info parms region atl03 atl08 yapc_scores
                active_for extent_counter st lists sent)
      = flat_map posted_extent sent ++ added /\
      Forall2 (extent_record reader info parms region atl03 atl08 yapc_scores len)
        counters added /\
      (0 <= extent_counter ->
       extent_counter + Z.of_nat active_for <= 4294967296 ->
       Forall (fun c => extent_counter <= c < extent_counter + Z.of_nat active_for)
         counters /\
       increasing counters).
Proof.
  induction active_for as [|n IH]; intros extent_counter st lists sent Hlen.
  - exists [], []. cbn. rewrite app_nil_r. split; [reflexivity|].
    split; [constructor|]. intros _ _. split; [constructor|].
    intros [|i] j a b _ Ha; discriminate.
  - cbn [extent_loop].
    assert (Hnil : exists counters added : list _,
              flat_map posted_extent sent = flat_map posted_extent sent ++ added /\
              Forall2 (extent_record reader info parms region atl03 atl08 yapc_scores len)
                counters added /\
              (0 <= extent_counter ->
               extent_counter + Z.of_nat (S n) <= 4294967296 ->
               Forall (fun c => extent_counter <= c < extent_counter + Z.of_nat (S n))
                 counters /\
               increasing counters)).
    { exists [], []. rewrite app_nil_r. split; [reflexivity|].
      split; [constructor|]. intros _ _. split; [constructor|].
      intros [|i] j a b _ Ha; discriminate. }
    destruct (TrackState.track_complete st); [exact Hnil|].
    destruct (subsetting_extent reader info parms region atl03 atl08 yapc_scores
                extent_counter st lists) as [[[st' lists'] posts]| |] eqn:E;
      [|exact Hnil|exact Hnil].
    apply subsetting_extent_record in E. destruct E as [Hlen' Hrec].
    destruct (IH ((extent_counter + 1) mod 4294967296) st' lists' (sent ++ posts))
      as (counters & added & Hposted & Hall & Hbound); [congruence|].
    rewrite posted_app in Hposted.
    assert (Hbound' :
      0 <= extent_counter ->
      extent_counter + Z.of_nat (S n) <= 4294967296 ->
      Forall (fun c => extent_counter + 1 <= c < extent_counter + Z.of_nat (S n))
        counters /\
      increasing counters).
    { intros Hlo Hhi. destruct n as [|n'].
      - unfold posted in Hposted. cbn [extent_loop records] in Hposted.
        rewrite posted_app in Hposted.
        assert (added = []) by (eapply app_inv_head; rewrite app_nil_r; eauto).
        subst added. inversion Hall; subst. split; [constructor|].
        intros [|i] j a b _ Ha; discriminate.
      - rewrite Z.mod_small in Hbound by lia.
        destruct Hbound as [Hrange Hinc]; [lia|lia|]. split; [|exact Hinc].
        eapply Forall_impl; [|exact Hrange]. cbn. intros c Hc. lia. }
    destruct Hrec as [Hnone|(e & He1 & He)].
    + exists counters, added. rewrite Hposted, Hnone, app_nil_r.
      split; [reflexivity|]. split; [exact Hall|]. intros Hlo Hhi.
      destruct (Hbound' Hlo Hhi) as [Hrange Hinc]. split; [|exact Hinc].
      eapply Forall_impl; [|exact Hrange]. cbn. intros c Hc. lia.
    + exists (extent_counter :: counters), (e :: added).
      rewrite Hposted, He1, <- app_assoc. cbn [app]. split; [reflexivity|].
      split; [constructor; [rewrite <- Hlen; exact He|exact Hall]|].
      intros Hlo Hhi. destruct (Hbound' Hlo Hhi) as [Hrange Hinc].
      split.
      { constructor; [lia|]. eapply Forall_impl; [|exact Hrange]. cbn. intros c Hc. lia. }
      intros i j a b Hij Ha Hb'.
      destruct j as [|j]; [lia|]. cbn in Hb'.
      destruct i as [|i].
      * cbn in Ha. inversion Ha; subst a. apply nth_error_In in Hb'.
        rewrite Forall_forall in Hrange. specialize (Hrange _ Hb'). lia.
      * cbn in Ha. apply (Hinc i j); [lia|assumption|assumption].
Qed.

End Posted_extents.

(** The extents a worker posts, with the pass of the extent loop that made
    each: the stages of [subsettingThread] before the loop succeeded, and
    each extent is the record of its pass. *)
Lemma subsettingThread_posted reader info parms lat lon cnt read_atl03 atl08
  (active_for : nat) :
  posted (subsettingThread reader info parms lat lon cnt read_atl03 atl08 active_for)
    = [] \/
  exists ex region yapc_scores atl08' counters,
    Region_new parms lat lon cnt = Ok (ex, region) /\
    YapcScore_new parms region (read_atl03 region) = Ok yapc_scores /\
    classify info parms region (read_atl03 region) atl08 = Ok atl08' /\
    Forall2 (extent_record reader info parms region (read_atl03 region) atl08'
               yapc_scores (thread_extent_length parms))
      counters
      (posted (subsettingThread reader info parms lat lon cnt read_atl03 atl08
                 active_for)) /\
    (Z.of_nat active_for <= 4294967296 ->
     Forall (fun c => 0 <= c < Z.of_nat active_for) counters /\
     increasing counters).
Proof.
  unfold subsettingThread, thread_setup.
  destruct (Region_new parms lat lon cnt) as [[ex region]| |] eqn:Hreg;
    cbn [bind]; try (left; reflexivity).
  destruct (YapcScore_new parms region (read_atl03 region)) as [yapc_scores| |] eqn:Hy;
    cbn [bind]; try (left; reflexivity).
  destruct (classify info parms region (read_atl03 region) atl08) as [atl08'| |] eqn:Hc;
    cbn [bind]; try (left; reflexivity).
  destruct (TrackState_new (read_atl03 region)) as [st| |] eqn:Hst;
    cbn [bind]; try (left; reflexivity).
  right. exists ex, region, yapc_scores, atl08'.
  match goal with
  | |- context [extent_loop ?r ?i ?p ?rg ?a ?a8 ?y ?n ?c ?s ?l ?sent] =>
      destruct (extent_loop_posted r i p rg a a8 y (thread_extent_length parms) n c s l
                  sent)
        as (counters & added & Hposted & Hall & Hbound); [reflexivity|]
  end.
  exists counters. rewrite Hposted. cbn [app].
  split; [reflexivity|]. split; [exact Hy|]. split; [exact Hc|].
  split; [exact Hall|]. intros Hfuel.
  destruct Hbound as [Hrange Hinc]; [lia|lia|]. split; [|exact Hinc].
  eapply Forall_impl; [|exact Hrange]. cbn. intros c Hrc. lia.
Qed.

(* ================================================================== *)
(** * The background rate of the extents of a beam                     *)
(* ================================================================== *)

(** [<=] on [double] is transitive. *)
Lemma SFleb_trans (x y z : spec_float) :
  SFleb x y = true -> SFleb y z = true -> SFleb x z = true.
Proof.
  unfold SFleb, SFcompare.
  destruct x as [sx|sx| |sx mx ex], y as [sy|sy| |sy my ey], z as [sz|sz| |sz mz ez];
    try discriminate; try reflexivity;
    repeat match goal with s : bool |- _ => destruct s end;
    try discriminate; try reflexivity.
  all: change (Pos.compare_cont Eq) with Pos.compare.
  all: destruct (Z.compare_spec ex ey); try discriminate;
       destruct (Z.compare_spec ey ez); try discriminate;
       destruct (Z.compare_spec ex ez); try reflexivity; try lia.
  all: destruct (Pos.compare_spec mx my); try discriminate;
       destruct (Pos.compare_spec my mz); try discriminate;
       destruct (Pos.compare_spec mx mz); try reflexivity; cbn; try lia;
       try discriminate.
Qed.

(** A sample that is before [t1] is before every time at or after [t1]. *)
Lemma fgeb_later (b t1 t2 : float) :
  fgeb b t1 = false -> fgeb t2 t1 = true -> fgeb b t2 = false.
Proof.
  unfold fgeb. intros H1 H2. destruct (PrimFloat.leb t2 b) eqn:E; [|reflexivity].
  rewrite leb_spec in H1, H2, E.
  rewrite (SFleb_trans _ _ _ H2 E) in H1. discriminate.
Qed.

Lemma cursor_behind_later (times : list float) (bckgrd_in : Z) (t1 t2 : float) :
  cursor_behind times bckgrd_in t1 -> fgeb t2 t1 = true ->
  cursor_behind times bckgrd_in t2.
Proof.
  intros Hcur Hge j b Hj Hb. exact (fgeb_later _ _ _ (Hcur j b Hj Hb) Hge).
Qed.

(** The scan only advances the cursor, and leaves it where it is when there
    is no time for the segment. *)
Lemma background_loop_advances (atl03 : Atl03Data.t) (extent_segment : Z)
  (rate : float) (rest : nat) :
  forall bckgrd_in r,
    background_loop atl03 extent_segment rate rest bckgrd_in = Ok r ->
    bckgrd_in <= snd r /\
    (H5Array.get (Atl03Data.segment_delta_time atl03) extent_segment = None ->
     snd r = bckgrd_in).
Proof.
  induction rest as [|rest IH]; intros b r H; cbn [background_loop] in H.
  - inversion H; subst. cbn. split; [lia|reflexivity].
  - inv_bind H. inv_bind H. rename Hrd0 into Htime.
    assert (Hnone : H5Array.get (Atl03Data.segment_delta_time atl03) extent_segment
                    = None -> snd r = b) by (intros E; rewrite E in Htime; discriminate).
    split; [|exact Hnone].
    destruct (fgeb _ _).
    + destruct (0 <? b).
      * inv_bind H. inv_bind H. inv_bind H. inversion H; subst. cbn. lia.
      * inv_bind H. inversion H; subst. cbn. lia.
    + apply IH in H. lia.
Qed.

Lemma calculateBackground_cursor (state state' : TrackState.t) (atl03 : Atl03Data.t)
  (rate : float) :
  calculateBackground state atl03 = Ok (rate, state') ->
  TrackState.bckgrd_in state <= TrackState.bckgrd_in state' /\
  state' = TrackState.with_bckgrd_in state (TrackState.bckgrd_in state') /\
  (H5Array.get (Atl03Data.segment_delta_time atl03) (TrackState.extent_segment state)
   = None ->
   TrackState.bckgrd_in state' = TrackState.bckgrd_in state).
Proof.
  unfold calculateBackground. intros H. inv_bind H.
  apply bind_Ok_inv in H. destruct H as (r & Hloop & H).
  apply background_loop_advances in Hloop. destruct Hloop as [Hle Hnone].
  inversion H; subst rate state'; clear H.
  cbn [TrackState.with_bckgrd_in TrackState.bckgrd_in].
  split; [exact Hle|]. split; [reflexivity|exact Hnone].
Qed.

(** The extent record carries the rate [calculateBackground] returns for
    the state it is made from, and [generateExtentRecord] leaves the state
    that call leaves. *)
Lemma generateExtentRecord_background reader parms extent_id info state atl03
  extent state' :
  generateExtentRecord reader parms extent_id info state atl03 = Ok (extent, state') ->
  calculateBackground state atl03 = Ok (extent_t.background_rate extent, state') /\
  extent_t.ghost_extent_segment extent = TrackState.extent_segment state.
Proof.
  unfold generateExtentRecord. intros H.
  inv_bind H. inv_bind H.
  apply bind_Ok_inv in H. destruct H as ([rate st1] & Hcalc & H).
  inv_bind H. inv_bind H. inv_bind H. inv_bind H.
  inversion H; subst extent state'; clear H.
  cbn [extent_t.background_rate extent_t.ghost_extent_segment].
  split; [exact Hcalc|].
  apply calculateBackground_cursor in Hcalc. destruct Hcalc as (_ & -> & _).
  reflexivity.
Qed.

Section Background_rate.

Variables (reader : reader_t) (info : info_t) (parms : Icesat2Parms)
  (region : Region) (atl03 : Atl03Data.t) (atl08 : Atl08Class.t)
  (yapc_scores : YapcScore.t).

Hypothesis ordered : segment_times_ordered (Atl03Data.segment_delta_time atl03).

(** A pass of the photon loop keeps the segment of the extent and the
    background cursor, and moves [seg_in], if at all, to a segment at or
    after the current one. *)
Lemma photon_body_cursors (v : photon_vars) (r : loop_ctl photon_vars) :
  photon_body parms region atl03 atl08 yapc_scores v = Ok r ->
  let v' := match r with Continue v' | Break v' => v' end in
  TrackState.extent_segment (state v') = TrackState.extent_segment (state v) /\
  TrackState.bckgrd_in (state v') = TrackState.bckgrd_in (state v) /\
  current_segment v <= current_segment v' /\
  (TrackState.seg_in (state v') = TrackState.seg_in (state v) \/
   current_segment v <= TrackState.seg_in (state v')).
Proof.
  intros H. unfold photon_body in H.
  apply bind_Ok_inv in H. destruct H as ([segment count] & Hgoto & H).
  apply goto_photon_segment_mono in Hgoto.
  destruct (H5Array.size (Atl03Data.segment_dist_x atl03) <=? segment).
  { inversion H; subst r; clear H. cbn. repeat split; lia. }
  inv_bind H. inv_bind H.
  apply bind_Ok_inv in H. destruct H as (stepped & _ & H).
  set (st1 := if stepped then _ else _) in H.
  assert (Hst1 :
    TrackState.extent_segment st1 = TrackState.extent_segment (state v) /\
    TrackState.bckgrd_in st1 = TrackState.bckgrd_in (state v) /\
    (TrackState.seg_in st1 = TrackState.seg_in (state v) \/
     current_segment v <= TrackState.seg_in st1)).
  { subst st1. destruct stepped; cbn; repeat split; auto. }
  clearbody st1.
  apply bind_Ok_inv in H. destruct H as ([[st2 lists2] ec] & Hsel & H).
  assert (Hst2 :
    TrackState.extent_segment st2 = TrackState.extent_segment (state v) /\
    TrackState.bckgrd_in st2 = TrackState.bckgrd_in (state v) /\
    (TrackState.seg_in st2 = TrackState.seg_in (state v) \/
     current_segment v <= TrackState.seg_in st2)).
  { destruct (if negb (dist_in_seg parms) then _ else _).
    - apply bind_Ok_inv in Hsel. destruct Hsel as ([ph|] & _ & Hsel).
      + apply bind_Ok_inv in Hsel. destruct Hsel as (lists' & _ & Hsel).
        inversion Hsel; subst; clear Hsel. exact Hst1.
      + inversion Hsel; subst; clear Hsel. exact Hst1.
    - inversion Hsel; subst. exact Hst1. }
  destruct Hst2 as (Hes & Hin & Hseg).
  destruct (H5Array.size (Atl03Data.dist_ph_along atl03) <=? current_photon v + 1);
    inversion H; subst r; clear H; cbn; repeat split; assumption.
Qed.

Lemma photon_loop_cursors (rest : nat) :
  forall v v',
    photon_loop parms region atl03 atl08 yapc_scores rest v = Ok v' ->
    TrackState.extent_segment (state v') = TrackState.extent_segment (state v) /\
    TrackState.bckgrd_in (state v') = TrackState.bckgrd_in (state v) /\
    forall lo,
      lo <= TrackState.seg_in (state v) -> lo <= current_segment v ->
      lo <= TrackState.seg_in (state v').
Proof.
  induction rest as [|rest IH]; intros v v' H; cbn [photon_loop] in H.
  - destruct (extent_complete v && step_complete v); [|discriminate].
    inversion H; subst v'. repeat split. auto.
  - destruct (extent_complete v && step_complete v).
    { inversion H; subst v'. repeat split. auto. }
    apply bind_Ok_inv in H. destruct H as (r & Hb & H).
    pose proof (photon_body_cursors _ _ Hb) as Hstep. cbv zeta in Hstep.
    destruct Hstep as (Hes & Hin & Hcur & Hseg).
    destruct r as [v1|v1].
    + destruct (IH _ _ H) as (Hes' & Hin' & Hlo).
      split; [congruence|]. split; [congruence|].
      intros lo H1 H2. apply Hlo; [|lia]. destruct Hseg as [->|Hseg]; lia.
    + inversion H; subst v'; clear H.
      split; [exact Hes|]. split; [exact Hin|].
      intros lo H1 H2. destruct Hseg as [->|Hseg]; lia.
Qed.

(** A pass of the extent loop only advances the background cursor. *)
Lemma subsetting_extent_cursor extent_counter st lists st' lists' posts :
  subsetting_extent reader info parms region atl03 atl08 yapc_scores
    extent_counter st lists = Ok (st', lists', posts) ->
  TrackState.bckgrd_in st <= TrackState.bckgrd_in st'.
Proof.
  intros H. apply subsetting_extent_Ok in H.
  destruct H as (v0 & v & start_segment & start_distance & Hstart & Hloop & _ & _ & H).
  apply extent_start_Ok in Hstart. destruct Hstart as (along & _ & ->).
  apply photon_loop_cursors in Hloop. cbn in Hloop. destruct Hloop as (_ & Hin & _).
  cbv zeta in H.
  destruct (TrackState.extent_valid _ || pass_invalid parms).
  - destruct H as (extent & Hgen & _).
    apply generateExtentRecord_background in Hgen. destruct Hgen as [Hcalc _].
    apply calculateBackground_cursor in Hcalc. destruct Hcalc as (Hle & _).
    cbn [close_extent TrackState.bckgrd_in] in Hle. lia.
  - destruct H as [-> _]. cbn [close_extent TrackState.bckgrd_in]. lia.
Qed.

(** A pass of the extent loop that starts with the cursor behind the
    segments to come leaves it so, and the extent it posts, if any, carries
    the interpolated rate. *)
Lemma subsetting_extent_background extent_counter st lists st' lists' posts :
  cursor_behind_segments atl03 st ->
  subsetting_extent reader info parms region atl03 atl08 yapc_scores
    extent_counter st lists = Ok (st', lists', posts) ->
  cursor_behind_segments atl03 st' /\
  forall e, In e (flat_map posted_extent posts) -> rate_interpolated atl03 e.
Proof using Type + ordered.
  intros [Hlo Hbehind] H. apply subsetting_extent_Ok in H.
  destruct H as (v0 & v & start_segment & start_distance & Hstart & Hloop & _ & _ & H).
  apply extent_start_Ok in Hstart. destruct Hstart as (along & _ & ->).
  apply photon_loop_cursors in Hloop. cbn in Hloop.
  destruct Hloop as (Hes & Hin & Hseg).
  specialize (Hseg (TrackState.seg_in st) ltac:(lia) ltac:(lia)).
  cbv zeta in H.
  destruct (TrackState.extent_valid _ || pass_invalid parms).
  - destruct H as (extent & Hgen & Hposts).
    apply generateExtentRecord_background in Hgen. destruct Hgen as [Hcalc Hghost].
    cbn [close_extent TrackState.extent_segment] in Hghost. rewrite Hes in Hghost.
    pose proof (calculateBackground_cursor _ _ _ _ Hcalc) as (Hle & Hst' & Hnone).
    cbn [close_extent TrackState.bckgrd_in TrackState.extent_segment] in Hle, Hnone.
    rewrite Hin in Hle, Hnone. rewrite Hes in Hnone.
    assert (Hseg' : TrackState.seg_in st' = TrackState.seg_in (state v)).
    { rewrite Hst'. reflexivity. }
    destruct (H5Array.get (Atl03Data.segment_delta_time atl03) (TrackState.seg_in st))
      as [t0|] eqn:Ht0.
    + assert (Hcalc' :
        piecewise_linear (Atl03Data.bckgrd_delta_time atl03)
          (Atl03Data.bckgrd_rate atl03) t0 = Some (extent_t.background_rate extent) /\
        cursor_behind (Atl03Data.bckgrd_delta_time atl03) (TrackState.bckgrd_in st') t0).
      { destruct (calculateBackground_rate
                    (close_extent parms (state v) start_segment start_distance) st'
                    atl03 t0 (extent_t.background_rate extent))
          as (Hrate & _ & _ & Hcur').
        - cbn [close_extent TrackState.extent_segment]. rewrite Hes. exact Ht0.
        - cbn [close_extent TrackState.bckgrd_in]. lia.
        - cbn [close_extent TrackState.bckgrd_in]. rewrite Hin.
          apply (Hbehind (TrackState.seg_in st) t0); [lia|exact Ht0].
        - exact Hcalc.
        - split; assumption. }
      destruct Hcalc' as [Hrate Hcur'].
      * split.
        -- split; [lia|]. intros s t Hs Ht.
           destruct (Z.eq_dec s (TrackState.seg_in st)) as [->|Hne].
           ++ rewrite Ht0 in Ht. inversion Ht; subst t. exact Hcur'.
           ++ apply (cursor_behind_later _ _ t0); [exact Hcur'|].
              apply (ordered (TrackState.seg_in st) s); [|exact Ht0|exact Ht].
              pose proof (get_Some _ _ _ Ht0). lia.
        -- intros e Hin'. apply (posted_extent_of_pass _ _ _ Hposts) in Hin'. subst e.
           intros t Ht. rewrite Hghost, Ht0 in Ht. inversion Ht; subst t. exact Hrate.
    + specialize (Hnone eq_refl). split.
      * split; [lia|]. intros s t Hs Ht. rewrite Hnone.
        apply (Hbehind s t); [lia|exact Ht].
      * intros e Hin'. apply (posted_extent_of_pass _ _ _ Hposts) in Hin'. subst e.
        intros t Ht. rewrite Hghost, Ht0 in Ht. discriminate.
  - destruct H as [-> ->]. split; [|intros e []].
    split; [cbn [close_extent TrackState.bckgrd_in]; lia|].
    intros s t Hs Ht. cbn [close_extent TrackState.bckgrd_in TrackState.seg_in] in *.
    rewrite Hin. apply (Hbehind s t); [lia|exact Ht].
Qed.

Lemma extent_loop_background (active_for : nat) :
  forall extent_counter st lists sent,
    cursor_behind_segments atl03 st ->
    forall e,
      In e (posted (extent_loop reader info parms region atl03 atl08 yapc_scores
                      active_for extent_counter st lists sent)) ->
      In e (flat_map posted_extent sent) \/ rate_interpolated atl03 e.
Proof using Type + ordered.
  induction active_for as [|n IH]; intros extent_counter st lists sent Hst e Hin;
    cbn [extent_loop] in Hin.
  - now left.
  - destruct (TrackState.track_complete st); [now left|].
    destruct (subsetting_extent reader info parms region atl03 atl08 yapc_scores
                extent_counter st lists) as [[[st' lists'] posts]| |] eqn:E;
      [|now left|now left].
    destruct (subsetting_extent_background _ _ _ _ _ _ Hst E) as [Hst' Hposts].
    destruct (IH _ st' lists' (sent ++ posts) Hst' e Hin) as [Hold|Hnew];
      [|now right].
    rewrite posted_app in Hold.
    apply in_app_or in Hold. destruct Hold as [Hs|Hr]; [now left|].
    right. exact (Hposts e Hr).
Qed.

End Background_rate.

(** C4.  The [background_rate] of the extents of a beam whose segment times
    do not decrease along the track.  The [background_rate] of every extent
    the worker posts is the piecewise-linear interpolation of [bckgrd_rate]
    over [bckgrd_delta_time] at [segment_delta_time[extent_segment]]:
    [bckgrd_rate[0]] when no sample precedes that time, the last rate when
    every sample precedes it, and otherwise the value of the line through
    the two bracketing samples.  The cursor [bckgrd_in] only advances, in
    every call of [calculateBackground] and in every pass of the extent
    loop, whatever the times.  In scenario 6 (times [[0, 10]], rates
    [[100, 200]], segment time 7) the rate is 170. *)
Theorem extent_background_rate :
  (forall (reader : reader_t) (info : info_t) (parms : Icesat2Parms)
          (lat lon : list float) (cnt : list Z)
          (read_atl03 : Region -> Atl03Data.t) (atl08 : Atl08Class.t)
          (active_for : nat) (extent : extent_t.t),
     (forall ex region,
        Region_new parms lat lon cnt = Ok (ex, region) ->
        segment_times_ordered (Atl03Data.segment_delta_time (read_atl03 region))) ->
     In extent
       (posted (subsettingThread reader info parms lat lon cnt read_atl03 atl08
                  active_for)) ->
     exists ex region,
       Region_new parms lat lon cnt = Ok (ex, region) /\
       forall t,
         H5Array.get (Atl03Data.segment_delta_time (read_atl03 region))
           (extent_t.ghost_extent_segment extent) = Some t ->
         piecewise_linear (Atl03Data.bckgrd_delta_time (read_atl03 region))
           (Atl03Data.bckgrd_rate (read_atl03 region)) t
         = Some (extent_t.background_rate extent)) /\
  (forall (state state' : TrackState.t) (atl03 : Atl03Data.t) (rate : float),
     calculateBackground state atl03 = Ok (rate, state') ->
     TrackState.bckgrd_in state <= TrackState.bckgrd_in state') /\
  (forall (reader : reader_t) (info : info_t) (parms : Icesat2Parms) (region : Region)
          (atl03 : Atl03Data.t) (atl08 : Atl08Class.t) (yapc_scores : YapcScore.t)
          (extent_counter : Z) (st st' : TrackState.t)
          (lists lists' : ancillary_indices) (posts : list worker_post),
     subsetting_extent reader info parms region atl03 atl08 yapc_scores
       extent_counter st lists = Ok (st', lists', posts) ->
     TrackState.bckgrd_in st <= TrackState.bckgrd_in st') /\
  calculateBackground (state_at 0 0) scenario6_atl03
    = Ok (170%float, state_at 1 0) /\
  piecewise_linear [0; 10]%float [100; 200]%float 7 = Some 170%float.
Proof.
  split; [|split; [|split; [|split]]].
  - intros reader info parms lat lon cnt read_atl03 atl08 active_for extent Hord.
    unfold subsettingThread, thread_setup.
    destruct (Region_new parms lat lon cnt) as [[ex region]| |] eqn:Hreg;
      cbn [bind]; try contradiction.
    destruct (YapcScore_new parms region (read_atl03 region)) as [yapc_scores| |];
      cbn [bind]; try contradiction.
    destruct (classify info parms region (read_atl03 region) atl08) as [atl08'| |];
      cbn [bind]; try contradiction.
    destruct (TrackState_new (read_atl03 region)) as [st| |] eqn:Hst;
      cbn [bind]; try contradiction.
    intros Hin. exists ex, region. split; [reflexivity|].
    apply (extent_loop_background reader info parms region (read_atl03 region) atl08'
             yapc_scores (Hord ex region eq_refl)) in Hin.
    + destruct Hin as [[]|Hrate]. exact Hrate.
    + unfold TrackState_new in Hst. inv_bind Hst. inversion Hst; subst st. cbn.
      split; [cbn; lia|]. intros s t _ _ j b Hj. cbn in Hj. lia.
  - intros state state' atl03 rate H.
    apply calculateBackground_cursor in H. apply H.
  - intros. eapply subsetting_extent_cursor; eauto.
  - vm_compute. reflexivity.
  - vm_compute. reflexivity.
Qed.

(* ================================================================== *)
(** * The passes of the loops and the runs of the worker               *)
(* ================================================================== *)

Lemma increasing_nil : increasing [].
Proof. intros [|i] j a b _ Ha; discriminate. Qed.

Lemma increasing_cons (a : Z) (l : list Z) :
  Forall (fun b => a < b) l -> increasing l -> increasing (a :: l).
Proof.
  intros Hall Hinc i j x y Hij Hx Hy.
  destruct j as [|j]; [lia|]. cbn in Hy.
  destruct i as [|i].
  - cbn in Hx. inversion Hx; subst x. apply nth_error_In in Hy.
    rewrite Forall_forall in Hall. exact (Hall _ Hy).
  - cbn in Hx. apply (Hinc i j); [lia|assumption|assumption].
Qed.

Section Worker_passes.

Variables (reader : reader_t) (info : info_t) (parms : Icesat2Parms)
  (region : Region) (atl03 : Atl03Data.t) (atl08 : Atl08Class.t)
  (yapc_scores : YapcScore.t).

Let N := H5Array.size (Atl03Data.dist_ph_along atl03).

(** The photon loop, run from the start of an extent, is the photon loop
    run from any of its passes. *)
Lemma photon_loop_pass (v0 v : photon_vars) :
  photon_pass parms region atl03 atl08 yapc_scores v0 v ->
  current_photon v0 < N ->
  current_photon v0 <= current_photon v < N /\
  photon_loop parms region atl03 atl08 yapc_scores
    (Z.to_nat (N - current_photon v0)) v0
  = photon_loop parms region atl03 atl08 yapc_scores
      (Z.to_nat (N - current_photon v)) v.
Proof.
  induction 1 as [|v v' Hpass IH Htest Hbody]; intros H0.
  - split; [lia|reflexivity].
  - destruct (IH H0) as [Hrange Hloop].
    pose proof (photon_body_step _ _ _ _ _ _ _ Hbody) as Hstep. cbv zeta in Hstep.
    destruct Hstep as (_ & _ & _ & [Hnext Hlt] & _). fold N in Hlt.
    split; [lia|]. rewrite Hloop.
    replace (Z.to_nat (N - current_photon v))
      with (S (Z.to_nat (N - current_photon v'))) by lia.
    cbn [photon_loop]. rewrite Htest, Hbody. reflexivity.
Qed.

(** The extent loop, run from the start, is the extent loop run from any of
    its passes, for the tests of the flag that are left. *)
Lemma extent_loop_pass (st0 : TrackState.t) k c st lists sent :
  extent_pass reader info parms region atl03 atl08 yapc_scores st0 k c st lists sent ->
  forall active_for,
    (k <= active_for)%nat ->
    extent_loop reader info parms region atl03 atl08 yapc_scores active_for 0 st0
      no_indices []
    = extent_loop reader info parms region atl03 atl08 yapc_scores (active_for - k) c
        st lists sent.
Proof.
  induction 1 as [|k c st lists sent st' lists' posts Hpass IH Htrack Hbody];
    intros active_for Hk.
  - rewrite Nat.sub_0_r. reflexivity.
  - rewrite IH by lia.
    replace (active_for - k)%nat with (S (active_for - S k)) by lia.
    cbn [extent_loop]. rewrite Htrack, Hbody. reflexivity.
Qed.

(** The counter of pass [k] is [k]. *)
Lemma extent_pass_counter (st0 : TrackState.t) k c st lists sent :
  extent_pass reader info parms region atl03 atl08 yapc_scores st0 k c st lists sent ->
  Z.of_nat k < 4294967296 ->
  c = Z.of_nat k.
Proof.
  induction 1 as [|k c st lists sent st' lists' posts Hpass IH Htrack Hbody];
    intros Hk; [reflexivity|].
  rewrite IH by lia. rewrite Z.mod_small; lia.
Qed.

(** An exception of the filter block at a photon it takes in is the
    exception of the pass of the photon loop. *)
Lemma photon_body_examined (v : photon_vars) (segment : Z) (x_atc : float)
  (st1 : TrackState.t) (e : RunTimeException) :
  photon_examined parms region atl03 v segment x_atc st1 ->
  select_photon parms region atl03 atl08 yapc_scores st1 x_atc (current_photon v)
    segment = Throw e ->
  photon_body parms region atl03 atl08 yapc_scores v = Throw e.
Proof.
  intros (count & dist_x & along & stepped & Hgoto & Hseg & Hdist & Halong & Hx
          & Hstepped & Hst1 & Hwithin) Hsel.
  unfold photon_body. rewrite Hgoto. cbn [bind].
  destruct (Z.leb_spec (H5Array.size (Atl03Data.segment_dist_x atl03)) segment);
    [lia|].
  rewrite Hdist, Halong. cbn [rd bind]. rewrite <- Hx, Hstepped. cbn [bind].
  rewrite <- Hst1, Hwithin, Hsel. reflexivity.
Qed.

(** An exception of a pass of the photon loop that the worker comes to is
    the exception by which the [try] block ends, with, on [outQ], what the
    passes of the extent loop before had put. *)
Lemma photon_reached_throw (st0 : TrackState.t) (active_for : nat)
  (v : photon_vars) (sent : list worker_post) (e : RunTimeException) :
  photon_reached reader info parms region atl03 atl08 yapc_scores st0 active_for v
    sent ->
  photon_body parms region atl03 atl08 yapc_scores v = Throw e ->
  extent_loop reader info parms region atl03 atl08 yapc_scores active_for 0 st0
    no_indices []
  = {| records := sent; ending := Throw e |}.
Proof.
  intros (k & c & st & lists & v0 & Hpass & Hk & Htrack & Hstart & Hphoton & Htest)
    Hbody.
  rewrite (extent_loop_pass _ _ _ _ _ _ Hpass active_for) by lia.
  replace (active_for - k)%nat with (S (active_for - S k)) by lia.
  cbn [extent_loop]. rewrite Htrack.
  assert (Hthrow : subsetting_extent reader info parms region atl03 atl08 yapc_scores
                     c st lists = Throw e).
  { unfold subsetting_extent. rewrite Hstart. cbn [bind].
    pose proof (extent_start_Ok _ _ _ _ _ Hstart) as (along & Halong & Hv0).
    pose proof (get_Some _ _ _ Halong) as Hin. fold N in Hin.
    assert (Hcp : current_photon v0 = TrackState.ph_in st) by (rewrite Hv0; reflexivity).
    destruct (photon_loop_pass _ _ Hphoton) as [Hrange Hloop]; [lia|].
    rewrite Hcp in Hloop. fold N. rewrite Hloop.
    replace (Z.to_nat (N - current_photon v))
      with (S (Z.to_nat (N - current_photon v - 1))) by lia.
    cbn [photon_loop]. rewrite Htest, Hbody. reflexivity. }
  rewrite Hthrow. reflexivity.
Qed.

(** The extents the extent loop posts from pass [k] on, each with the pass
    that made it. *)
Lemma extent_loop_ids (st0 : TrackState.t) (n : nat) :
  forall k c st lists sent,
    extent_pass reader info parms region atl03 atl08 yapc_scores st0 k c st lists
      sent ->
    Z.of_nat (k + n) <= 4294967296 ->
    exists passes added,
      posted (extent_loop reader info parms region atl03 atl08 yapc_scores n c st
                lists sent)
      = flat_map posted_extent sent ++ added /\
      Forall2 (fun k' extent =>
                 pass_posted reader info parms region atl03 atl08 yapc_scores st0
                   k' extent /\
                 extent_t.extent_id extent
                 = generateExtentId (start_rgt reader) (start_cycle reader)
                     (start_region reader) (track info) (pair info) (Z.of_nat k'))
        passes added /\
      Forall (fun k' => (k <= k' < k + n)%nat) passes /\
      increasing (map Z.of_nat passes).
Proof.
  induction n as [|n IH]; intros k c st lists sent Hpass Hfuel.
  - exists [], []. cbn. rewrite app_nil_r. split; [reflexivity|].
    split; [constructor|]. split; [constructor|apply increasing_nil].
  - cbn [extent_loop].
    assert (Hnil : exists (passes : list nat) (added : list extent_t.t),
              flat_map posted_extent sent = flat_map posted_extent sent ++ added /\
              Forall2 (fun k' extent =>
                         pass_posted reader info parms region atl03 atl08 yapc_scores
                           st0 k' extent /\
                         extent_t.extent_id extent
                         = generateExtentId (start_rgt reader) (start_cycle reader)
                             (start_region reader) (track info) (pair info)
                             (Z.of_nat k'))
                passes added /\
              Forall (fun k' => (k <= k' < k + S n)%nat) passes /\
              increasing (map Z.of_nat passes)).
    { exists [], []. rewrite app_nil_r. split; [reflexivity|].
      split; [constructor|]. split; [constructor|apply increasing_nil]. }
    destruct (TrackState.track_complete st) eqn:Htrack; [exact Hnil|].
    destruct (subsetting_extent reader info parms region atl03 atl08 yapc_scores
                c st lists) as [[[st' lists'] posts]| |] eqn:E;
      [|exact Hnil|exact Hnil].
    pose proof (extent_pass_next _ _ _ _ _ _ _ _ _ _ _ _ _ _ _ _ Hpass Htrack E)
      as Hnext.
    destruct (IH _ _ _ _ _ Hnext ltac:(lia))
      as (passes & added & Hposted & Hall & Hrange & Hinc).
    rewrite posted_app in Hposted.
    pose proof (extent_pass_counter _ _ _ _ _ _ Hpass ltac:(lia)) as Hc.
    pose proof (subsetting_extent_record _ _ _ _ _ _ _ _ _ _ _ _ _ E) as [_ Hrec].
    destruct Hrec as [Hnone|(e & He1 & He)].
    + exists passes, added. rewrite Hposted, Hnone, app_nil_r.
      split; [reflexivity|]. split; [exact Hall|]. split; [|exact Hinc].
      eapply Forall_impl; [|exact Hrange]. cbn. intros k' Hk'. lia.
    + exists (k :: passes), (e :: added).
      rewrite Hposted, He1, <- app_assoc. cbn [app]. split; [reflexivity|].
      split; [|split].
      * constructor; [|exact Hall]. split.
        -- exists c, st, lists, sent, st', lists', posts.
           split; [exact Hpass|]. split; [exact Htrack|]. split; [exact E|].
           rewrite He1. now left.
        -- destruct He as (Hid & _). rewrite Hid, Hc. reflexivity.
      * constructor; [lia|].
        eapply Forall_impl; [|exact Hrange]. cbn. intros k' Hk'. lia.
      * cbn [map]. apply increasing_cons; [|exact Hinc].
        rewrite Forall_map. eapply Forall_impl; [|exact Hrange].
        cbn. intros k' Hk'. lia.
Qed.

End Worker_passes.

(** C9, as the code has it.  The range checks sit inside the filter block,
    which a photon enters only when it lies within the extent's length, and
    each check is reached only by a photon that the tables before it
    accepted.  The worker comes to a pass of the photon loop that takes a
    photon with confidence [cnf] and quality [quality] into the filter
    block.  If [cnf] is out of range, the [try] block of the worker ends
    there by [RunTimeException(CRITICAL, RTE_ERROR, ...)] for that
    confidence, having put on [outQ] what the passes of the extent loop
    before had put.  It ends so for an out-of-range [quality]
    when [cnf] was in range and accepted by [parms->atl03_cnf], and for an
    out-of-range ATL08 class when [classification] is allocated and both
    [cnf] and [quality] were in range and accepted.  An in-range [cnf] that
    [parms->atl03_cnf] rejects, or an in-range [quality] that
    [parms->quality_ph] rejects, leaves the filter block with no photon and
    no exception, the later values unchecked. *)
Theorem range_checks_are_staged (reader : reader_t) (info : info_t)
  (parms : Icesat2Parms) (lat lon : list float) (cnt : list Z)
  (read_atl03 : Region -> Atl03Data.t) (atl08 : Atl08Class.t) (active_for : nat)
  (region : Region) (atl03 : Atl03Data.t) (yapc_scores : YapcScore.t)
  (atl08' : Atl08Class.t) (st0 : TrackState.t)
  (v : photon_vars) (sent : list worker_post) (segment : Z) (x_atc : float)
  (st1 : TrackState.t) (cnf quality : Z) :
  thread_setup info parms lat lon cnt read_atl03 atl08
    = Ok (region, atl03, yapc_scores, atl08', st0) ->
  photon_reached reader info parms region atl03 atl08' yapc_scores st0 active_for v
    sent ->
  photon_examined parms region atl03 v segment x_atc st1 ->
  H5Array.get (Atl03Data.signal_conf_ph atl03) (current_photon v) = Some cnf ->
  H5Array.get (Atl03Data.quality_ph atl03) (current_photon v) = Some quality ->
  let select :=
    select_photon parms region atl03 atl08' yapc_scores st1 x_atc (current_photon v)
      segment in
  let fatal code :=
    subsettingThread reader info parms lat lon cnt read_atl03 atl08 active_for
    = {| records := sent; ending := Throw (mkRTE CRITICAL RTE_ERROR code) |} in
  let cnf_in_range := CNF_POSSIBLE_TEP <= cnf <= CNF_SURFACE_HIGH in
  let quality_in_range := QUALITY_NOMINAL <= quality <= QUALITY_POSSIBLE_TEP in
  (~ cnf_in_range -> fatal (invalid_atl03_signal_confidence cnf)) /\
  (cnf_in_range -> atl03_cnf parms (cnf + SIGNAL_CONF_OFFSET) = false ->
   select = Ok None) /\
  (cnf_in_range -> atl03_cnf parms (cnf + SIGNAL_CONF_OFFSET) = true ->
   ~ quality_in_range -> fatal (invalid_atl03_photon_quality quality)) /\
  (cnf_in_range -> atl03_cnf parms (cnf + SIGNAL_CONF_OFFSET) = true ->
   quality_in_range -> quality_ph parms quality = false ->
   select = Ok None) /\
  (cnf_in_range -> atl03_cnf parms (cnf + SIGNAL_CONF_OFFSET) = true ->
   quality_in_range -> quality_ph parms quality = true ->
   forall classification class,
     Atl08Class.classification atl08' = Some classification ->
     load classification (current_photon v) = Ok class ->
     ~ 0 <= class < NUM_ATL08_CLASSES ->
     fatal (invalid_atl08_classification class)).
Proof.
  intros Hsetup Hreached Hexamined Hcnf Hq select fatal cnf_in_range quality_in_range.
  destruct (select_photon_staged parms region atl03 atl08' yapc_scores st1 x_atc
              (current_photon v) segment cnf quality Hcnf Hq)
    as (H1 & H2 & H3 & H4 & H5).
  assert (Hfatal : forall code,
            select = Throw (mkRTE CRITICAL RTE_ERROR code) -> fatal code).
  { intros code Hsel. subst fatal. cbv beta.
    unfold subsettingThread. rewrite Hsetup.
    apply photon_reached_throw with (v := v); [exact Hreached|].
    exact (photon_body_examined _ _ _ _ _ _ _ _ _ _ Hexamined Hsel). }
  split; [|split; [|split; [|split]]].
  - intros Hr. apply Hfatal. exact (H1 Hr).
  - exact H2.
  - intros Hr Hacc Hqr. apply Hfatal. exact (H3 Hr Hacc Hqr).
  - exact H4.
  - intros Hr Hacc Hqr Hqacc classification class Hcls Hload Hcr.
    apply Hfatal. exact (H5 Hr Hacc Hqr Hqacc classification class Hcls Hload Hcr).
Qed.

Lemma Forall2_In_r {A B} (R : A -> B -> Prop) (l : list A) (l' : list B) (b : B) :
  Forall2 R l l' -> In b l' -> exists a, In a l /\ R a b.
Proof.
  induction 1 as [|x y l l' Hxy _ IH]; intros Hin; [contradiction|].
  destruct Hin as [->|Hin].
  - exists x. split; [now left|exact Hxy].
  - destruct (IH Hin) as (a & Ha & Hr). exists a. split; [now right|exact Hr].
Qed.

Lemma check_extent_valid_true parms photons :
  check_extent_valid parms photons = true <->
  minimum_photon_count parms <= Z.of_nat (length photons) /\
  (forall first second rest,
     photons = first :: second :: rest ->
     PrimFloat.ltb
       (float_sub (photon_t.x_atc (last photons first)) (photon_t.x_atc first))
       (along_track_spread parms) = false).
Proof.
  unfold check_extent_valid. rewrite andb_true_iff, negb_true_iff, Z.ltb_ge.
  split; intros [Hcount Hspread]; (split; [exact Hcount|]).
  - intros first second rest ->. now apply negb_true_iff in Hspread.
  - destruct photons as [|first [|second rest]]; try reflexivity.
    apply negb_true_iff. now apply (Hspread first second rest).
Qed.

Lemma Forall2_map_eq {A B C} (f : B -> C) (g : A -> C) (R : A -> B -> Prop)
  (l : list A) (l' : list B) :
  (forall a b, R a b -> f b = g a) -> Forall2 R l l' -> map f l' = map g l.
Proof.
  intros HR. induction 1 as [|x y l l' Hxy _ IH]; cbn; [reflexivity|].
  rewrite IH. f_equal. now apply HR.
Qed.

(** X6.  The [valid] flag of a posted extent.  An extent record is flagged valid
    exactly when it holds at least [minimum_photon_count] photons and, when it
    holds more than one, the along-track distance from its first to its last
    photon is not below [along_track_spread]; an extent that fails either
    test is posted only under [pass_invalid], flagged invalid. *)
Theorem posted_extent_valid_flag (reader : reader_t) (info : info_t)
  (parms : Icesat2Parms) (lat lon : list float) (cnt : list Z)
  (read_atl03 : Region -> Atl03Data.t) (atl08 : Atl08Class.t)
  (active_for : nat) (extent : extent_t.t) :
  In extent
    (posted (subsettingThread reader info parms lat lon cnt read_atl03 atl08
               active_for)) ->
  let photons := extent_t.photons extent in
  (extent_t.valid extent = true <->
   minimum_photon_count parms <= Z.of_nat (length photons) /\
   (forall first second rest,
      photons = first :: second :: rest ->
      PrimFloat.ltb
        (float_sub (photon_t.x_atc (last photons first)) (photon_t.x_atc first))
        (along_track_spread parms) = false)) /\
  (extent_t.valid extent = false -> pass_invalid parms = true).
Proof.
  intros Hin photons.
  destruct (subsettingThread_posted reader info parms lat lon cnt read_atl03 atl08
              active_for) as [Hnone|(ex & region & ys & atl08' & counters & _ & _ & _
                                     & Hall & _)].
  { rewrite Hnone in Hin. contradiction. }
  destruct (Forall2_In_r _ _ _ _ Hall Hin) as (c & _ & Hrec).
  destruct Hrec as (_ & _ & _ & _ & _ & _ & _ & Hvalid & Hposted & _).
  split.
  - rewrite Hvalid. apply check_extent_valid_true.
  - intros Hf. destruct Hposted as [Ht|Hp]; [congruence|exact Hp].
Qed.

(** X7.  The header of a posted extent: the beam ([track], [pair]), the reference
    ground track and cycle of the granule truncated to 16 bits, the extent
    length of the request in meters (segments times 20 under [dist_in_seg]),
    the same for every extent of the beam, and [photon_count], the number of
    photons in the record. *)
Theorem posted_extent_header (reader : reader_t) (info : info_t)
  (parms : Icesat2Parms) (lat lon : list float) (cnt : list Z)
  (read_atl03 : Region -> Atl03Data.t) (atl08 : Atl08Class.t)
  (active_for : nat) (extent : extent_t.t) :
  In extent
    (posted (subsettingThread reader info parms lat lon cnt read_atl03 atl08
               active_for)) ->
  extent_t.track extent = to_uint8 (track info) /\
  extent_t.pair extent = to_uint8 (pair info) /\
  extent_t.reference_ground_track extent = start_rgt reader mod 65536 /\
  extent_t.cycle extent = start_cycle reader mod 65536 /\
  extent_t.extent_length extent
    = (if dist_in_seg parms
       then (extent_length parms * ATL03_SEGMENT_LENGTH)%float
       else extent_length parms) /\
  extent_t.photon_count extent
    = Z.of_nat (length (extent_t.photons extent)) mod 4294967296.
Proof.
  intros Hin.
  destruct (subsettingThread_posted reader info parms lat lon cnt read_atl03 atl08
              active_for) as [Hnone|(ex & region & ys & atl08' & counters & _ & _ & _
                                     & Hall & _)].
  { rewrite Hnone in Hin. contradiction. }
  destruct (Forall2_In_r _ _ _ _ Hall Hin) as (c & _ & Hrec).
  destruct Hrec as (_ & Htrack & Hpair & Hrgt & Hcycle & Hlen & Hcount & _).
  repeat split; assumption.
Qed.

(** X8.  The extent ids of a beam.  The stages before the extent loop
    succeeded.  The counter of pass [k] of the extent loop is [k]: it starts
    at 0 and every pass bumps it, also one whose extent is filtered out.
    Each posted extent was posted by one pass of the loop, and its id is
    [generateExtentId] of the granule, the beam and the number of that
    pass; along the stream the pass numbers increase, so no two extents of
    a beam share a counter (for at most 2^32 passes). *)
Theorem posted_extent_ids (reader : reader_t) (info : info_t)
  (parms : Icesat2Parms) (lat lon : list float) (cnt : list Z)
  (read_atl03 : Region -> Atl03Data.t) (atl08 : Atl08Class.t)
  (active_for : nat) (region : Region) (atl03 : Atl03Data.t)
  (yapc_scores : YapcScore.t) (atl08' : Atl08Class.t) (st0 : TrackState.t) :
  Z.of_nat active_for <= 4294967296 ->
  thread_setup info parms lat lon cnt read_atl03 atl08
    = Ok (region, atl03, yapc_scores, atl08', st0) ->
  (forall k c st lists sent,
     extent_pass reader info parms region atl03 atl08' yapc_scores st0 k c st lists
       sent ->
     (k < active_for)%nat ->
     c = Z.of_nat k) /\
  exists passes,
    Forall2 (fun k extent =>
               pass_posted reader info parms region atl03 atl08' yapc_scores st0
                 k extent /\
               extent_t.extent_id extent
               = generateExtentId (start_rgt reader) (start_cycle reader)
                   (start_region reader) (track info) (pair info) (Z.of_nat k))
      passes
      (posted (subsettingThread reader info parms lat lon cnt read_atl03 atl08
                 active_for)) /\
    Forall (fun k => (k < active_for)%nat) passes /\
    increasing (map Z.of_nat passes).
Proof.
  intros Hfuel Hsetup. split.
  - intros k c st lists sent Hpass Hk.
    apply (extent_pass_counter _ _ _ _ _ _ _ _ _ _ _ _ _ Hpass). lia.
  - unfold subsettingThread. rewrite Hsetup.
    destruct (extent_loop_ids reader info parms region atl03 atl08' yapc_scores st0
                active_for 0%nat 0 st0 no_indices [])
      as (passes & added & Hposted & Hall & Hrange & Hinc);
      [constructor|lia|].
    exists passes. rewrite Hposted. cbn [flat_map app].
    split; [exact Hall|]. split; [|exact Hinc].
    eapply Forall_impl; [|exact Hrange]. cbn. intros k Hk. lia.
Qed.

(** X9.  The photons of a posted extent are in the order of the photon axis:
    each was taken from an ATL03 photon after the one before it, in the same
    segment or a later one.  No ATL03 photon is in an extent twice. *)
Theorem posted_photons_in_order (reader : reader_t) (info : info_t)
  (parms : Icesat2Parms) (lat lon : list float) (cnt : list Z)
  (read_atl03 : Region -> Atl03Data.t) (atl08 : Atl08Class.t)
  (active_for : nat) (extent : extent_t.t) :
  In extent
    (posted (subsettingThread reader info parms lat lon cnt read_atl03 atl08
               active_for)) ->
  photons_in_order (extent_t.photons extent).
Proof.
  intros Hin.
  destruct (subsettingThread_posted reader info parms lat lon cnt read_atl03 atl08
              active_for) as [Hnone|(ex & region & ys & atl08' & counters & _ & _ & _
                                     & Hall & _)].
  { rewrite Hnone in Hin. contradiction. }
  destruct (Forall2_In_r _ _ _ _ Hall Hin) as (c & _ & Hrec).
  apply Hrec.
Qed.

(** X10.  The data of a posted photon.  Its time, latitude, longitude, across-track
    distance and height are those of the ATL03 datasets at the photon it was
    made from ([delta_time] through [deltatime2timestamp]); its relief,
    landcover and snowcover flags are those [classify] left at that photon
    ([h_ph] for the relief under [use_abs_h]) when PhoREAL is on, and [0.0],
    [INVALID_FLAG], [INVALID_FLAG] when it is off. *)
Theorem posted_photon_fields (reader : reader_t) (info : info_t)
  (parms : Icesat2Parms) (lat lon : list float) (cnt : list Z)
  (read_atl03 : Region -> Atl03Data.t) (atl08 : Atl08Class.t)
  (active_for : nat) (extent : extent_t.t) (ph : photon_t.t) :
  In extent
    (posted (subsettingThread reader info parms lat lon cnt read_atl03 atl08
               active_for)) ->
  In ph (extent_t.photons extent) ->
  exists ex region atl08',
    Region_new parms lat lon cnt = Ok (ex, region) /\
    classify info parms region (read_atl03 region) atl08 = Ok atl08' /\
    photon_copied (read_atl03 region) ph /\
    photon_phoreal parms (read_atl03 region) atl08' ph.
Proof.
  intros Hin Hph.
  destruct (subsettingThread_posted reader info parms lat lon cnt read_atl03 atl08
              active_for) as [Hnone|(ex & region & ys & atl08' & counters & Hreg & _
                                     & Hcls & Hall & _)].
  { rewrite Hnone in Hin. contradiction. }
  destruct (Forall2_In_r _ _ _ _ Hall Hin) as (c & _ & Hrec).
  destruct Hrec as (_ & _ & _ & _ & _ & _ & _ & _ & _ & _ & Hsel).
  rewrite Forall_forall in Hsel. destruct (Hsel _ Hph) as (st & x_atc & Hs).
  apply select_photon_ghost in Hs. destruct Hs as (_ & _ & Hcopied & Hphoreal).
  exists ex, region, atl08'.
  split; [exact Hreg|]. split; [exact Hcls|]. split; assumption.
Qed.
(* ================================================================== *)
(** * YAPC version 2: exceptions, scores and bands                     *)
(* ================================================================== *)

Lemma no_throw_Ok {A} (a : A) : no_throw (Ok a).
Proof. intros e; discriminate. Qed.

Lemma no_throw_Fault {A} : no_throw (@Fault A).
Proof. intros e; discriminate. Qed.

Lemma no_throw_bind {A B} (m : outcome A) (k : A -> outcome B) :
  no_throw m -> (forall a, no_throw (k a)) -> no_throw (bind m k).
Proof.
  intros Hm Hk e. destruct m as [a| e'|]; cbn.
  - apply Hk.
  - exfalso. exact (Hm e' eq_refl).
  - discriminate.
Qed.

Lemma no_throw_rd {A} (o : option A) : no_throw (rd o).
Proof. destruct o; intros e; discriminate. Qed.

Lemma no_throw_double2int lo hi f : no_throw (double2int lo hi f).
Proof.
  unfold double2int. destruct (double2Z f); [|apply no_throw_Fault].
  destruct ((lo <=? z) && (z <=? hi)); intros e; discriminate.
Qed.

Lemma no_throw_store {A} (a : cells A) i (v : A) : no_throw (store a i v).
Proof. unfold store. destruct (_ && _); intros e; discriminate. Qed.

Lemma no_throw_load {A} (a : cells A) i : no_throw (load a i).
Proof. unfold load. destruct (H5Array.get a i) as [[v|]|]; intros e; discriminate. Qed.

Ltac no_throw_step :=
  first
    [ apply no_throw_Ok
    | apply no_throw_Fault
    | apply no_throw_rd
    | apply no_throw_double2int
    | apply no_throw_store
    | apply no_throw_load
    | apply no_throw_bind; [|intros ?]
    | match goal with
      | |- no_throw (if ?b then _ else _) => destruct b
      | |- no_throw (match ?x with (_, _) => _ end) => destruct x
      | |- no_throw (let '(_, _) := ?x in _) => destruct x
      end ].

Lemma no_throw_yapcV2_knn settings N : no_throw (yapcV2_knn settings N).
Proof. unfold yapcV2_knn. repeat no_throw_step. Qed.

Lemma no_throw_spread_loop atl03 rest : forall n v, no_throw (spread_loop atl03 rest n v).
Proof.
  induction rest as [|rest IH]; intros n v; cbn [spread_loop]; [apply no_throw_Ok|].
  repeat (first [apply IH | no_throw_step]).
Qed.

Lemma no_throw_yapcV2_spread atl03 N : no_throw (yapcV2_spread atl03 N).
Proof. unfold yapcV2_spread. repeat (first [apply no_throw_spread_loop | no_throw_step]). Qed.

Lemma no_throw_bin_photons atl03 minh rest :
  forall n bins, no_throw (bin_photons atl03 minh rest n bins).
Proof.
  induction rest as [|rest IH]; intros n bins; cbn [bin_photons]; [apply no_throw_Ok|].
  repeat (first [apply IH | no_throw_step]).
Qed.

Lemma no_throw_count_bins bins rest : forall b nz, no_throw (count_bins bins rest b nz).
Proof.
  induction rest as [|rest IH]; intros b nz; cbn [count_bins]; [apply no_throw_Ok|].
  repeat (first [apply IH | no_throw_step]).
Qed.

Lemma no_throw_recalculate_smallest nn rest :
  forall k smallest index, no_throw (recalculate_smallest nn rest k smallest index).
Proof.
  induction rest as [|rest IH]; intros k smallest index; cbn [recalculate_smallest];
    [apply no_throw_Ok|].
  repeat (first [apply IH | no_throw_step]).
Qed.

Lemma no_throw_neighbor_body atl03 knn hx hh y x v :
  no_throw (neighbor_body atl03 knn hx hh y x v).
Proof.
  unfold neighbor_body.
  repeat (first [apply no_throw_recalculate_smallest | no_throw_step]).
Qed.

Lemma no_throw_neighbor_loop atl03 knn hx hh y rest :
  forall x v, no_throw (neighbor_loop atl03 knn hx hh y rest x v).
Proof.
  induction rest as [|rest IH]; intros x v; cbn [neighbor_loop]; [apply no_throw_Ok|].
  apply no_throw_bind; [apply no_throw_neighbor_body|intros ?; apply IH].
Qed.

Lemma no_throw_fill_neighbors rest : forall k nn, no_throw (fill_neighbors rest k nn).
Proof.
  induction rest as [|rest IH]; intros k nn; cbn [fill_neighbors]; [apply no_throw_Ok|].
  repeat (first [apply IH | no_throw_step]).
Qed.

Lemma no_throw_sum_neighbors nn rest : forall k total, no_throw (sum_neighbors nn rest k total).
Proof.
  induction rest as [|rest IH]; intros k total; cbn [sum_neighbors]; [apply no_throw_Ok|].
  repeat (first [apply IH | no_throw_step]).
Qed.

Lemma no_throw_score_photon atl03 knn b0 b1 hx hh y st :
  no_throw (score_photon atl03 knn b0 b1 hx hh y st).
Proof.
  unfold score_photon.
  repeat (first [apply no_throw_neighbor_loop | apply no_throw_fill_neighbors
                | apply no_throw_sum_neighbors | no_throw_step]).
Qed.

Lemma no_throw_score_loop atl03 knn b0 b1 hx hh rest :
  forall y st, no_throw (score_loop atl03 knn b0 b1 hx hh rest y st).
Proof.
  induction rest as [|rest IH]; intros y st; cbn [score_loop]; [apply no_throw_Ok|].
  apply no_throw_bind; [apply no_throw_score_photon|intros ?; apply IH].
Qed.

Lemma no_throw_yapcV2_segment parms region atl03 n k v :
  no_throw (yapcV2_segment parms region atl03 n k v).
Proof.
  unfold yapcV2_segment.
  repeat (first [apply no_throw_yapcV2_knn | apply no_throw_yapcV2_spread
                | apply no_throw_bin_photons | apply no_throw_count_bins
                | apply no_throw_score_loop | no_throw_step]).
Qed.

Lemma no_throw_yapcV2_segments parms region atl03 n rest :
  forall k v, no_throw (yapcV2_segments parms region atl03 n rest k v).
Proof.
  induction rest as [|rest IH]; intros k v; cbn [yapcV2_segments]; [apply no_throw_Ok|].
  apply no_throw_bind; [apply no_throw_yapcV2_segment|intros ?; apply IH].
Qed.

Lemma no_throw_yapcV2 parms region atl03 : no_throw (yapcV2 parms region atl03).
Proof.
  unfold yapcV2. apply no_throw_bind; [apply no_throw_yapcV2_segments|].
  intros ?. apply no_throw_Ok.
Qed.

Lemma no_throw_background_loop atl03 extent_segment rate rest :
  forall bckgrd_in, no_throw (background_loop atl03 extent_segment rate rest bckgrd_in).
Proof.
  induction rest as [|rest IH]; intros bckgrd_in; cbn [background_loop];
    [apply no_throw_Ok|].
  repeat (first [apply IH | no_throw_step]).
Qed.

(** Nothing in [generateExtentRecord] throws: the pass of the extent loop
    that makes an extent record comes to its ancillary records. *)
Lemma no_throw_generateExtentRecord reader parms extent_id info state atl03 :
  no_throw (generateExtentRecord reader parms extent_id info state atl03).
Proof.
  unfold generateExtentRecord, calculateSegmentId, calculateBackground.
  repeat (first [apply no_throw_background_loop | no_throw_step]).
Qed.

Lemma double2int_range lo hi f z : double2int lo hi f = Ok z -> lo <= z <= hi.
Proof.
  unfold double2int. destruct (double2Z f) as [z'|]; [|discriminate].
  destruct (Z.leb_spec lo z'); destruct (Z.leb_spec z' hi); cbn; intros E;
    inversion E; subst; lia.
Qed.

Lemma store_get {A} (a a' : cells A) (i : Z) (v : A) :
  store a i v = Ok a' ->
  H5Array.get a' i = Some (Some v) /\
  (forall q, q <> i -> H5Array.get a' q = H5Array.get a q) /\
  H5Array.size a' = H5Array.size a.
Proof.
  unfold store, H5Array.size. intros H.
  destruct (Z.leb_spec 0 i); [|discriminate].
  destruct (Z.ltb_spec i (Z.of_nat (length a))); [|discriminate].
  cbn in H. inversion H; subst a'; clear H. repeat split.
  - apply get_array_set_eq. unfold H5Array.size. lia.
  - intros q Hq. apply get_array_set_ne; [lia|exact Hq].
  - now rewrite array_set_length.
Qed.

(** A pass of the scoring loop writes the score of its photon and no other
    cell, and the score is a [uint8_t]. *)
Lemma score_photon_writes atl03 knn b0 b1 hx hh y st st' :
  score_photon atl03 knn b0 b1 hx hh y st = Ok st' ->
  (exists sc, H5Array.get (fst st') y = Some (Some sc) /\ 0 <= sc <= 255) /\
  (forall q, q <> y -> H5Array.get (fst st') q = H5Array.get (fst st) q).
Proof.
  unfold score_photon. intros H.
  apply bind_Ok_inv in H. destruct H as (v & _ & H).
  apply bind_Ok_inv in H. destruct H as (nn & _ & H).
  apply bind_Ok_inv in H. destruct H as (total & _ & H).
  apply bind_Ok_inv in H. destruct H as (sc & Hsc & H).
  apply bind_Ok_inv in H. destruct H as (score' & Hst & H).
  inversion H; subst st'; clear H. cbn [fst].
  apply double2int_range in Hsc. apply store_get in Hst.
  destruct Hst as (Hy & Hother & _). split; [eauto|exact Hother].
Qed.

Lemma score_loop_writes atl03 knn b0 b1 hx hh rest :
  forall y st st',
    score_loop atl03 knn b0 b1 hx hh rest y st = Ok st' ->
    (forall i, y <= i < y + Z.of_nat rest ->
       exists sc, H5Array.get (fst st') i = Some (Some sc) /\ 0 <= sc <= 255) /\
    (forall q, ~ y <= q < y + Z.of_nat rest ->
       H5Array.get (fst st') q = H5Array.get (fst st) q).
Proof.
  induction rest as [|rest IH]; intros y st st' H; cbn [score_loop] in H.
  - inversion H; subst. split; [intros i Hi; lia|reflexivity].
  - apply bind_Ok_inv in H. destruct H as (st1 & Hp & H).
    apply score_photon_writes in Hp. destruct Hp as [(sc & Hy & Hsc) Hother].
    destruct (IH _ _ _ H) as [Hin Hout]. split.
    + intros i Hi. destruct (Z.eq_dec i y) as [->|Hne].
      * exists sc. rewrite Hout by lia. split; assumption.
      * apply Hin. lia.
    + intros q Hq. rewrite Hout by lia. apply Hother. lia.
Qed.

(** One pass of the segment loop: the indices it moves, the fate it records
    and the scores it writes. *)
Lemma yapcV2_segment_step parms region atl03 n k v v' :
  yapcV2_segment parms region atl03 n k v = Ok v' ->
  let cnt := segment_ph_cnt region in
  exists N knn fate,
    H5Array.get cnt k = Some N /\
    yapcV2_knn (yapc parms) N = Ok knn /\
    fates v' = fates v ++ [fate] /\
    (if 1 <? k then exists c, H5Array.get cnt (k - 2) = Some c /\ ph_b0 v' = ph_b0 v + c
     else ph_b0 v' = ph_b0 v) /\
    (if 0 <? k then exists c, H5Array.get cnt (k - 1) = Some c /\ ph_c0 v' = ph_c0 v + c
     else ph_c0 v' = ph_c0 v) /\
    ph_c1 v' = ph_c1 v + N /\
    (if k <? n - 1 then exists c, H5Array.get cnt (k + 1) = Some c /\ ph_b1 v' = ph_b1 v + c
     else ph_b1 v' = ph_b1 v) /\
    match fate with
    | SkippedCount =>
        (N <= knn \/ N < minimum_photon_count parms) /\ yv_score v' = yv_score v
    | SkippedSpread c0 c1 hspread xspread =>
        c0 = ph_c0 v' /\ c1 = ph_c1 v' /\ knn < N /\ minimum_photon_count parms <= N /\
        invalid_spread hspread xspread = true /\ yv_score v' = yv_score v
    | Scored c0 c1 knn' hspread xspread =>
        c0 = ph_c0 v' /\ c1 = ph_c1 v' /\ knn' = knn /\
        knn < N /\ minimum_photon_count parms <= N /\
        invalid_spread hspread xspread = false /\
        (forall i, c0 <= i < c1 ->
           exists sc, H5Array.get (yv_score v') i = Some (Some sc) /\ 0 <= sc <= 255) /\
        (forall q, ~ c0 <= q < c1 ->
           H5Array.get (yv_score v') q = H5Array.get (yv_score v) q)
    end.
Proof.
  intros H cnt. unfold yapcV2_segment in H. fold cnt in H.
  apply bind_Ok_inv in H. destruct H as (b0 & Hb0 & H).
  apply bind_Ok_inv in H. destruct H as (c0 & Hc0 & H).
  inv_bind H. rename x into cc, Hrd into Hcc.
  apply bind_Ok_inv in H. destruct H as (b1 & Hb1 & H).
  inv_bind H. rename x into N, Hrd into HN.
  assert (cc = N) by congruence. subst cc.
  apply bind_Ok_inv in H. destruct H as (knn & Hk & H).
  assert (Hb0' : if 1 <? k
                 then exists c, H5Array.get cnt (k - 2) = Some c /\ b0 = ph_b0 v + c
                 else b0 = ph_b0 v).
  { destruct (1 <? k).
    - inv_bind Hb0. inversion Hb0; subst. eauto.
    - now inversion Hb0. }
  assert (Hc0' : if 0 <? k
                 then exists c, H5Array.get cnt (k - 1) = Some c /\ c0 = ph_c0 v + c
                 else c0 = ph_c0 v).
  { destruct (0 <? k).
    - inv_bind Hc0. inversion Hc0; subst. eauto.
    - now inversion Hc0. }
  assert (Hb1' : if k <? n - 1
                 then exists c, H5Array.get cnt (k + 1) = Some c /\ b1 = ph_b1 v + c
                 else b1 = ph_b1 v).
  { destruct (k <? n - 1).
    - inv_bind Hb1. inversion Hb1; subst. eauto.
    - now inversion Hb1. }
  clear Hb0 Hc0 Hb1.
  exists N, knn.
  destruct ((N <=? knn) || (N <? minimum_photon_count parms)) eqn:Hskip.
  - inversion H; subst v'; clear H. cbn.
    exists SkippedCount. do 7 (split; [first [assumption | reflexivity]|]).
    split; [|reflexivity].
    apply orb_true_iff in Hskip. destruct Hskip as [Hs|Hs]; [left|right]; lia.
  - apply orb_false_iff in Hskip. destruct Hskip as [Hs1 Hs2].
    apply Z.leb_gt in Hs1. apply Z.ltb_ge in Hs2.
    apply bind_Ok_inv in H. destruct H as (sp & _ & H).
    destruct (invalid_spread _ _) eqn:Hinv.
    + inversion H; subst v'; clear H. cbn.
      eexists. do 7 (split; [first [assumption | reflexivity]|]).
      cbn. repeat split; try assumption; try reflexivity; lia.
    + apply bind_Ok_inv in H. destruct H as (nb & _ & H).
      apply bind_Ok_inv in H. destruct H as (bins & _ & H).
      apply bind_Ok_inv in H. destruct H as (nz & _ & H).
      apply bind_Ok_inv in H. destruct H as (st & Hloop & H).
      inversion H; subst v'; clear H. cbn.
      eexists. do 7 (split; [first [assumption | reflexivity]|]).
      cbn. apply score_loop_writes in Hloop. cbn [fst] in Hloop.
      destruct Hloop as [Hin Hout].
      do 6 (split; [first [assumption | reflexivity | lia]|]).
      split.
      * intros i Hi. apply Hin. lia.
      * intros q Hq. apply Hout. lia.
Qed.

Lemma slice_nonpos {A} (a : list A) (first num : Z) : num <= 0 -> slice a first num = [].
Proof. intros H. unfold slice. replace (Z.to_nat num) with 0%nat by lia. reflexivity. Qed.

Lemma get_repeat {A} (x : A) (n : nat) (i : Z) (y : A) :
  H5Array.get (repeat x n) i = Some y -> y = x.
Proof.
  unfold H5Array.get. destruct (i <? 0); [discriminate|]. intros H.
  apply nth_error_In in H. now apply repeat_spec in H.
Qed.

Lemma yapcV2_init_passed parms cnt n atl03 :
  yapcV2_passed parms cnt n 0 (yapcV2_init atl03).
Proof.
  unfold yapcV2_passed, yapcV2_init.
  cbn [ph_b0 ph_c0 ph_c1 ph_b1 fates yv_score length].
  do 4 (split; [rewrite slice_nonpos by lia; reflexivity|]).
  split; [reflexivity|]. split.
  - intros [|j] fate Hf; discriminate.
  - intros i cell Hc. apply get_repeat in Hc. subst cell.
    exists 0. split; [reflexivity|]. split; [lia|]. intros Hne. now contradiction Hne.
Qed.

Lemma yapcV2_segment_passed parms region atl03 n k v v' :
  0 <= k ->
  yapcV2_passed parms (segment_ph_cnt region) n k v ->
  yapcV2_segment parms region atl03 n k v = Ok v' ->
  yapcV2_passed parms (segment_ph_cnt region) n (k + 1) v'.
Proof.
  intros Hk (Hb0 & Hc0 & Hc1 & Hb1 & Hlen & Hfates & Hscore) H.
  apply yapcV2_segment_step in H. cbv zeta in H.
  set (cnt := segment_ph_cnt region) in *.
  destruct H as (N & knn & fate & HN & Hknn & Hf & Hb0' & Hc0' & Hc1' & Hb1' & Hfate).
  assert (Ec1 : ph_c1 v' = sum_counts (slice cnt 0 (k + 1))).
  { rewrite Hc1', Hc1. pose proof (sum_counts_slice_succ cnt 0 k N ltac:(lia) HN) as E.
    rewrite !Z.sub_0_r in E. lia. }
  assert (Ec0 : ph_c0 v' = sum_counts (slice cnt 0 k)).
  { destruct (Z.ltb_spec 0 k).
    - destruct Hc0' as (c & Hc & ->). rewrite Hc0.
      pose proof (sum_counts_slice_succ cnt 0 (k - 1) c ltac:(lia) Hc) as E.
      rewrite !Z.sub_0_r in E. replace (k - 1 + 1) with k in E by lia. lia.
    - rewrite Hc0', Hc0. rewrite !slice_nonpos by lia. reflexivity. }
  assert (Eb0 : ph_b0 v' = sum_counts (slice cnt 0 (k + 1 - 2))).
  { destruct (Z.ltb_spec 1 k).
    - destruct Hb0' as (c & Hc & ->). rewrite Hb0.
      pose proof (sum_counts_slice_succ cnt 0 (k - 2) c ltac:(lia) Hc) as E.
      rewrite !Z.sub_0_r in E. replace (k - 2 + 1) with (k + 1 - 2) in E by lia. lia.
    - rewrite Hb0', Hb0. rewrite !slice_nonpos by lia. reflexivity. }
  assert (Eb1 : ph_b1 v' = sum_counts (slice cnt 1 (Z.min (k + 1) (n - 1)))).
  { destruct (Z.ltb_spec k (n - 1)).
    - destruct Hb1' as (c & Hc & ->). rewrite Hb1.
      replace (Z.min k (n - 1)) with k by lia.
      replace (Z.min (k + 1) (n - 1)) with (k + 1) by lia.
      pose proof (sum_counts_slice_succ cnt 1 (k + 1) c ltac:(lia) Hc) as E.
      replace (k + 1 + 1 - 1) with (k + 1) in E by lia.
      replace (k + 1 - 1) with k in E by lia. lia.
    - rewrite Hb1', Hb1. f_equal. f_equal. lia. }
  assert (Hnew : fate_of_segment parms cnt k N knn fate).
  { destruct fate as [|c0 c1 h x|c0 c1 knn' h x]; cbn.
    - apply Hfate.
    - destruct Hfate as (-> & -> & H1 & H2 & H3 & _).
      rewrite Ec0, Ec1.
      pose proof (sum_counts_slice_succ cnt 0 k N ltac:(lia) HN) as E.
      rewrite !Z.sub_0_r in E. repeat split; try assumption; lia.
    - destruct Hfate as (-> & -> & -> & H1 & H2 & H3 & _).
      rewrite Ec0, Ec1.
      pose proof (sum_counts_slice_succ cnt 0 k N ltac:(lia) HN) as E.
      rewrite !Z.sub_0_r in E. repeat split; try assumption; lia. }
  unfold yapcV2_passed.
  split; [exact Eb0|]. split; [replace (k + 1 - 1) with k by lia; exact Ec0|].
  split; [exact Ec1|]. split; [exact Eb1|].
  split; [rewrite Hf, length_app; cbn; lia|]. split.
  - intros j fate' Hj. rewrite Hf in Hj.
    destruct (Nat.lt_ge_cases j (length (fates v))) as [Hlt|Hge].
    + rewrite nth_error_app1 in Hj by exact Hlt. now apply Hfates.
    + rewrite nth_error_app2 in Hj by exact Hge.
      destruct (j - length (fates v))%nat as [|m] eqn:Em; [|destruct m; discriminate].
      cbn in Hj. inversion Hj; subst fate'.
      assert (Z.of_nat j = k) by lia. exists N, knn.
      rewrite H. repeat split; assumption.
  - intros i cell Hcell.
    assert (Hold : H5Array.get (yv_score v) i = Some cell ->
                   exists sc, cell = Some sc /\ 0 <= sc <= 255 /\
                     (sc <> 0 ->
                      exists c0 c1 knn0 hspread xspread,
                        In (Scored c0 c1 knn0 hspread xspread) (fates v') /\
                        c0 <= i < c1)).
    { intros Hc. destruct (Hscore i cell Hc) as (sc & -> & Hr & Hnz).
      exists sc. split; [reflexivity|]. split; [exact Hr|]. intros Hne.
      destruct (Hnz Hne) as (c0 & c1 & knn0 & h & x & Hin & Hband).
      exists c0, c1, knn0, h, x. split; [|exact Hband].
      rewrite Hf. apply in_or_app. now left. }
    destruct fate as [|c0 c1 h x|c0 c1 knn' h x].
    + destruct Hfate as [_ Hs]. rewrite Hs in Hcell. now apply Hold.
    + destruct Hfate as (_ & _ & _ & _ & _ & Hs). rewrite Hs in Hcell. now apply Hold.
    + destruct Hfate as (_ & _ & _ & _ & _ & _ & Hin & Hout).
      destruct (Z_le_dec c0 i) as [H1|H1]; [destruct (Z_lt_dec i c1) as [H2|H2]|].
      * destruct (Hin i ltac:(lia)) as (sc & Hget & Hr).
        rewrite Hget in Hcell. inversion Hcell; subst cell.
        exists sc. split; [reflexivity|]. split; [exact Hr|]. intros _.
        exists c0, c1, knn', h, x. split; [|lia].
        rewrite Hf. apply in_or_app. right. now left.
      * rewrite Hout in Hcell by lia. now apply Hold.
      * rewrite Hout in Hcell by lia. now apply Hold.
Qed.

Lemma yapcV2_segments_passed parms region atl03 n rest :
  forall k v v',
    0 <= k ->
    yapcV2_passed parms (segment_ph_cnt region) n k v ->
    yapcV2_segments parms region atl03 n rest k v = Ok v' ->
    yapcV2_passed parms (segment_ph_cnt region) n (k + Z.of_nat rest) v'.
Proof.
  induction rest as [|rest IH]; intros k v v' Hk Hv H; cbn [yapcV2_segments] in H.
  - inversion H; subst. now rewrite Z.add_0_r.
  - apply bind_Ok_inv in H. destruct H as (v1 & Hseg & H).
    replace (k + Z.of_nat (S rest)) with (k + 1 + Z.of_nat rest) by lia.
    apply (IH (k + 1) v1); [lia| |exact H].
    eapply yapcV2_segment_passed; eauto.
Qed.

Lemma score_loop_size atl03 knn b0 b1 hx hh rest :
  forall y st st',
    score_loop atl03 knn b0 b1 hx hh rest y st = Ok st' ->
    H5Array.size (fst st') = H5Array.size (fst st).
Proof.
  induction rest as [|rest IH]; intros y st st' H; cbn [score_loop] in H.
  - now inversion H.
  - apply bind_Ok_inv in H. destruct H as (st1 & Hp & H).
    rewrite (IH _ _ _ H). unfold score_photon in Hp.
    apply bind_Ok_inv in Hp. destruct Hp as (v & _ & Hp).
    apply bind_Ok_inv in Hp. destruct Hp as (nn & _ & Hp).
    apply bind_Ok_inv in Hp. destruct Hp as (total & _ & Hp).
    apply bind_Ok_inv in Hp. destruct Hp as (sc & _ & Hp).
    apply bind_Ok_inv in Hp. destruct Hp as (score' & Hst & Hp).
    inversion Hp; subst st1. cbn [fst]. apply store_get in Hst. apply Hst.
Qed.

Lemma yapcV2_segments_size parms region atl03 n rest :
  forall k v v',
    yapcV2_segments parms region atl03 n rest k v = Ok v' ->
    H5Array.size (yv_score v') = H5Array.size (yv_score v).
Proof.
  induction rest as [|rest IH]; intros k v v' H; cbn [yapcV2_segments] in H.
  - now inversion H.
  - apply bind_Ok_inv in H. destruct H as (v1 & Hseg & H).
    rewrite (IH _ _ _ H). clear H IH. unfold yapcV2_segment in Hseg.
    apply bind_Ok_inv in Hseg. destruct Hseg as (b0 & _ & H).
    apply bind_Ok_inv in H. destruct H as (c0 & _ & H).
    inv_bind H. apply bind_Ok_inv in H. destruct H as (b1 & _ & H).
    inv_bind H. apply bind_Ok_inv in H. destruct H as (knn & _ & H).
    destruct (_ || _); [now inversion H|].
    apply bind_Ok_inv in H. destruct H as (sp & _ & H).
    destruct (invalid_spread _ _); [now inversion H|].
    apply bind_Ok_inv in H. destruct H as (nb & _ & H).
    apply bind_Ok_inv in H. destruct H as (bins & _ & H).
    apply bind_Ok_inv in H. destruct H as (nz & _ & H).
    apply bind_Ok_inv in H. destruct H as (st & Hloop & H).
    inversion H; subst v1. cbn. apply score_loop_size in Hloop. exact Hloop.
Qed.

Lemma yapcV2_run parms region atl03 score segments :
  yapcV2 parms region atl03 = Ok (score, segments) ->
  exists v,
    yapcV2_segments parms region atl03 (H5Array.size (Atl03Data.segment_id atl03))
      (length (Atl03Data.segment_id atl03)) 0 (yapcV2_init atl03) = Ok v /\
    score = yv_score v /\ segments = fates v.
Proof.
  unfold yapcV2. intros H. apply bind_Ok_inv in H. destruct H as (v & Hv & H).
  inversion H; subst. exists v. split; [|split; reflexivity].
  unfold H5Array.size in Hv at 2. rewrite Nat2Z.id in Hv. exact Hv.
Qed.

(** X11.  ["CANNOT THROW BELOW THIS POINT"].  [yapcV2] raises no exception, and
    neither does the constructor of [YapcScore] for versions 1 and 2, which
    run the same code; with the stage on and a version other than 1, 2 or 3
    the constructor throws [RunTimeException(CRITICAL, RTE_ERROR, "Invalid
    YAPC version specified")]; with the stage off it allocates no score,
    whatever the version. *)
Theorem yapcV2_cannot_throw (parms : Icesat2Parms) (region : Region)
  (atl03 : Atl03Data.t) :
  (forall e, yapcV2 parms region atl03 <> Throw e) /\
  (stage_yapc parms = true ->
   yapc_version (yapc parms) = 1 \/ yapc_version (yapc parms) = 2 ->
   forall e, YapcScore_new parms region atl03 <> Throw e) /\
  (stage_yapc parms = true ->
   yapc_version (yapc parms) <> 1 ->
   yapc_version (yapc parms) <> 2 ->
   yapc_version (yapc parms) <> 3 ->
   YapcScore_new parms region atl03
     = Throw (mkRTE CRITICAL RTE_ERROR (invalid_yapc_version (yapc_version (yapc parms))))) /\
  (stage_yapc parms = false ->
   YapcScore_new parms region atl03 = Ok {| YapcScore.score := None |}).
Proof.
  split; [apply no_throw_yapcV2|]. unfold YapcScore_new. split; [|split].
  - intros -> Hv e. cbn [negb].
    assert (Hn3 : (yapc_version (yapc parms) =? 3) = false)
      by (apply Z.eqb_neq; lia).
    assert (H12 : (yapc_version (yapc parms) =? 2) || (yapc_version (yapc parms) =? 1)
                  = true).
    { apply orb_true_iff. destruct Hv as [Hv|Hv]; [right|left]; now apply Z.eqb_eq. }
    rewrite Hn3, H12. apply no_throw_bind; [apply no_throw_yapcV2|].
    intros ?. apply no_throw_Ok.
  - intros -> H1 H2 H3. cbn [negb].
    apply Z.eqb_neq in H1, H2, H3. rewrite H1, H2, H3. reflexivity.
  - intros ->. reflexivity.
Qed.

(** X12.  The scores of [yapcV2].  The array has one cell per ATL03 photon, each
    holding a [uint8_t]; a score other than 0 is found only in the center
    band of a segment that passed "Check Valid Extent" and "Check Window":
    the photons of every other segment keep the 0 of the [memset]. *)
Theorem yapcV2_scores (parms : Icesat2Parms) (region : Region)
  (atl03 : Atl03Data.t) (score : cells Z) (segments : list segment_fate) :
  yapcV2 parms region atl03 = Ok (score, segments) ->
  H5Array.size score = H5Array.size (Atl03Data.dist_ph_along atl03) /\
  forall i,
    0 <= i < H5Array.size (Atl03Data.dist_ph_along atl03) ->
    exists sc,
      load score i = Ok sc /\ 0 <= sc <= 255 /\
      (sc <> 0 ->
       exists ph_c0 ph_c1 knn hspread xspread,
         In (Scored ph_c0 ph_c1 knn hspread xspread) segments /\ ph_c0 <= i < ph_c1).
Proof.
  intros H. apply yapcV2_run in H. destruct H as (v & Hv & -> & ->).
  pose proof (yapcV2_segments_size _ _ _ _ _ _ _ _ Hv) as Hsize.
  apply yapcV2_segments_passed in Hv; [|lia|apply yapcV2_init_passed].
  destruct Hv as (_ & _ & _ & _ & _ & _ & Hscore).
  assert (Hinit : H5Array.size (yv_score (yapcV2_init atl03))
                  = H5Array.size (Atl03Data.dist_ph_along atl03)).
  { unfold yapcV2_init, H5Array.size. cbn. rewrite repeat_length. lia. }
  split; [congruence|]. intros i Hi.
  destruct (get_in_range (yv_score v) i ltac:(lia)) as (cell & Hcell).
  destruct (Hscore i cell Hcell) as (sc & -> & Hr & Hnz).
  exists sc. unfold load. rewrite Hcell. repeat split; try lia. exact Hnz.
Qed.

(** X13.  The center bands of [yapcV2].  The segment loop passes every segment of
    [segment_id]; the center band of segment [k] starts after the photons of
    the segments before it and holds its [N] photons; the segment is skipped
    at "Check Valid Extent" when [N <= knn] or [N < minimum_photon_count],
    skipped at "Check Window" when its spread is invalid, and scored
    otherwise. *)
Theorem yapcV2_center_bands (parms : Icesat2Parms) (region : Region)
  (atl03 : Atl03Data.t) (score : cells Z) (segments : list segment_fate) :
  yapcV2 parms region atl03 = Ok (score, segments) ->
  length segments = length (Atl03Data.segment_id atl03) /\
  forall k fate,
    nth_error segments k = Some fate ->
    exists N knn,
      H5Array.get (segment_ph_cnt region) (Z.of_nat k) = Some N /\
      yapcV2_knn (yapc parms) N = Ok knn /\
      fate_of_segment parms (segment_ph_cnt region) (Z.of_nat k) N knn fate.
Proof.
  intros H. apply yapcV2_run in H. destruct H as (v & Hv & -> & ->).
  apply yapcV2_segments_passed in Hv; [|lia|apply yapcV2_init_passed].
  destruct Hv as (_ & _ & _ & _ & Hlen & Hfates & _).
  split; [lia|exact Hfates].
Qed.

(** X14.  The photon indices of [yapcV2] after [passes] passes of its segment
    loop, the last of them for segment [s = passes - 1] of [n].  The center
    band [[ph_c0, ph_c1)] is that of segment [s].  The neighbour window
    starts at [ph_b0], the first photon of segment [s - 1]; it ends at
    [ph_b1], which counts the photons of segments [1 .. s + 1] and so leaves
    out those of segment 0. *)
Theorem yapcV2_window_indices (parms : Icesat2Parms) (region : Region)
  (atl03 : Atl03Data.t) (n : Z) (passes : nat) (v : yapc_vars) :
  yapcV2_segments parms region atl03 n passes 0 (yapcV2_init atl03) = Ok v ->
  let cnt := segment_ph_cnt region in
  let s := Z.of_nat passes - 1 in
  ph_b0 v = sum_counts (slice cnt 0 (s - 1)) /\
  ph_c0 v = sum_counts (slice cnt 0 s) /\
  ph_c1 v = sum_counts (slice cnt 0 (s + 1)) /\
  ph_b1 v = sum_counts (slice cnt 1 (Z.min (s + 1) (n - 1))).
Proof.
  intros Hv cnt s.
  apply yapcV2_segments_passed in Hv; [|lia|apply yapcV2_init_passed].
  destruct Hv as (Hb0 & Hc0 & Hc1 & Hb1 & _). subst s cnt.
  rewrite Hb0, Hc0, Hc1, Hb1.
  replace (0 + Z.of_nat passes - 2) with (Z.of_nat passes - 1 - 1) by lia.
  replace (0 + Z.of_nat passes - 1) with (Z.of_nat passes - 1) by lia.
  replace (Z.of_nat passes - 1 + 1) with (0 + Z.of_nat passes) by lia.
  repeat split.
Qed.

(* ================================================================== *)
(** * The ATL08 join on rows in any order                              *)
(* ================================================================== *)

Lemma cell_Some {A} (arr : cells A) (p : Z) (x : A) :
  H5Array.get arr p = Some (Some x) -> cell (Some arr) p = Some x.
Proof. unfold cell. now intros ->. Qed.

Lemma same_cells_refl v q : same_cells v v q.
Proof. repeat split. Qed.

Lemma same_cells_trans v v1 v' q :
  same_cells v v1 q -> same_cells v1 v' q -> same_cells v v' q.
Proof.
  intros (A1 & A2 & A3 & A4 & A5) (B1 & B2 & B3 & B4 & B5).
  repeat split; congruence.
Qed.

Lemma photon_classified_same parms atl03 atl08 s seg c v v' p :
  same_cells v v' p ->
  photon_classified parms atl03 atl08 (classify_result atl08 v) s seg c p ->
  photon_classified parms atl03 atl08 (classify_result atl08 v') s seg c p.
Proof.
  intros (H1 & H2 & H3 & H4 & H5).
  unfold photon_classified, photon_unmatched, photon_matched, land_fields,
    classify_result, cell.
  cbn [Atl08Class.classification Atl08Class.relief Atl08Class.landcover
       Atl08Class.snowcover Atl08Class.anc_seg_indices Atl08Class.phoreal
       Atl08Class.ancillary].
  destruct (Atl08Class.phoreal atl08), (Atl08Class.ancillary atl08);
    rewrite ?H1, ?H2, ?H3, ?H4, ?H5; intros H; exact H.
Qed.

Lemma goto_land_segment_spec (atl08 : Atl08Class.t) (seg : Z) (rest : nat) :
  forall index index',
    0 <= index ->
    rest = Z.to_nat (H5Array.size (Atl08Class.segment_id_beg atl08) - index) ->
    goto_land_segment (Atl08Class.segment_id_beg atl08) seg rest index = Ok index' ->
    index <= index' /\
    (forall j beg,
       index <= j < index' ->
       H5Array.get (Atl08Class.segment_id_beg atl08) j = Some beg ->
       beg + NUM_ATL03_SEGS_IN_ATL08_SEG <= seg) /\
    (forall beg,
       H5Array.get (Atl08Class.segment_id_beg atl08) index' = Some beg ->
       seg < beg + NUM_ATL03_SEGS_IN_ATL08_SEG).
Proof.
  induction rest as [|rest IH]; intros k k' Hk Hrest H; simpl in H.
  - inversion H; subst k'. split; [lia|]. split; [intros; lia|].
    intros id Hid. apply get_Some in Hid. lia.
  - inv_bind H. rename x into beg0.
    destruct (Z.leb_spec (beg0 + NUM_ATL03_SEGS_IN_ATL08_SEG) seg).
    + apply IH in H; [|lia|lia]. destruct H as (Hle & Hskip & Hstop).
      split; [lia|]. split; [|exact Hstop].
      intros j beg Hj Hbeg. destruct (Z.eq_dec j k) as [->|Hne].
      * rewrite Hrd in Hbeg. inversion Hbeg; subst. assumption.
      * apply (Hskip j beg); [lia|exact Hbeg].
    + inversion H; subst k'. split; [lia|]. split; [intros; lia|].
      intros beg Hbeg. rewrite Hrd in Hbeg. inversion Hbeg; subst. lia.
Qed.

Lemma above_classify_cases info parms atl03 seg p rel cls cls' :
  above_classify info parms atl03 seg p rel cls = Ok cls' ->
  (forall q, q <> p -> H5Array.get cls' q = H5Array.get cls q) /\
  H5Array.size cls' = H5Array.size cls /\
  (H5Array.get cls' p = H5Array.get cls p \/
   (above_classifier (phoreal parms) = true /\
    H5Array.get cls' p = Some (Some ATL08_TOP_OF_CANOPY))).
Proof.
  unfold above_classify. intros H.
  assert (Hsame : cls' = cls ->
            (forall q, q <> p -> H5Array.get cls' q = H5Array.get cls q) /\
            H5Array.size cls' = H5Array.size cls /\
            (H5Array.get cls' p = H5Array.get cls p \/
             (above_classifier (phoreal parms) = true /\
              H5Array.get cls' p = Some (Some ATL08_TOP_OF_CANOPY)))).
  { intros ->. split; [reflexivity|]. split; [reflexivity|now left]. }
  destruct (above_classifier (phoreal parms)) eqn:Ha; [|inversion H; auto].
  apply bind_Ok_inv in H. destruct H as (class & _ & H).
  destruct (negb (class =? ATL08_TOP_OF_CANOPY)); [|inversion H; auto].
  inv_bind H. inv_bind H.
  destruct (PrimFloat.leb _ _); [|inversion H; auto].
  destruct (_ || _); [|inversion H; auto].
  inv_bind H.
  destruct (_ =? CNF_SURFACE_HIGH); [|inversion H; auto].
  apply bind_Ok_inv in H. destruct H as (r & _ & H).
  destruct (_ && _); [|inversion H; auto].
  apply store_get in H. destruct H as (Hp & Hq & Hsize).
  split; [exact Hq|]. split; [exact Hsize|]. right. split; [reflexivity|exact Hp].
Qed.

Section Join_sound.

Variables (info : info_t) (parms : Icesat2Parms) (atl03 : Atl03Data.t)
  (atl08 : Atl08Class.t).

Lemma classify_photon_sound (s seg c : Z) (v v' : classify_vars) :
  0 <= atl08_photon v ->
  (Atl08Class.phoreal atl08 || Atl08Class.ancillary atl08 = true ->
   land_at atl03 atl08 s seg (atl08_segment_index v)) ->
  classify_photon info parms atl03 atl08 seg c v = Ok v' ->
  atl03_photon v' = atl03_photon v + 1 /\
  0 <= atl08_photon v' /\
  atl08_segment_index v' = atl08_segment_index v /\
  photon_classified parms atl03 atl08 (classify_result atl08 v') s seg c
    (atl03_photon v) /\
  (forall q, q <> atl03_photon v -> same_cells v v' q).
Proof.
  intros Hcur Hland H. unfold classify_photon in H.
  apply bind_Ok_inv in H. destruct H as (k1 & Hk1 & H).
  apply goto_segment_spec in Hk1; [|exact Hcur|reflexivity].
  destruct Hk1 as (Hle1 & _ & _).
  apply bind_Ok_inv in H. destruct H as (k & Hk & H).
  apply goto_index_spec in Hk; [|lia|reflexivity].
  destruct Hk as (Hle2 & _ & _).
  apply bind_Ok_inv in H. destruct H as (matched & Hm & H).
  apply check_match_spec in Hm; [|lia].
  set (p := atl03_photon v) in *.
  destruct matched.
  - assert (Hrow : atl08_row atl08 k seg c) by now apply Hm.
    inv_bind H. rename x into flag. rename Hrd into Hflag.
    apply bind_Ok_inv in H. destruct H as (cls1 & Hst & H).
    apply store_get in Hst. destruct Hst as (Hcls1 & Hcls1' & _).
    apply bind_Ok_inv in H. destruct H as ([[[cls rel] land] snow] & Hpho & H).
    apply bind_Ok_inv in H. destruct H as (anc & Hanc & H).
    inversion H; subst v'; clear H.
    cbn [atl03_photon atl08_photon atl08_segment_index].
    split; [reflexivity|]. split; [lia|]. split; [reflexivity|].
    unfold photon_classified, photon_matched, land_fields, same_cells, classify_result.
    cbn [Atl08Class.classification Atl08Class.relief Atl08Class.landcover
         Atl08Class.snowcover Atl08Class.anc_seg_indices Atl08Class.phoreal
         Atl08Class.ancillary cv_classification cv_relief cv_landcover
         cv_snowcover cv_anc_seg_indices].
    destruct (Atl08Class.phoreal atl08) eqn:Hph.
    + inv_bind Hpho. rename x into h. rename Hrd into Hh.
      apply bind_Ok_inv in Hpho. destruct Hpho as (rel1 & Hrel & Hpho).
      apply store_get in Hrel. destruct Hrel as (Hrel1 & Hrel1' & _).
      inv_bind Hpho. rename x into lc. rename Hrd into Hlc.
      apply bind_Ok_inv in Hpho. destruct Hpho as (land1 & Hl & Hpho).
      apply store_get in Hl. destruct Hl as (Hland1 & Hland1' & _).
      inv_bind Hpho. rename x into sc. rename Hrd into Hsc.
      apply bind_Ok_inv in Hpho. destruct Hpho as (snow1 & Hs & Hpho).
      apply store_get in Hs. destruct Hs as (Hsnow1 & Hsnow1' & _).
      apply bind_Ok_inv in Hpho. destruct Hpho as (cls2 & Hab & Hpho).
      inversion Hpho; subst cls rel land snow; clear Hpho.
      apply above_classify_cases in Hab. destruct Hab as (Hab' & _ & Hab).
      assert (Hancp : Atl08Class.ancillary atl08 = true ->
                      H5Array.get anc p = Some (Some (atl08_segment_index v))).
      { intros Ha. rewrite Ha in Hanc. apply store_get in Hanc. apply Hanc. }
      assert (Hancq : forall q, q <> p ->
                H5Array.get anc q = H5Array.get (cv_anc_seg_indices v) q).
      { intros q Hq. destruct (Atl08Class.ancillary atl08).
        - apply store_get in Hanc. now apply Hanc.
        - now inversion Hanc. }
      split.
      * right. exists k. split; [split; [exact Hrow|split]|].
        -- exists flag. split; [exact Hflag|].
           destruct Hab as [Hsame|[Habove Htoc]].
           ++ left. apply cell_Some. now rewrite Hsame.
           ++ right. split; [now rewrite Habove|now apply cell_Some].
        -- intros _. exists h. split; [exact Hh|now apply cell_Some].
        -- intros _. exists (atl08_segment_index v). split; [now apply Hland|].
           split.
           ++ intros _. exists lc, sc.
              split; [exact Hlc|]. split; [now apply cell_Some|].
              split; [exact Hsc|now apply cell_Some].
           ++ intros Ha. rewrite Ha. apply cell_Some. now apply Hancp.
      * intros q Hq. rewrite Hab', Hcls1', Hrel1', Hland1', Hsnow1', Hancq by exact Hq.
        repeat split.
    + inversion Hpho; subst cls rel land snow; clear Hpho.
      assert (Hancp : Atl08Class.ancillary atl08 = true ->
                      H5Array.get anc p = Some (Some (atl08_segment_index v))).
      { intros Ha. rewrite Ha in Hanc. apply store_get in Hanc. apply Hanc. }
      assert (Hancq : forall q, q <> p ->
                H5Array.get anc q = H5Array.get (cv_anc_seg_indices v) q).
      { intros q Hq. destruct (Atl08Class.ancillary atl08).
        - apply store_get in Hanc. now apply Hanc.
        - now inversion Hanc. }
      split.
      * right. exists k. split; [split; [exact Hrow|split]|].
        -- exists flag. split; [exact Hflag|]. left. now apply cell_Some.
        -- discriminate.
        -- intros Hfl. exists (atl08_segment_index v).
           split; [apply Hland; exact Hfl|]. split; [discriminate|].
           intros Ha. rewrite Ha. apply cell_Some. now apply Hancp.
      * intros q Hq. rewrite Hcls1', Hancq by exact Hq. repeat split.
  - apply bind_Ok_inv in H. destruct H as (cls1 & Hst & H).
    apply store_get in Hst. destruct Hst as (Hcls1 & Hcls1' & _).
    apply bind_Ok_inv in H. destruct H as ([[rel land] snow] & Hpho & H).
    apply bind_Ok_inv in H. destruct H as (anc & Hanc & H).
    inversion H; subst v'; clear H.
    cbn [atl03_photon atl08_photon atl08_segment_index].
    split; [reflexivity|]. split; [lia|]. split; [reflexivity|].
    unfold photon_classified, photon_unmatched, same_cells, classify_result.
    cbn [Atl08Class.classification Atl08Class.relief Atl08Class.landcover
         Atl08Class.snowcover Atl08Class.anc_seg_indices Atl08Class.phoreal
         Atl08Class.ancillary cv_classification cv_relief cv_landcover
         cv_snowcover cv_anc_seg_indices].
    assert (Hancp : Atl08Class.ancillary atl08 = true ->
                    H5Array.get anc p = Some (Some INVALID_INDICE)).
    { intros Ha. rewrite Ha in Hanc. apply store_get in Hanc. apply Hanc. }
    assert (Hancq : forall q, q <> p ->
              H5Array.get anc q = H5Array.get (cv_anc_seg_indices v) q).
    { intros q Hq. destruct (Atl08Class.ancillary atl08).
      - apply store_get in Hanc. now apply Hanc.
      - now inversion Hanc. }
    destruct (Atl08Class.phoreal atl08) eqn:Hph.
    + apply bind_Ok_inv in Hpho. destruct Hpho as (rel1 & Hrel & Hpho).
      apply store_get in Hrel. destruct Hrel as (Hrel1 & Hrel1' & _).
      apply bind_Ok_inv in Hpho. destruct Hpho as (land1 & Hl & Hpho).
      apply store_get in Hl. destruct Hl as (Hland1 & Hland1' & _).
      apply bind_Ok_inv in Hpho. destruct Hpho as (snow1 & Hs & Hpho).
      apply store_get in Hs. destruct Hs as (Hsnow1 & Hsnow1' & _).
      inversion Hpho; subst rel land snow; clear Hpho.
      split.
      * left. split; [now apply cell_Some|]. split.
        -- intros _. repeat split; now apply cell_Some.
        -- intros Ha. rewrite Ha. apply cell_Some. now apply Hancp.
      * intros q Hq. rewrite Hcls1', Hrel1', Hland1', Hsnow1', Hancq by exact Hq.
        repeat split.
    + inversion Hpho; subst rel land snow; clear Hpho.
      split.
      * left. split; [now apply cell_Some|]. split; [discriminate|].
        intros Ha. rewrite Ha. apply cell_Some. now apply Hancp.
      * intros q Hq. rewrite Hcls1', Hancq by exact Hq. repeat split.
Qed.

Lemma classify_counts_sound (s seg : Z) (rest : nat) :
  forall c v v',
    0 <= atl08_photon v ->
    (Atl08Class.phoreal atl08 || Atl08Class.ancillary atl08 = true ->
     land_at atl03 atl08 s seg (atl08_segment_index v)) ->
    classify_counts info parms atl03 atl08 seg rest c v = Ok v' ->
    atl03_photon v' = atl03_photon v + Z.of_nat rest /\
    0 <= atl08_photon v' /\
    atl08_segment_index v' = atl08_segment_index v /\
    (forall i, 0 <= i < Z.of_nat rest ->
       photon_classified parms atl03 atl08 (classify_result atl08 v') s seg (c + i)
         (atl03_photon v + i)) /\
    (forall q, q < atl03_photon v -> same_cells v v' q).
Proof.
  induction rest as [|rest IH]; intros c v v' Hcur Hland H; simpl in H.
  - inversion H; subst v'. rewrite Z.add_0_r.
    repeat split; try assumption; intros; lia.
  - apply bind_Ok_inv in H. destruct H as (v1 & Hph & H).
    apply (classify_photon_sound s) in Hph; [|exact Hcur|exact Hland].
    destruct Hph as (Hp1 & Hc1 & Hi1 & Hjoin & Hother).
    apply IH in H; [|exact Hc1|rewrite Hi1; exact Hland].
    destruct H as (Hp2 & Hc2 & Hi2 & Hcells & Hbefore).
    split; [lia|]. split; [exact Hc2|]. split; [congruence|]. split.
    + intros i Hi. destruct (Z.eq_dec i 0) as [->|Hne].
      * rewrite !Z.add_0_r.
        apply (photon_classified_same _ _ _ _ _ _ v1); [|exact Hjoin].
        apply Hbefore. lia.
      * specialize (Hcells (i - 1) ltac:(lia)). rewrite Hp1 in Hcells.
        replace (atl03_photon v + 1 + (i - 1)) with (atl03_photon v + i) in Hcells by lia.
        replace (c + 1 + (i - 1)) with (c + i) in Hcells by lia.
        exact Hcells.
    + intros q Hq. apply (same_cells_trans v v1).
      * apply Hother. lia.
      * apply Hbefore. lia.
Qed.

Lemma land_behind_mono (index s s' : Z) :
  s <= s' -> land_behind atl03 atl08 index s -> land_behind atl03 atl08 index s'.
Proof.
  intros Hs [H0 H]. split; [exact H0|]. intros j beg Hj Hbeg.
  destruct (H j beg Hj Hbeg) as (s0 & seg0 & Hs0 & Hseg0 & Hle).
  exists s0, seg0. split; [lia|]. split; assumption.
Qed.

Lemma classify_segment_sound (region : Region) (s seg n : Z) (v v' : classify_vars) :
  0 <= s ->
  H5Array.get (Atl03Data.segment_id atl03) s = Some seg ->
  H5Array.get (segment_ph_cnt region) s = Some n ->
  0 <= atl08_photon v ->
  land_behind atl03 atl08 (atl08_segment_index v) (s - 1) ->
  classify_segment info parms region atl03 atl08 s v = Ok v' ->
  atl03_photon v' = atl03_photon v + Z.max 0 n /\
  0 <= atl08_photon v' /\
  land_behind atl03 atl08 (atl08_segment_index v') s /\
  (forall c, 1 <= c <= n ->
     photon_classified parms atl03 atl08 (classify_result atl08 v') s seg c
       (atl03_photon v + (c - 1))) /\
  (forall q, q < atl03_photon v -> same_cells v v' q).
Proof.
  intros Hs Hseg Hn Hcur Hland H. unfold classify_segment in H.
  inv_bind H. rewrite Hseg in Hrd. inversion Hrd; subst x; clear Hrd.
  apply bind_Ok_inv in H. destruct H as (index & Hindex & H).
  inv_bind H. rewrite Hn in Hrd. inversion Hrd; subst x; clear Hrd.
  assert (Hat : land_behind atl03 atl08 index s /\
                (Atl08Class.phoreal atl08 || Atl08Class.ancillary atl08 = true ->
                 land_at atl03 atl08 s seg index)).
  { destruct (Atl08Class.phoreal atl08 || Atl08Class.ancillary atl08).
    - destruct Hland as [H0 Hbehind].
      apply goto_land_segment_spec in Hindex; [|exact H0|reflexivity].
      destruct Hindex as (Hle & Hskip & Hstop).
      assert (Hb : land_behind atl03 atl08 index s).
      { split; [lia|]. intros j beg Hj Hbeg.
        destruct (Z_lt_dec j (atl08_segment_index v)) as [Hlt|Hge].
        - destruct (Hbehind j beg ltac:(lia) Hbeg) as (s0 & seg0 & Hs0 & Hseg0 & Hle0).
          exists s0, seg0. split; [lia|]. split; assumption.
        - exists s, seg. split; [lia|]. split; [exact Hseg|].
          apply (Hskip j beg); [lia|exact Hbeg]. }
      split; [exact Hb|]. intros _. split; [exact Hb|exact Hstop].
    - inversion Hindex; subst index. split; [|discriminate].
      apply (land_behind_mono _ (s - 1)); [lia|exact Hland]. }
  destruct Hat as (Hbehind & Hat).
  apply (classify_counts_sound s) in H;
    cbn [atl03_photon atl08_photon atl08_segment_index] in *;
    [|exact Hcur|exact Hat].
  destruct H as (Hp & Hc & Hi & Hcells & Hbefore).
  split; [lia|]. split; [exact Hc|]. split; [rewrite Hi; exact Hbehind|]. split.
  - intros c Hc'. specialize (Hcells (c - 1) ltac:(lia)).
    replace (1 + (c - 1)) with c in Hcells by lia. exact Hcells.
  - intros q Hq. specialize (Hbefore q Hq). exact Hbefore.
Qed.

Lemma classify_segments_sound (region : Region) (rest : nat) :
  forall s0 v v',
    0 <= s0 ->
    atl03_photon v = photon_index (segment_ph_cnt region) s0 1 ->
    0 <= atl08_photon v ->
    land_behind atl03 atl08 (atl08_segment_index v) (s0 - 1) ->
    classify_segments info parms region atl03 atl08 rest s0 v = Ok v' ->
    (forall s seg n c,
       s0 <= s < s0 + Z.of_nat rest ->
       H5Array.get (Atl03Data.segment_id atl03) s = Some seg ->
       H5Array.get (segment_ph_cnt region) s = Some n ->
       1 <= c <= n ->
       photon_classified parms atl03 atl08 (classify_result atl08 v') s seg c
         (photon_index (segment_ph_cnt region) s c)) /\
    (forall q, q < atl03_photon v -> same_cells v v' q).
Proof.
  induction rest as [|rest IH]; intros s0 v v' Hs0 Hp Hcur Hland H; simpl in H.
  - inversion H; subst v'. split; [intros; lia|]. intros. apply same_cells_refl.
  - apply bind_Ok_inv in H. destruct H as (v1 & Hseg & H).
    pose proof Hseg as Hseg0. unfold classify_segment in Hseg0.
    apply bind_Ok_inv in Hseg0. destruct Hseg0 as (seg0 & Hid0 & Hseg0).
    apply rd_Ok_inv in Hid0.
    apply bind_Ok_inv in Hseg0. destruct Hseg0 as (index & _ & Hseg0).
    apply bind_Ok_inv in Hseg0. destruct Hseg0 as (n0 & Hn0 & _).
    apply rd_Ok_inv in Hn0.
    apply (classify_segment_sound region s0 seg0 n0) in Hseg; try assumption.
    destruct Hseg as (Hp1 & Hc1 & Hb1 & Hcells & Hbefore1).
    apply IH in H; [|lia| |exact Hc1|].
    2:{ rewrite Hp1, Hp. symmetry. now apply photon_index_next. }
    2:{ replace (s0 + 1 - 1) with s0 by lia. exact Hb1. }
    destruct H as (Hlater & Hbefore2).
    split.
    + intros s seg n c Hs Hseg Hn Hc.
      destruct (Z.eq_dec s s0) as [->|Hne].
      * rewrite Hid0 in Hseg. inversion Hseg; subst seg0.
        rewrite Hn0 in Hn. inversion Hn; subst n0.
        replace (photon_index (segment_ph_cnt region) s0 c)
          with (atl03_photon v + (c - 1)) by (rewrite Hp; unfold photon_index; lia).
        apply (photon_classified_same _ _ _ _ _ _ v1); [|apply Hcells; exact Hc].
        apply Hbefore2. lia.
      * apply (Hlater s seg n c); try assumption. lia.
    + intros q Hq. apply (same_cells_trans v v1).
      * apply Hbefore1. exact Hq.
      * apply Hbefore2. lia.
Qed.

End Join_sound.

(** What [classify] leaves at every photon of the crop. *)
Lemma classify_sound (info : info_t) (parms : Icesat2Parms) (region : Region)
  (atl03 : Atl03Data.t) (atl08 atl08' : Atl08Class.t) :
  stage_atl08 parms = true ->
  classify info parms region atl03 atl08 = Ok atl08' ->
  forall s atl03_segment atl03_segment_count atl03_count,
    H5Array.get (Atl03Data.segment_id atl03) s = Some atl03_segment ->
    H5Array.get (segment_ph_cnt region) s = Some atl03_segment_count ->
    1 <= atl03_count <= atl03_segment_count ->
    photon_classified parms atl03 atl08 atl08' s atl03_segment atl03_count
      (photon_index (segment_ph_cnt region) s atl03_count).
Proof.
  intros Hstage H. unfold classify in H.
  rewrite Hstage in H. cbn [negb] in H.
  apply bind_Ok_inv in H. destruct H as (v & Hsegs & H).
  inversion H; subst atl08'; clear H.
  apply (classify_segments_sound info parms atl03 atl08) in Hsegs;
    cbn [atl03_photon atl08_photon atl08_segment_index]; try lia.
  - destruct Hsegs as [Hcells _].
    intros s seg n c Hseg Hn Hc.
    pose proof (get_Some _ _ _ Hseg) as Hs. unfold H5Array.size in Hs.
    exact (Hcells s seg n c ltac:(lia) Hseg Hn Hc).
  - reflexivity.
  - split; [lia|]. intros; lia.
Qed.

(** X15.  No class without a row.  [classify] completed with the ATL08 stage on,
    on ATL08 rows in any order.  ATL03 photon [atl03_count] of the segment at
    position [s] is then either unclassified, with class
    [ATL08_UNCLASSIFIED], relief 0.0, landcover and snowcover [INVALID_FLAG]
    and ancillary index [INVALID_INDICE] in the arrays that are allocated;
    or it was joined with an ATL08 row [k] whose segment id and photon index
    are those of the photon: its class is [(uint8_t)atl08_pc_flag[k]], or
    [ATL08_TOP_OF_CANOPY] when PhoREAL runs the ABoVE classifier, and its
    relief is [atl08_ph_h[k]], of the same row. *)
Theorem classify_rows_sound (info : info_t) (parms : Icesat2Parms)
  (region : Region) (atl03 : Atl03Data.t) (atl08 atl08' : Atl08Class.t)
  (s atl03_segment atl03_segment_count atl03_count : Z) :
  stage_atl08 parms = true ->
  classify info parms region atl03 atl08 = Ok atl08' ->
  H5Array.get (Atl03Data.segment_id atl03) s = Some atl03_segment ->
  H5Array.get (segment_ph_cnt region) s = Some atl03_segment_count ->
  1 <= atl03_count <= atl03_segment_count ->
  let p := photon_index (segment_ph_cnt region) s atl03_count in
  photon_unmatched atl08' p \/
  exists k, photon_matched parms atl08 atl08' atl03_segment atl03_count p k.
Proof.
  intros Hstage H Hseg Hn Hc p.
  destruct (classify_sound _ _ _ _ _ _ Hstage H _ _ _ _ Hseg Hn Hc) as [Hu|(k & Hm & _)].
  - left. exact Hu.
  - right. exists k. exact Hm.
Qed.

(** X16.  The land segment of a photon.  [classify] completed with the ATL08
    stage on and PhoREAL or ancillary fields requested, on ATL03 segment ids
    that increase.  A photon that is not unclassified takes its landcover
    and snowcover from [segment_landcover[index]] and
    [segment_snowcover[index]] and its ancillary index is [index], where
    [index] is the first land segment with [atl03_segment < segment_id_beg
    + NUM_ATL03_SEGS_IN_ATL08_SEG]: the segment may start after the photon's
    ATL03 segment, which is not checked. *)
Theorem classify_land_segment (info : info_t) (parms : Icesat2Parms)
  (region : Region) (atl03 : Atl03Data.t) (atl08 atl08' : Atl08Class.t)
  (s atl03_segment atl03_segment_count atl03_count : Z) :
  stage_atl08 parms = true ->
  Atl08Class.phoreal atl08 || Atl08Class.ancillary atl08 = true ->
  segments_increasing (Atl03Data.segment_id atl03) ->
  classify info parms region atl03 atl08 = Ok atl08' ->
  H5Array.get (Atl03Data.segment_id atl03) s = Some atl03_segment ->
  H5Array.get (segment_ph_cnt region) s = Some atl03_segment_count ->
  1 <= atl03_count <= atl03_segment_count ->
  let p := photon_index (segment_ph_cnt region) s atl03_count in
  photon_unmatched atl08' p \/
  exists index,
    first_land_segment atl08 atl03_segment index /\
    land_fields atl08 atl08' p index.
Proof.
  intros Hstage Hflag Hinc H Hseg Hn Hc p.
  destruct (classify_sound _ _ _ _ _ _ Hstage H _ _ _ _ Hseg Hn Hc) as [Hu|(k & _ & Hl)].
  - left. exact Hu.
  - right. destruct (Hl Hflag) as (index & ((H0 & Hbehind) & Hstop) & Hfields).
    exists index. split; [|exact Hfields].
    split; [exact H0|]. split; [|exact Hstop].
    intros j beg Hj Hbeg.
    destruct (Hbehind j beg Hj Hbeg) as (s' & seg' & Hs' & Hseg' & Hle).
    destruct (Z.eq_dec s' s) as [->|Hne].
    + rewrite Hseg in Hseg'. inversion Hseg'; subst. exact Hle.
    + pose proof (Hinc s' s seg' atl03_segment ltac:(lia) Hseg' Hseg). lia.
Qed.

(* ================================================================== *)
(** * The cells classify writes                                        *)
(* ================================================================== *)

Lemma classify_photon_writes info parms atl03 atl08 seg c v v' :
  classify_photon info parms atl03 atl08 seg c v = Ok v' ->
  atl03_photon v' = atl03_photon v + 1 /\
  0 <= atl03_photon v < H5Array.size (cv_classification v) /\
  H5Array.size (cv_classification v') = H5Array.size (cv_classification v) /\
  (forall q, q <> atl03_photon v ->
     H5Array.get (cv_classification v') q = H5Array.get (cv_classification v) q).
Proof.
  intros H. unfold classify_photon in H.
  apply bind_Ok_inv in H. destruct H as (k1 & _ & H).
  apply bind_Ok_inv in H. destruct H as (k & _ & H).
  apply bind_Ok_inv in H. destruct H as (matched & _ & H).
  destruct matched.
  - inv_bind H.
    apply bind_Ok_inv in H. destruct H as (cls1 & Hst & H).
    apply store_get in Hst. destruct Hst as (Hp & Hq & Hsize).
    pose proof (get_Some _ _ _ Hp) as Hrange. rewrite Hsize in Hrange.
    apply bind_Ok_inv in H. destruct H as ([[[cls rel] land] snow] & Hpho & H).
    apply bind_Ok_inv in H. destruct H as (anc & _ & H).
    inversion H; subst v'; clear H. cbn [atl03_photon cv_classification].
    split; [reflexivity|]. split; [exact Hrange|].
    destruct (Atl08Class.phoreal atl08).
    + inv_bind Hpho. apply bind_Ok_inv in Hpho. destruct Hpho as (? & _ & Hpho).
      inv_bind Hpho. apply bind_Ok_inv in Hpho. destruct Hpho as (? & _ & Hpho).
      inv_bind Hpho. apply bind_Ok_inv in Hpho. destruct Hpho as (? & _ & Hpho).
      apply bind_Ok_inv in Hpho. destruct Hpho as (cls2 & Hab & Hpho).
      inversion Hpho; subst; clear Hpho.
      apply above_classify_cases in Hab. destruct Hab as (Hq' & Hsize' & _).
      split; [congruence|]. intros q Hne. rewrite Hq' by exact Hne. now apply Hq.
    + inversion Hpho; subst; clear Hpho. split; [exact Hsize|exact Hq].
  - apply bind_Ok_inv in H. destruct H as (cls1 & Hst & H).
    apply store_get in Hst. destruct Hst as (Hp & Hq & Hsize).
    pose proof (get_Some _ _ _ Hp) as Hrange. rewrite Hsize in Hrange.
    apply bind_Ok_inv in H. destruct H as ([[rel land] snow] & _ & H).
    apply bind_Ok_inv in H. destruct H as (anc & _ & H).
    inversion H; subst v'; clear H. cbn [atl03_photon cv_classification].
    split; [reflexivity|]. split; [exact Hrange|]. split; [exact Hsize|exact Hq].
Qed.

Lemma classify_counts_writes info parms atl03 atl08 seg rest :
  forall c v v',
    classify_counts info parms atl03 atl08 seg rest c v = Ok v' ->
    atl03_photon v' = atl03_photon v + Z.of_nat rest /\
    (0 <= atl03_photon v <= H5Array.size (cv_classification v) ->
     0 <= atl03_photon v' <= H5Array.size (cv_classification v')) /\
    H5Array.size (cv_classification v') = H5Array.size (cv_classification v) /\
    (forall q, atl03_photon v' <= q ->
       H5Array.get (cv_classification v') q = H5Array.get (cv_classification v) q).
Proof.
  induction rest as [|rest IH]; intros c v v' H; simpl in H.
  - inversion H; subst v'. rewrite Z.add_0_r. repeat split; auto; lia.
  - apply bind_Ok_inv in H. destruct H as (v1 & Hph & H).
    apply classify_photon_writes in Hph. destruct Hph as (Hp1 & Hr1 & Hs1 & Hq1).
    apply IH in H. destruct H as (Hp2 & Hr2 & Hs2 & Hq2).
    split; [lia|]. split; [|split; [congruence|]].
    + intros _. apply Hr2. lia.
    + intros q Hq. rewrite Hq2 by exact Hq. apply Hq1. lia.
Qed.

Lemma classify_segments_writes info parms region atl03 atl08 rest :
  forall s0 v v',
    0 <= s0 ->
    atl03_photon v = photon_index (segment_ph_cnt region) s0 1 ->
    0 <= atl03_photon v <= H5Array.size (cv_classification v) ->
    classify_segments info parms region atl03 atl08 rest s0 v = Ok v' ->
    atl03_photon v' = photon_index (segment_ph_cnt region) (s0 + Z.of_nat rest) 1 /\
    atl03_photon v <= atl03_photon v' <= H5Array.size (cv_classification v') /\
    H5Array.size (cv_classification v') = H5Array.size (cv_classification v) /\
    (forall q, atl03_photon v' <= q ->
       H5Array.get (cv_classification v') q = H5Array.get (cv_classification v) q).
Proof.
  induction rest as [|rest IH]; intros s0 v v' Hs0 Hp Hr H; simpl in H.
  - inversion H; subst v'. rewrite Z.add_0_r. repeat split; auto; lia.
  - apply bind_Ok_inv in H. destruct H as (v1 & Hseg & H).
    unfold classify_segment in Hseg.
    apply bind_Ok_inv in Hseg. destruct Hseg as (seg0 & _ & Hseg).
    apply bind_Ok_inv in Hseg. destruct Hseg as (index & _ & Hseg).
    apply bind_Ok_inv in Hseg. destruct Hseg as (n0 & Hn0 & Hseg).
    apply rd_Ok_inv in Hn0.
    apply classify_counts_writes in Hseg.
    cbn [atl03_photon cv_classification] in Hseg.
    destruct Hseg as (Hp1 & Hr1 & Hs1 & Hq1). specialize (Hr1 Hr).
    assert (Hnext : atl03_photon v1 = photon_index (segment_ph_cnt region) (s0 + 1) 1).
    { rewrite (photon_index_next _ s0 n0) by assumption. lia. }
    apply IH in H; [|lia|exact Hnext|exact Hr1].
    destruct H as (Hp2 & Hr2 & Hs2 & Hq2).
    replace (s0 + Z.of_nat (S rest)) with (s0 + 1 + Z.of_nat rest) by lia.
    split; [exact Hp2|]. split; [lia|]. split; [congruence|].
    intros q Hq. rewrite Hq2 by exact Hq. apply Hq1. lia.
Qed.

(** X17.  The cells [classify] writes.  With the ATL08 stage off [classify]
    leaves [Atl08Class] as it is, with no array allocated by it.  With the
    stage on, [classification] has one cell per photon of [dist_ph_along];
    [relief], [landcover] and [snowcover] are allocated exactly when PhoREAL
    is on and [anc_seg_indices] exactly when ancillary fields are asked for;
    the photons counted by [segment_ph_cnt] over the segments of
    [segment_id] fit in the array, and no cell after them is written. *)
Theorem classify_writes_counted (info : info_t) (parms : Icesat2Parms)
  (region : Region) (atl03 : Atl03Data.t) (atl08 atl08' : Atl08Class.t) :
  classify info parms region atl03 atl08 = Ok atl08' ->
  (stage_atl08 parms = false -> atl08' = atl08) /\
  (stage_atl08 parms = true ->
   let counted :=
     photon_index (segment_ph_cnt region)
       (H5Array.size (Atl03Data.segment_id atl03)) 1 in
   (exists classification,
      Atl08Class.classification atl08' = Some classification /\
      H5Array.size classification = H5Array.size (Atl03Data.dist_ph_along atl03) /\
      counted <= H5Array.size classification /\
      forall q, counted <= q -> cell (Some classification) q = None) /\
   (Atl08Class.relief atl08' <> None <-> Atl08Class.phoreal atl08 = true) /\
   (Atl08Class.landcover atl08' <> None <-> Atl08Class.phoreal atl08 = true) /\
   (Atl08Class.snowcover atl08' <> None <-> Atl08Class.phoreal atl08 = true) /\
   (Atl08Class.anc_seg_indices atl08' <> None <-> Atl08Class.ancillary atl08 = true)).
Proof.
  intros H. unfold classify in H. split.
  - intros Hoff. rewrite Hoff in H. cbn [negb] in H. now inversion H.
  - intros Hon counted. rewrite Hon in H. cbn [negb] in H.
    apply bind_Ok_inv in H. destruct H as (v & Hsegs & H).
    inversion H; subst atl08'; clear H.
    cbn [Atl08Class.classification Atl08Class.relief Atl08Class.landcover
         Atl08Class.snowcover Atl08Class.anc_seg_indices].
    assert (Hnew : H5Array.size
                     (@new_cells Z (H5Array.size (Atl03Data.dist_ph_along atl03)))
                   = H5Array.size (Atl03Data.dist_ph_along atl03)).
    { unfold new_cells, H5Array.size. rewrite repeat_length. lia. }
    apply classify_segments_writes in Hsegs;
      cbn [atl03_photon cv_classification]; [|lia|reflexivity|].
    2:{ rewrite Hnew. unfold H5Array.size. lia. }
    destruct Hsegs as (Hp & Hr & Hsize & Hq).
    assert (Hcounted : atl03_photon v = counted).
    { rewrite Hp. unfold counted, H5Array.size. f_equal. }
    split.
    + exists (cv_classification v). split; [reflexivity|].
      split; [rewrite Hsize; exact Hnew|]. split; [lia|].
      intros q Hle. unfold cell. rewrite Hq by lia.
      destruct (H5Array.get _ q) as [x|] eqn:E; [|reflexivity].
      unfold new_cells, H5Array.get in E. destruct (q <? 0); [discriminate|].
      apply nth_error_In, repeat_spec in E. now subst x.
    + destruct (Atl08Class.phoreal atl08), (Atl08Class.ancillary atl08);
        repeat split; intros; congruence.
Qed.

(* ================================================================== *)
(** * The threads the constructor starts                               *)
(* ================================================================== *)

Lemma info_eq (info : info_t) (t p : Z) :
  {| track := t; pair := p |} = info <-> track info = t /\ pair info = p.
Proof.
  destruct info as [t' p']. cbn. split.
  - intros H. inversion H. auto.
  - intros [-> ->]. reflexivity.
Qed.

Lemma In_create_pairs parms_track t rest :
  forall p0 info,
    In info (create_pairs parms_track t rest p0) <->
    track info = t /\ p0 <= pair info < p0 + Z.of_nat rest /\
    (parms_track = ALL_TRACKS \/ t = parms_track).
Proof.
  induction rest as [|rest IH]; intros p0 info; cbn [create_pairs].
  - split; [intros []|lia].
  - rewrite in_app_iff, IH.
    destruct (Z.eqb_spec parms_track ALL_TRACKS) as [Ha|Ha];
      [|destruct (Z.eqb_spec t parms_track) as [Ht|Ht]]; cbn [orb In];
      rewrite ?info_eq; lia.
Qed.

Lemma In_create_tracks parms_track rest :
  forall t0 info,
    In info (create_tracks parms_track rest t0) <->
    t0 <= track info < t0 + Z.of_nat rest /\ 0 <= pair info < NUM_PAIR_TRACKS /\
    (parms_track = ALL_TRACKS \/ track info = parms_track).
Proof.
  induction rest as [|rest IH]; intros t0 info; cbn [create_tracks].
  - split; [intros []|lia].
  - rewrite in_app_iff, IH, In_create_pairs. lia.
Qed.

Lemma beams_in_order_app (l1 l2 : list info_t) :
  beams_in_order l1 -> beams_in_order l2 ->
  (forall a b, In a l1 -> In b l2 -> beam_before a b) ->
  beams_in_order (l1 ++ l2).
Proof.
  intros H1 H2 H i j a b Hij Hi Hj.
  destruct (Nat.lt_ge_cases j (length l1)) as [Hj1|Hj1].
  - rewrite nth_error_app1 in Hi, Hj by lia. exact (H1 i j a b Hij Hi Hj).
  - rewrite nth_error_app2 in Hj by lia.
    destruct (Nat.lt_ge_cases i (length l1)) as [Hi1|Hi1].
    + rewrite nth_error_app1 in Hi by lia.
      apply H; eapply nth_error_In; eassumption.
    + rewrite nth_error_app2 in Hi by lia.
      apply (H2 (i - length l1)%nat (j - length l1)%nat); [lia|assumption..].
Qed.

Lemma beams_in_order_short (l : list info_t) :
  (length l <= 1)%nat -> beams_in_order l.
Proof.
  intros Hl i j a b Hij _ Hj.
  assert (nth_error l j <> None) as Hn by congruence.
  apply nth_error_Some in Hn. lia.
Qed.

Lemma create_pairs_sorted parms_track t rest :
  forall p0, beams_in_order (create_pairs parms_track t rest p0).
Proof.
  induction rest as [|rest IH]; intros p0; cbn [create_pairs].
  - apply beams_in_order_short. cbn. lia.
  - apply beams_in_order_app; [|apply IH|].
    + apply beams_in_order_short. destruct (_ || _); cbn; lia.
    + intros a b Ha Hb. apply In_create_pairs in Hb.
      destruct (_ || _); [|destruct Ha].
      destruct Ha as [<-|[]]. right. cbn. lia.
Qed.

Lemma create_tracks_sorted parms_track rest :
  forall t0, beams_in_order (create_tracks parms_track rest t0).
Proof.
  induction rest as [|rest IH]; intros t0; cbn [create_tracks].
  - apply beams_in_order_short. cbn. lia.
  - apply beams_in_order_app; [apply create_pairs_sorted|apply IH|].
    intros a b Ha Hb. apply In_create_pairs in Ha. apply In_create_tracks in Hb.
    left. lia.
Qed.

Lemma create_pairs_length parms_track t rest p0 :
  length (create_pairs parms_track t rest p0)
  = if (parms_track =? ALL_TRACKS) || (t =? parms_track) then rest else 0%nat.
Proof.
  revert p0. induction rest as [|rest IH]; intros p0; cbn [create_pairs].
  - now destruct (_ || _).
  - rewrite length_app, IH. now destruct (_ || _).
Qed.

Lemma create_tracks_length parms_track rest :
  forall t0,
    Z.of_nat (length (create_tracks parms_track rest t0))
    = if parms_track =? ALL_TRACKS
      then Z.of_nat rest * Z.max 0 NUM_PAIR_TRACKS
      else if (t0 <=? parms_track) && (parms_track <? t0 + Z.of_nat rest)
           then Z.max 0 NUM_PAIR_TRACKS
           else 0.
Proof.
  induction rest as [|rest IH]; intros t0; cbn [create_tracks].
  - cbn. destruct (parms_track =? ALL_TRACKS); [reflexivity|].
    destruct (Z.leb_spec t0 parms_track), (Z.ltb_spec parms_track (t0 + 0));
      cbn; lia.
  - rewrite length_app, Nat2Z.inj_add, IH, create_pairs_length.
    destruct (Z.eqb_spec parms_track ALL_TRACKS); cbn [orb]; [nia|].
    destruct (Z.eqb_spec t0 parms_track), (Z.leb_spec t0 parms_track),
      (Z.leb_spec (t0 + 1) parms_track),
      (Z.ltb_spec parms_track (t0 + Z.of_nat (S rest))),
      (Z.ltb_spec parms_track (t0 + 1 + Z.of_nat rest)); cbn [andb]; lia.
Qed.

(** X18.  The beams that get a reader.  The constructor starts a thread for beam
    [(track, pair)] exactly when [1 <= track <= NUM_TRACKS],
    [0 <= pair < NUM_PAIR_TRACKS] and the request asks for all tracks or
    for this one, in the order of track and then pair: all
    [NUM_TRACKS * NUM_PAIR_TRACKS] beams for [ALL_TRACKS], the
    [NUM_PAIR_TRACKS] beams of the track for a track in [1 .. NUM_TRACKS],
    and none for any other value. *)
Theorem create_readers_beams (parms_track : Z) :
  let threads := create_readers parms_track in
  (forall info,
     In info threads <->
     1 <= track info <= NUM_TRACKS /\ 0 <= pair info < NUM_PAIR_TRACKS /\
     (parms_track = ALL_TRACKS \/ track info = parms_track)) /\
  beams_in_order threads /\
  Z.of_nat (length threads)
  = if parms_track =? ALL_TRACKS
    then Z.max 0 NUM_TRACKS * Z.max 0 NUM_PAIR_TRACKS
    else if (1 <=? parms_track) && (parms_track <=? NUM_TRACKS)
         then Z.max 0 NUM_PAIR_TRACKS
         else 0.
Proof.
  unfold create_readers. cbv zeta. split; [|split].
  - intros info. rewrite In_create_tracks. lia.
  - apply create_tracks_sorted.
  - rewrite create_tracks_length.
    destruct (parms_track =? ALL_TRACKS); [lia|].
    destruct (Z.leb_spec 1 parms_track), (Z.leb_spec parms_track NUM_TRACKS),
      (Z.ltb_spec parms_track (1 + Z.of_nat (Z.to_nat NUM_TRACKS)));
      cbn [andb]; lia.
Qed.

Lemma parseResource_outcome (_resource : String.string) :
  (exists globals, parseResource _resource = Ok globals) \/
  (exists text, parseResource _resource = Throw (mkRTE CRITICAL RTE_ERROR text)).
Proof.
  unfold parseResource.
  destruct (Z.ltb_spec (StringLib.size _resource) 29); [left; eauto|].
  pose proof (size_le_length _resource) as Hsz.
  assert (Hget : forall n, (n < 29)%nat -> exists c, String.get n _resource = Some c).
  { intros n Hn. apply string_get_in_range. lia. }
  destruct (Hget 21%nat ltac:(lia)) as (c21 & ->).
  destruct (Hget 22%nat ltac:(lia)) as (c22 & ->).
  destruct (Hget 23%nat ltac:(lia)) as (c23 & ->).
  destruct (Hget 24%nat ltac:(lia)) as (c24 & ->).
  destruct (Hget 25%nat ltac:(lia)) as (c25 & ->).
  destruct (Hget 26%nat ltac:(lia)) as (c26 & ->).
  destruct (Hget 27%nat ltac:(lia)) as (c27 & ->).
  destruct (Hget 28%nat ltac:(lia)) as (c28 & ->).
  cbn [rd bind].
  destruct (StringLib.str2long _); [|right; eauto]. cbn [rd bind].
  destruct (StringLib.str2long _); [|right; eauto]. cbn [rd bind].
  destruct (StringLib.str2long _); [|right; eauto].
  left. eauto.
Qed.

(** X19.  How the constructor ends.  For a resource name of four characters or
    more the constructor returns, and either it started at least one thread,
    posted nothing and left the reader running; or it started none, and then
    it posted one exception record, with the code
    [RTE_RESOURCE_DOES_NOT_EXIST] and the level [CRITICAL] whether the name
    failed to parse or the track is invalid, followed by the terminator
    exactly when [_send_terminator] is set, and signalled completion.  It
    starts no thread exactly when [parseResource] throws or no beam is
    selected. *)
Theorem constructor_outcome (_resource : String.string) (parms_track : Z)
  (_send_terminator : bool) :
  4 <= StringLib.size _resource ->
  exists reader,
    Atl03Reader_new _resource parms_track _send_terminator = Ok reader /\
    (c_threads reader = [] <->
     (exists e, parseResource _resource = Throw e) \/
     create_readers parms_track = []) /\
    (c_threads reader <> [] ->
     c_threads reader = create_readers parms_track /\
     c_outq reader = [] /\ c_complete reader = false) /\
    (c_threads reader = [] ->
     exists f,
       c_outq reader
       = exception_status RTE_RESOURCE_DOES_NOT_EXIST CRITICAL f
         :: (if _send_terminator then [terminator] else []) /\
       c_complete reader = true).
Proof.
  intros Hlen. unfold Atl03Reader_new.
  assert (Hcopy : exists resource08, atl08_resource _resource = Ok resource08).
  { unfold atl08_resource.
    destruct (Z.ltb_spec 4 (StringLib.size _resource)); [eauto|].
    destruct (Z.eqb_spec 4 (StringLib.size _resource)); [eauto|lia]. }
  destruct Hcopy as (resource08 & ->). cbn [bind].
  destruct (parseResource_outcome _resource) as [([[rgt cycle] region] & ->)|(text & ->)].
  - destruct (create_readers parms_track) as [|info threads] eqn:E; cbn [length].
    + eexists. split; [reflexivity|]. cbn. split; [|split].
      * split; [intros _; now right|reflexivity].
      * intros Hne. now contradiction Hne.
      * intros _. exists (no_reader_threads parms_track). split; reflexivity.
    + change (Z.of_nat (S (length threads)) =? 0) with false.
      eexists. split; [reflexivity|]. cbn. split; [|split].
      * split; [discriminate|]. intros [(e & He)|He]; discriminate.
      * intros _. repeat split.
      * discriminate.
  - eexists. split; [reflexivity|]. cbn. split; [|split].
    + split; [intros _; left; eauto|reflexivity].
    + intros Hne. now contradiction Hne.
    + intros _. exists (global_information (mkRTE CRITICAL RTE_ERROR text)).
      split; reflexivity.
Qed.

(* ================================================================== *)
(** * One terminator, after every record                               *)
(* ================================================================== *)

Lemma filter_remove_length (w : nat) (running : list nat) :
  NoDup running ->
  existsb (Nat.eqb w) running = true ->
  S (length (filter (fun x => negb (Nat.eqb w x)) running)) = length running.
Proof.
  induction running as [|x running IH]; intros Hnd Hin; [discriminate|].
  inversion Hnd as [|? ? Hx Hnd']; subst. cbn [existsb filter] in *.
  destruct (Nat.eqb_spec w x) as [->|Hne]; cbn [negb orb] in *.
  - f_equal. clear IH Hnd Hin. induction running as [|y running IH]; [reflexivity|].
    inversion Hnd'; subst. cbn [filter].
    destruct (Nat.eqb_spec x y) as [->|Hne]; cbn [negb].
    + exfalso. apply Hx. now left.
    + cbn. f_equal. apply IH; [|assumption]. intros Hin. apply Hx. now right.
  - cbn [length]. f_equal. now apply IH.
Qed.

Lemma filter_NoDup {A} (f : A -> bool) (l : list A) : NoDup l -> NoDup (filter f l).
Proof.
  induction 1 as [|x l Hx Hnd IH]; cbn; [constructor|].
  destruct (f x); [|exact IH]. constructor; [|exact IH].
  intros Hin. apply filter_In in Hin. now apply Hx.
Qed.

Lemma run_workers_inv (sendTerminator : bool) (schedule : list (nat * worker_event)) :
  forall running r r',
    NoDup running ->
    numComplete r + Z.of_nat (length running) = threadCount r ->
    run_workers sendTerminator schedule running r = Some r' ->
    match running with
    | [] => r' = r /\ schedule = []
    | _ :: _ =>
        outQ r' = outQ r ++ worker_messages schedule
                    ++ (if sendTerminator then [msg_terminator] else []) /\
        signalled r' = signalled r + 1 /\
        numComplete r' = threadCount r /\
        threadCount r' = threadCount r
    end.
Proof.
  induction schedule as [|[w ev] schedule IH]; intros running r r' Hnd Hcount H;
    cbn [run_workers] in H.
  - destruct running; [|discriminate]. inversion H. auto.
  - destruct (existsb (Nat.eqb w) running) eqn:Hw; [|discriminate].
    destruct running as [|x running]; [discriminate|].
    destruct ev as [m|].
    + apply IH in H; [|exact Hnd|exact Hcount].
      cbn [worker_posts outQ signalled threadCount numComplete worker_messages] in *.
      destruct H as (Hq & Hs & Hn & Ht). rewrite Hq, <- !app_assoc. cbn. auto.
    + pose proof (filter_remove_length w _ Hnd Hw) as Hlen.
      set (running' := filter (fun w0 => negb (Nat.eqb w w0)) (x :: running)) in *.
      assert (Hcount' : numComplete (worker_completes sendTerminator r)
                        + Z.of_nat (length running')
                        = threadCount (worker_completes sendTerminator r)).
      { pose proof Hcount as Hc. rewrite <- Hlen in Hc.
        unfold worker_completes.
        destruct (_ =? _); cbn [threadCount numComplete]; lia. }
      apply IH in H; [|apply filter_NoDup; exact Hnd|exact Hcount'].
      cbn [worker_messages].
      destruct running' as [|y running'].
      * destruct H as [-> ->]. cbn [length] in Hlen, Hcount.
        unfold worker_completes.
        destruct (Z.eqb_spec (numComplete r + 1) (threadCount r)) as [He|Hne]; [|lia].
        cbn. auto.
      * unfold worker_completes in H. cbn [length] in Hlen, Hcount.
        destruct (Z.eqb_spec (numComplete r + 1) (threadCount r)) as [He|_]; [lia|].
        cbn [outQ signalled threadCount numComplete] in H. exact H.
Qed.

(** X20.  The stream ends once.  The workers of a reader, [threadCount] of them
    and all created before the first one ends, post their records and end in
    any interleaving.  When the last has ended, [outQ] holds the records in
    the order they were posted and then, if [sendTerminator] is set, the
    terminator, which is posted once, by the worker that ends last;
    [signalComplete] was called once. *)
Theorem terminator_after_records (sendTerminator : bool)
  (schedule : list (nat * worker_event)) (workers : list nat)
  (r r' : completion) :
  NoDup workers ->
  workers <> [] ->
  threadCount r = Z.of_nat (length workers) ->
  numComplete r = 0 ->
  run_workers sendTerminator schedule workers r = Some r' ->
  outQ r' = outQ r ++ worker_messages schedule
              ++ (if sendTerminator then [msg_terminator] else []) /\
  signalled r' = signalled r + 1 /\
  numComplete r' = threadCount r'.
Proof.
  intros Hnd Hne Hcount H0 H.
  apply run_workers_inv in H; [|exact Hnd|lia].
  destruct workers; [now contradiction Hne|].
  destruct H as (Hq & Hs & Hn & Ht). rewrite Ht. auto.
Qed.

(* ================================================================== *)
(** * A record is counted once                                         *)
(* ================================================================== *)

Lemma post_loop_counts (attempts : list post_attempt) :
  forall bumps,
    STATE_TIMEOUT <= 0 ->
    post_loop attempts STATE_TIMEOUT = Some bumps ->
    exists retries final,
      bumps = repeat extents_retried retries ++ [final] /\
      (forall i, (i < retries)%nat ->
         nth_error attempts i = Some (post_returns STATE_TIMEOUT)) /\
      ((final = extents_sent /\
        exists status,
          nth_error attempts retries = Some (post_returns status) /\ 0 < status) \/
       (final = extents_dropped /\
        (nth_error attempts retries = Some reader_inactive \/
         exists status,
           nth_error attempts retries = Some (post_returns status) /\
           status <= 0 /\ status <> STATE_TIMEOUT))).
Proof.
  induction attempts as [|attempt attempts IH]; intros bumps Hto H; cbn [post_loop] in H.
  - discriminate.
  - destruct attempt as [|status].
    + inversion H; subst bumps. exists 0%nat, extents_dropped.
      split; [|split; [intros; lia|]].
      * unfold count_post. destruct (Z.ltb_spec 0 STATE_TIMEOUT); [lia|reflexivity].
      * right. split; [reflexivity|]. now left.
    + destruct (Z.eqb_spec status STATE_TIMEOUT) as [->|Hne].
      * destruct (post_loop attempts STATE_TIMEOUT) as [bumps'|] eqn:E; [|discriminate].
        inversion H; subst bumps.
        destruct (IH bumps' Hto eq_refl) as (retries & final & -> & Hretried & Hfinal).
        exists (S retries), final. split; [reflexivity|]. split; [|exact Hfinal].
        intros [|i] Hi; [reflexivity|]. apply Hretried. lia.
      * inversion H; subst bumps. exists 0%nat, (count_post status).
        split; [reflexivity|]. split; [intros; lia|].
        unfold count_post. destruct (Z.ltb_spec 0 status).
        -- left. split; [reflexivity|]. exists status. split; [reflexivity|lia].
        -- right. split; [reflexivity|]. right. exists status.
           split; [reflexivity|]. split; [lia|exact Hne].
Qed.

(** X21.  A record is counted once.  With [STATE_TIMEOUT <= 0], a call of
    [postRecord] that returns incremented [extents_retried] once for every
    attempt that timed out, and then exactly one of [extents_sent] and
    [extents_dropped]: [extents_sent] when the attempt after the timeouts
    returned a status above 0, [extents_dropped] when that attempt returned
    another status or the reader was no longer active, in which case the
    record was not posted again. *)
Theorem postRecord_counts_once (attempts : list post_attempt)
  (bumps : list stats_bump) :
  STATE_TIMEOUT <= 0 ->
  postRecord attempts = Some bumps ->
  exists retries final,
    bumps = repeat extents_retried retries ++ [final] /\
    (forall i, (i < retries)%nat ->
       nth_error attempts i = Some (post_returns STATE_TIMEOUT)) /\
    ((final = extents_sent /\
      exists status,
        nth_error attempts retries = Some (post_returns status) /\ 0 < status) \/
     (final = extents_dropped /\
      (nth_error attempts retries = Some reader_inactive \/
       exists status,
         nth_error attempts retries = Some (post_returns status) /\
         status <= 0 /\ status <> STATE_TIMEOUT))).
Proof. intros Hto H. exact (post_loop_counts attempts bumps Hto H). Qed.

(* ================================================================== *)
(** * The bytes of an ancillary record                                 *)
(* ================================================================== *)

Lemma array_set_app {A} (pre post : list A) (x v : A) :
  array_set (pre ++ x :: post) (length pre) v = pre ++ v :: post.
Proof. induction pre as [|y pre IH]; cbn; [reflexivity|]. now rewrite IH. Qed.

Lemma store_app {A} (pre post : cells A) (x : option A) (v : A) :
  store (pre ++ x :: post) (Z.of_nat (length pre)) v = Ok (pre ++ Some v :: post).
Proof.
  unfold store, H5Array.size. rewrite length_app. cbn [length].
  destruct (Z.leb_spec 0 (Z.of_nat (length pre))); [|lia].
  destruct (Z.ltb_spec (Z.of_nat (length pre))
              (Z.of_nat (length pre + S (length post)))); [|lia].
  cbn [andb]. rewrite Nat2Z.id, array_set_app. reflexivity.
Qed.

Lemma write_element_app (bytes : list Z) :
  forall pre post : cells Z,
    (length bytes <= length post)%nat ->
    write_element (pre ++ post) bytes (Z.of_nat (length pre))
    = Ok (pre ++ map Some bytes ++ skipn (length bytes) post).
Proof.
  induction bytes as [|b bytes IH]; intros pre post Hlen; cbn [write_element].
  - reflexivity.
  - destruct post as [|x post]; [cbn in Hlen; lia|].
    rewrite store_app. cbn [bind].
    replace (pre ++ Some b :: post) with ((pre ++ [Some b]) ++ post)
      by (rewrite <- app_assoc; reflexivity).
    replace (Z.of_nat (length pre) + 1) with (Z.of_nat (length (pre ++ [Some b])))
      by (rewrite length_app; cbn; lia).
    rewrite IH by (cbn in Hlen; lia). rewrite <- app_assoc. reflexivity.
Qed.

Lemma fill_invalid_app (rest : nat) :
  forall pre post : cells Z,
    (rest <= length post)%nat ->
    fill_invalid (pre ++ post) rest (Z.of_nat (length pre))
    = Ok (pre ++ repeat (Some 255) rest ++ skipn rest post,
          Z.of_nat (length pre) + Z.of_nat rest).
Proof.
  induction rest as [|rest IH]; intros pre post Hlen; cbn [fill_invalid].
  - cbn. now rewrite Z.add_0_r.
  - destruct post as [|x post]; [cbn in Hlen; lia|].
    rewrite store_app. cbn [bind].
    replace (pre ++ Some 255 :: post) with ((pre ++ [Some 255]) ++ post)
      by (rewrite <- app_assoc; reflexivity).
    replace (Z.of_nat (length pre) + 1) with (Z.of_nat (length (pre ++ [Some 255])))
      by (rewrite length_app; cbn; lia).
    rewrite IH by (cbn in Hlen; lia). rewrite <- app_assoc, length_app.
    cbn. do 2 f_equal. lia.
Qed.

Section Ancillary_layout.

Variables (elementSize : Z) (serialize : Z -> outcome (list Z)).

Hypothesis size_nonneg : 0 <= elementSize.

(** [serialize(buffer, index, 1)] writes [elementSize] bytes. *)
Let serialized (index : Z) : Prop :=
  exists bytes, serialize index = Ok bytes /\ Z.of_nat (length bytes) = elementSize.

(** The bytes [generateAncillaryRecords] writes for one index. *)
Let encode (index : Z) : list (option Z) :=
  if index =? INVALID_INDICE
  then repeat (Some 255) (Z.to_nat elementSize)
  else match serialize index with
       | Ok bytes => map Some bytes
       | _ => []
       end.

Lemma populate_ancillary_app (indices : list Z) :
  forall pre post : cells Z,
    (forall index, In index indices -> index <> INVALID_INDICE -> serialized index) ->
    elementSize * Z.of_nat (length indices) <= Z.of_nat (length post) ->
    populate_ancillary elementSize serialize indices (pre ++ post)
      (Z.of_nat (length pre))
    = Ok (pre ++ flat_map encode indices
            ++ skipn (Z.to_nat (elementSize * Z.of_nat (length indices))) post,
          Z.of_nat (length pre) + elementSize * Z.of_nat (length indices)).
Proof using Type + size_nonneg.
  induction indices as [|index indices IH]; intros pre post Hser Hlen;
    cbn [populate_ancillary flat_map length].
  - rewrite Z.mul_0_r. cbn. now rewrite Z.add_0_r.
  - assert (Hrest : forall index', In index' indices -> index' <> INVALID_INDICE ->
              serialized index').
    { intros index' Hin. apply Hser. now right. }
    assert (Henc : Z.of_nat (length (encode index)) = elementSize).
    { unfold encode. destruct (Z.eqb_spec index INVALID_INDICE) as [He|Hne].
      - rewrite repeat_length. lia.
      - destruct (Hser index ltac:(now left) Hne) as (bytes & -> & Hb).
        rewrite length_map. exact Hb. }
    cbn [length] in Hlen. rewrite Nat2Z.inj_succ in Hlen |- *.
    assert (Hes : elementSize <= Z.of_nat (length post))
      by (pose proof (Nat2Z.is_nonneg (length indices)); nia).
    assert (Hstep :
      (if negb (index =? INVALID_INDICE) then
         bytes <- serialize index ;;
         data' <- write_element (pre ++ post) bytes (Z.of_nat (length pre)) ;;
         Ok (data', Z.of_nat (length pre) + Z.of_nat (length bytes))
       else fill_invalid (pre ++ post) (Z.to_nat elementSize) (Z.of_nat (length pre)))
      = Ok (pre ++ encode index ++ skipn (Z.to_nat elementSize) post,
            Z.of_nat (length pre) + elementSize)).
    { unfold encode in *. destruct (Z.eqb_spec index INVALID_INDICE) as [He|Hne];
        cbn [negb].
      - rewrite fill_invalid_app by lia. do 2 f_equal. lia.
      - destruct (Hser index ltac:(now left) Hne) as (bytes & Hbytes & Hb).
        rewrite Hbytes in Henc |- *. cbn [bind].
        rewrite write_element_app by lia. cbn [bind].
        rewrite Hb. do 4 f_equal. f_equal. lia. }
    rewrite Hstep. cbn [bind].
    replace (pre ++ encode index ++ skipn (Z.to_nat elementSize) post)
      with ((pre ++ encode index) ++ skipn (Z.to_nat elementSize) post)
      by (rewrite <- app_assoc; reflexivity).
    replace (Z.of_nat (length pre) + elementSize)
      with (Z.of_nat (length (pre ++ encode index)))
      by (rewrite length_app; lia).
    rewrite IH; [|exact Hrest|rewrite length_skipn; nia].
    rewrite <- !app_assoc, skipn_skipn, length_app.
    pose proof (Nat2Z.is_nonneg (length indices)).
    assert (E1 : (Z.to_nat (elementSize * Z.of_nat (length indices))
                  + Z.to_nat elementSize)%nat
                 = Z.to_nat (elementSize * Z.succ (Z.of_nat (length indices))))
      by nia.
    assert (E2 : Z.of_nat (length pre + length (encode index))
                 + elementSize * Z.of_nat (length indices)
                 = Z.of_nat (length pre)
                   + elementSize * Z.succ (Z.of_nat (length indices)))
      by nia.
    rewrite E1, E2. reflexivity.
Qed.

Lemma encode_chunks (indices : list Z) :
  (forall index, In index indices -> Z.of_nat (length (encode index)) = elementSize) ->
  forall p index,
    nth_error indices p = Some index ->
    slice (flat_map encode indices) (Z.of_nat p * elementSize) elementSize
    = encode index.
Proof using Type + size_nonneg.
  induction indices as [|i0 indices IH]; intros Hlen p index Hp.
  - destruct p; discriminate.
  - cbn [flat_map]. pose proof (Hlen i0 ltac:(now left)) as H0.
    destruct p as [|p]; cbn [nth_error] in Hp.
    + inversion Hp; subst i0. unfold slice. cbn [Z.of_nat Z.mul Z.to_nat skipn].
      rewrite firstn_app.
      replace (Z.to_nat elementSize - length (encode index))%nat with 0%nat by lia.
      rewrite firstn_all2 by lia. cbn. now rewrite app_nil_r.
    + unfold slice in *.
      replace (Z.to_nat (Z.of_nat (S p) * elementSize))
        with (length (encode i0) + Z.to_nat (Z.of_nat p * elementSize))%nat by nia.
      rewrite skipn_app, skipn_all2 by lia.
      replace (length (encode i0) + Z.to_nat (Z.of_nat p * elementSize)
               - length (encode i0))%nat
        with (Z.to_nat (Z.of_nat p * elementSize)) by lia.
      cbn [app]. apply IH; [|exact Hp]. intros i Hi. apply Hlen. now right.
Qed.

Lemma ancillary_record_bytes (indices : list Z) :
  (forall index, In index indices -> index <> INVALID_INDICE -> serialized index) ->
  exists data,
    ancillary_record elementSize serialize indices
      = Ok (Z.of_nat (length indices), data) /\
    H5Array.size data = elementSize * Z.of_nat (length indices) /\
    forall p index,
      nth_error indices p = Some index ->
      element_bytes elementSize data (Z.of_nat p) = encode index.
Proof using Type + size_nonneg.
  intros Hser. unfold ancillary_record.
  pose proof (populate_ancillary_app indices []
                (new_cells (elementSize * Z.of_nat (length indices))) Hser) as H.
  cbn [app length Z.of_nat] in H. rewrite Z.add_0_l in H.
  rewrite H by (unfold new_cells; rewrite repeat_length; nia).
  cbn [bind]. eexists. split; [reflexivity|].
  assert (Henc : forall index, In index indices ->
            Z.of_nat (length (encode index)) = elementSize).
  { intros index Hin. unfold encode.
    destruct (Z.eqb_spec index INVALID_INDICE) as [He|Hne].
    - rewrite repeat_length. lia.
    - destruct (Hser index Hin Hne) as (bytes & -> & Hb).
      rewrite length_map. exact Hb. }
  assert (Hall : skipn (Z.to_nat (elementSize * Z.of_nat (length indices)))
                   (@new_cells Z (elementSize * Z.of_nat (length indices))) = []).
  { apply skipn_all2. unfold new_cells. rewrite repeat_length. lia. }
  rewrite Hall, app_nil_r. split.
  - unfold H5Array.size. clear H Hall Hser.
    induction indices as [|i0 indices IH]; [cbn; lia|].
    cbn [flat_map length]. rewrite length_app, Nat2Z.inj_add, IH.
    + rewrite (Henc i0) by now left. lia.
    + intros i Hi. apply Henc. now right.
  - intros p index Hp. unfold element_bytes. now apply encode_chunks.
Qed.

End Ancillary_layout.

(** X22.  The bytes of an ancillary record.  For an array whose elements are
    serialized in [elementSize] bytes each, the record of a field holds
    [indices->length()] elements, its data is written in full and inside
    the [elementSize * indices->length()] bytes allocated for it, and
    element [p] is the serialized element [indices[p]] of the array, or
    [elementSize] bytes [0xFF] when [indices[p]] is [INVALID_INDICE]. *)
Theorem ancillary_record_layout (elementSize : Z)
  (serialize : Z -> outcome (list Z)) (indices : list Z) :
  0 <= elementSize ->
  (forall index, In index indices -> index <> INVALID_INDICE ->
     exists bytes,
       serialize index = Ok bytes /\ Z.of_nat (length bytes) = elementSize) ->
  exists data,
    ancillary_record elementSize serialize indices
      = Ok (Z.of_nat (length indices), data) /\
    H5Array.size data = elementSize * Z.of_nat (length indices) /\
    forall p index,
      nth_error indices p = Some index ->
      if index =? INVALID_INDICE
      then element_bytes elementSize data (Z.of_nat p)
           = repeat (Some 255) (Z.to_nat elementSize)
      else exists bytes,
             serialize index = Ok bytes /\
             element_bytes elementSize data (Z.of_nat p) = map Some bytes.
Proof.
  intros Hsize Hser.
  destruct (ancillary_record_bytes elementSize serialize Hsize indices Hser)
    as (data & Hrec & Hdata & Hbytes).
  exists data. split; [exact Hrec|]. split; [exact Hdata|].
  intros p index Hp. specialize (Hbytes p index Hp).
  destruct (Z.eqb_spec index INVALID_INDICE) as [He|Hne]; [exact Hbytes|].
  destruct (Hser index (nth_error_In _ _ Hp) Hne) as (bytes & Hb & _).
  exists bytes. split; [exact Hb|]. rewrite Hbytes, Hb. reflexivity.
Qed.

(* ================================================================== *)
(** * The extent loop stays inside its arrays                          *)
(* ================================================================== *)

Lemma no_fault_bind {A B} (m : outcome A) (k : A -> outcome B) :
  no_fault m -> (forall a, m = Ok a -> no_fault (k a)) -> no_fault (bind m k).
Proof.
  unfold no_fault. destruct m; cbn; intros Hm Hk; [now apply Hk|discriminate|now contradiction Hm].
Qed.

Lemma no_fault_and_then {A B} (m : stage A) (k : A -> stage B) :
  no_fault m -> (forall a, m = Ok (Some a) -> no_fault (k a)) ->
  no_fault (and_then m k).
Proof.
  intros Hm Hk. unfold and_then. apply no_fault_bind; [exact Hm|].
  intros [a|] Ha; [now apply Hk|discriminate].
Qed.

Lemma no_fault_rd {A} (a : list A) (i : Z) :
  0 <= i < H5Array.size a -> no_fault (rd (H5Array.get a i)).
Proof.
  intros H. destruct (get_Ok_in_range a i H) as (x & ->). discriminate.
Qed.

Lemma no_fault_load {A} (a : cells A) (n i : Z) :
  written a n -> 0 <= i < n -> no_fault (load a i).
Proof.
  intros Hw Hi. destruct (Hw i Hi) as (x & Hx). unfold load. rewrite Hx. discriminate.
Qed.

Lemma goto_photon_segment_in_bounds cnt rest :
  forall segment count,
    0 <= segment ->
    rest = Z.to_nat (H5Array.size cnt - segment) ->
    exists segment' count',
      goto_photon_segment cnt rest segment count = Ok (segment', count') /\
      segment <= segment' /\
      (1 <= count -> 1 <= count') /\
      (segment' < H5Array.size cnt ->
       exists c, H5Array.get cnt segment' = Some c /\ count' <= c).
Proof.
  induction rest as [|rest IH]; intros segment count Hs Hrest; cbn [goto_photon_segment].
  - exists segment, count. split; [reflexivity|]. split; [lia|]. split; [auto|]. lia.
  - destruct (get_in_range cnt segment ltac:(lia)) as (c & Hc). rewrite Hc. cbn [rd bind].
    destruct (Z.ltb_spec c count).
    + destruct (IH (segment + 1) 1 ltac:(lia) ltac:(lia))
        as (s' & c' & Hgo & Hle & Hpos & Hcnt).
      exists s', c'. split; [exact Hgo|]. split; [lia|]. split; [|exact Hcnt].
      intros _. apply Hpos. lia.
    + exists segment, count. split; [reflexivity|]. split; [lia|]. split; [auto|].
      intros _. exists c. split; [exact Hc|lia].
Qed.

(** ** The ancillary records stay inside their data *)

Lemma populate_ancillary_no_fault (elementSize : Z)
  (serialize : Z -> outcome (list Z)) (indices : list Z) :
  0 <= elementSize ->
  forall pre post : cells Z,
    (forall index, In index indices -> index <> INVALID_INDICE ->
       no_fault (serialize index) /\
       forall bytes, serialize index = Ok bytes ->
         Z.of_nat (length bytes) = elementSize) ->
    elementSize * Z.of_nat (length indices) <= Z.of_nat (length post) ->
    no_fault (populate_ancillary elementSize serialize indices (pre ++ post)
                (Z.of_nat (length pre))).
Proof.
  intros Hsize.
  induction indices as [|index indices IH]; intros pre post Hser Hlen;
    cbn [populate_ancillary]; [discriminate|].
  cbn [length] in Hlen. rewrite Nat2Z.inj_succ in Hlen.
  assert (Hes : elementSize <= Z.of_nat (length post))
    by (pose proof (Nat2Z.is_nonneg (length indices)); nia).
  assert (Hrest : forall index', In index' indices -> index' <> INVALID_INDICE ->
            no_fault (serialize index') /\
            forall bytes, serialize index' = Ok bytes ->
              Z.of_nat (length bytes) = elementSize).
  { intros index' Hin. apply Hser. now right. }
  assert (Hnext : forall chunk : cells Z,
            Z.of_nat (length chunk) = elementSize ->
            no_fault (populate_ancillary elementSize serialize indices
                        (pre ++ chunk ++ skipn (Z.to_nat elementSize) post)
                        (Z.of_nat (length pre) + elementSize))).
  { intros chunk Hchunk.
    replace (pre ++ chunk ++ skipn (Z.to_nat elementSize) post)
      with ((pre ++ chunk) ++ skipn (Z.to_nat elementSize) post)
      by (rewrite <- app_assoc; reflexivity).
    replace (Z.of_nat (length pre) + elementSize)
      with (Z.of_nat (length (pre ++ chunk))) by (rewrite length_app; lia).
    apply IH; [exact Hrest|]. rewrite length_skipn. nia. }
  destruct (Z.eqb_spec index INVALID_INDICE) as [He|Hne]; cbn [negb].
  - rewrite fill_invalid_app by lia. cbn [bind].
    replace (Z.of_nat (length pre) + Z.of_nat (Z.to_nat elementSize))
      with (Z.of_nat (length pre) + elementSize) by lia.
    apply Hnext. rewrite repeat_length. lia.
  - destruct (Hser index ltac:(now left) Hne) as [Hnf Hbytes].
    destruct (serialize index) as [bytes| |]; cbn [bind];
      [|discriminate|now contradiction Hnf].
    specialize (Hbytes bytes eq_refl).
    rewrite write_element_app by lia. cbn [bind].
    rewrite Hbytes.
    replace (length bytes) with (Z.to_nat elementSize) by lia.
    apply Hnext. rewrite length_map. exact Hbytes.
Qed.

Lemma ancillary_record_no_fault (array : H5DArray.t) (indices : list Z) :
  0 <= H5DArray.elementSize array ->
  (forall index, In index indices -> index <> INVALID_INDICE ->
     serializes array index) ->
  no_fault (ancillary_record (H5DArray.elementSize array) (H5DArray.serialize array)
              indices).
Proof.
  intros Hsize Hser. unfold ancillary_record.
  apply no_fault_bind.
  - apply (populate_ancillary_no_fault _ _ indices Hsize []); [exact Hser|].
    unfold new_cells. rewrite repeat_length. nia.
  - intros [data written'] _. discriminate.
Qed.

Lemma ancillary_fields_no_fault (extent_id : Z) (dict : H5DArrayDictionary)
  (type : anc_type_t) (indices : list Z) (valid : Z -> Prop)
  (fields : list String.string) :
  Forall valid indices ->
  (forall field, In field fields ->
     no_fault (dict field) /\
     forall array, dict field = Ok array ->
       0 <= H5DArray.elementSize array /\
       forall index, valid index -> index <> INVALID_INDICE ->
         serializes array index) ->
  forall i,
    no_fault (ancillary_fields extent_id dict type indices fields i).
Proof.
  intros Hvalid. rewrite Forall_forall in Hvalid.
  induction fields as [|field fields IH]; intros Hfields i;
    cbn [ancillary_fields]; [discriminate|].
  destruct (Hfields field ltac:(now left)) as [Hnf Harray].
  apply no_fault_bind; [exact Hnf|]. intros array Ha.
  destruct (Harray array Ha) as [Hsize Hser].
  apply no_fault_bind.
  { apply ancillary_record_no_fault; [exact Hsize|].
    intros index Hin Hne. apply Hser; [now apply Hvalid|exact Hne]. }
  intros [num_elements data] _.
  apply no_fault_bind.
  { apply IH. intros f Hf. apply Hfields. now right. }
  intros records _. discriminate.
Qed.

Lemma generateAncillaryRecords_no_fault (extent_id : Z)
  (field_list : option (list String.string))
  (field_dict : option H5DArrayDictionary) (type : anc_type_t)
  (indices : option (list Z)) (valid : Z -> Prop) :
  fields_serialize field_list field_dict valid ->
  (forall l, indices = Some l -> Forall valid l) ->
  no_fault (generateAncillaryRecords extent_id field_list field_dict type indices).
Proof.
  intros Hfields Hvalid. unfold generateAncillaryRecords.
  destruct field_list as [fields|]; [|discriminate].
  destruct field_dict as [dict|]; [|discriminate].
  destruct indices as [l|]; [|discriminate].
  apply (ancillary_fields_no_fault _ _ _ _ valid); [now apply Hvalid|].
  intros field Hin. exact (Hfields fields dict field eq_refl eq_refl Hin).
Qed.

Section In_bounds.

Variables (parms : Icesat2Parms) (region : Region) (atl03 : Atl03Data.t)
  (atl08 : Atl08Class.t) (yapc_scores : YapcScore.t).

Hypothesis consistent : datasets_consistent region atl03.
Hypothesis readable : photons_readable region atl03 atl08 yapc_scores.
Hypothesis defined : conversions_defined parms atl03.
Hypothesis fields : fields_readable parms atl03 atl08.
Hypothesis allocated : indices_allocated atl03 atl08.

Let N := H5Array.size (Atl03Data.dist_ph_along atl03).
Let S := H5Array.size (Atl03Data.segment_dist_x atl03).

Lemma select_photon_in_bounds (st : TrackState.t) (x_atc : float) (p s : Z) :
  0 <= p < N ->
  (forall mask, inclusion_ptr region = Some mask ->
     exists included, H5Array.get mask s = Some (Some included)) ->
  no_fault (select_photon parms region atl03 atl08 yapc_scores st x_atc p s).
Proof using Type + consistent + readable.
  intros Hp Hmask.
  destruct consistent as (_ & _ & Hcnf & Hq & Hdt & Hlat & Hlon & Hacross & Hh & _).
  destruct readable as (Hcls & Hscore & Hpho & _).
  fold N in Hcnf, Hq, Hdt, Hlat, Hlon, Hacross, Hh, Hcls, Hscore, Hpho.
  unfold select_photon.
  apply no_fault_and_then.
  { unfold check_signal_confidence.
    destruct (get_Ok_in_range (Atl03Data.signal_conf_ph atl03) p ltac:(lia)) as (x & ->).
    cbn [bind]. destruct (_ || _); [discriminate|]. destruct (negb _); discriminate. }
  intros cnf _. apply no_fault_and_then.
  { unfold check_photon_quality.
    destruct (get_Ok_in_range (Atl03Data.quality_ph atl03) p ltac:(lia)) as (x & ->).
    cbn [bind]. destruct (_ || _); [discriminate|]. destruct (negb _); discriminate. }
  intros quality _. apply no_fault_and_then.
  { unfold check_atl08_class.
    destruct (Atl08Class.classification atl08) as [classification|]; [|discriminate].
    destruct (Hcls classification eq_refl p Hp) as (x & Hx).
    unfold load. rewrite Hx. cbn [bind].
    destruct (_ || _); [discriminate|]. destruct (negb _); discriminate. }
  intros class _. apply no_fault_and_then.
  { unfold check_yapc_score.
    destruct (YapcScore.score yapc_scores) as [score|]; [|discriminate].
    destruct (Hscore score eq_refl p Hp) as (x & Hx).
    unfold load. rewrite Hx. cbn [bind]. destruct (_ <? _); discriminate. }
  intros score _. apply no_fault_and_then.
  { unfold check_region.
    destruct (inclusion_ptr region) as [mask|]; [|discriminate].
    destruct (Hmask mask eq_refl) as (x & Hx).
    unfold load. rewrite Hx. cbn [bind]. destruct (negb _); discriminate. }
  intros _ _. apply no_fault_bind.
  { unfold phoreal_fields.
    destruct (Atl08Class.phoreal atl08) eqn:Hph; [|discriminate].
    destruct (Hpho eq_refl) as (rel & land & snow & -> & -> & -> & Wr & Wl & Ws).
    apply no_fault_bind.
    { destruct (negb _); [now apply (no_fault_load _ N)|apply no_fault_rd; lia]. }
    intros r _. apply no_fault_bind; [now apply (no_fault_load _ N)|].
    intros l _. apply no_fault_bind; [now apply (no_fault_load _ N)|].
    intros sn _. discriminate. }
  intros [[rel land] snow] _.
  apply no_fault_bind; [apply no_fault_rd; lia|]. intros dt _.
  apply no_fault_bind; [apply no_fault_rd; lia|]. intros lat _.
  apply no_fault_bind; [apply no_fault_rd; lia|]. intros lon _.
  apply no_fault_bind; [apply no_fault_rd; lia|]. intros across _.
  apply no_fault_bind; [apply no_fault_rd; lia|]. intros h _.
  discriminate.
Qed.

(** Indexing a photon of the crop keeps the lists inside the datasets. *)
Lemma index_photon_in_bounds (lists : ancillary_indices) (p s : Z) :
  lists_in_bounds atl03 atl08 lists ->
  0 <= p < N -> 0 <= s < S ->
  exists lists',
    index_photon atl08 lists p s = Ok lists' /\
    lists_in_bounds atl03 atl08 lists'.
Proof.
  intros (Hph & Hseg & Ha8) Hp Hs. fold N in Hph, Ha8. fold S in Hseg.
  unfold index_photon.
  assert (Hadd : forall (valid : Z -> Prop) (l : option (list Z)) (x : Z),
            (forall l0, l = Some l0 -> Forall valid l0) -> valid x ->
            forall l1, add_index l x = Some l1 -> Forall valid l1).
  { intros valid [l0|] x Hl Hx l1 E; cbn in E; inversion E; subst.
    apply Forall_app. split; [now apply Hl|]. constructor; [exact Hx|constructor]. }
  destruct (atl08_indices lists) as [l|] eqn:El.
  - destruct (Ha8 l eq_refl) as (cells' & Hcells & Hw & Hall).
    rewrite Hcells. destruct (Hw p Hp) as (index & Hindex).
    unfold load at 1. rewrite Hindex. cbn [bind].
    eexists. split; [reflexivity|].
    split; [|split]; cbn [photon_indices segment_indices atl08_indices]; fold N; fold S.
    + apply Hadd; [exact Hph|exact Hp].
    + apply Hadd; [exact Hseg|exact Hs].
    + intros l1 E. inversion E; subst l1. exists cells'.
      split; [exact Hcells|]. split; [exact Hw|].
      apply Forall_app. split; [exact Hall|].
      constructor; [|constructor]. exists p. split; [exact Hp|].
      unfold load. rewrite Hindex. reflexivity.
  - cbn [bind]. eexists. split; [reflexivity|].
    split; [|split]; cbn [photon_indices segment_indices atl08_indices]; fold N; fold S.
    + apply Hadd; [exact Hph|exact Hp].
    + apply Hadd; [exact Hseg|exact Hs].
    + intros l1 E. discriminate.
Qed.

(** The variables of the photon loop are inside the datasets. *)
Let photon_in_bounds (extent_segment : Z) (portion : float) (v : photon_vars) : Prop :=
  0 <= current_photon v < N /\ 0 <= current_segment v /\ 0 <= current_count v /\
  lists_in_bounds atl03 atl08 (anc_lists v) /\
  extent_in_bounds atl03 extent_segment portion (state v).

Let extent_done (extent_segment : Z) (portion : float) (v : photon_vars) : Prop :=
  lists_in_bounds atl03 atl08 (anc_lists v) /\
  extent_in_bounds atl03 extent_segment portion (state v).

Lemma photon_body_in_bounds (es : Z) (portion : float) (v : photon_vars) :
  photon_in_bounds es portion v ->
  match photon_body parms region atl03 atl08 yapc_scores v with
  | Ok (Continue v') =>
      photon_in_bounds es portion v' /\ current_photon v' = current_photon v + 1
  | Ok (Break v') => extent_done es portion v'
  | Throw _ => True
  | Fault => False
  end.
Proof using Type + consistent + readable + defined.
  intros (Hp & Hs & Hc & Hlists & Hst). unfold photon_body.
  destruct (goto_photon_segment_in_bounds (segment_ph_cnt region)
              (Z.to_nat (H5Array.size (segment_ph_cnt region) - current_segment v))
              (current_segment v) (current_count v + 1) Hs eq_refl)
    as (segment & count & -> & Hseg & Hcount & Hcnt).
  specialize (Hcount ltac:(lia)). cbn [bind].
  assert (Hcomplete : forall st, extent_in_bounds atl03 es portion st ->
            extent_in_bounds atl03 es portion (set_track_complete st)).
  { intros st ((H1 & H2 & H3 & H4 & H5) & H6 & H7).
    repeat split; cbn; first [assumption|lia]. }
  destruct (Z.leb_spec (H5Array.size (Atl03Data.segment_dist_x atl03)) segment)
    as [Hout|Hin].
  { split; cbn [state anc_lists]; [exact Hlists|now apply Hcomplete]. }
  fold S in Hin.
  destruct (get_Ok_in_range (Atl03Data.segment_dist_x atl03) segment ltac:(fold S; lia))
    as (dist_x & ->). cbn [bind].
  destruct (get_Ok_in_range (Atl03Data.dist_ph_along atl03) (current_photon v)
              ltac:(fold N; lia)) as (along & ->). cbn [bind].
  set (x_atc := (_ + along)%float).
  assert (Hstepped : exists stepped,
    (if negb (step_complete v) then
       if negb (dist_in_seg parms) then Ok (fgeb x_atc (extent_step parms))
       else
         step <- double2int INT_MIN INT_MAX (extent_step parms) ;;
         Ok (step <=? segment - TrackState.extent_segment (state v))
     else Ok false) = Ok stepped).
  { destruct (negb (step_complete v)); [|eauto].
    destruct (dist_in_seg parms) eqn:Hd; cbn [negb]; [|eauto].
    destruct (proj1 defined Hd) as (step & -> & _). cbn [bind]. eauto. }
  destruct Hstepped as (stepped & ->). cbn [bind].
  set (st1 := if stepped then _ else state v).
  assert (Hst1 : extent_in_bounds atl03 es portion st1).
  { subst st1. destruct stepped; [|exact Hst].
    destruct Hst as ((H1 & H2 & H3 & H4 & H5) & H6 & H7).
    fold N in H1. fold S in H2. repeat split; cbn; fold N; fold S; first [assumption|lia]. }
  clearbody st1.
  match goal with
  | |- match bind ?m _ with _ => _ end =>
      assert (Hfilter : match m with
                        | Ok (st2, lists2, _) =>
                            lists_in_bounds atl03 atl08 lists2 /\
                            extent_in_bounds atl03 es portion st2
                        | Throw _ => True
                        | Fault => False
                        end);
      [|destruct m as [[[st2 lists2] ec]| |]; cbn [bind]; [|exact I|exact Hfilter]]
  end.
  { destruct (if negb (dist_in_seg parms) then _ else _); [|split; assumption].
    assert (Hnf : no_fault (select_photon parms region atl03 atl08 yapc_scores st1
                              x_atc (current_photon v) segment)).
    { apply select_photon_in_bounds; [exact Hp|].
      intros mask Hmask.
      destruct consistent as (_ & _ & _ & _ & _ & _ & _ & _ & _ & Hcs & _).
      fold S in Hcs.
      destruct (Hcnt ltac:(lia)) as (c & Hc' & Hle).
      exact (proj2 (proj2 (proj2 readable)) mask Hmask segment c ltac:(lia) Hc'
               ltac:(lia)). }
    destruct (select_photon parms region atl03 atl08 yapc_scores st1 x_atc
                (current_photon v) segment) as [[ph|]| |]; cbn [bind].
    - destruct (index_photon_in_bounds (anc_lists v) (current_photon v) segment
                  Hlists Hp ltac:(lia)) as (lists' & -> & Hlists').
      cbn [bind]. split; [exact Hlists'|].
      destruct Hst1 as ((H1 & H2 & H3 & H4 & H5) & H6 & H7).
      repeat split; cbn; first [assumption|lia].
    - split; assumption.
    - exact I.
    - now apply Hnf. }
  destruct Hfilter as [Hlists2 Hst2].
  destruct (Z.leb_spec (H5Array.size (Atl03Data.dist_ph_along atl03))
              (current_photon v + 1)).
  - split; cbn [state anc_lists]; [exact Hlists2|now apply Hcomplete].
  - split; [|reflexivity]. unfold photon_in_bounds.
    cbn [state current_photon current_segment current_count anc_lists].
    split; [fold N; lia|]. split; [lia|]. split; [lia|]. split; assumption.
Qed.

Lemma photon_loop_in_bounds (es : Z) (portion : float) (rest : nat) :
  forall v,
    photon_in_bounds es portion v ->
    Z.of_nat rest = N - current_photon v ->
    match photon_loop parms region atl03 atl08 yapc_scores rest v with
    | Ok v' => extent_done es portion v'
    | Throw _ => True
    | Fault => False
    end.
Proof using Type + consistent + readable + defined.
  induction rest as [|rest IH]; intros v Hv Hrest.
  - destruct Hv as (Hp & _). lia.
  - cbn [photon_loop].
    destruct (extent_complete v && step_complete v).
    { destruct Hv as (_ & _ & _ & Hl & Hst). split; assumption. }
    pose proof (photon_body_in_bounds es portion v Hv) as Hb.
    destruct (photon_body parms region atl03 atl08 yapc_scores v) as [[v'|v']| |];
      cbn [bind]; [|exact Hb|exact I|exact Hb].
    destruct Hb as (Hv' & Hnext). apply IH; [exact Hv'|lia].
Qed.

Lemma correct_start_distance_in_bounds (rest : nat) :
  forall start_segment start_distance,
    0 <= start_segment ->
    rest = Z.to_nat (S - (start_segment + 1)) ->
    exists start_segment' start_distance',
      correct_start_distance atl03 rest start_segment start_distance
        = Ok (start_segment', start_distance') /\
      0 <= start_segment'.
Proof.
  induction rest as [|rest IH]; intros ss sd Hss Hrest; cbn [correct_start_distance].
  - eauto.
  - destruct (get_Ok_in_range (Atl03Data.segment_dist_x atl03) (ss + 1)
                ltac:(fold S; lia)) as (next & ->). cbn [bind].
    destruct (fgeb sd next); [|eauto].
    destruct (get_Ok_in_range (Atl03Data.segment_dist_x atl03) ss
                ltac:(fold S; lia)) as (curr & ->). cbn [bind].
    apply IH; lia.
Qed.

Lemma generateExtentRecord_in_bounds reader extent_id info (st : TrackState.t) :
  cursors_in_bounds atl03 st ->
  0 <= TrackState.extent_segment st < S ->
  no_fault (calculateSegmentId parms st atl03) ->
  match generateExtentRecord reader parms extent_id info st atl03 with
  | Ok (_, st') => cursors_in_bounds atl03 st'
  | Throw _ => True
  | Fault => False
  end.
Proof using Type + consistent.
  intros Hst Hes Hid.
  destruct consistent as (_ & _ & _ & _ & _ & _ & _ & _ & _ & _ & _ & Hdt & Hsol & Hvel
                          & Hor & Hrate & Htime).
  fold S in Hdt, Hsol, Hvel.
  unfold generateExtentRecord.
  destruct (get_Ok_in_range (Atl03Data.sc_orient atl03) 0 ltac:(lia)) as (orient & ->).
  cbn [bind].
  destruct (calculateSegmentId parms st atl03) as [segment_id| |];
    cbn [bind]; [|exact I|now apply Hid].
  destruct Hst as (H1 & H2 & H3 & H4 & H5).
  destruct (calculateBackground_in_bounds st atl03) as ([rate st'] & Hcalc);
    [intros E; rewrite E in Hrate; cbn in Hrate; lia|exact Htime|exact H5|lia|].
  rewrite Hcalc. cbn [bind].
  pose proof Hcalc as Hstate. apply calculateBackground_state in Hstate.
  destruct Hstate as (n & ->).
  assert (Hn : 0 <= n).
  { unfold calculateBackground in Hcalc. inv_bind Hcalc.
    apply bind_Ok_inv in Hcalc. destruct Hcalc as (r & Hloop & Hcalc).
    apply background_loop_advances in Hloop. inversion Hcalc; subst. lia. }
  cbn [TrackState.with_bckgrd_in TrackState.extent_segment].
  destruct (get_Ok_in_range (Atl03Data.solar_elevation atl03)
              (TrackState.extent_segment st) ltac:(lia)) as (sol & ->). cbn [bind].
  destruct (get_Ok_in_range (Atl03Data.velocity_sc atl03)
              (TrackState.extent_segment st * 3 + 0) ltac:(lia)) as (v1 & ->).
  cbn [bind].
  destruct (get_Ok_in_range (Atl03Data.velocity_sc atl03)
              (TrackState.extent_segment st * 3 + 1) ltac:(lia)) as (v2 & ->).
  cbn [bind].
  destruct (get_Ok_in_range (Atl03Data.velocity_sc atl03)
              (TrackState.extent_segment st * 3 + 2) ltac:(lia)) as (v3 & ->).
  cbn [bind].
  repeat split; cbn; first [assumption|lia].
Qed.

(** The three calls of [generateAncillaryRecords] stay inside the arrays of
    the fields and inside the data of their records. *)
Lemma send_records_in_bounds extent_id extent (lists : ancillary_indices) :
  lists_in_bounds atl03 atl08 lists ->
  no_fault (send_records parms atl03 atl08 extent_id extent lists).
Proof using Type + fields.
  intros (Hph & Hseg & Ha8). destruct fields as (Fph & Fgeo & Fa8).
  unfold send_records.
  apply no_fault_bind.
  { eapply generateAncillaryRecords_no_fault; [exact Fph|exact Hph]. }
  intros photon_records _. apply no_fault_bind.
  { eapply generateAncillaryRecords_no_fault; [exact Fgeo|exact Hseg]. }
  intros segment_records _. apply no_fault_bind.
  { destruct (atl08_indices lists) as [l|] eqn:El.
    - destruct (Ha8 l eq_refl) as (cells' & Hcells & _ & Hall).
      eapply generateAncillaryRecords_no_fault; [exact (Fa8 cells' Hcells)|].
      intros l0 E. inversion E; subst l0. exact Hall.
    - unfold generateAncillaryRecords.
      destruct (atl08_fields parms); [|discriminate].
      destruct (Atl08Class.anc_seg_data atl08); discriminate. }
  intros atl08_records _.
  destruct (photon_records ++ segment_records ++ atl08_records); discriminate.
Qed.

(** The lists with which an extent starts are inside the datasets. *)
Lemma extent_start_lists (lists : ancillary_indices) :
  lists_in_bounds atl03 atl08 lists ->
  lists_in_bounds atl03 atl08
    {| segment_indices :=
         clear_indices (Atl03Data.anc_geo_data atl03) (segment_indices lists);
       photon_indices :=
         clear_indices (Atl03Data.anc_ph_data atl03) (photon_indices lists);
       atl08_indices :=
         clear_indices (Atl08Class.anc_seg_data atl08) (atl08_indices lists) |}.
Proof using Type + allocated.
  intros (Hph & Hseg & Ha8). unfold clear_indices.
  split; [|split]; cbn [photon_indices segment_indices atl08_indices].
  - destruct (Atl03Data.anc_ph_data atl03); [|exact Hph].
    intros l E. inversion E; subst. constructor.
  - destruct (Atl03Data.anc_geo_data atl03); [|exact Hseg].
    intros l E. inversion E; subst. constructor.
  - destruct (Atl08Class.anc_seg_data atl08) as [dict|] eqn:Ed; [|exact Ha8].
    intros l E. inversion E; subst.
    destruct (allocated ltac:(rewrite Ed; discriminate)) as (cells' & Hcells & Hw).
    exists cells'. split; [exact Hcells|]. split; [exact Hw|constructor].
Qed.

Lemma subsetting_extent_in_bounds reader info extent_counter (st : TrackState.t)
  (lists : ancillary_indices) :
  cursors_in_bounds atl03 st ->
  lists_in_bounds atl03 atl08 lists ->
  match subsetting_extent reader info parms region atl03 atl08 yapc_scores
          extent_counter st lists with
  | Ok (st', lists', _) =>
      cursors_in_bounds atl03 st' /\ lists_in_bounds atl03 atl08 lists'
  | Throw _ => True
  | Fault => False
  end.
Proof using Type + consistent + readable + defined + fields + allocated.
  intros Hst Hlists. pose proof Hst as (H1 & H2 & H3 & H4 & H5).
  fold N in H1. fold S in H2.
  unfold subsetting_extent, extent_start.
  destruct (get_in_range (Atl03Data.dist_ph_along atl03) (TrackState.ph_in st)
              ltac:(fold N; lia)) as (along & Halong).
  rewrite Halong. cbn [rd bind].
  match goal with
  | |- context [photon_loop _ _ _ _ _ ?rest ?v0] =>
      pose proof (photon_loop_in_bounds (TrackState.seg_in st)
                    (along / ATL03_SEGMENT_LENGTH)%float rest v0) as Hloop
  end.
  cbn [current_photon current_segment current_count state anc_lists] in Hloop.
  specialize (Hloop
    ltac:(split; [|split; [|split; [|split; [now apply extent_start_lists|]]]];
          repeat split; cbn; fold N; fold S; first [assumption|lia])
    ltac:(fold N; lia)).
  match goal with
  | |- context [photon_loop ?a ?b ?c ?d ?e ?rest ?v0] =>
      destruct (photon_loop a b c d e rest v0) as [v| |]
  end; cbn [bind]; [|exact I|exact Hloop].
  destruct Hloop as (Glists & (G1 & G2 & G3 & G4 & G5) & Ges & Gportion).
  assert (Hstart : exists start_segment start_distance,
    step_start_distance parms atl03 (state v) = Ok (start_segment, start_distance)
    /\ 0 <= start_segment).
  { unfold step_start_distance.
    destruct (dist_in_seg parms) eqn:Hd; cbn [negb].
    - destruct (proj1 defined Hd) as (step & -> & Hstep). cbn [bind]. cbv zeta.
      destruct (Z.ltb_spec (TrackState.extent_segment (state v) + step)
                  (H5Array.size (Atl03Data.segment_dist_x atl03))).
      + destruct (get_Ok_in_range (Atl03Data.segment_dist_x atl03)
                    (TrackState.extent_segment (state v) + step) ltac:(lia))
          as (d & ->). cbn [bind]. eauto.
      + eauto.
    - apply correct_start_distance_in_bounds; [exact G4|reflexivity]. }
  destruct Hstart as (start_segment & start_distance & Hstart & Hss).
  rewrite Hstart. cbn [bind]. cbv zeta.
  assert (Hclosed : cursors_in_bounds atl03
                      (close_extent parms (state v) start_segment start_distance)).
  { repeat split; cbn; first [assumption|lia]. }
  cbn [close_extent TrackState.extent_valid].
  destruct (check_extent_valid parms (TrackState.extent_photons (state v))
            || pass_invalid parms).
  - match goal with
    | |- context [generateExtentRecord ?r ?p ?id ?i ?s ?a] =>
        pose proof (generateExtentRecord_in_bounds r id i s Hclosed) as Hgen;
        destruct (generateExtentRecord r p id i s a) as [[extent st3]| |]
    end; cbn [bind].
    + pose proof (send_records_in_bounds
                    (generateExtentId (start_rgt reader) (start_cycle reader)
                       (start_region reader) (track info) (pair info) extent_counter)
                    extent (anc_lists v) Glists) as Hsend.
      match goal with
      | |- match (match ?m with _ => _ end) with _ => _ end =>
          destruct m as [post| |]
      end; [| |now contradiction Hsend].
      * split; [|exact Glists]. apply Hgen.
        -- cbn. lia.
        -- apply (proj2 defined _ (TrackState.ph_in st) along);
             [cbn; lia|exact Halong|exact Gportion].
      * split; [|exact Glists]. apply Hgen.
        -- cbn. lia.
        -- apply (proj2 defined _ (TrackState.ph_in st) along);
             [cbn; lia|exact Halong|exact Gportion].
    + exact I.
    + apply Hgen.
      * cbn. lia.
      * apply (proj2 defined _ (TrackState.ph_in st) along);
          [cbn; lia|exact Halong|exact Gportion].
  - split; [exact Hclosed|exact Glists].
Qed.

Lemma extent_loop_in_bounds reader info (active_for : nat) :
  forall extent_counter st lists sent,
    cursors_in_bounds atl03 st ->
    lists_in_bounds atl03 atl08 lists ->
    no_fault (ending (extent_loop reader info parms region atl03 atl08 yapc_scores
                        active_for extent_counter st lists sent)).
Proof using Type + consistent + readable + defined + fields + allocated.
  induction active_for as [|n IH]; intros extent_counter st lists sent Hst Hlists;
    cbn [extent_loop]; [discriminate|].
  destruct (TrackState.track_complete st); [discriminate|].
  pose proof (subsetting_extent_in_bounds reader info extent_counter st lists Hst
                Hlists) as Hpass.
  destruct (subsetting_extent reader info parms region atl03 atl08 yapc_scores
              extent_counter st lists) as [[[st' lists'] posts]| |].
  - apply IH; apply Hpass.
  - discriminate.
  - contradiction.
Qed.

End In_bounds.

(* ================================================================== *)
(** * What the stages before the extent loop leave                     *)
(* ================================================================== *)

Lemma cell_inv {A} (arr : cells A) (p : Z) (x : A) :
  cell (Some arr) p = Some x -> H5Array.get arr p = Some (Some x).
Proof.
  unfold cell. destruct (H5Array.get arr p) as [[y|]|]; intros H; inversion H.
  reflexivity.
Qed.

Lemma photon_classified_written parms atl03 atl08 v s seg c p :
  photon_classified parms atl03 atl08 (classify_result atl08 v) s seg c p ->
  cells_written atl08 v p.
Proof.
  unfold photon_classified, photon_unmatched, photon_matched, land_fields,
    classify_result, cells_written.
  cbn [Atl08Class.classification Atl08Class.relief Atl08Class.landcover
       Atl08Class.snowcover Atl08Class.anc_seg_indices Atl08Class.phoreal
       Atl08Class.ancillary].
  intros [(Hcls & Hpho & Hanc)|(k & (_ & (flag & _ & Hcls) & Hrel) & Hland)].
  - split; [apply cell_inv in Hcls; eauto|]. split.
    + intros Hph. rewrite Hph in Hpho. destruct (Hpho eq_refl) as (H1 & H2 & H3).
      apply cell_inv in H1, H2, H3. repeat split; eauto.
    + intros Ha. rewrite Ha in Hanc. specialize (Hanc eq_refl).
      apply cell_inv in Hanc. eauto.
  - split; [|split].
    + destruct Hcls as [Hcls|[_ Hcls]]; apply cell_inv in Hcls; eauto.
    + intros Hph. rewrite Hph in *. cbn [orb] in Hland.
      destruct (Hrel eq_refl) as (h & _ & H1).
      destruct (Hland eq_refl) as (index & _ & Hfields & _).
      destruct (Hfields eq_refl) as (lc & sc & _ & H2 & _ & H3).
      apply cell_inv in H1, H2, H3. repeat split; eauto.
    + intros Ha. rewrite Ha in *. rewrite orb_true_r in Hland.
      destruct (Hland eq_refl) as (index & _ & _ & Hindex).
      specialize (Hindex eq_refl). apply cell_inv in Hindex. eauto.
Qed.

Lemma cells_written_same atl08 v v' q :
  same_cells v v' q -> cells_written atl08 v q -> cells_written atl08 v' q.
Proof.
  intros (H1 & H2 & H3 & H4 & H5) (Hc & Hp & Ha). unfold cells_written.
  rewrite H1, H2, H3, H4, H5. split; [assumption|split; assumption].
Qed.

Lemma classify_segments_written info parms region atl03 atl08 (rest : nat) :
  forall s0 v v',
    0 <= s0 ->
    atl03_photon v = photon_index (segment_ph_cnt region) s0 1 ->
    0 <= atl08_photon v ->
    land_behind atl03 atl08 (atl08_segment_index v) (s0 - 1) ->
    classify_segments info parms region atl03 atl08 rest s0 v = Ok v' ->
    atl03_photon v'
      = photon_index (segment_ph_cnt region) (s0 + Z.of_nat rest) 1 /\
    (forall q, atl03_photon v <= q < atl03_photon v' -> cells_written atl08 v' q) /\
    (forall q, q < atl03_photon v -> same_cells v v' q).
Proof.
  induction rest as [|rest IH]; intros s0 v v' Hs0 Hp Hcur Hland H; simpl in H.
  - inversion H; subst v'. rewrite Z.add_0_r.
    split; [exact Hp|]. split; [intros; lia|]. intros. apply same_cells_refl.
  - apply bind_Ok_inv in H. destruct H as (v1 & Hseg & H).
    pose proof Hseg as Hseg0. unfold classify_segment in Hseg0.
    apply bind_Ok_inv in Hseg0. destruct Hseg0 as (seg0 & Hid0 & Hseg0).
    apply rd_Ok_inv in Hid0.
    apply bind_Ok_inv in Hseg0. destruct Hseg0 as (index & _ & Hseg0).
    apply bind_Ok_inv in Hseg0. destruct Hseg0 as (n0 & Hn0 & _).
    apply rd_Ok_inv in Hn0.
    apply (classify_segment_sound info parms atl03 atl08 region s0 seg0 n0) in Hseg;
      try assumption.
    destruct Hseg as (Hp1 & Hc1 & Hb1 & Hcells & Hbefore1).
    apply IH in H; [|lia| |exact Hc1|].
    2:{ rewrite Hp1, Hp. symmetry. now apply photon_index_next. }
    2:{ replace (s0 + 1 - 1) with s0 by lia. exact Hb1. }
    destruct H as (Hp2 & Hlater & Hbefore2).
    replace (s0 + Z.of_nat (S rest)) with (s0 + 1 + Z.of_nat rest) by lia.
    split; [exact Hp2|]. split.
    + intros q Hq. destruct (Z_lt_dec q (atl03_photon v1)) as [Hlt|Hge].
      * apply (cells_written_same atl08 v1); [apply Hbefore2; exact Hlt|].
        specialize (Hcells (q - atl03_photon v + 1) ltac:(lia)).
        replace (atl03_photon v + (q - atl03_photon v + 1 - 1)) with q in Hcells by lia.
        eapply photon_classified_written. exact Hcells.
      * apply Hlater. lia.
    + intros q Hq. apply (same_cells_trans v v1).
      * apply Hbefore1. exact Hq.
      * apply Hbefore2. lia.
Qed.

(** [classify] writes, at every photon it counts, every array it
    allocates. *)
Lemma classify_written info parms region atl03 atl08 atl08' :
  stage_atl08 parms = true ->
  classify info parms region atl03 atl08 = Ok atl08' ->
  let counted :=
    photon_index (segment_ph_cnt region)
      (H5Array.size (Atl03Data.segment_id atl03)) 1 in
  Atl08Class.phoreal atl08' = Atl08Class.phoreal atl08 /\
  (exists classification,
     Atl08Class.classification atl08' = Some classification /\
     written classification counted) /\
  (Atl08Class.phoreal atl08 = true ->
   exists relief landcover snowcover,
     Atl08Class.relief atl08' = Some relief /\
     Atl08Class.landcover atl08' = Some landcover /\
     Atl08Class.snowcover atl08' = Some snowcover /\
     written relief counted /\ written landcover counted /\
     written snowcover counted) /\
  (Atl08Class.ancillary atl08 = true ->
   exists anc_seg_indices,
     Atl08Class.anc_seg_indices atl08' = Some anc_seg_indices /\
     written anc_seg_indices counted) /\
  Atl08Class.anc_seg_data atl08' = Atl08Class.anc_seg_data atl08.
Proof.
  intros Hstage H counted. unfold classify in H.
  rewrite Hstage in H. cbn [negb] in H.
  apply bind_Ok_inv in H. destruct H as (v & Hsegs & H).
  inversion H; subst atl08'; clear H.
  cbn [Atl08Class.classification Atl08Class.relief Atl08Class.landcover
       Atl08Class.snowcover Atl08Class.phoreal Atl08Class.anc_seg_indices
       Atl08Class.anc_seg_data].
  apply classify_segments_written in Hsegs;
    cbn [atl03_photon atl08_photon atl08_segment_index]; try lia.
  2:{ reflexivity. }
  2:{ split; [lia|]. intros; lia. }
  destruct Hsegs as (Hp & Hw & _).
  assert (Hcounted : atl03_photon v = counted).
  { rewrite Hp. unfold counted, H5Array.size. f_equal. }
  rewrite Hcounted in Hw.
  split; [reflexivity|]. split; [|split; [|split; [|reflexivity]]].
  - exists (cv_classification v). split; [reflexivity|].
    intros p Hp'. exact (proj1 (Hw p Hp')).
  - intros Hph. rewrite Hph.
    exists (cv_relief v), (cv_landcover v), (cv_snowcover v).
    do 3 (split; [reflexivity|]).
    split; [|split]; intros p Hp';
      destruct (proj1 (proj2 (Hw p Hp')) Hph) as (H1 & H2 & H3); assumption.
  - intros Ha. rewrite Ha. exists (cv_anc_seg_indices v). split; [reflexivity|].
    intros p Hp'. exact (proj2 (proj2 (Hw p Hp')) Ha).
Qed.

Lemma yapcV2_written parms region atl03 score segments :
  yapcV2 parms region atl03 = Ok (score, segments) ->
  written score (H5Array.size (Atl03Data.dist_ph_along atl03)).
Proof.
  intros H. apply yapcV2_run in H. destruct H as (v & Hv & -> & ->).
  pose proof (yapcV2_segments_size _ _ _ _ _ _ _ _ Hv) as Hsize.
  apply yapcV2_segments_passed in Hv; [|lia|apply yapcV2_init_passed].
  destruct Hv as (_ & _ & _ & _ & _ & _ & Hscore).
  assert (Hinit : H5Array.size (yv_score (yapcV2_init atl03))
                  = H5Array.size (Atl03Data.dist_ph_along atl03)).
  { unfold yapcV2_init, H5Array.size. cbn. rewrite repeat_length. lia. }
  intros i Hi.
  destruct (get_in_range (yv_score v) i ltac:(lia)) as (cell & Hcell).
  destruct (Hscore i cell Hcell) as (sc & -> & _). eauto.
Qed.

Lemma get_trim {A} (a : list A) (offset i : Z) :
  0 <= offset -> 0 <= i ->
  H5Array.get (H5Array.trim offset a) i = H5Array.get a (offset + i).
Proof.
  intros Ho Hi. unfold H5Array.get, H5Array.trim.
  destruct (Z.ltb_spec i 0); [lia|]. destruct (Z.ltb_spec (offset + i) 0); [lia|].
  rewrite nth_error_skipn. f_equal. lia.
Qed.

(** The inclusion mask of a crop holds a value for every segment that has
    photons. *)
Lemma Region_new_mask parms lat lon cnt ex region :
  ALL_ROWS <= 0 ->
  Region_new parms lat lon cnt = Ok (ex, region) ->
  forall mask,
    inclusion_ptr region = Some mask ->
    forall s c,
      0 <= s -> H5Array.get (segment_ph_cnt region) s = Some c -> c <> 0 ->
      exists included, H5Array.get mask s = Some (Some included).
Proof.
  intros Hall H mask Hmask s c Hs Hc Hne. unfold Region_new in H.
  destruct (raster parms) as [includes|].
  - apply bind_Ok_inv in H. destruct H as (r & Hras & H).
    destruct (Z.leb_spec (num_photons r) 0); [discriminate|].
    inversion H; subst ex region; clear H.
    cbn [inclusion_ptr segment_ph_cnt] in Hmask, Hc.
    apply rasterregion_facts in Hras; [|reflexivity].
    cbn [segment_lat segment_lon segment_ph_cnt num_photons] in Hras.
    destruct Hras as (_ & _ & Hcnt & [Hcrop|[Hnone _]]); [|lia].
    destruct Hcrop as (Hfirst & _ & _ & _ & _ & _ & _ & _ & mask0 & Hm0 & Hcells).
    rewrite Hm0 in Hmask. inversion Hmask; subst mask0.
    rewrite Hcnt, get_trim in Hc by lia.
    specialize (Hcells s c Hs Hc).
    destruct (Z.eqb_spec c 0); [contradiction|].
    destruct Hcells as (lat_s & lon_s & _ & _ & Hget). eauto.
  - destruct (0 <? points_in_poly parms).
    + apply bind_Ok_inv in H. destruct H as (r & Hpoly & H).
      destruct (Z.leb_spec (num_photons r) 0); [discriminate|].
      inversion H; subst ex region; clear H. cbn [inclusion_ptr] in Hmask.
      apply polyregion_facts in Hpoly; [|reflexivity].
      destruct Hpoly as (_ & _ & _ & Hptr & _). rewrite Hptr in Hmask. discriminate.
    + inversion H; subst ex region. discriminate.
Qed.

(** X23.  The worker stays inside its arrays.  The crop succeeded, YAPC scoring
    and the ATL08 join stayed inside their arrays, the datasets fit
    together, the request fits them (the ancillary ATL08 fields are asked
    for only together with the ATL08 stage), the ancillary fields asked for
    can be read at the photons, the segments and the land segment indices
    of the crop, and the conversions of the extent loop are defined: then
    nothing the [try] block of the worker does is undefined, the index adds
    at the end of the filter block and the three calls of
    [generateAncillaryRecords] included, however long the reader stays
    active; it ends normally or by a [RunTimeException]. *)
Theorem thread_in_bounds (reader : reader_t) (info : info_t)
  (parms : Icesat2Parms) (lat lon : list float) (cnt : list Z)
  (read_atl03 : Region -> Atl03Data.t) (atl08 : Atl08Class.t)
  (active_for : nat) (ex : region_exit) (region : Region) :
  ALL_ROWS <= 0 ->
  Region_new parms lat lon cnt = Ok (ex, region) ->
  no_fault (YapcScore_new parms region (read_atl03 region)) ->
  no_fault (classify info parms region (read_atl03 region) atl08) ->
  datasets_consistent region (read_atl03 region) ->
  request_consistent parms region (read_atl03 region) atl08 ->
  (forall atl08',
     classify info parms region (read_atl03 region) atl08 = Ok atl08' ->
     fields_readable parms (read_atl03 region) atl08') ->
  conversions_defined parms (read_atl03 region) ->
  no_fault (ending (subsettingThread reader info parms lat lon cnt read_atl03 atl08
                      active_for)).
Proof.
  intros Hall Hreg Hyapc Hcls Hdata Hreq Hfields Hconv.
  unfold subsettingThread, thread_setup. rewrite Hreg. cbn [bind]. cbv zeta.
  set (atl03 := read_atl03 region) in *.
  destruct (YapcScore_new parms region atl03) as [yapc_scores| |] eqn:Ey;
    cbn [bind]; [|discriminate|now contradiction Hyapc].
  destruct (classify info parms region atl03 atl08) as [atl08'| |] eqn:Ec;
    cbn [bind]; [|discriminate|now contradiction Hcls].
  specialize (Hfields atl08' eq_refl).
  pose proof Hdata as (HN & HS & _).
  unfold TrackState_new.
  destruct (get_Ok_in_range (Atl03Data.segment_dist_x atl03) 0 ltac:(lia)) as (d0 & ->).
  cbn [bind].
  destruct Hreq as (Hnone & Hpho & Hanc & Hcount & Hv3).
  apply extent_loop_in_bounds; [exact Hdata| |exact Hconv|exact Hfields| | |].
  - assert (Hscore : forall score, YapcScore.score yapc_scores = Some score ->
              written score (H5Array.size (Atl03Data.dist_ph_along atl03))).
    { intros score Hs. unfold YapcScore_new in Ey.
      destruct (stage_yapc parms) eqn:Hst; cbn [negb] in Ey.
      - destruct (Z.eqb_spec (yapc_version (yapc parms)) 3) as [H3|H3].
        + apply bind_Ok_inv in Ey. destruct Ey as (sc & Hsc & Ey).
          inversion Ey; subst yapc_scores. cbn in Hs. inversion Hs; subst sc.
          exact (Hv3 eq_refl H3 score Hsc).
        + destruct (_ || _); [|discriminate].
          apply bind_Ok_inv in Ey. destruct Ey as ([sc segs] & Hsc & Ey).
          inversion Ey; subst yapc_scores. cbn in Hs. inversion Hs; subst sc.
          exact (yapcV2_written _ _ _ _ _ Hsc).
      - inversion Ey; subst yapc_scores. discriminate. }
    destruct (stage_atl08 parms) eqn:Hstage.
    + destruct (classify_written _ _ _ _ _ _ Hstage Ec)
        as (Hph & (cls & Hc & Hw) & Hw' & _).
      cbv zeta in Hw, Hw'. rewrite (Hcount eq_refl) in Hw, Hw'.
      split; [|split; [exact Hscore|split]].
      * intros classification E. rewrite Hc in E. inversion E; subst. exact Hw.
      * rewrite Hph. exact Hw'.
      * intros mask Hmask s c Hs Hc' Hpos.
        apply (Region_new_mask _ _ _ _ _ _ Hall Hreg mask Hmask s c Hs Hc'). lia.
    + assert (atl08' = atl08).
      { unfold classify in Ec. rewrite Hstage in Ec. now inversion Ec. }
      subst atl08'.
      split; [|split; [exact Hscore|split]].
      * intros classification E. congruence.
      * intros Hph. specialize (Hpho Hph). discriminate.
      * intros mask Hmask s c Hs Hc' Hpos.
        apply (Region_new_mask _ _ _ _ _ _ Hall Hreg mask Hmask s c Hs Hc'). lia.
  - intros Hdict.
    destruct (stage_atl08 parms) eqn:Hstage.
    + destruct (classify_written _ _ _ _ _ _ Hstage Ec)
        as (_ & _ & _ & Hw & Hsame).
      rewrite Hsame in Hdict. destruct (Hanc Hdict) as (Ha & _).
      cbv zeta in Hw. rewrite (Hcount eq_refl) in Hw. exact (Hw Ha).
    + assert (atl08' = atl08).
      { unfold classify in Ec. rewrite Hstage in Ec. now inversion Ec. }
      subst atl08'. destruct (Hanc Hdict) as (_ & Hs). discriminate.
  - repeat split; cbn; lia.
  - split; [|split]; cbn; intros l E; discriminate.
Qed.

(** X24.  An empty beam.  The stages before the extent loop succeeded and the
    reader is active.  If the crop has no segment, the constructor of
    [TrackState] reads [segment_dist_x[0]] outside the dataset; if it has
    segments but no photon, the first pass of the extent loop reads
    [dist_ph_along[0]] outside the dataset.  Either way the worker posts
    nothing and what it does is undefined: only the spatial filters turn an
    empty crop into the exception [RTE_EMPTY_SUBSET]. *)
Theorem empty_beam_out_of_bounds (reader : reader_t) (info : info_t)
  (parms : Icesat2Parms) (lat lon : list float) (cnt : list Z)
  (read_atl03 : Region -> Atl03Data.t) (atl08 : Atl08Class.t)
  (active_for : nat) (ex : region_exit) (region : Region)
  (yapc_scores : YapcScore.t) (atl08' : Atl08Class.t) :
  Region_new parms lat lon cnt = Ok (ex, region) ->
  YapcScore_new parms region (read_atl03 region) = Ok yapc_scores ->
  classify info parms region (read_atl03 region) atl08 = Ok atl08' ->
  Atl03Data.segment_dist_x (read_atl03 region) = [] \/
  (Atl03Data.dist_ph_along (read_atl03 region) = [] /\ (0 < active_for)%nat) ->
  subsettingThread reader info parms lat lon cnt read_atl03 atl08 active_for
  = {| records := []; ending := Fault |}.
Proof.
  intros Hreg Hy Hc Hempty. unfold subsettingThread, thread_setup.
  rewrite Hreg. cbn [bind]. cbv zeta. rewrite Hy. cbn [bind]. rewrite Hc. cbn [bind].
  unfold TrackState_new.
  destruct (Atl03Data.segment_dist_x (read_atl03 region)) as [|d0 dist_x] eqn:Ex.
  - reflexivity.
  - destruct Hempty as [Hx|[Hph Hactive]]; [discriminate|].
    cbn [H5Array.get Z.ltb Z.compare Z.to_nat nth_error rd bind].
    destruct active_for as [|n]; [lia|].
    cbn [extent_loop TrackState.track_complete].
    unfold subsetting_extent, extent_start. cbn [TrackState.ph_in]. rewrite Hph.
    reflexivity.
Qed.

(* ================================================================== *)
(** * Photons within the length of their extent                        *)
(* ================================================================== *)


Section Within_extent.

Variables (parms : Icesat2Parms) (region : Region) (atl03 : Atl03Data.t)
  (atl08 : Atl08Class.t) (yapc_scores : YapcScore.t).






End Within_extent.


End Atl03Reader.

(* ================================================================== *)
(** * The reader on the sample constants                               *)
(* ================================================================== *)

Abbreviation sample_classify :=
  (classify Sample.ATL08_TOP_OF_CANOPY Sample.ATL08_UNCLASSIFIED
     Sample.CNF_SURFACE_HIGH Sample.NUM_ATL03_SEGS_IN_ATL08_SEG
     Sample.INVALID_FLAG Sample.INVALID_INDICE Sample.getSpotNumber).

Abbreviation sample_select_photon :=
  (select_photon Sample.ATL08_UNCLASSIFIED Sample.CNF_SURFACE_HIGH
     Sample.INVALID_FLAG Sample.CNF_POSSIBLE_TEP Sample.SIGNAL_CONF_OFFSET
     Sample.QUALITY_NOMINAL Sample.QUALITY_POSSIBLE_TEP Sample.NUM_ATL08_CLASSES
     Sample.deltatime2timestamp).

Abbreviation sample_subsettingThread :=
  (subsettingThread Sample.ALL_ROWS Sample.ATL08_TOP_OF_CANOPY
     Sample.ATL08_UNCLASSIFIED Sample.CNF_SURFACE_HIGH
     Sample.NUM_ATL03_SEGS_IN_ATL08_SEG Sample.INVALID_FLAG Sample.INVALID_INDICE
     Sample.getSpotNumber sample_yapcV3 Sample.CNF_POSSIBLE_TEP
     Sample.SIGNAL_CONF_OFFSET Sample.QUALITY_NOMINAL Sample.QUALITY_POSSIBLE_TEP
     Sample.NUM_ATL08_CLASSES Sample.deltatime2timestamp Sample.generateExtentId).

(** A property of the whole worker, taken at the sample constants. *)
Abbreviation at_sample_thread property :=
  (property Sample.ALL_ROWS Sample.ATL08_TOP_OF_CANOPY Sample.ATL08_UNCLASSIFIED
     Sample.CNF_SURFACE_HIGH Sample.NUM_ATL03_SEGS_IN_ATL08_SEG Sample.INVALID_FLAG
     Sample.INVALID_INDICE Sample.getSpotNumber sample_yapcV3 Sample.CNF_POSSIBLE_TEP
     Sample.SIGNAL_CONF_OFFSET Sample.QUALITY_NOMINAL Sample.QUALITY_POSSIBLE_TEP
     Sample.NUM_ATL08_CLASSES Sample.deltatime2timestamp Sample.generateExtentId).

Abbreviation sample_above_applies :=
  (above_applies Sample.CNF_SURFACE_HIGH Sample.getSpotNumber).

(** The beam of scenario 3 read under [classified_parms]. *)
Abbreviation classified_run :=
  (sample_subsettingThread sample_reader sample_info classified_parms
     [0%float] [0%float] [3] (fun _ => scenario3_atl03) scenario3_atl08 5%nat).

(** The beam of [odd_quality_atl03] read under [strict_parms]. *)
Abbreviation odd_quality_run :=
  (sample_subsettingThread sample_reader sample_info strict_parms
     [0%float] [0%float] [2] (fun _ => odd_quality_atl03) no_atl08 5%nat).

(** ** The polygon crop *)

Example polygon_crop_run :
  Region_new Sample.ALL_ROWS polygon_parms polygon_lat polygon_lon polygon_cnt
    = Ok (Cropped, polygon_crop).
Proof. vm_compute. reflexivity. Qed.

(** The crop closure at the polygon crop: 2 photons before it, 4 in it. *)
Lemma region_crop_closure_witness :
  first_photon polygon_crop
    = sum_counts (slice polygon_cnt 0 (first_segment polygon_crop)) /\
  num_photons polygon_crop
    = sum_counts (slice polygon_cnt (first_segment polygon_crop)
                    (num_segments polygon_crop)).
Proof.
  apply (region_crop_closure Sample.ALL_ROWS polygon_parms polygon_lat polygon_lon
           polygon_cnt polygon_crop).
  - unfold Sample.ALL_ROWS. lia.
  - vm_compute. reflexivity.
Defined.

(** ** The beam filtered by ATL08 class *)

(** The unclassified photon in the middle is dropped; the two others make
    one extent, and the beam ends without an exception. *)
Example classified_run_posts :
  classified_run
  = {| records := [post_record classified_extent]; ending := Ok tt |}.
Proof. vm_compute. reflexivity. Qed.

(** Filter conservation at the last photon of that extent, whose class is 3. *)
Lemma emitted_photons_pass_filters_witness :
  atl03_cnf classified_parms
    (photon_t.atl03_cnf (scenario3_photon 2 (-17) 3 3) + Sample.SIGNAL_CONF_OFFSET)
    = true /\
  quality_ph classified_parms (photon_t.quality_ph (scenario3_photon 2 (-17) 3 3))
    = true /\
  atl08_class classified_parms (photon_t.atl08_class (scenario3_photon 2 (-17) 3 3))
    = true.
Proof.
  destruct (emitted_photons_pass_filters
              Sample.ALL_ROWS Sample.ATL08_TOP_OF_CANOPY Sample.ATL08_UNCLASSIFIED
              Sample.CNF_SURFACE_HIGH Sample.NUM_ATL03_SEGS_IN_ATL08_SEG
              Sample.INVALID_FLAG Sample.INVALID_INDICE Sample.getSpotNumber
              sample_yapcV3 Sample.CNF_POSSIBLE_TEP Sample.SIGNAL_CONF_OFFSET
              Sample.QUALITY_NOMINAL Sample.QUALITY_POSSIBLE_TEP
              Sample.NUM_ATL08_CLASSES Sample.deltatime2timestamp
              Sample.generateExtentId
              sample_reader sample_info classified_parms [0%float] [0%float] [3]
              (fun _ => scenario3_atl03) scenario3_atl08 5
              classified_extent (scenario3_photon 2 (-17) 3 3))
    as (Hcnf & Hquality & Hclass & _).
  - vm_compute. left. reflexivity.
  - vm_compute. right. left. reflexivity.
  - split; [exact Hcnf|]. split; [exact Hquality|]. apply Hclass. reflexivity.
Defined.

(** ** The photon of odd quality *)

(** C9 as stated fails: the beam that holds a photon of quality 100 ends
    without an exception, and posts an extent made of the other photon.  The
    confidence table rejected the photon before its quality was looked at. *)
Lemma out_of_range_quality_not_fatal :
  H5Array.get (Atl03Data.quality_ph odd_quality_atl03) 0 = Some 100 /\
  ~ (Sample.QUALITY_NOMINAL <= 100 <= Sample.QUALITY_POSSIBLE_TEP) /\
  ending odd_quality_run = Ok tt /\
  map extent_t.photon_count (posted odd_quality_run) = [1] /\
  map (fun extent => map photon_t.ghost_photon (extent_t.photons extent))
    (posted odd_quality_run) = [[1]].
Proof.
  split; [reflexivity|]. split; [|split; [|split]].
  - unfold Sample.QUALITY_NOMINAL, Sample.QUALITY_POSSIBLE_TEP. lia.
  - vm_compute. reflexivity.
  - vm_compute. reflexivity.
  - vm_compute. reflexivity.
Qed.

(** The beam of [odd_confidence_atl03] read under [plain_parms]. *)
Abbreviation odd_confidence_run :=
  (sample_subsettingThread sample_reader sample_info plain_parms
     [0; 0; 0; 0]%float [0; 0; 0; 0]%float [1; 1; 1; 1]
     (fun _ => odd_confidence_atl03) no_atl08 5%nat).

(** The first pass of the extent loop posts the extent of the first two
    photons.  The second pass starts at the second photon and takes the
    third, of confidence 9, into the filter block: the worker ends by the
    exception for that confidence, with the one extent posted. *)
Lemma range_checks_are_staged_witness :
  exists sent,
    odd_confidence_run
    = {| records := sent;
         ending :=
           Throw (mkRTE CRITICAL RTE_ERROR (invalid_atl03_signal_confidence 9)) |} /\
    length sent = 1%nat.
Proof.
  eexists. split.
  - refine (proj1 (at_sample_thread range_checks_are_staged sample_reader sample_info
                     plain_parms [0; 0; 0; 0]%float [0; 0; 0; 0]%float [1; 1; 1; 1]
                     (fun _ => odd_confidence_atl03) no_atl08 5%nat
                     _ _ _ _ _ _ _ _ _ _ 9 0 _ _ _ _ _) _).
    + vm_compute. reflexivity.
    + eexists _, _, _, _, _.
      split.
      { eapply extent_pass_next;
          [apply extent_pass_first|reflexivity|vm_compute; reflexivity]. }
      split; [lia|]. split; [reflexivity|]. split; [vm_compute; reflexivity|].
      split;
        [eapply photon_pass_next;
           [apply photon_pass_first|reflexivity|vm_compute; reflexivity]
        |reflexivity].
    + unfold photon_examined. eexists _, _, _, _.
      split; [vm_compute; reflexivity|]. split; [vm_compute; reflexivity|].
      split; [vm_compute; reflexivity|]. split; [vm_compute; reflexivity|].
      split; [reflexivity|]. split; [vm_compute; reflexivity|].
      split; [reflexivity|]. vm_compute. reflexivity.
    + vm_compute. reflexivity.
    + vm_compute. reflexivity.
    + unfold Sample.CNF_POSSIBLE_TEP, Sample.CNF_SURFACE_HIGH. lia.
  - reflexivity.
Defined.

(** ** More neighbours asked for than [MAX_KNN] *)

(** C8 as stated fails: with [settings.knn = 30] the segment is scored with
    [knn = 25]. *)
Lemma yapcV2_knn_not_settings_knn :
  yapc_knn (yapc (yapc_v2_parms 30)) = 30 /\
  yapcV2_knn (yapc (yapc_v2_parms 30)) 27 = Ok 25 /\
  yapcV2 (yapc_v2_parms 30) (whole_track [27]) dense_segment
    = Ok (repeat (Some 0) 27, [Scored 0 27 25 2 26]).
Proof. repeat split; vm_compute; reflexivity. Qed.

(** The truncation at [settings.knn = 30]. *)
Lemma yapcV2_knn_truncated_witness :
  yapcV2_knn (yapc (yapc_v2_parms 30)) 27 = Ok (Z.min 30 MAX_KNN).
Proof.
  destruct (yapcV2_knn_truncated (yapc_v2_parms 30)) as (Hknn & _).
  - cbn. lia.
  - apply Hknn.
Defined.

(** ** The ABoVE classifier on a segment whose id is not its position *)

(** C7, on the code.  The sun is 10 degrees up at the photon's segment, so
    the condition of the specification is false there and the photon should
    keep its class 1.  [classify] reads [solar_elevation[1]], the elevation
    of the next segment, finds 0 degrees and reassigns the photon to
    [ATL08_TOP_OF_CANOPY]. *)
Theorem above_classifier_reads_wrong_segment :
  sample_above_applies sample_info above_atl03 0 0 10 = Ok false /\
  H5Array.get (Atl03Data.segment_id above_atl03) 0 = Some 1 /\
  sample_above_applies sample_info above_atl03 1 0 10 = Ok true /\
  exists atl08',
    sample_classify sample_info above_parms (whole_track [1; 0]) above_atl03 above_atl08
      = Ok atl08' /\
    Atl08Class.classification atl08' = Some [Some Sample.ATL08_TOP_OF_CANOPY] /\
    Atl08Class.relief atl08' = Some [Some 10%float].
Proof.
  split; [vm_compute; reflexivity|]. split; [reflexivity|].
  split; [vm_compute; reflexivity|].
  eexists. split; [vm_compute; reflexivity|]. split; reflexivity.
Qed.

(** ** Scenario 3 under the hypotheses of the join *)

Lemma scenario3_rows_sorted : rows_sorted scenario3_atl08.
Proof.
  intros j k idj idk Hjk Hj Hk.
  pose proof (get_Some _ _ _ Hk) as Hrange.
  change (H5Array.size (Atl08Class.atl08_segment_id scenario3_atl08)) with 2 in Hrange.
  assert (j = 0) by lia. assert (k = 1) by lia. subst j k.
  vm_compute in Hj, Hk. inversion Hj; inversion Hk; subst idj idk.
  split; [lia|]. intros _ ij ik Hij Hik.
  vm_compute in Hij, Hik. inversion Hij; inversion Hik. lia.
Qed.

Lemma scenario3_segments_increasing :
  segments_increasing (Atl03Data.segment_id scenario3_atl03).
Proof.
  intros i j a b Hij _ Hj.
  pose proof (get_Some _ _ _ Hj) as Hrange.
  change (H5Array.size (Atl03Data.segment_id scenario3_atl03)) with 1 in Hrange.
  lia.
Qed.

(** With [ATL08_UNCLASSIFIED = 0] the classes of scenario 3 are [[1, 0, 3]]. *)
Example scenario3_classes :
  exists atl08',
    sample_classify sample_info atl08_parms (whole_track [3]) scenario3_atl03
      scenario3_atl08 = Ok atl08' /\
    Atl08Class.classification atl08' = Some [Some 1; Some 0; Some 3].
Proof. eexists. split; vm_compute; reflexivity. Qed.

(** C3 as stated fails, in three ways.  With the ATL08 rows [(100, 2, 2)]
    and [(100, 1, 1)], the first photon of segment 100 has one matching
    row, of flag 1, and is left [ATL08_UNCLASSIFIED]: the cursor stands at
    the row of the second photon and only advances.  With segment 101 read
    before segment 100, the photon of segment 100 has the matching row
    [(100, 1, 1)] and is left [ATL08_UNCLASSIFIED], the cursor having passed
    that row for segment 101.  And under the ABoVE classifier the photon of
    [above_atl03], whose one matching row has the flag 1, gets
    [ATL08_TOP_OF_CANOPY]. *)
Lemma classify_join_not_universal :
  (exists atl08',
     sample_classify sample_info atl08_parms (whole_track [2]) two_photons_atl03
       unsorted_atl08 = Ok atl08' /\
     Atl08Class.classification atl08'
     = Some [Some Sample.ATL08_UNCLASSIFIED; Some 2] /\
     atl08_row unsorted_atl08 1 100 1 /\
     (forall k, atl08_row unsorted_atl08 k 100 1 -> k = 1) /\
     H5Array.get (Atl08Class.atl08_pc_flag unsorted_atl08) 1 = Some 1 /\
     ~ joined_class Sample.ATL08_UNCLASSIFIED unsorted_atl08 100 1
         Sample.ATL08_UNCLASSIFIED) /\
  (exists atl08',
     sample_classify sample_info atl08_parms (whole_track [1; 1]) backward_atl03
       two_segments_atl08 = Ok atl08' /\
     Atl08Class.classification atl08'
     = Some [Some 2; Some Sample.ATL08_UNCLASSIFIED] /\
     atl08_row two_segments_atl08 0 100 1 /\
     (forall k, atl08_row two_segments_atl08 k 100 1 -> k = 0) /\
     H5Array.get (Atl08Class.atl08_pc_flag two_segments_atl08) 0 = Some 1 /\
     ~ joined_class Sample.ATL08_UNCLASSIFIED two_segments_atl08 100 1
         Sample.ATL08_UNCLASSIFIED) /\
  (exists atl08',
     sample_classify sample_info above_parms (whole_track [1; 0]) above_atl03
       above_atl08 = Ok atl08' /\
     Atl08Class.classification atl08' = Some [Some Sample.ATL08_TOP_OF_CANOPY] /\
     atl08_row above_atl08 0 1 1 /\
     (forall k, atl08_row above_atl08 k 1 1 -> k = 0) /\
     H5Array.get (Atl08Class.atl08_pc_flag above_atl08) 0 = Some 1 /\
     ~ joined_class Sample.ATL08_UNCLASSIFIED above_atl08 1 1
         Sample.ATL08_TOP_OF_CANOPY).
Proof.
  split; [|split].
  - eexists. split; [vm_compute; reflexivity|]. split; [reflexivity|].
    split; [split; reflexivity|]. split; [|split; [reflexivity|]].
    + intros k [Hid Hix]. pose proof (get_Some _ _ _ Hid) as Hr. cbn in Hr.
      assert (Hk : k = 0 \/ k = 1) by lia.
      destruct Hk as [->| ->]; [vm_compute in Hix; discriminate|reflexivity].
    + intros [Hflag _].
      specialize (Hflag 1 1 (conj eq_refl eq_refl) eq_refl).
      vm_compute in Hflag. discriminate.
  - eexists. split; [vm_compute; reflexivity|]. split; [reflexivity|].
    split; [split; reflexivity|]. split; [|split; [reflexivity|]].
    + intros k [Hid Hix]. pose proof (get_Some _ _ _ Hid) as Hr. cbn in Hr.
      assert (Hk : k = 0 \/ k = 1) by lia.
      destruct Hk as [->| ->]; [reflexivity|vm_compute in Hid; discriminate].
    + intros [Hflag _].
      specialize (Hflag 0 1 (conj eq_refl eq_refl) eq_refl).
      vm_compute in Hflag. discriminate.
  - eexists. split; [vm_compute; reflexivity|]. split; [reflexivity|].
    split; [split; reflexivity|]. split; [|split; [reflexivity|]].
    + intros k [Hid Hix]. pose proof (get_Some _ _ _ Hid) as Hr. cbn in Hr. lia.
    + intros [Hflag _].
      specialize (Hflag 0 1 (conj eq_refl eq_refl) eq_refl).
      vm_compute in Hflag. discriminate.
Qed.

(** The join at the second photon of segment 100, which no ATL08 row
    matches. *)
Lemma classify_join_witness :
  exists atl08' classification class,
    sample_classify sample_info atl08_parms (whole_track [3]) scenario3_atl03
      scenario3_atl08 = Ok atl08' /\
    Atl08Class.classification atl08' = Some classification /\
    load classification (photon_index [3] 0 2) = Ok class /\
    joined_class Sample.ATL08_UNCLASSIFIED scenario3_atl08 100 2 class.
Proof.
  eexists.
  destruct (proj1 (classify_join
                     Sample.ATL08_TOP_OF_CANOPY Sample.ATL08_UNCLASSIFIED
                     Sample.CNF_SURFACE_HIGH Sample.NUM_ATL03_SEGS_IN_ATL08_SEG
                     Sample.INVALID_FLAG Sample.INVALID_INDICE Sample.getSpotNumber)
              sample_info atl08_parms (whole_track [3]) scenario3_atl03
              scenario3_atl08 _ eq_refl scenario3_rows_sorted
              scenario3_segments_increasing eq_refl
              ltac:(vm_compute; reflexivity))
    as (classification & Hclassification & Hjoin).
  destruct (Hjoin 0 100 3 2 eq_refl eq_refl ltac:(lia)) as (class & Hload & Hclass & _).
  exists classification, class.
  split; [vm_compute; reflexivity|]. split; [exact Hclassification|].
  split; [exact Hload|exact Hclass].
Defined.

(** ** The background rate along a beam *)

(** The beam of [timed_track] read under [plain_parms]. *)
Abbreviation timed_run segment_times :=
  (sample_subsettingThread sample_reader sample_info plain_parms
     [0; 0; 0; 0]%float [0; 0; 0; 0]%float [1; 1; 1; 1]
     (fun _ => timed_track segment_times) no_atl08 10%nat).

(** C4 as stated fails.  The first segment of the beam is at time 15 and
    the others at time 5.  The extent that starts at segment 0 leaves the
    cursor at the sample of time 20, and the cursor never moves back: the
    extent that starts at segment 1 gets the value at 5 of the line through
    the samples of times 10 and 20, which is 175, where the piecewise-linear
    interpolation at 5 is 150. *)
Lemma background_rate_not_interpolated :
  exists extent,
    In extent (posted (timed_run [15; 5; 5; 5]%float)) /\
    H5Array.get (Atl03Data.segment_delta_time (timed_track [15; 5; 5; 5]%float))
      (extent_t.ghost_extent_segment extent) = Some 5%float /\
    piecewise_linear (Atl03Data.bckgrd_delta_time (timed_track [15; 5; 5; 5]%float))
      (Atl03Data.bckgrd_rate (timed_track [15; 5; 5; 5]%float)) 5 = Some 150%float /\
    extent_t.background_rate extent = 175%float /\
    PrimFloat.eqb 175 150 = false.
Proof.
  eexists. split; [vm_compute; right; left; reflexivity|].
  repeat split; vm_compute; reflexivity.
Qed.

Lemma timed_track_ordered :
  segment_times_ordered
    (Atl03Data.segment_delta_time (timed_track [5; 15; 25; 25]%float)).
Proof.
  intros i j ti tj Hij Hi Hj.
  pose proof (get_Some _ _ _ Hj) as Hrange.
  change (H5Array.size (Atl03Data.segment_delta_time (timed_track [5; 15; 25; 25]%float)))
    with 4 in Hrange.
  assert (Hj' : j = 1 \/ j = 2 \/ j = 3) by lia.
  assert (Hi' : i = 0 \/ i = 1 \/ i = 2) by lia.
  destruct Hj' as [E|[E|E]]; subst j; destruct Hi' as [E|[E|E]]; subst i; try lia;
    vm_compute in Hi, Hj; inversion Hi; inversion Hj; subst ti tj;
    vm_compute; reflexivity.
Qed.

(** With the segments at times 5, 15, 25 and 25, the extent that starts at
    segment 1 carries the rate 225, the value at 15 of the line through the
    samples of times 10 and 20. *)
Lemma extent_background_rate_witness :
  exists extent,
    nth_error (posted (timed_run [5; 15; 25; 25]%float)) 1 = Some extent /\
    extent_t.ghost_extent_segment extent = 1 /\
    extent_t.background_rate extent = 225%float /\
    piecewise_linear [0; 10; 20]%float [100; 200; 250]%float 15
    = Some (extent_t.background_rate extent).
Proof.
  eexists. split; [vm_compute; reflexivity|]. split; [reflexivity|].
  split; [reflexivity|].
  destruct (proj1 (at_sample_thread extent_background_rate)
              sample_reader sample_info plain_parms
              [0; 0; 0; 0]%float [0; 0; 0; 0]%float [1; 1; 1; 1]
              (fun _ => timed_track [5; 15; 25; 25]%float) no_atl08 10%nat _
              (fun _ _ _ => timed_track_ordered)
              ltac:(vm_compute; right; left; reflexivity))
    as (ex & region & _ & Hrate).
  exact (Hrate 15%float eq_refl).
Defined.

(* ================================================================== *)
(** * The crops on the sample constants                                *)
(* ================================================================== *)

Example raster_crop_run :
  Region_new Sample.ALL_ROWS raster_parms raster_lat raster_lon raster_cnt
    = Ok (Cropped, raster_crop).
Proof. vm_compute. reflexivity. Qed.

(** The polygon crop starts at segment 2, the first segment with photons
    inside the polygon, and holds 2 segments of the 5. *)
Lemma region_crop_window_witness :
  first_segment polygon_crop = 2 /\
  1 <= num_segments polygon_crop /\
  first_segment polygon_crop + num_segments polygon_crop <= 5 /\
  segment_selected polygon_parms polygon_lat polygon_lon polygon_cnt 2 /\
  segment_ph_cnt polygon_crop = H5Array.trim 2 polygon_cnt.
Proof.
  destruct (region_crop_window Sample.ALL_ROWS polygon_parms polygon_lat polygon_lon
              polygon_cnt polygon_crop)
    as (_ & Hnum & Hend & Hfirst & _ & _ & _ & Hcnt).
  - unfold Sample.ALL_ROWS. lia.
  - vm_compute. reflexivity.
  - split; [reflexivity|]. split; [exact Hnum|]. split; [exact Hend|].
    split; [exact Hfirst|exact Hcnt].
Defined.

(** Segment 4, with photons and outside the polygon, ends the polygon
    crop. *)
Lemma polygon_crop_contiguous_witness :
  rejected_by (inpoly polygon_parms) polygon_lat polygon_lon polygon_cnt 4.
Proof.
  destruct (polygon_crop_contiguous Sample.ALL_ROWS polygon_parms polygon_lat
              polygon_lon polygon_cnt polygon_crop) as [_ Hend].
  - unfold Sample.ALL_ROWS. lia.
  - reflexivity.
  - vm_compute. reflexivity.
  - apply Hend. vm_compute. reflexivity.
Defined.

(** The raster crop ends at segment 4, and segment 5 is not selected. *)
Lemma raster_crop_last_witness :
  selected_by (fun lon lat => PrimFloat.ltb 0.5 lon) raster_lat raster_lon raster_cnt 4 /\
  ~ selected_by (fun lon lat => PrimFloat.ltb 0.5 lon) raster_lat raster_lon raster_cnt 5.
Proof.
  destruct (raster_crop_last Sample.ALL_ROWS raster_parms
              (fun lon lat => PrimFloat.ltb 0.5 lon) raster_lat raster_lon
              raster_cnt raster_crop) as [Hlast Hafter].
  - unfold Sample.ALL_ROWS. lia.
  - reflexivity.
  - vm_compute. reflexivity.
  - split; [exact Hlast|]. apply Hafter. vm_compute. discriminate.
Defined.

(** In the raster crop the mask is set for segment 1, clear for segment 2,
    and unwritten for segment 3, which has no photon. *)
Lemma raster_mask_content_witness :
  exists mask,
    inclusion_ptr raster_crop = Some mask /\
    load mask 0 = Ok true /\ load mask 1 = Ok false /\ load mask 2 = Fault.
Proof.
  destruct (raster_mask_content Sample.ALL_ROWS raster_parms
              (fun lon lat => PrimFloat.ltb 0.5 lon) raster_lat raster_lon
              raster_cnt raster_crop) as (mask & Hptr & Hmask).
  - unfold Sample.ALL_ROWS. lia.
  - reflexivity.
  - vm_compute. reflexivity.
  - exists mask. split; [exact Hptr|].
    pose proof (Hmask 0 3 ltac:(lia) eq_refl) as H0.
    pose proof (Hmask 1 5 ltac:(lia) eq_refl) as H1.
    pose proof (Hmask 2 0 ltac:(lia) eq_refl) as H2.
    cbn in H0, H1, H2.
    destruct H0 as (a0 & b0 & Ha0 & Hb0 & H0).
    destruct H1 as (a1 & b1 & Ha1 & Hb1 & H1).
    inversion Ha0; inversion Hb0; inversion Ha1; inversion Hb1; subst.
    split; [exact H0|]. split; [exact H1|]. exact (proj2 H2).
Defined.

(** Segment 2 of the polygon scenario is selected, so the constructor
    returns a crop. *)
Lemma region_empty_subset_witness :
  exists r,
    Region_new Sample.ALL_ROWS polygon_parms polygon_lat polygon_lon polygon_cnt
      = Ok (Cropped, r).
Proof.
  apply (region_empty_subset Sample.ALL_ROWS polygon_parms polygon_lat polygon_lon
           polygon_cnt).
  - unfold Sample.ALL_ROWS. lia.
  - right. vm_compute. reflexivity.
  - split; [vm_compute; discriminate|]. split; [vm_compute; discriminate|].
    apply get_Forall. repeat constructor; lia.
  - exists 2, 0%float, 1%float, 3. repeat split; try reflexivity. lia.
Defined.

(* ================================================================== *)
(** * The extent state machine on the sample constants                 *)
(* ================================================================== *)

Lemma classified_extent_posted : In classified_extent (posted classified_run).
Proof. vm_compute. left. reflexivity. Qed.

(** The extent of the classified beam holds two photons and is valid for a
    request that asks for at least one. *)
Lemma posted_extent_valid_flag_witness :
  extent_t.valid classified_extent = true /\
  minimum_photon_count classified_parms
    <= Z.of_nat (length (extent_t.photons classified_extent)).
Proof.
  destruct (at_sample_thread posted_extent_valid_flag sample_reader sample_info
              classified_parms [0%float] [0%float] [3] (fun _ => scenario3_atl03)
              scenario3_atl08 5%nat classified_extent classified_extent_posted)
    as [Hvalid _].
  split; [reflexivity|]. apply Hvalid. reflexivity.
Defined.

Lemma posted_extent_header_witness :
  extent_t.track classified_extent = 1 /\
  extent_t.extent_length classified_extent = 40%float /\
  extent_t.photon_count classified_extent = 2.
Proof.
  destruct (at_sample_thread posted_extent_header sample_reader sample_info
              classified_parms [0%float] [0%float] [3] (fun _ => scenario3_atl03)
              scenario3_atl08 5%nat classified_extent classified_extent_posted)
    as (Htrack & _ & _ & _ & Hlen & Hcount).
  split; [exact Htrack|]. split; [exact Hlen|exact Hcount].
Defined.

(** The beam of [sparse_atl03] read under [sparse_parms]. *)
Abbreviation sparse_run :=
  (sample_subsettingThread sample_reader sample_info sparse_parms
     [0; 0; 0]%float [0; 0; 0]%float [1; 0; 2] (fun _ => sparse_atl03) no_atl08
     5%nat).

(** The first pass of the extent loop makes an extent of one photon, which
    is filtered out; the second posts an extent of two photons, whose id is
    that of counter 1. *)
Lemma posted_extent_ids_witness :
  map extent_t.extent_id (posted sparse_run) = [Sample.generateExtentId 1234 5 6 1 0 1] /\
  exists passes,
    Forall2 (fun k extent =>
               extent_t.extent_id extent
               = Sample.generateExtentId 1234 5 6 1 0 (Z.of_nat k))
      passes (posted sparse_run) /\
    increasing (map Z.of_nat passes).
Proof.
  split; [vm_compute; reflexivity|].
  destruct (at_sample_thread posted_extent_ids sample_reader sample_info sparse_parms
              [0; 0; 0]%float [0; 0; 0]%float [1; 0; 2] (fun _ => sparse_atl03)
              no_atl08 5%nat _ _ _ _ _ ltac:(cbn; lia)
              ltac:(vm_compute; reflexivity))
    as (_ & passes & Hall & _ & Hinc).
  exists passes. split; [|exact Hinc].
  eapply Forall2_impl; [|exact Hall]. intros k extent [_ Hid]. exact Hid.
Defined.

(** The first photon of the classified extent is ATL03 photon 0, its second
    ATL03 photon 2. *)
Lemma posted_photons_in_order_witness :
  photon_before (scenario3_photon 0 (-19) 1 1) (scenario3_photon 2 (-17) 3 3).
Proof.
  apply (at_sample_thread posted_photons_in_order sample_reader sample_info
           classified_parms [0%float] [0%float] [3] (fun _ => scenario3_atl03)
           scenario3_atl08 5%nat classified_extent classified_extent_posted
           0%nat 1%nat); [lia|reflexivity|reflexivity].
Defined.

(** The last photon of the classified extent carries the height 3 of ATL03
    photon 2. *)
Lemma posted_photon_fields_witness :
  H5Array.get (Atl03Data.h_ph scenario3_atl03) 2 = Some 3%float /\
  photon_t.relief (scenario3_photon 2 (-17) 3 3) = 0%float.
Proof.
  destruct (at_sample_thread posted_photon_fields sample_reader sample_info
              classified_parms [0%float] [0%float] [3] (fun _ => scenario3_atl03)
              scenario3_atl08 5%nat classified_extent (scenario3_photon 2 (-17) 3 3)
              classified_extent_posted)
    as (ex & region & atl08' & Hreg & Hcls & Hcopied & Hphoreal).
  - right. left. reflexivity.
  - destruct Hcopied as (_ & _ & _ & _ & Hh). split; [exact Hh|reflexivity].
Defined.

(* ================================================================== *)
(** * YAPC version 2 on two segments of three photons                  *)
(* ================================================================== *)

Example yapc_two_segments_run :
  yapcV2 (yapc_v2_parms 1) (whole_track [3; 3]) yapc_two_segments
    = Ok ([Some 170; Some 170; Some 170; Some 255; Some 255; Some 255],
          [Scored 0 3 1 2 2; Scored 3 6 1 2 2]).
Proof. vm_compute. reflexivity. Qed.

(** Photon 4 is scored 255, and lies in the center band of the second
    segment. *)
Lemma yapcV2_scores_witness :
  exists ph_c0 ph_c1 knn hspread xspread,
    In (Scored ph_c0 ph_c1 knn hspread xspread)
       [Scored 0 3 1 2 2; Scored 3 6 1 2 2] /\
    ph_c0 <= 4 < ph_c1.
Proof.
  destruct (yapcV2_scores (yapc_v2_parms 1) (whole_track [3; 3]) yapc_two_segments
              _ _ yapc_two_segments_run) as (_ & Hscore).
  destruct (Hscore 4) as (sc & Hload & _ & Hband).
  - cbn. lia.
  - apply Hband. cbn in Hload. inversion Hload. lia.
Defined.

(** The second segment holds 3 photons, is scored with [knn = 1], and its
    center band is photons 3 to 5. *)
Lemma yapcV2_center_bands_witness :
  exists N knn,
    H5Array.get [3; 3] 1 = Some N /\
    yapcV2_knn (yapc (yapc_v2_parms 1)) N = Ok knn /\
    fate_of_segment (yapc_v2_parms 1) [3; 3] 1 N knn (Scored 3 6 1 2 2).
Proof.
  destruct (yapcV2_center_bands (yapc_v2_parms 1) (whole_track [3; 3])
              yapc_two_segments _ _ yapc_two_segments_run) as (_ & Hfates).
  apply (Hfates 1%nat). reflexivity.
Defined.

(** After the pass for the second of the two segments the center band is
    photons 3 to 5 and the neighbour window photons 0 to 2. *)
Lemma yapcV2_window_indices_witness :
  exists v,
    yapcV2_segments (yapc_v2_parms 1) (whole_track [3; 3]) yapc_two_segments 2 2 0
      (yapcV2_init yapc_two_segments) = Ok v /\
    ph_b0 v = 0 /\ ph_c0 v = 3 /\ ph_c1 v = 6 /\ ph_b1 v = 3.
Proof.
  assert (E : { v | yapcV2_segments (yapc_v2_parms 1) (whole_track [3; 3])
                      yapc_two_segments 2 2 0 (yapcV2_init yapc_two_segments) = Ok v }).
  { eexists. vm_compute. reflexivity. }
  destruct E as [v E]. exists v. split; [exact E|].
  exact (yapcV2_window_indices (yapc_v2_parms 1) (whole_track [3; 3])
           yapc_two_segments 2 2 v E).
Defined.

(* ================================================================== *)
(** * The join of the PhoREAL beam                                     *)
(* ================================================================== *)

(** A property of [classify], taken at the sample constants. *)
Abbreviation at_sample_classify property :=
  (property Sample.ATL08_TOP_OF_CANOPY Sample.ATL08_UNCLASSIFIED
     Sample.CNF_SURFACE_HIGH Sample.NUM_ATL03_SEGS_IN_ATL08_SEG
     Sample.INVALID_FLAG Sample.INVALID_INDICE Sample.getSpotNumber).

Lemma above_segments_increasing :
  segments_increasing (Atl03Data.segment_id above_atl03).
Proof.
  intros i j a b Hij Hi Hj.
  pose proof (get_Some _ _ _ Hj) as Hr. cbn in Hr.
  assert (i = 0 /\ j = 1) as [-> ->] by lia.
  cbn in Hi, Hj. inversion Hi; inversion Hj; lia.
Qed.

(** The photon of segment 1 is joined with an ATL08 row keyed (1, 1). *)
Lemma classify_rows_sound_witness :
  exists atl08',
    sample_classify sample_info above_parms (whole_track [1; 0]) above_atl03
      above_atl08 = Ok atl08' /\
    exists k,
      photon_matched Sample.ATL08_TOP_OF_CANOPY above_parms above_atl08 atl08' 1 1 0 k.
Proof.
  eexists. split; [vm_compute; reflexivity|].
  destruct (at_sample_classify classify_rows_sound sample_info above_parms
              (whole_track [1; 0]) above_atl03 above_atl08 _ 0 1 1 1
              eq_refl ltac:(vm_compute; reflexivity) eq_refl eq_refl ltac:(lia))
    as [[Hu _]|Hm].
  - vm_compute in Hu. discriminate Hu.
  - exact Hm.
Defined.

(** Its landcover and snowcover are those of land segment 0, which starts
    at segment 1. *)
Lemma classify_land_segment_witness :
  exists atl08',
    sample_classify sample_info above_parms (whole_track [1; 0]) above_atl03
      above_atl08 = Ok atl08' /\
    exists index,
      first_land_segment Sample.NUM_ATL03_SEGS_IN_ATL08_SEG above_atl08 1 index /\
      land_fields above_atl08 atl08' 0 index.
Proof.
  eexists. split; [vm_compute; reflexivity|].
  destruct (at_sample_classify classify_land_segment sample_info above_parms
              (whole_track [1; 0]) above_atl03 above_atl08 _ 0 1 1 1
              eq_refl eq_refl above_segments_increasing
              ltac:(vm_compute; reflexivity) eq_refl eq_refl ltac:(lia))
    as [[Hu _]|Hl].
  - vm_compute in Hu. discriminate Hu.
  - exact Hl.
Defined.

(** The beam has one photon, and [classify] writes one cell. *)
Lemma classify_writes_counted_witness :
  exists atl08' classification,
    sample_classify sample_info above_parms (whole_track [1; 0]) above_atl03
      above_atl08 = Ok atl08' /\
    Atl08Class.classification atl08' = Some classification /\
    H5Array.size classification = 1 /\
    photon_index [1; 0] 2 1 <= H5Array.size classification /\
    forall q, photon_index [1; 0] 2 1 <= q -> cell (Some classification) q = None.
Proof.
  eexists.
  destruct (at_sample_classify classify_writes_counted sample_info above_parms
              (whole_track [1; 0]) above_atl03 above_atl08 _
              ltac:(vm_compute; reflexivity)) as [_ Hon].
  destruct (Hon eq_refl) as ((classification & Hcls & Hsize & Hfit & Hrest) & _).
  exists classification.
  split; [vm_compute; reflexivity|]. split; [exact Hcls|].
  split; [exact Hsize|]. split; [exact Hfit|exact Hrest].
Defined.

(* ================================================================== *)
(** * A reader for an invalid track, and two workers                   *)
(* ================================================================== *)

(** With three tracks of two beams, a request for track 7 starts no
    thread: the constructor posts the exception record and the terminator. *)
Lemma constructor_outcome_witness :
  exists reader f,
    Atl03Reader_new 3 2 0 sample_resource 7 true
      = Ok reader /\
    c_outq reader
    = [exception_status RTE_RESOURCE_DOES_NOT_EXIST CRITICAL f; terminator].
Proof.
  destruct (constructor_outcome 3 2 0
              sample_resource 7 true
              ltac:(vm_compute; discriminate))
    as (reader & Hrun & Hnone & _ & Hfailed).
  destruct Hfailed as (f & Hq & _).
  - apply Hnone. right. vm_compute. reflexivity.
  - exists reader, f. split; [exact Hrun|exact Hq].
Defined.

(** On a name of four characters the constructor returns: the write of
    ['8'] replaces the terminator of the copy, the name is too short to be
    parsed and gives zeros, and the threads of track 1 are started. *)
Example four_character_resource :
  exists reader,
    Atl03Reader_new 3 2 0 short_resource 1 true = Ok reader /\
    c_resource08 reader = short_resource08 /\
    c_globals reader = Some {| start_rgt := 0; start_cycle := 0; start_region := 0 |} /\
    length (c_threads reader) = 2%nat /\
    c_outq reader = [].
Proof. eexists. split; [vm_compute; reflexivity|]. repeat split. Qed.

(** Worker 1 posts an exception and ends, then worker 0 posts the
    classified extent and ends. *)
Lemma terminator_after_records_witness :
  exists r',
    run_workers true
      [(1%nat, posts (rec_exception
                        (mkRTE DEBUG RTE_EMPTY_SUBSET empty_spatial_region)));
       (1%nat, completes);
       (0%nat, posts (rec_extent classified_extent));
       (0%nat, completes)]
      [0%nat; 1%nat]
      {| threadCount := 2; numComplete := 0; outQ := []; signalled := 0 |}
    = Some r' /\
    outQ r'
    = [msg_record (rec_exception
                     (mkRTE DEBUG RTE_EMPTY_SUBSET empty_spatial_region));
       msg_record (rec_extent classified_extent);
       msg_terminator] /\
    signalled r' = 1.
Proof.
  eexists. split; [reflexivity|].
  destruct (terminator_after_records true
              [(1%nat, posts (rec_exception
                                (mkRTE DEBUG RTE_EMPTY_SUBSET empty_spatial_region)));
               (1%nat, completes);
               (0%nat, posts (rec_extent classified_extent));
               (0%nat, completes)]
              [0%nat; 1%nat]
              {| threadCount := 2; numComplete := 0; outQ := []; signalled := 0 |}
              _
              ltac:(repeat constructor; cbn; intuition discriminate)
              ltac:(discriminate) eq_refl eq_refl eq_refl)
    as (Hq & Hs & _).
  split; [exact Hq|exact Hs].
Defined.

(* ================================================================== *)
(** * Two timeouts, and an ancillary record with an invalid index      *)
(* ================================================================== *)

(** With [STATE_TIMEOUT = 0]: two attempts time out and the third returns
    1. *)
Lemma postRecord_counts_once_witness :
  postRecord 0 [post_returns 0; post_returns 0; post_returns 1]
    = Some [extents_retried; extents_retried; extents_sent] /\
  exists retries final,
    [extents_retried; extents_retried; extents_sent]
    = repeat extents_retried retries ++ [final] /\
    (forall i, (i < retries)%nat ->
       nth_error [post_returns 0; post_returns 0; post_returns 1] i
       = Some (post_returns 0)) /\
    ((final = extents_sent /\
      exists status,
        nth_error [post_returns 0; post_returns 0; post_returns 1] retries
        = Some (post_returns status) /\ 0 < status) \/
     (final = extents_dropped /\
      (nth_error [post_returns 0; post_returns 0; post_returns 1] retries
       = Some reader_inactive \/
       exists status,
         nth_error [post_returns 0; post_returns 0; post_returns 1] retries
         = Some (post_returns status) /\
         status <= 0 /\ status <> 0))).
Proof.
  split; [reflexivity|].
  apply (postRecord_counts_once 0
           [post_returns 0; post_returns 0; post_returns 1]);
    [lia|reflexivity].
Defined.

(** Elements of two bytes, the second index invalid. *)
Lemma ancillary_record_layout_witness :
  exists data,
    ancillary_record Sample.INVALID_INDICE 2 (fun index => Ok [index; index + 1])
      [5; Sample.INVALID_INDICE; 7] = Ok (3, data) /\
    element_bytes 2 data 1 = [Some 255; Some 255] /\
    element_bytes 2 data 2 = [Some 7; Some 8].
Proof.
  destruct (ancillary_record_layout Sample.INVALID_INDICE 2
              (fun index => Ok [index; index + 1]) [5; Sample.INVALID_INDICE; 7]
              ltac:(lia) ltac:(intros; eexists; split; reflexivity))
    as (data & Hrun & _ & Hbytes).
  exists data. split; [exact Hrun|]. split.
  - exact (Hbytes 1%nat Sample.INVALID_INDICE eq_refl).
  - destruct (Hbytes 2%nat 7 eq_refl) as (bytes & Hser & Hel).
    inversion Hser; subst bytes. exact Hel.
Defined.

(* ================================================================== *)
(** * A beam read with ancillary fields stays inside its arrays        *)
(* ================================================================== *)

(** The beam of scenario 3 read with the three kinds of ancillary fields. *)
Abbreviation ancillary_run :=
  (sample_subsettingThread sample_reader sample_info ancillary_parms
     [0%float] [0%float] [3] (fun _ => ancillary_atl03) ancillary_atl08 5%nat).

(** The worker posts one container: the extent of the three photons, then
    a record of the photon field, at the photons 0, 1 and 2, a record of
    the segment field, at segment 0 for each photon, and a record of the
    ATL08 field, at land segment 0 for the photons that are matched and
    filled with [0xFF] for the one that is not. *)
Example ancillary_run_posts :
  ending ancillary_run = Ok tt /\
  exists extent ancillary,
    records ancillary_run = [post_container extent ancillary] /\
    map extent_t.photon_count (posted ancillary_run) = [3] /\
    map (fun r => (anc_type r, anc_field_index r, anc_num_elements r, anc_data r))
      ancillary
    = [(PHOTON_ANC_TYPE, 0, 3, [Some 0; Some 1; Some 2]);
       (EXTENT_ANC_TYPE, 0, 3, [Some 0; Some 0; Some 0]);
       (ATL08_ANC_TYPE, 0, 3, [Some 0; Some 255; Some 0])].
Proof.
  split; [vm_compute; reflexivity|].
  eexists. eexists. split; [vm_compute; reflexivity|].
  split; vm_compute; reflexivity.
Qed.

(** With the ATL08 stage off, [classify] allocates no [anc_seg_indices],
    and the worker reads through the NULL pointer at the first photon it
    accepts. *)
Example ancillary_fields_without_join :
  sample_subsettingThread sample_reader sample_info unjoined_parms
    [0%float] [0%float] [3] (fun _ => ancillary_atl03) ancillary_atl08 5%nat
  = {| records := []; ending := Fault |}.
Proof. vm_compute. reflexivity. Qed.

(** The segment id of an extent of the beam of scenario 3 is defined at each
    of its three photons. *)
Lemma ancillary_conversions_defined :
  conversions_defined ancillary_parms ancillary_atl03.
Proof.
  split; [discriminate|].
  intros st p along Hes Hget Hportion.
  pose proof (get_Some _ _ _ Hget) as Hp.
  change (H5Array.size (Atl03Data.dist_ph_along ancillary_atl03)) with 3 in Hp.
  change (H5Array.size (Atl03Data.segment_dist_x ancillary_atl03)) with 1 in Hes.
  assert (Hzero : TrackState.extent_segment st = 0) by lia.
  unfold no_fault, calculateSegmentId. rewrite Hzero, Hportion.
  assert (Hcases : p = 0 \/ p = 1 \/ p = 2) by lia.
  destruct Hcases as [E | [E | E]]; subst p; vm_compute in Hget; inversion Hget; subst along;
    vm_compute; discriminate.
Qed.

Lemma byte_array_serializes (n index : Z) :
  0 <= index < n -> serializes (byte_array n) index.
Proof.
  intros H. unfold serializes, byte_array. cbn.
  destruct (Z.leb_spec 0 index); [|lia]. destruct (Z.ltb_spec index n); [|lia].
  cbn. split; [discriminate|]. intros bytes E. inversion E. reflexivity.
Qed.

(** The ancillary fields of the beam can be read where the worker reads
    them: the ATL08 field at land segment 0, the index [classify] left for
    the first and the last photon. *)
Lemma ancillary_fields_readable :
  fields_readable Sample.INVALID_INDICE ancillary_parms ancillary_atl03
    ancillary_joined.
Proof.
  split; [|split].
  - intros fields dict field _ Hd _. inversion Hd; subst dict.
    split; [discriminate|]. intros array Ha. inversion Ha; subst array.
    split; [cbn; lia|]. intros index Hv _. now apply byte_array_serializes.
  - intros fields dict field _ Hd _. inversion Hd; subst dict.
    split; [discriminate|]. intros array Ha. inversion Ha; subst array.
    split; [cbn; lia|]. intros index Hv _. now apply byte_array_serializes.
  - intros anc_seg_indices Hanc fields dict field _ Hd _.
    inversion Hanc; subst anc_seg_indices. inversion Hd; subst dict.
    split; [discriminate|]. intros array Ha. inversion Ha; subst array.
    split; [cbn; lia|]. intros index (p & Hp & Hload) Hne.
    apply byte_array_serializes.
    change (H5Array.size (Atl03Data.dist_ph_along ancillary_atl03)) with 3 in Hp.
    assert (Hcases : p = 0 \/ p = 1 \/ p = 2) by lia.
    destruct Hcases as [E | [E | E]]; subst p; cbn in Hload; inversion Hload; subst index;
      [lia|now contradiction Hne|lia].
Qed.

(** The worker of the beam read with ancillary fields, active for five
    passes. *)
Lemma thread_in_bounds_witness :
  fields_readable Sample.INVALID_INDICE ancillary_parms ancillary_atl03
    ancillary_joined /\
  no_fault (ending ancillary_run).
Proof.
  split; [exact ancillary_fields_readable|].
  eapply (at_sample_thread thread_in_bounds sample_reader sample_info ancillary_parms
            [0%float] [0%float] [3] (fun _ => ancillary_atl03) ancillary_atl08 5%nat
            NoSubsetting).
  - vm_compute. discriminate.
  - vm_compute. reflexivity.
  - vm_compute. discriminate.
  - vm_compute. discriminate.
  - repeat split; vm_compute; discriminate.
  - split; [reflexivity|]. split; [discriminate|].
    split; [intros _; split; reflexivity|]. split; [|discriminate].
    intros _. vm_compute. reflexivity.
  - intros atl08' Hc.
    match type of Hc with
    | ?run = _ => assert (Hrun : run = Ok ancillary_joined) by (vm_compute; reflexivity)
    end.
    rewrite Hrun in Hc. inversion Hc; subst atl08'.
    exact ancillary_fields_readable.
  - exact ancillary_conversions_defined.
Defined.

(** A beam of one segment and no photon, read with no spatial filter. *)
Lemma empty_beam_out_of_bounds_witness :
  sample_subsettingThread sample_reader sample_info plain_parms
    [0%float] [0%float] [0]
    (fun _ => track_data [100] [10%float] [] [] [] []) no_atl08 5%nat
  = {| records := []; ending := Fault |}.
Proof.
  eapply (at_sample_thread empty_beam_out_of_bounds sample_reader sample_info
            plain_parms [0%float] [0%float] [0]
            (fun _ => track_data [100] [10%float] [] [] [] []) no_atl08 5%nat).
  - vm_compute. reflexivity.
  - vm_compute. reflexivity.
  - vm_compute. reflexivity.
  - right. split; [reflexivity|lia].
Defined.

